(* ===== verification/_CoqProject ===== *)
-Q . S2P
Prelude.v
GoStrings.v
Sidecar.v
KubeTypes.v
Containers.v
KubeApi.v
LogStream.v
SerializedStream.v
ExecutePod.v
ExecutePodFacts.v
Base64.v
Uuid.v
CryptoSecret.v
GoPath.v
Url.v
PodSpec.v
PodSpecFacts.v
OsModel.v
FileTransfer.v
FileTransferFacts.v
TarFormat.v
Json.v
Float64.v
JsonMap.v
JsonRoundTrip.v
Metadata.v
Server.v
ServerFacts.v
Fs.v
CopyFacts.v
CopyOther.v
Tar.v
TarFacts.v
TarRoundTrip.v
Command.v
CommandFacts.v
ReleaseFacts.v
ExternalFacts.v
BuildFacts.v
RunFacts.v
PodHandler.v
Tls.v
Main.v
MainFacts.v
System.v
SystemFacts.v
SystemRun.v
SystemConcurrent.v
