(* ===== verification/Prelude.v ===== *)
(** * External chaincode builder and launcher for Kubernetes: a verification development

    ** The program

    A Fabric peer hands chaincode packages to the commands of pkg/command, which
    one binary runs under four names (cmd/ibp-builder-client). They write the
    package as tar archives into a directory shared with a side car
    (cmd/ibp-builder) and call its gRPC services. The side car
    (pkg/k8sbuilder/server.go) describes a pod per call, creates it, copies the
    logs of its containers to the response stream, and returns when the pod
    ends. The pods fetch their input from, and upload their output to, a file
    server on the shared directory (pkg/filetransfer). The certificate and key
    of the chaincode reach a run pod through a secret that is made for the run.

    ** The files, and what they model

    Prelude (this file): errors, the result monad [M] with state (a value, an
    error, a panic, or [Blocked] for a call that has not returned), deferred
    calls, lenses between the worlds of the components, and the [keeps], [ends]
    automation for what a computation may change and whether it returns.
    GoStrings, GoPath, Base64, Url, Json, Float64, JsonMap: the functions of
    Go's library the program calls, as executable definitions; JsonRoundTrip:
    that json.Unmarshal reads what json.Marshal wrote. OsModel: files
    and directories with modes and times, the process environment, and a
    schedule of failing system calls. TarFormat: archive/tar as a class, with
    what the program relies on as its laws, and an instance that satisfies them.
    KubeTypes, KubeApi: Kubernetes objects; client-go as a class of operations
    that may fail, with the documented behaviour of secrets as the class
    SecretStore, the count of open log streams as the class LogAccount, and
    instances of both.

    - LogStream, SerializedStream: streamLogs with bufio.Scanner, over a stream
      whose Reads return when and with what they may; the mutex around the
      response stream.
    - ExecutePod, ExecutePodFacts: executePod as a machine that interleaves
      with its goroutines; [exec_run] runs it along a schedule of inputs, turns
      and Reads of the log streams.
    - Uuid, Url (urlJoin), CryptoSecret, Containers, PodSpec, PodSpecFacts: the
      secret and the pods of a build and of a run.
    - Metadata: containsDotDot and the files the side car reads.
    - Server, ServerFacts: Build and Run, over all of these.
    - FileTransfer, FileTransferFacts: ServeHTTP.
    - Fs, CopyFacts, Tar, TarFacts, TarRoundTrip: pkg/fs; CopyOther: copy.go, the
      twin of copy_linux.go for other systems.
    - Sidecar, Command, CommandFacts, ReleaseFacts, ExternalFacts, BuildFacts,
      RunFacts: the messages; pkg/command and the client's main.
    - PodHandler, Tls, Main, MainFacts: pkg/pod, pkg/tls, and the builder's main.
    - System, SystemFacts, SystemRun: the two servers main starts, put between
      the peer's commands and the pods, for a whole build and a whole run.
    - SystemConcurrent: the same servers with several calls, whose methods and
      whose pods' requests take turns in any order.

    A definition has the name of the function it models; a method of the same
    name as another carries its type (Build_Run is Build.Run of pkg/command).
    A function that can fail, panic or change a state is a computation in [M];
    its error values print as the code's do. Operations of the cluster and of
    the disk are made one by one and each may fail.

    ** What the theorems show

    - Executing a pod: the result is decided by the first deciding input,
      whatever the interleaving (executePod_first_verdict); logs are streamed
      once per container, in order, and, up to the first line of 64 KiB,
      completely before a verdict of the pod is returned
      (executePod_streams_once, _logs_in_order, _logs_complete); what was
      acquired is released once, last first, on every path
      (executePod_cleans_up, executePod_releases); a call that is cancelled does
      not wait for its goroutines, which may log after it (executePod_late_log).
      Between inputs the call cannot run forever; it waits only for an input
      or, when the pod has ended, for a log stream (executePod_terminates), and
      then it does not receive a cancellation (executePod_wait_deaf). The mutex makes
      Log atomic and every message is delivered (send_serialized,
      send_delivers).
    - Build and Run: when Build succeeds, how it refuses, and that Run leaves
      no secret without an owner unless its removal fails (Build_success,
      Build_refuses, Run_secret_settled). Metadata are read only below the shared directory
      and leave it alone (containsDotDot_confines,
      extractChaincodeMetadata_spec, readRunMetadata_spec).
    - Pods: what Kubernetes requires of them, their labels, URLs and names
      (buildPodDefinition_ok, runPodDefinition_ok, chaincode_label_ok,
      urlJoin_shell_safe, urlJoin_read_back, UUID_format).
    - File server: what it may change, when it answers which status, and that a
      download gives back an upload (ServeHTTP_*, upload_download).
    - Files and archives: what copying and extracting may change, that they
      return, that a copy and an archive hold exactly the tree, and that
      extracting it into an empty directory gives the tree back (CopyFile_copies,
      CopyDir_*, CreateTar_*, ExtractTar_confined, tar_round_trip); copy.go and
      copy_linux.go do the same (copies_agree).
    - Commands: a request names what was prepared, the side car reads the
      metadata the peer gave, the removal of the temporary directory ends every
      call, and connection.json becomes what it asks for (request_reaches,
      package_metadata, commands_clean_up, injectPeerIdentifier_rewrites); Detect
      accepts what the side car can build and run, and Release unpacks what
      Build packed (Detect_agrees, Release_unpacks). A whole build hands the
      package to the side car and the result to the peer (Build_delivers, for any
      side car that builds, BuildFacts.builds), a run hands the result back to it
      (run_gets_build), and an external chaincode gets its connection.json,
      metadata and index files without the side car (external_delivers).
    - The builder's main: its two servers agree (main_consistent), and
      completed pods are deleted (completed_pods_deleted).
    - The whole system: the side car main starts is one that builds and runs
      (connect_builds, connect_runs), so the output a build gives the peer is
      what the build container makes of the package's source, and that is what
      the pod of a run downloads (build_end_to_end, chaincode_reaches_pod, for
      any report of what the side car is called on); a
      package that cannot be built ends the peer's process with the side car's reason
      and without a trace (build_refused_end_to_end). Builds of different
      packages do not disturb one another, nor do runs beside them: in any order
      of turns each build gives what it gives alone (concurrent_builds). What the
      containers of a pod ask of the file server is a parameter, with the
      documented behaviour of curl, the shell and the cluster as the hypotheses
      runs_builds and runs_chaincode.

    ** Bounds and fuel

    CopyDir, Walk and CreateTar go down to a given depth and are [Blocked] on a
    deeper tree; a depth above the height of the tree is enough (CopyDir_returns,
    CreateTar_returns); a whole build copies and packs trees of its own making,
    and has a small multiple of the height it starts from. The scanner has fuel for one token per byte
    (scan_fuel_enough), the JSON parser one unit per byte (parse_enough_fuel).
    rand.Int draws again when a number is too large; its fuel bounds the draws,
    and a run that needs more is [Blocked]. shortest, ten_above and trim_zeros
    of Float64 are bounded by the digits of a double. A schedule of executePod
    that ends before the call returns leaves it [Blocked]; executePod_terminates
    says when it can be continued. A log that is followed may give nothing, or
    more and more, for any length of schedule. Where a property has a hypothesis of no
    failing call it is named no_fault.

    ** Not modelled

    Generated code (pkg/sidecar apart from its messages, the fakes and mocks);
    what Go's and third-party libraries do beyond what is listed above: gRPC
    and HTTP connections, TLS, signatures (the class Crypto), the bytes of the
    tar format; log output (zap) and SetupLogging; several calls at one time beyond
    SystemConcurrent, where the effect of a method and of a request on the
    volume is one step; the content type http.ServeFile guesses, ranges and conditional requests;
    symbolic links, which the commands' directories do not hold (CreateTar
    refuses them; other special files stand for them); the time of a directory
    that changes when an entry is made in it, so that nothing is said on when the
    times of directories are set; the order of the Reads of an archive and of
    what is done with its entries (it is read as a whole first), and os.RemoveAll
    in more than one step; a Read that gives nothing, and one that gives the last
    bytes of a log together with its end, which is taken as two (they differ for
    a last line of just 64 KiB without a newline); permission checks, other than as
    failures of a system call; concurrent changes of the file system by
    other processes during a call of a command; whether numbers and nested
    objects of connection.json are read back as written; addKnownTypes and
    pkg/util, which nothing uses; the tests.
*)
From stdpp Require Export base tactics option list gmap strings pretty sorting fin_maps relations well_founded.
From Stdlib Require Export ZArith Lia.

#[export] Set Default Goal Selector "!".

Declare Scope go_scope.
Delimit Scope go_scope with go.

(** ** Errors *)

(** The kernel errors the file operations of the program distinguish. *)
Inductive errno :=
  | ENOENT | EEXIST | EACCES | ENOTDIR | EISDIR | EINVAL | EIO | ENOSPC.

#[export] Instance errno_eq_dec : EqDecision errno.
Proof. solve_decision. Defined.

Definition errno_text (e : errno) : string :=
  match e with
  | ENOENT => "no such file or directory"
  | EEXIST => "file exists"
  | EACCES => "permission denied"
  | ENOTDIR => "not a directory"
  | EISDIR => "is a directory"
  | EINVAL => "invalid argument"
  | EIO => "input/output error"
  | ENOSPC => "no space left on device"
  end.

(** The gRPC status codes the server returns. *)
Inductive grpc_code := InvalidArgument | Unknown.

#[export] Instance grpc_code_eq_dec : EqDecision grpc_code.
Proof. solve_decision. Defined.

Definition grpc_code_text (c : grpc_code) : string :=
  match c with InvalidArgument => "InvalidArgument" | Unknown => "Unknown" end.

(** Go's [error] values: a path error of package os, an error with only a
    text (errors.New, fmt.Errorf with %s, errors.Wrap), a gRPC status. *)
Inductive go_error :=
  | PathError (op path : string) (e : errno)
  | ErrorString (text : string)
  | StatusError (code : grpc_code) (text : string).

#[export] Instance go_error_eq_dec : EqDecision go_error.
Proof. solve_decision. Defined.

(** The method Error of an error value. *)
Definition Error (e : go_error) : string :=
  match e with
  | PathError op path en => op +:+ " " +:+ path +:+ ": " +:+ errno_text en
  | ErrorString s => s
  | StatusError c s =>
      "rpc error: code = " +:+ grpc_code_text c +:+ " desc = " +:+ s
  end.

(** fmt.Errorf with a literal prefix and one final %s for an error: the
    result keeps the text and forgets the identity of the error. *)
Definition Errorf (prefix : string) (e : go_error) : go_error :=
  ErrorString (prefix +:+ Error e).

(** os.IsNotExist, os.IsExist and os.IsPermission look at a bare path error only. *)
Definition IsNotExist (e : go_error) : bool :=
  match e with PathError _ _ ENOENT => true | _ => false end.
Definition IsExist (e : go_error) : bool :=
  match e with PathError _ _ EEXIST => true | _ => false end.
Definition IsPermission (e : go_error) : bool :=
  match e with PathError _ _ EACCES => true | _ => false end.

(** ** The state and error monad of the Go functions *)

(** How a call ends: a value with a nil error, an error, a panic, or not yet
    (the environment's schedule stops while the call waits). *)
Inductive outcome (A : Type) :=
  | Ok (a : A)
  | Err (e : go_error)
  | Panic (msg : string)
  | Blocked.
Arguments Ok {A} a.
Arguments Err {A} e.
Arguments Panic {A} msg.
Arguments Blocked {A}.

#[export] Instance outcome_eq_dec `{EqDecision A} : EqDecision (outcome A).
Proof. solve_decision. Defined.

Definition M (S A : Type) : Type := S → outcome A * S.

#[export] Instance M_ret S : MRet (M S) := λ A a s, (Ok a, s).
#[export] Instance M_bind S : MBind (M S) := λ A B f m s,
  match m s with
  | (Ok a, s') => f a s'
  | (Err e, s') => (Err e, s')
  | (Panic p, s') => (Panic p, s')
  | (Blocked, s') => (Blocked, s')
  end.

Section monad.
Context {S : Type}.

(** [return err]. *)
Definition throw {A} (e : go_error) : M S A := λ s, (Err e, s).
Definition panic {A} (msg : string) : M S A := λ s, (Panic msg, s).
Definition get_state : M S S := λ s, (Ok s, s).
Definition modify (f : S → S) : M S unit := λ s, (Ok tt, f s).
Definition gets {A} (f : S → A) : M S A := λ s, (Ok (f s), s).

(** The result of a pure function that may fail. *)
Definition lift {A} (r : go_error + A) : M S A :=
  match r with inl e => throw e | inr a => mret a end.

(** [if err != nil { return wrap(err) }]. *)
Definition wrap_err {A} (f : go_error → go_error) (m : M S A) : M S A := λ s,
  match m s with
  | (Err e, s') => (Err (f e), s')
  | r => r
  end.

(** [v, err := m()] where the code goes on to look at err itself. *)
Definition attempt {A} (m : M S A) : M S (go_error + A) := λ s,
  match m s with
  | (Ok a, s') => (Ok (inr a), s')
  | (Err e, s') => (Ok (inl e), s')
  | (Panic p, s') => (Panic p, s')
  | (Blocked, s') => (Blocked, s')
  end.

(** [defer d()] with the result of d ignored; d runs on every return and
    on a panic, not when the call has not ended. *)
Definition deferring {A} (d : M S unit) (m : M S A) : M S A := λ s,
  match m s with
  | (Blocked, s') => (Blocked, s')
  | (r, s') =>
      match d s' with
      | (Panic p, s'') => (Panic p, s'')
      | (Blocked, s'') => (Blocked, s'')
      | (_, s'') => (r, s'')
      end
  end.

(** [defer func() { if e := d(); e != nil { err = e } }()] on a named result. *)
Definition deferring_err {A} (d : M S unit) (m : M S A) : M S A := λ s,
  match m s with
  | (Blocked, s') => (Blocked, s')
  | (r, s') =>
      match d s' with
      | (Ok _, s'') => (r, s'')
      | (Err e, s'') => (match r with Panic p => Panic p | _ => Err e end, s'')
      | (Panic p, s'') => (Panic p, s'')
      | (Blocked, s'') => (Blocked, s'')
      end
  end.
End monad.

(** A component's state inside a larger state. *)
Record lens (S T : Type) := Lens { view : S → T; put : T → S → S }.
Arguments Lens {S T} _ _.
Arguments view {S T} _ _.
Arguments put {S T} _ _ _.

Definition zoom {S T A} (l : lens S T) (m : M T A) : M S A := λ s,
  let '(r, t) := m (view l s) in (r, put l t s).

(** Laws of the monad, used to normalise programs. *)
Section monad_laws.
Context {S : Type}.

Lemma bind_ret_l {A B} (a : A) (f : A → M S B) s : (mret a ≫= f) s = f a s.
Proof. done. Qed.

Lemma bind_ok {A B} (m : M S A) (f : A → M S B) s a s' :
  m s = (Ok a, s') → (m ≫= f) s = f a s'.
Proof. intros E. unfold mbind, M_bind. by rewrite E. Qed.

Lemma bind_err {A B} (m : M S A) (f : A → M S B) s e s' :
  m s = (Err e, s') → (m ≫= f) s = (Err e, s').
Proof. intros E. unfold mbind, M_bind. by rewrite E. Qed.

Lemma attempt_ok {A B} (m : M S A) (f : go_error + A → M S B) s a s' :
  m s = (Ok a, s') → (attempt m ≫= f) s = f (inr a) s'.
Proof. intros E. unfold mbind, M_bind, attempt. by rewrite E. Qed.

Lemma attempt_err {A B} (m : M S A) (f : go_error + A → M S B) s e s' :
  m s = (Err e, s') → (attempt m ≫= f) s = f (inl e) s'.
Proof. intros E. unfold mbind, M_bind, attempt. by rewrite E. Qed.

Lemma zoom_eq {T A} (l : lens S T) (m : M T A) s r t :
  m (view l s) = (r, t) → zoom l m s = (r, put l t s).
Proof. intros E. unfold zoom. by rewrite E. Qed.

Lemma deferring_eq {A} (d : M S unit) (m : M S A) s r s' :
  m s = (r, s') → r ≠ Blocked → (∃ r', (d s').1 = r' ∧ (∀ p, r' ≠ Panic p) ∧ r' ≠ Blocked) →
  deferring d m s = (r, (d s').2).
Proof.
  intros E Hr (r' & Hd & Hp & Hb). unfold deferring. rewrite E.
  destruct (d s') as [r1 s1]. simpl in *. subst r1.
  destruct r; try done; destruct r'; try done; exfalso; by eapply Hp.
Qed.

(** Inversion of a sequence that succeeds. *)
Lemma bind_inv_ok {A B} (m : M S A) (f : A → M S B) s b s' :
  (m ≫= f) s = (Ok b, s') →
  ∃ a s1, m s = (Ok a, s1) ∧ f a s1 = (Ok b, s').
Proof.
  unfold mbind, M_bind. destruct (m s) as [[a|e|p|] s1]; intros; simplify_eq.
  eauto.
Qed.
End monad_laws.

(** ** Relations a program keeps

    [keeps R m]: whatever its result, m leads from a state to one related by
    R. The rules are syntax directed and live in the hint database [keeps]. *)
Definition keeps {S A} (R : relation S) (m : M S A) : Prop := ∀ s, R s (m s).2.

Create HintDb keeps.

Section keeps.
Context {S : Type} (R : relation S) `{!PreOrder R}.

Lemma keeps_ret {A} (a : A) : keeps R (mret a : M S A).
Proof. intros s. simpl. reflexivity. Qed.

Lemma keeps_lift {A} (r : go_error + A) : keeps R (lift r : M S A).
Proof. destruct r; intros s; simpl; reflexivity. Qed.

Lemma keeps_throw {A} e : keeps R (throw e : M S A).
Proof. intros s. simpl. reflexivity. Qed.

Lemma keeps_gets {A} (f : S → A) : keeps R (gets f).
Proof. intros s. simpl. reflexivity. Qed.

Lemma keeps_get_state {A} (f : S → M S A) : (∀ s, keeps R (f s)) → keeps R (get_state ≫= f).
Proof. intros Hf s. apply Hf. Qed.

Lemma keeps_modify (f : S → S) : (∀ s, R s (f s)) → keeps R (modify f).
Proof. intros H s. apply H. Qed.

Lemma keeps_bind {A B} (m : M S A) (f : A → M S B) :
  keeps R m → (∀ a, keeps R (f a)) → keeps R (m ≫= f).
Proof.
  intros Hm Hf s. unfold mbind, M_bind. specialize (Hm s).
  destruct (m s) as [[a|e|p|] s1]; simpl in *; [|done..].
  etrans; [done|apply Hf].
Qed.

Lemma keeps_attempt {A} (m : M S A) : keeps R m → keeps R (attempt m).
Proof. intros Hm s. unfold attempt. specialize (Hm s). by destruct (m s) as [[] ?]. Qed.

Lemma keeps_wrap_err {A} f (m : M S A) : keeps R m → keeps R (wrap_err f m).
Proof. intros Hm s. unfold wrap_err. specialize (Hm s). by destruct (m s) as [[] ?]. Qed.

Lemma keeps_deferring {A} d (m : M S A) : keeps R d → keeps R m → keeps R (deferring d m).
Proof.
  intros Hd Hm s. unfold deferring. specialize (Hm s).
  destruct (m s) as [r s1]. simpl in Hm. specialize (Hd s1).
  destruct (d s1) as [r' s2]. simpl in Hd.
  destruct r, r'; simpl; (done || by etrans).
Qed.

Lemma keeps_deferring_err {A} d (m : M S A) :
  keeps R d → keeps R m → keeps R (deferring_err d m).
Proof.
  intros Hd Hm s. unfold deferring_err. specialize (Hm s).
  destruct (m s) as [r s1]. simpl in Hm. specialize (Hd s1).
  destruct (d s1) as [r' s2]. simpl in Hd.
  destruct r, r'; simpl; (done || by etrans).
Qed.
End keeps.

Lemma keeps_zoom {S T A} (R : relation S) (Q : relation T) (l : lens S T) (m : M T A) :
  (∀ s t, Q (view l s) t → R s (put l t s)) → keeps Q m → keeps R (zoom l m).
Proof.
  intros HR Hm s. unfold zoom. specialize (Hm (view l s)).
  destruct (m (view l s)) as [r t]. simpl in *. by apply HR.
Qed.

(** Goes through a program; what the rules do not know is looked up in the
    hint database. *)
Ltac keeps_with tac :=
  repeat match goal with
  | |- PreOrder _ => apply _
  | |- keeps _ (get_state ≫= _) => apply keeps_get_state; intro
  | |- keeps _ (_ ≫= _) => apply keeps_bind; [try apply _..|intro]
  | |- keeps _ (mret _) => apply keeps_ret; try apply _
  | |- keeps _ (throw _) => apply keeps_throw; try apply _
  | |- keeps _ (lift _) => apply keeps_lift; try apply _
  | |- keeps _ (gets _) => apply keeps_gets; try apply _
  | |- keeps _ (attempt _) => apply keeps_attempt
  | |- keeps _ (wrap_err _ _) => apply keeps_wrap_err
  | |- keeps _ (deferring _ _) => apply keeps_deferring; [try apply _..|]
  | |- keeps _ (deferring_err _ _) => apply keeps_deferring_err; [try apply _..|]
  | |- keeps _ (match ?x with _ => _ end) => destruct x
  | |- keeps _ (match ?x with _ => _ end _) => destruct x
  | |- keeps _ _ => tac
  end.

Ltac keeps_tac := keeps_with ltac:(solve [eauto with keeps typeclass_instances]).

(** ** Programs that return

    [ends I m]: from a state in which I holds, m returns or panics, and I
    holds again. The rules are syntax directed, like those of [keeps]. *)
Definition ends {S A} (I : S → Prop) (m : M S A) : Prop :=
  ∀ s, I s → (m s).1 ≠ Blocked ∧ I (m s).2.

Create HintDb ends.

Section ends.
Context {S : Type} (I : S → Prop).

Lemma ends_ret {A} (a : A) : ends I (mret a : M S A).
Proof. by intros s. Qed.

Lemma ends_throw {A} e : ends I (throw e : M S A).
Proof. by intros s. Qed.

Lemma ends_lift {A} (r : go_error + A) : ends I (lift r : M S A).
Proof. intros s Hs. by destruct r. Qed.

Lemma ends_gets {A} (f : S → A) : ends I (gets f).
Proof. by intros s. Qed.

Lemma ends_modify (f : S → S) : (∀ s, I s → I (f s)) → ends I (modify f).
Proof. intros Hf s Hs. split; [done|by apply Hf]. Qed.

Lemma ends_bind {A B} (m : M S A) (f : A → M S B) :
  ends I m → (∀ a, ends I (f a)) → ends I (m ≫= f).
Proof.
  intros Hm Hf s Hs. unfold mbind, M_bind. specialize (Hm s Hs).
  destruct (m s) as [[a|e|p|] s1]; simpl in *; destruct Hm; [by apply Hf|done..].
Qed.

Lemma ends_attempt {A} (m : M S A) : ends I m → ends I (attempt m).
Proof.
  intros Hm s Hs. unfold attempt. specialize (Hm s Hs). destruct (m s) as [r s1].
  destruct Hm as [Hb HI]. by destruct r.
Qed.

Lemma ends_wrap_err {A} f (m : M S A) : ends I m → ends I (wrap_err f m).
Proof.
  intros Hm s Hs. unfold wrap_err. specialize (Hm s Hs). destruct (m s) as [r s1].
  destruct Hm as [Hb HI]. by destruct r.
Qed.

Lemma ends_deferring {A} d (m : M S A) : ends I d → ends I m → ends I (deferring d m).
Proof.
  intros Hd Hm s Hs. unfold deferring. specialize (Hm s Hs).
  destruct (m s) as [r s1]. destruct Hm as [Hm Hs1]. simpl in Hm, Hs1. specialize (Hd s1 Hs1).
  destruct (d s1) as [r' s2]. destruct Hd as [Hd Hs2]. simpl in Hd, Hs2.
  by destruct r, r'.
Qed.
End ends.

(** A call that changes nothing I speaks of. *)
Lemma ends_keeps {S A} (I : S → Prop) (R : relation S) (m : M S A) :
  (∀ s, (m s).1 ≠ Blocked) → keeps R m → (∀ s s', R s s' → I s → I s') → ends I m.
Proof. intros Hb Hm HI s Hs. split; [apply Hb|]. by eapply HI, Hs. Qed.

Lemma ends_zoom {S T A} (I : S → Prop) (J : T → Prop) (l : lens S T) (m : M T A) :
  (∀ s, I s → J (view l s)) → (∀ s t, I s → J t → I (put l t s)) → ends J m → ends I (zoom l m).
Proof.
  intros H1 H2 Hm s Hs. unfold zoom. specialize (Hm (view l s) (H1 s Hs)).
  destruct (m (view l s)) as [r t]. destruct Hm. split; [done|]. by apply H2.
Qed.

Ltac ends_tac :=
  repeat match goal with
  | |- ends _ (_ ≫= _) => apply ends_bind; [|intro]
  | |- ends _ (mret _) => apply ends_ret
  | |- ends _ (throw _) => apply ends_throw
  | |- ends _ (lift _) => apply ends_lift
  | |- ends _ (gets _) => apply ends_gets
  | |- ends _ (attempt _) => apply ends_attempt
  | |- ends _ (wrap_err _ _) => apply ends_wrap_err
  | |- ends _ (deferring _ _) => apply ends_deferring
  | |- ends _ (match ?x with _ => _ end) => destruct x
  | |- ends _ (match ?x with _ => _ end _) => destruct x
  | |- ends _ _ => solve [eauto with ends]
  end.

(** ** Invariants of transition systems *)

Lemma rtc_invariant {A} (R : relation A) (P : A → Prop) x y :
  P x → (∀ y z, rtc R x y → P y → R y z → P z) → rtc R x y → P y.
Proof.
  intros Hx Hstep Hxy. revert y Hxy. by apply rtc_ind_r; eauto.
Qed.
