(* ===== verification/GoStrings.v ===== *)
(** * Strings

    The functions of Go's packages strings, fmt and unicode/utf8 the program
    calls, on byte strings (a Go string is a sequence of bytes): Contains,
    Split and Join on a one-byte separator, ToLower, Replace, TrimSuffix,
    FieldsFunc on a one-byte predicate, HasSuffix, slicing, and the %x verb. *)
From S2P Require Import Prelude.
From Stdlib Require Export Ascii.
#[global] Arguments String.append !s1 s2 : simpl nomatch, rename.

Abbreviation slen := String.length.

(** ** String lemmas *)

Lemma sapp_nil_r s : s +:+ "" = s.
Proof. induction s as [|a s IH]; simpl; [done|by rewrite IH]. Qed.

Lemma sapp_assoc s t u : s +:+ (t +:+ u) = (s +:+ t) +:+ u.
Proof. induction s as [|a s IH]; simpl; [done|by rewrite IH]. Qed.

Lemma slen_app s t : slen (s +:+ t) = slen s + slen t.
Proof. induction s as [|a s IH]; simpl; [done|by rewrite IH]. Qed.

#[export] Instance sapp_inj s : Inj (=) (=) (String.append s).
Proof. intros t u. induction s as [|a s IH]; simpl; [done|]. intros [= ?]; auto. Qed.

Lemma sapp_inj_r s t u : s +:+ u = t +:+ u → s = t.
Proof.
  revert t. induction s as [|a s IH]; intros [|b t]; simpl; intros E; [done| | |].
  - apply (f_equal slen) in E. simpl in E. rewrite slen_app in E. lia.
  - apply (f_equal slen) in E. simpl in E. rewrite slen_app in E. lia.
  - injection E as -> E. by rewrite (IH t).
Qed.

(** ** Bytes of a string *)

(** The byte c occurs in s. *)
Fixpoint has_byte (c : ascii) (s : string) : bool :=
  match s with
  | EmptyString => false
  | String a s' => bool_decide (a = c) || has_byte c s'
  end.

Lemma has_byte_app c s t : has_byte c (s +:+ t) = has_byte c s || has_byte c t.
Proof. induction s as [|a s IH]; simpl; [done|]. by rewrite IH, orb_assoc. Qed.

Fixpoint string_map (f : ascii → ascii) (s : string) : string :=
  match s with
  | EmptyString => EmptyString
  | String a s' => String (f a) (string_map f s')
  end.

Lemma slen_string_map f s : slen (string_map f s) = slen s.
Proof. induction s as [|a s IH]; simpl; [done|by rewrite IH]. Qed.

(** ** strings.HasPrefix, HasSuffix, Contains *)

Fixpoint HasPrefix (s prefix : string) : bool :=
  match prefix, s with
  | EmptyString, _ => true
  | String p prefix', String a s' => bool_decide (a = p) && HasPrefix s' prefix'
  | String _ _, EmptyString => false
  end.

Fixpoint Contains (s substr : string) : bool :=
  HasPrefix s substr ||
  match s with EmptyString => false | String _ s' => Contains s' substr end.

Lemma HasPrefix_spec s p : HasPrefix s p = true ↔ ∃ t, s = p +:+ t.
Proof.
  revert s. induction p as [|a p IH]; intros s.
  - destruct s; simpl; split; eauto.
  - destruct s as [|b s]; simpl.
    + split; [done|]. intros [t Ht]; done.
    + rewrite andb_true_iff, bool_decide_eq_true, IH. split.
      * intros [-> [t ->]]. eauto.
      * intros [t [= -> ->]]. eauto.
Qed.

Lemma Contains_spec s p : Contains s p = true ↔ ∃ t u, s = t +:+ p +:+ u.
Proof.
  induction s as [|a s IH].
  - cbn [Contains]. rewrite orb_false_r, HasPrefix_spec. split.
    + intros [t Ht]. exists "", t. done.
    + intros (t & u & E). destruct t; simpl in E; [eauto|done].
  - cbn [Contains]. rewrite orb_true_iff, HasPrefix_spec, IH. split.
    + intros [[t Ht]|(t & u & ->)]; [by exists "", t|by exists (String a t), u].
    + intros ([|b t] & u & E); simpl in E; [eauto|].
      injection E as -> ->. eauto.
Qed.

(** ** strings.Split and strings.Join, for a separator of one byte *)

Fixpoint Split (c : ascii) (s : string) : list string :=
  match s with
  | EmptyString => [""]
  | String a s' =>
      if bool_decide (a = c) then "" :: Split c s'
      else match Split c s' with
           | x :: xs => String a x :: xs
           | [] => [String a ""]
           end
  end.

Fixpoint Join (l : list string) (sep : string) : string :=
  match l with
  | [] => ""
  | [x] => x
  | x :: xs => x +:+ sep +:+ Join xs sep
  end.

Lemma Split_not_nil c s : Split c s ≠ [].
Proof. destruct s as [|a s]; simpl; [done|]. case_bool_decide; [done|]. by case_match. Qed.

Lemma Join_cons x l sep : l ≠ [] → Join (x :: l) sep = x +:+ sep +:+ Join l sep.
Proof. by destruct l. Qed.

Lemma Split_cons_ne c a s x xs :
  a ≠ c → Split c s = x :: xs → Split c (String a s) = String a x :: xs.
Proof. intros Hne E. simpl. rewrite bool_decide_eq_false_2 by done. by rewrite E. Qed.

Lemma Join_Split c s : Join (Split c s) (String c "") = s.
Proof.
  induction s as [|a s IH]; [done|]. simpl. case_bool_decide as Ha.
  - rewrite Join_cons by apply Split_not_nil. rewrite IH. by subst.
  - destruct (Split c s) as [|x [|y xs]] eqn:E.
    + by destruct (Split_not_nil c s).
    + simpl in *. by rewrite IH.
    + rewrite Join_cons in IH |- * by done. by rewrite <- IH.
Qed.

Lemma Split_no_sep c s : Forall (λ x, has_byte c x = false) (Split c s).
Proof.
  induction s as [|a s IH]; simpl; [by repeat constructor|].
  case_bool_decide as Ha; [by constructor|].
  destruct (Split c s) as [|x xs]; simpl in *.
  - constructor; [|done]. simpl. by rewrite bool_decide_eq_false_2.
  - inversion IH; subst. constructor; [|done].
    simpl. by rewrite bool_decide_eq_false_2.
Qed.

Lemma Split_id c s : has_byte c s = false → Split c s = [s].
Proof.
  induction s as [|a s IH]; simpl; [done|].
  intros [Ha Hs]%orb_false_iff. rewrite Ha, (IH Hs). done.
Qed.

Lemma Split_app c s t :
  has_byte c s = false → Split c (s +:+ String c t) = s :: Split c t.
Proof.
  induction s as [|a s IH]; cbn [String.append Split has_byte].
  - intros _. by rewrite bool_decide_eq_true_2.
  - intros [Ha Hs]%orb_false_iff. rewrite Ha, (IH Hs). done.
Qed.

Lemma Split_Join c l :
  l ≠ [] → Forall (λ x, has_byte c x = false) l → Split c (Join l (String c "")) = l.
Proof.
  intros Hl. induction l as [|x [|y l] IH]; [done| |]; intros HF.
  - inversion HF; subst. by apply Split_id.
  - inversion HF; subst. rewrite Join_cons by done.
    change (String c "" +:+ ?t) with (String c t).
    rewrite Split_app by done. by rewrite IH.
Qed.

Lemma Split_app_any c s t : Split c (s +:+ String c t) = Split c s ++ Split c t.
Proof.
  rewrite <- (Join_Split c s) at 1.
  pose proof (Split_no_sep c s) as Hns. pose proof (Split_not_nil c s) as Hnn.
  induction (Split c s) as [|x l IH]; [done|]. inversion Hns; subst.
  destruct l as [|y l].
  - simpl. by rewrite Split_app.
  - rewrite Join_cons by done. rewrite <- !sapp_assoc.
    change (String c "" +:+ ?t) with (String c t). rewrite Split_app by done.
    simpl app. f_equal. by apply IH.
Qed.

Lemma Split_length_1 c s x : Split c s = [x] → x = s ∧ has_byte c s = false.
Proof.
  intros E. pose proof (Join_Split c s) as J. rewrite E in J. simpl in J. subst.
  split; [done|]. pose proof (Split_no_sep c s) as F. rewrite E in F. by inversion F.
Qed.

Lemma Join_app l1 l2 sep :
  l1 ≠ [] → l2 ≠ [] → Join (l1 ++ l2) sep = Join l1 sep +:+ sep +:+ Join l2 sep.
Proof.
  intros H1 H2. induction l1 as [|x [|y l1] IH]; [done| |].
  - by destruct l2.
  - change ((x :: y :: l1) ++ l2)%list with (x :: ((y :: l1) ++ l2))%list.
    rewrite !Join_cons by done. rewrite IH by done. by rewrite !sapp_assoc.
Qed.
(** Every part is a piece of the text. *)
Lemma Split_substring c s x : x ∈ Split c s → ∃ t u, s = t +:+ x +:+ u.
Proof.
  intros (l1 & l2 & E)%list_elem_of_split. pose proof (Join_Split c s) as J.
  rewrite E in J. rewrite <- J.
  assert (∃ u, Join (x :: l2) (String c "") = x +:+ u) as [u Hu].
  { destruct l2; [exists ""; simpl; by rewrite sapp_nil_r|]. rewrite Join_cons by done. eauto. }
  destruct l1 as [|y l1]; [exists "", u; by rewrite app_nil_l, Hu|].
  rewrite Join_app, Hu by done. eexists (_ +:+ _), u. by rewrite <- sapp_assoc.
Qed.

(** ** strings.ToLower

    On ASCII letters. The other bytes are left alone: Go also lowers letters
    outside ASCII, which the program cannot observe, since it only compares
    the result with words over a, b, c, d, e, g, j, l, n, o, r, t, u, v, w, x
    and '.', and no rune outside ASCII lowers to one of these. *)
Definition lower_byte (a : ascii) : ascii :=
  let n := nat_of_ascii a in
  if (65 <=? n) && (n <=? 90) then ascii_of_nat (n + 32) else a.

Definition ToLower (s : string) : string := string_map lower_byte s.

Lemma lower_byte_idemp a : lower_byte (lower_byte a) = lower_byte a.
Proof. destruct a as [[] [] [] [] [] [] [] []]; reflexivity. Qed.

Lemma ToLower_idemp s : ToLower (ToLower s) = ToLower s.
Proof.
  unfold ToLower. induction s as [|a s IH]; simpl; [done|].
  by rewrite lower_byte_idemp, IH.
Qed.

(** ** strings.Replace(s, old, new, -1) for one-byte old and new, and
    strings.ReplaceAll(s, old, "") *)

Definition replace_byte (old new : ascii) (s : string) : string :=
  string_map (λ a, if bool_decide (a = old) then new else a) s.

Fixpoint remove_byte (old : ascii) (s : string) : string :=
  match s with
  | EmptyString => EmptyString
  | String a s' =>
      if bool_decide (a = old) then remove_byte old s' else String a (remove_byte old s')
  end.

Lemma replace_byte_no_old old new s :
  old ≠ new → has_byte old (replace_byte old new s) = false.
Proof.
  intros Hne. unfold replace_byte. induction s as [|a s IH]; simpl; [done|].
  rewrite IH, orb_false_r. apply bool_decide_eq_false. case_bool_decide; congruence.
Qed.

Lemma remove_byte_no_old old s : has_byte old (remove_byte old s) = false.
Proof.
  induction s as [|a s IH]; simpl; [done|]. case_bool_decide as Ha; [done|].
  simpl. by rewrite IH, bool_decide_eq_false_2.
Qed.

(** ** Slices *)

(** s[:n] for n within the bounds. *)
Fixpoint take_bytes (n : nat) (s : string) : string :=
  match n, s with
  | S n', String a s' => String a (take_bytes n' s')
  | _, _ => EmptyString
  end.

Fixpoint drop_bytes (n : nat) (s : string) : string :=
  match n, s with
  | S n', String _ s' => drop_bytes n' s'
  | _, _ => s
  end.

Lemma take_drop_bytes n s : take_bytes n s +:+ drop_bytes n s = s.
Proof. revert s. induction n; intros [|a s]; simpl; [done..|]. by rewrite IHn. Qed.

Lemma slen_take_bytes n s : slen (take_bytes n s) = n `min` slen s.
Proof. revert s. induction n; intros [|a s]; simpl; [done..|]. by rewrite IHn. Qed.

Lemma slen_drop_bytes n s : slen (drop_bytes n s) = slen s - n.
Proof. revert s. induction n; intros [|a s]; simpl; [done..|]. by rewrite IHn. Qed.

Lemma take_bytes_app s t : take_bytes (slen s) (s +:+ t) = s.
Proof. induction s as [|a s IH]; simpl; [by destruct t|by rewrite IH]. Qed.

Lemma take_bytes_has_byte c n s :
  has_byte c s = false → has_byte c (take_bytes n s) = false.
Proof.
  intros H. rewrite <- (take_drop_bytes n s), has_byte_app in H.
  by apply orb_false_iff in H as [? _].
Qed.

(** ** strings.HasSuffix and TrimSuffix *)

Definition HasSuffix (s suffix : string) : bool :=
  (slen suffix <=? slen s) &&
  bool_decide (drop_bytes (slen s - slen suffix) s = suffix).

Definition TrimSuffix (s suffix : string) : string :=
  if HasSuffix s suffix then take_bytes (slen s - slen suffix) s else s.

Lemma HasSuffix_spec s x : HasSuffix s x = true ↔ ∃ t, s = t +:+ x.
Proof.
  unfold HasSuffix. rewrite andb_true_iff, Nat.leb_le, bool_decide_eq_true. split.
  - intros [Hl Hd]. exists (take_bytes (slen s - slen x) s).
    rewrite <- Hd at 2. symmetry. apply take_drop_bytes.
  - intros [t ->]. rewrite slen_app. split; [lia|].
    replace (slen t + slen x - slen x) with (slen t) by lia.
    induction t as [|a t IH]; [by destruct x|done].
Qed.

Lemma TrimSuffix_app s x : TrimSuffix (s +:+ x) x = s.
Proof.
  unfold TrimSuffix. rewrite (proj2 (HasSuffix_spec _ _)) by eauto.
  rewrite slen_app. replace (slen s + slen x - slen x) with (slen s) by lia.
  apply take_bytes_app.
Qed.

Lemma TrimSuffix_none s x : HasSuffix s x = false → TrimSuffix s x = s.
Proof. unfold TrimSuffix. by intros ->. Qed.

(** ** strings.FieldsFunc: the maximal runs of bytes that do not satisfy f *)

Fixpoint FieldsFunc (f : ascii → bool) (s : string) : list string :=
  match s with
  | EmptyString => []
  | String a s' =>
      if f a then FieldsFunc f s'
      else match s' with
           | EmptyString => [String a ""]
           | String b _ =>
               if f b then String a "" :: FieldsFunc f s'
               else match FieldsFunc f s' with
                    | x :: xs => String a x :: xs
                    | [] => [String a ""]
                    end
           end
  end.

(** The fields are the non-empty pieces between separators. *)
Lemma FieldsFunc_Split c s :
  FieldsFunc (λ a, bool_decide (a = c)) s = filter (λ x, x ≠ "") (Split c s).
Proof.
  induction s as [|a s IH]; [done|]. cbn [FieldsFunc Split].
  case_bool_decide as Ha; [by rewrite IH|].
  rewrite IH. clear IH. destruct s as [|b s].
  - done.
  - cbn [Split]. case_bool_decide as Hb; [done|].
    destruct (Split c s) as [|x xs]; done.
Qed.

(** ** The verb %x on bytes: two lower-case hexadecimal digits each *)

Definition hex_digit (n : Z) : ascii :=
  if (n <? 10)%Z then ascii_of_nat (Z.to_nat (48 + n))
  else ascii_of_nat (Z.to_nat (87 + n)).

Definition hex_byte (b : Z) : string :=
  String (hex_digit (Z.shiftr b 4)) (String (hex_digit (Z.land b 15)) "").

Definition hex_bytes (bs : list Z) : string := foldr (λ b s, hex_byte b +:+ s) "" bs.

Lemma slen_hex_bytes bs : slen (hex_bytes bs) = 2 * length bs.
Proof.
  induction bs as [|b bs IH]; [done|]. cbn [hex_bytes foldr length].
  rewrite slen_app. unfold hex_bytes in IH. rewrite IH. simpl. lia.
Qed.

(** The double-quoted newline and the other one-byte strings of the code. *)
Definition nl : ascii := ascii_of_nat 10.
Definition cr : ascii := ascii_of_nat 13.
Definition NL : string := String nl "".

(** ** Every byte *)

Fixpoint all_bytes (f : ascii → bool) (s : string) : bool :=
  match s with EmptyString => true | String a s' => f a && all_bytes f s' end.

(** ** strings.Cut, and at the last occurrence *)

(** Before and after the first, or the last, byte c. *)
Fixpoint cut (c : ascii) (s : string) : option (string * string) :=
  match s with
  | EmptyString => None
  | String a s' =>
      if bool_decide (a = c) then Some ("", s')
      else '(x, y) ← cut c s'; Some (String a x, y)
  end.

Fixpoint cut_last (c : ascii) (s : string) : option (string * string) :=
  match s with
  | EmptyString => None
  | String a s' =>
      match cut_last c s' with
      | Some (x, y) => Some (String a x, y)
      | None => if bool_decide (a = c) then Some ("", s') else None
      end
  end.

Lemma all_bytes_app f s t : all_bytes f (s +:+ t) = all_bytes f s && all_bytes f t.
Proof. induction s as [|a s IH]; simpl; [done|]. by rewrite IH, andb_assoc. Qed.

Lemma all_bytes_impl (f g : ascii → bool) s :
  (∀ a, f a = true → g a = true) → all_bytes f s = true → all_bytes g s = true.
Proof.
  intros H. induction s as [|a s IH]; simpl; [done|]. rewrite !andb_true_iff. intros [? ?]; auto.
Qed.

Lemma all_bytes_not c f s : f c = false → all_bytes f s = true → has_byte c s = false.
Proof.
  intros Hc. induction s as [|a s IH]; simpl; [done|].
  intros [Ha Hs]%andb_true_iff. rewrite IH by done. rewrite orb_false_r.
  apply bool_decide_eq_false. congruence.
Qed.

Lemma cut_none c s : has_byte c s = false → cut c s = None.
Proof.
  induction s as [|a s IH]; simpl; [done|]. intros [Ha Hs]%orb_false_iff. by rewrite Ha, IH.
Qed.

Lemma cut_last_none c s : has_byte c s = false → cut_last c s = None.
Proof.
  induction s as [|a s IH]; simpl; [done|]. intros [Ha Hs]%orb_false_iff. by rewrite IH, Ha.
Qed.

Lemma cut_app c s t : has_byte c s = false → cut c (s +:+ String c t) = Some (s, t).
Proof.
  induction s as [|a s IH]; cbn [String.append cut has_byte].
  - by rewrite bool_decide_eq_true_2.
  - intros [Ha Hs]%orb_false_iff. by rewrite Ha, IH.
Qed.

Lemma HasSuffix_byte c s : has_byte c s = false → HasSuffix s (String c "") = false.
Proof.
  intros H. apply not_true_iff_false. rewrite HasSuffix_spec. intros [t ->].
  rewrite has_byte_app in H. simpl in H. rewrite bool_decide_eq_true_2, orb_true_r in H by done.
  done.
Qed.


(** The first n bytes, as Go's s[:n] on a longer string. *)
Lemma take_bytes_app_le n s t : n ≤ slen s → take_bytes n (s +:+ t) = take_bytes n s.
Proof.
  revert s. induction n as [|n IH]; intros s; [by destruct s, t|].
  destruct s as [|a s]; simpl; [lia|]. intros. f_equal. apply IH. lia.
Qed.

Lemma take_bytes_app_ge n s t :
  slen s ≤ n → take_bytes n (s +:+ t) = s +:+ take_bytes (n - slen s) t.
Proof.
  revert n. induction s as [|a s IH]; intros n; simpl; [by rewrite Nat.sub_0_r|].
  destruct n as [|n]; [lia|]. intros. simpl. f_equal. apply IH. lia.
Qed.

Lemma take_bytes_all n s : slen s ≤ n → take_bytes n s = s.
Proof. revert n. induction s as [|a s IH]; intros [|n]; simpl; intros; [done..|lia|]. f_equal. apply IH. lia. Qed.

Lemma all_bytes_take f n s : all_bytes f s = true → all_bytes f (take_bytes n s) = true.
Proof.
  intros H. rewrite <- (take_drop_bytes n s), all_bytes_app in H. by apply andb_true_iff in H as [? _].
Qed.

Lemma string_map_app f s t : string_map f (s +:+ t) = string_map f s +:+ string_map f t.
Proof. induction s as [|a s IH]; simpl; [done|by rewrite IH]. Qed.

Lemma replace_byte_id old new s : has_byte old s = false → replace_byte old new s = s.
Proof.
  unfold replace_byte. induction s as [|a s IH]; simpl; [done|].
  intros [Ha Hs]%orb_false_iff. by rewrite Ha, IH.
Qed.

(** The last byte of a text that is not empty. *)
Lemma string_snoc s : s ≠ "" → ∃ t a, s = t +:+ String a "".
Proof.
  induction s as [|a s IH]; [done|]. intros _. destruct s as [|b s]; [by exists "", a|].
  destruct IH as (t & c & E); [done|]. exists (String a t), c. by rewrite E.
Qed.

Lemma drop_bytes_app s t : drop_bytes (slen s) (s +:+ t) = t.
Proof. by induction s. Qed.
