(* ===== verification/Sidecar.v ===== *)
(** * The messages between the peer's commands and the side car

    pkg/sidecar: the requests of the two gRPC services, and the message of a
    response, of which both services have the same. The code is generated from
    protos/; how messages are put on the wire is not modelled. *)
From S2P Require Import Prelude.

(** builder.pb.go *)
Record BuildRequest := mkBuildRequest {
  br_SourcePath : string; br_MetadataPath : string; br_OutputPath : string }.

(** runner.pb.go *)
Record RunRequest := mkRunRequest {
  rr_ChaincodePath : string; rr_MetadataPath : string; rr_ArtifactsPath : string }.

(** The oneof of BuildResponse and RunResponse; it may be unset. *)
Inductive response :=
  | StandardOut (text : string)
  | StandardError (text : string)
  | NoMessage.
