(* ===== verification/KubeTypes.v ===== *)
(** * Kubernetes objects

    The part of the k8s.io/api types the program builds and reads. The types
    are third-party data; a field the program never touches is left out, and a
    Go pointer to a scalar is an option. *)
From S2P Require Import Prelude GoStrings.

(** ** metav1 *)

Record OwnerReference := mkOwnerReference {
  or_APIVersion : string;
  or_Kind : string;
  or_Name : string;
  or_UID : string;
  or_BlockOwnerDeletion : option bool;
  or_Controller : option bool }.

Record ObjectMeta := mkObjectMeta {
  om_Name : string;
  om_UID : string;
  om_Labels : gmap string string;
  om_OwnerReferences : list OwnerReference }.

(** ** Containers *)

Inductive PullPolicy := PullDefault | PullAlways.

Record EnvVar := mkEnvVar { env_Name : string; env_Value : string }.

Record VolumeMount := mkVolumeMount {
  vm_Name : string; vm_MountPath : string; vm_SubPath : string }.

Record Capabilities := mkCapabilities { cap_Add : list string; cap_Drop : list string }.

Inductive SeccompProfile := SeccompProfileTypeRuntimeDefault.

Record SecurityContext := mkSecurityContext {
  sc_RunAsGroup : option Z;
  sc_RunAsUser : option Z;
  sc_Privileged : option bool;
  sc_AllowPrivilegeEscalation : option bool;
  sc_Capabilities : option Capabilities;
  sc_SeccompProfile : option SeccompProfile }.

(** [&v1.SecurityContext{RunAsUser: &user}]. *)
Definition run_as_user (user : Z) : SecurityContext :=
  mkSecurityContext None (Some user) None None None None.

Record Container := mkContainer {
  c_Name : string;
  c_Image : string;
  c_ImagePullPolicy : PullPolicy;
  c_Command : list string;
  c_Args : list string;
  c_Env : list EnvVar;
  c_WorkingDir : string;
  c_VolumeMounts : list VolumeMount;
  c_SecurityContext : option SecurityContext }.

(** [v1.Container{}]. *)
Definition zeroContainer : Container :=
  mkContainer "" "" PullDefault [] [] [] "" [] None.

(** ** Pods *)

Inductive VolumeSource := EmptyDir | SecretVolume (secretName : string).
Record Volume := mkVolume { v_Name : string; v_Source : VolumeSource }.

Record PodAffinityTerm := mkPodAffinityTerm {
  pat_MatchLabels : gmap string string; pat_TopologyKey : string }.
Record Affinity := mkAffinity {
  RequiredDuringSchedulingIgnoredDuringExecution : list PodAffinityTerm }.

Inductive RestartPolicy := RestartPolicyNever | RestartPolicyAlways.

Record PodSpec := mkPodSpec {
  ps_RestartPolicy : RestartPolicy;
  ps_ImagePullSecrets : list string;
  ps_Volumes : list Volume;
  ps_InitContainers : list Container;
  ps_Containers : list Container;
  ps_Affinity : option Affinity }.

(** State.Terminated carries the reason; Waiting is neither of the two. *)
Record ContainerState := mkContainerState {
  cs_Running : bool; cs_Terminated : option string }.
Record ContainerStatus := mkContainerStatus {
  cst_Name : string; cst_State : ContainerState }.

Inductive PodPhase := PodPending | PodRunning | PodSucceeded | PodFailed | PodUnknown.

#[export] Instance PodPhase_eq_dec : EqDecision PodPhase.
Proof. solve_decision. Defined.

Record PodStatus := mkPodStatus {
  pst_Phase : PodPhase;
  pst_InitContainerStatuses : list ContainerStatus;
  pst_ContainerStatuses : list ContainerStatus }.

Definition zeroPodStatus : PodStatus := mkPodStatus PodUnknown [] [].

Record Pod := mkPod {
  pod_Meta : ObjectMeta; pod_Spec : PodSpec; pod_Status : PodStatus }.

Definition pod_Name (p : Pod) : string := om_Name (pod_Meta p).
Definition pod_UID (p : Pod) : string := om_UID (pod_Meta p).

(** ** Secrets, nodes, options *)

(** StringData is write-only: the API server stores it into Data. *)
Record Secret := mkSecret {
  sec_Meta : ObjectMeta;
  sec_Data : gmap string string;
  sec_StringData : gmap string string }.

Definition sec_Name (s : Secret) : string := om_Name (sec_Meta s).

Record Node := mkNode { node_Labels : gmap string string }.

Record PodLogOptions := mkPodLogOptions { plo_Container : string; plo_Follow : bool }.

(** [secret.ObjectMeta.OwnerReferences = refs]. *)
Definition set_owner_references (refs : list OwnerReference) (s : Secret) : Secret :=
  mkSecret
    (mkObjectMeta (om_Name (sec_Meta s)) (om_UID (sec_Meta s))
       (om_Labels (sec_Meta s)) refs)
    (sec_Data s) (sec_StringData s).
