(* ===== verification/Containers.v ===== *)
(** * Build and run containers per chaincode language

    pkg/k8sbuilder/{common,golang,java,node,executable}.go: the container that
    builds and the container that runs a chaincode of each language, with the
    shell fragment it executes. *)
From S2P Require Import Prelude GoStrings KubeTypes.

(** ** fmt.Sprintf for a format whose only verbs are %[1]s *)

(** [skip] counts the bytes of a verb still to be dropped. *)
Fixpoint sprintf1 (skip : nat) (format arg : string) : string :=
  match format with
  | EmptyString => EmptyString
  | String a f =>
      match skip with
      | S k => sprintf1 k f arg
      | O => if HasPrefix format "%[1]s" then arg +:+ sprintf1 4 f arg
             else String a (sprintf1 0 f arg)
      end
  end.

Definition Sprintf1 (format arg : string) : string := sprintf1 0 format arg.

(** ** The run metadata a run container is built from (server.go) *)

Record runMetadata := mkRunMetadata {
  ChaincodeID : string;
  ClientCert : string;
  ClientKey : string;
  RootCert : string;
  PeerAddress : string }.

Definition toPopulateScript (r : runMetadata) : string := "".

(** [localmspid] is the value of CORE_PEER_LOCALMSPID in the environment. *)
Definition toRunEnv (localmspid : string) (r : runMetadata) : list EnvVar :=
  [ mkEnvVar "CORE_CHAINCODE_ID_NAME" (ChaincodeID r);
    mkEnvVar "CORE_PEER_TLS_ENABLED" "true";
    mkEnvVar "CORE_PEER_TLS_ROOTCERT_FILE" "/certs/peer.crt";
    mkEnvVar "CORE_TLS_CLIENT_KEY_PATH" "/certs/client.key";
    mkEnvVar "CORE_TLS_CLIENT_CERT_PATH" "/certs/client.crt";
    mkEnvVar "CORE_TLS_CLIENT_KEY_FILE" "/certs/client_pem.key";
    mkEnvVar "CORE_TLS_CLIENT_CERT_FILE" "/certs/client_pem.crt";
    mkEnvVar "CORE_PEER_LOCALMSPID" localmspid ].

(** ** common.go *)

Definition getSecContext : SecurityContext :=
  mkSecurityContext (Some 7051%Z) (Some 7051%Z) (Some false) (Some false)
    (Some (mkCapabilities ["NET_BIND_SERVICE"] ["ALL"]))
    (Some SeccompProfileTypeRuntimeDefault).

(** The mount all build containers share. *)
Definition chaincodeMount : VolumeMount := mkVolumeMount "chaincode" "/chaincode" "".

Definition DQ : string := String (ascii_of_nat 34) "".
Definition TAB : string := String (ascii_of_nat 9) "".
Definition lines (l : list string) : string := Join l NL.

(** ** golang.go *)

Definition goBuildScript : string := lines
  [ "";
    "set -e";
    "if [ -f " +:+ DQ +:+ "/chaincode/input/src/go.mod" +:+ DQ +:+ " ] && [ -d " +:+ DQ +:+ "/chaincode/input/src/vendor" +:+ DQ +:+ " ]; then";
    "    cd /chaincode/input/src";
    "    echo " +:+ DQ +:+ "GO111MODULE=on go build -v -mod=vendor -o /chaincode/output/chaincode %[1]s" +:+ DQ;
    "    GO111MODULE=on go build -v -mod=vendor -o /chaincode/output/chaincode %[1]s";
    "elif [ -f " +:+ DQ +:+ "/chaincode/input/src/go.mod" +:+ DQ +:+ " ]; then";
    "    cd /chaincode/input/src";
    "    echo " +:+ DQ +:+ "GO111MODULE=on go build -v -mod=readonly -o /chaincode/output/chaincode %[1]s" +:+ DQ;
    "    GO111MODULE=on go build -v -mod=readonly -o /chaincode/output/chaincode %[1]s";
    "elif [ -f " +:+ DQ +:+ "/chaincode/input/src/%[1]s/go.mod" +:+ DQ +:+ " ] && [ -d " +:+ DQ +:+ "/chaincode/input/src/%[1]s/vendor" +:+ DQ +:+ " ]; then";
    "    cd /chaincode/input/src/%[1]s";
    "    echo " +:+ DQ +:+ "GO111MODULE=on go build -v -mod=vendor -o /chaincode/output/chaincode ." +:+ DQ;
    "    GO111MODULE=on go build -v -mod=vendor -o /chaincode/output/chaincode .";
    "elif [ -f " +:+ DQ +:+ "/chaincode/input/src/%[1]s/go.mod" +:+ DQ +:+ " ]; then";
    "    cd /chaincode/input/src/%[1]s";
    "    echo " +:+ DQ +:+ "GO111MODULE=on go build -v -mod=readonly -o /chaincode/output/chaincode ." +:+ DQ;
    "    GO111MODULE=on go build -v -mod=readonly -o /chaincode/output/chaincode .";
    "else";
    "    echo " +:+ DQ +:+ "GO111MODULE=off GOPATH=/chaincode/input:$GOPATH go build -v -o /chaincode/output/chaincode %[1]s" +:+ DQ;
    "    GO111MODULE=off GOPATH=/chaincode/input:$GOPATH go build -v -o /chaincode/output/chaincode %[1]s";
    "fi";
    "echo Done!";
    "" ].

Definition golangBuildContainer (path image : string) : Container :=
  mkContainer "build-golang-chaincode" image PullDefault ["/bin/sh"]
    ["-c"; Sprintf1 goBuildScript path] [] "" [chaincodeMount]
    (Some (run_as_user 7051)).

Definition golangRunScript : string := "/usr/local/bin/chaincode -peer.address %[1]s".

Definition golangRunContainer (localmspid : string) (rmd : runMetadata) (image : string)
    : Container :=
  mkContainer "run-go-chaincode" image PullAlways ["/bin/sh"]
    ["-c"; Sprintf1 golangRunScript (PeerAddress rmd)] (toRunEnv localmspid rmd) ""
    [ mkVolumeMount "chaincode" "/chaincode/artifacts" "artifacts";
      mkVolumeMount "chaincode" "/usr/local/bin" "output";
      mkVolumeMount "certs" "/certs" "" ]
    (Some getSecContext).

(** ** java.go *)

Definition javaBuildScript : string := "/root/chaincode-java/build.sh".

Definition javaBuildContainer (image : string) : Container :=
  mkContainer "build-java-chaincode" image PullDefault ["/bin/sh"]
    ["-c"; javaBuildScript] [] "" [chaincodeMount] (Some (run_as_user 7051)).

Definition javaRunScript : string := "/root/chaincode-java/start --peerAddress %[1]s".

Definition javaRunContainer (localmspid : string) (rmd : runMetadata) (image : string)
    : Container :=
  mkContainer "run-java-chaincode" image PullAlways ["/bin/sh"]
    ["-c"; Sprintf1 javaRunScript (PeerAddress rmd)] (toRunEnv localmspid rmd)
    "/root/chaincode-java"
    [ mkVolumeMount "chaincode" "/chaincode/artifacts" "artifacts";
      mkVolumeMount "chaincode" "/root/chaincode-java/chaincode" "output";
      mkVolumeMount "certs" "/certs" "" ]
    (Some getSecContext).

(** ** node.go *)

Definition nodeBuildScript : string := lines
  [ ""; "set -e"; "if [ -x /chaincode/build.sh ]; then";
    TAB +:+ "/chaincode/build.sh"; "else";
    TAB +:+ "cp -R /chaincode/input/src/. /chaincode/output && cd /chaincode/output && npm install --production";
    "fi"; "" ].

Definition nodeBuildContainer (image : string) : Container :=
  mkContainer "build-node-chaincode" image PullDefault ["/bin/sh"]
    ["-c"; nodeBuildScript] [] "" [chaincodeMount] (Some (run_as_user 7051)).

Definition nodeStartScript : string := lines
  [ ""; "set -e"; "if [ -x /chaincode/start.sh ]; then";
    TAB +:+ "/chaincode/start.sh --peer.address %[1]s"; "else";
    TAB +:+ "cd /usr/local/src";
    TAB +:+ "npm start -- --peer.address %[1]s"; "fi"; "" ].

Definition nodeRunContainer (localmspid : string) (rmd : runMetadata) (image : string)
    : Container :=
  mkContainer "run-node-chaincode" image PullAlways ["/bin/sh"]
    ["-c"; Sprintf1 nodeStartScript (PeerAddress rmd)] (toRunEnv localmspid rmd) ""
    [ mkVolumeMount "chaincode" "/chaincode/artifacts" "artifacts";
      mkVolumeMount "chaincode" "/usr/local/src" "output";
      mkVolumeMount "certs" "/certs" "" ]
    (Some getSecContext).

(** ** executable.go *)

Definition executableBuildScript : string := lines
  [ ""; "set -e"; "if [ -x /chaincode/build.sh ]; then";
    TAB +:+ "/chaincode/build.sh"; "else";
    TAB +:+ "cp -R /chaincode/input/. /chaincode/output"; "fi"; "" ].

Definition executableBuildContainer (image : string) : Container :=
  mkContainer "build-executable-chaincode" image PullDefault ["/bin/sh"]
    ["-c"; executableBuildScript] [] "" [chaincodeMount] (Some (run_as_user 7051)).

Definition executableRunScript : string := "/usr/local/bin/chaincode -peer.address %[1]s".

Definition executableRunContainer (localmspid : string) (rmd : runMetadata) (image : string)
    : Container :=
  mkContainer "run-executable-chaincode" image PullAlways ["/bin/sh"]
    ["-c"; Sprintf1 executableRunScript (PeerAddress rmd)] (toRunEnv localmspid rmd) ""
    [ mkVolumeMount "chaincode" "/chaincode/artifacts" "artifacts";
      mkVolumeMount "chaincode" "/usr/local/bin" "output";
      mkVolumeMount "certs" "/certs" "" ]
    (Some (run_as_user 7051)).
