(* ===== verification/KubeApi.v ===== *)
(** * The Kubernetes API the program calls

    client-go is third-party code: the clients are a class of operations over
    an abstract state W of the cluster, any of which may fail. The program's
    side of a call is [call], which records the request in a trace, so that a
    theorem can speak of the requests the program makes whatever the cluster
    answers. [SecretStore] names the documented behaviour of the secret
    operations the program relies on, and [Mem] is a small cluster in memory
    that satisfies it; [LogAccount] counts the log streams that are open. *)
From S2P Require Import Prelude GoStrings KubeTypes.

(** ** The client operations

    A log stream is opened by GetLogs; what it gives comes later, one Read after
    the other (LogStream.v). *)

Class KubeClient (W : Type) := {
  pods_Watch : string → W → (go_error + unit) * W;
  pods_WatchStop : W → W;
  pods_Create : Pod → W → (go_error + Pod) * W;
  pods_Delete : string → W → (go_error + unit) * W;
  pods_GetLogs : string → PodLogOptions → W → (go_error + unit) * W;
  pods_LogClose : W → (go_error + unit) * W;
  pods_List : string → W → (go_error + list Pod) * W;
  secrets_Create : Secret → W → (go_error + unit) * W;
  secrets_Get : string → W → (go_error + Secret) * W;
  secrets_Update : Secret → W → (go_error + unit) * W;
  secrets_Delete : string → W → (go_error + unit) * W;
  nodes_List : W → (go_error + list Node) * W }.

(** The requests, as the trace records them. *)
Inductive kcall :=
  | PodWatch (selector : string)
  | PodWatchStop
  | PodCreate (p : Pod)
  | PodDelete (name : string)
  | PodGetLogs (name : string) (opts : PodLogOptions)
  | PodLogClose (stream : nat)
  | PodList (selector : string)
  | SecretCreate (s : Secret)
  | SecretGet (name : string)
  | SecretUpdate (s : Secret)
  | SecretDelete (name : string)
  | NodeList.

(** ** The program's view of the cluster and of the response stream *)

(** Who wrote a message to the response stream: the handler itself, or the
    goroutine that copies the n-th log stream. *)
Inductive origin := FromMain | FromStream (n : nat).

#[export] Instance origin_eq_dec : EqDecision origin.
Proof. solve_decision. Defined.

Record kworld (W : Type) := mkKworld {
  kube : W;
  calls : list kcall;
  sent : list (origin * string) }.
Arguments mkKworld {W} _ _ _.
Arguments kube {W} _.
Arguments calls {W} _.
Arguments sent {W} _.

Section api.
Context {W : Type} `{KubeClient W}.

(** A request and its answer. *)
Definition call {A} (c : kcall) (f : W → (go_error + A) * W) : M (kworld W) A :=
  λ k, let '(r, w) := f (kube k) in
    (match r with inl e => Err e | inr a => Ok a end,
     mkKworld w (calls k ++ [c]) (sent k)).

(** Log: the message goes to the response stream, a Send error is dropped. *)
Definition send (o : origin) (msg : string) (k : kworld W) : kworld W :=
  mkKworld (kube k) (calls k) (sent k ++ [(o, msg)]).

Definition Log (msg : string) : M (kworld W) unit := modify (send FromMain msg).
End api.

(** ** Documented behaviour of the secret operations *)

(** How the API server stores a secret it is given. *)
Definition stored_as (given stored : Secret) : Prop :=
  sec_Name stored = sec_Name given ∧
  om_OwnerReferences (sec_Meta stored) = om_OwnerReferences (sec_Meta given) ∧
  sec_Data stored = sec_StringData given ∪ sec_Data given ∧
  sec_StringData stored = ∅.

Class SecretStore (W : Type) `{KubeClient W} := {
  secrets : W → gmap string Secret;
  secrets_Create_ok s w w' :
    secrets_Create s w = (inr tt, w') →
    secrets w !! sec_Name s = None ∧
    ∃ s', stored_as s s' ∧ secrets w' = <[sec_Name s := s']> (secrets w);
  secrets_Create_err s w e w' :
    secrets_Create s w = (inl e, w') → secrets w' = secrets w;
  secrets_Get_ok n w s w' :
    secrets_Get n w = (inr s, w') →
    secrets w !! n = Some s ∧ sec_Name s = n ∧ secrets w' = secrets w;
  secrets_Get_err n w e w' :
    secrets_Get n w = (inl e, w') → secrets w' = secrets w;
  secrets_Update_ok s w w' :
    secrets_Update s w = (inr tt, w') →
    is_Some (secrets w !! sec_Name s) ∧
    ∃ s', stored_as s s' ∧ secrets w' = <[sec_Name s := s']> (secrets w);
  secrets_Update_err s w e w' :
    secrets_Update s w = (inl e, w') → secrets w' = secrets w;
  secrets_Delete_ok n w w' :
    secrets_Delete n w = (inr tt, w') → secrets w' = delete n (secrets w);
  secrets_Delete_err n w e w' :
    secrets_Delete n w = (inl e, w') → secrets w' = secrets w;
  pods_Watch_secrets sel w : secrets (snd (pods_Watch sel w)) = secrets w;
  pods_WatchStop_secrets w : secrets (pods_WatchStop w) = secrets w;
  pods_Create_secrets p w : secrets (snd (pods_Create p w)) = secrets w;
  pods_Delete_secrets n w : secrets (snd (pods_Delete n w)) = secrets w;
  pods_GetLogs_secrets n o w : secrets (snd (pods_GetLogs n o w)) = secrets w;
  pods_LogClose_secrets w : secrets (snd (pods_LogClose w)) = secrets w;
  nodes_List_secrets w : secrets (snd (nodes_List w)) = secrets w }.

(** The log streams that are open at a client: GetLogs opens one when it
    succeeds, Close closes one, also when it reports an error, and the other
    requests of a call have none. *)
Class LogAccount (W : Type) `{KubeClient W} := {
  open_logs : W → nat;
  pods_GetLogs_open n o w :
    open_logs (pods_GetLogs n o w).2 =
    match (pods_GetLogs n o w).1 with inr _ => S (open_logs w) | inl _ => open_logs w end;
  pods_LogClose_open w : open_logs (pods_LogClose w).2 = pred (open_logs w);
  pods_Watch_open sel w : open_logs (pods_Watch sel w).2 = open_logs w;
  pods_WatchStop_open w : open_logs (pods_WatchStop w) = open_logs w;
  pods_Create_open p w : open_logs (pods_Create p w).2 = open_logs w;
  pods_Delete_open n w : open_logs (pods_Delete n w).2 = open_logs w;
  secrets_Get_open n w : open_logs (secrets_Get n w).2 = open_logs w;
  secrets_Update_open s w : open_logs (secrets_Update s w).2 = open_logs w }.

(** Any client with a count of the streams it has open. *)
Module Counted.
Section counted.
Context {W : Type} `{KubeClient W}.

Definition on {A} (f : W → A * W) (w : W * nat) : A * (W * nat) :=
  let '(a, w') := f w.1 in (a, (w', w.2)).

#[global] Instance client : KubeClient (W * nat) := {
  pods_Watch sel := on (pods_Watch sel);
  pods_WatchStop w := (pods_WatchStop w.1, w.2);
  pods_Create p := on (pods_Create p);
  pods_Delete n := on (pods_Delete n);
  pods_GetLogs n o w :=
    let '(r, w') := pods_GetLogs n o w.1 in
    (r, (w', match r with inr _ => S w.2 | inl _ => w.2 end));
  pods_LogClose w := let '(r, w') := pods_LogClose w.1 in (r, (w', pred w.2));
  pods_List sel := on (pods_List sel);
  secrets_Create s := on (secrets_Create s);
  secrets_Get n := on (secrets_Get n);
  secrets_Update s := on (secrets_Update s);
  secrets_Delete n := on (secrets_Delete n);
  nodes_List := on nodes_List }.

#[global] Instance account : LogAccount (W * nat).
Proof.
  refine {| open_logs := snd |}; intros; simpl; unfold on; try done.
  - by destruct (pods_GetLogs _ _ _) as [[] ?].
  - by destruct (pods_LogClose _).
  - by destruct (pods_Watch _ _).
  - by destruct (pods_Create _ _).
  - by destruct (pods_Delete _ _).
  - by destruct (secrets_Get _ _).
  - by destruct (secrets_Update _ _).
Defined.
End counted.
End Counted.

(** ** A cluster in memory *)

Module Mem.
(** The operations that fail when they are named in [m_failing]. *)
Inductive op :=
  | OWatch | OPodCreate | OPodDelete | OGetLogs | OLogClose | OPodList
  | OSecretCreate | OSecretGet | OSecretUpdate | OSecretDelete | ONodeList.

#[global] Instance op_eq_dec : EqDecision op.
Proof. solve_decision. Defined.

Record cluster := mkCluster {
  m_pods : gmap string Pod;
  m_secrets : gmap string Secret;
  m_logs : gmap string unit;
  m_nodes : list Node;
  m_failing : list op }.

Definition store (s : Secret) : Secret :=
  mkSecret (sec_Meta s) (sec_StringData s ∪ sec_Data s) ∅.

Definition set_pods (f : gmap string Pod → gmap string Pod) (w : cluster) : cluster :=
  mkCluster (f (m_pods w)) (m_secrets w) (m_logs w) (m_nodes w) (m_failing w).
Definition set_secrets (f : gmap string Secret → gmap string Secret) (w : cluster)
    : cluster :=
  mkCluster (m_pods w) (f (m_secrets w)) (m_logs w) (m_nodes w) (m_failing w).

Definition guard {A} (o : op) (r : (go_error + A) * cluster) (w : cluster)
    : (go_error + A) * cluster :=
  if bool_decide (o ∈ m_failing w) then (inl (ErrorString "request failed"), w) else r.

Definition not_found {A} (what n : string) (w : cluster) : (go_error + A) * cluster :=
  (inl (ErrorString (what +:+ " " +:+ n +:+ " not found")), w).

Definition exists_already {A} (what n : string) (w : cluster) : (go_error + A) * cluster :=
  (inl (ErrorString (what +:+ " " +:+ n +:+ " already exists")), w).

(** The UID of a created pod is derived from its name. *)
Definition with_uid (p : Pod) : Pod :=
  mkPod (mkObjectMeta (pod_Name p) ("uid-" +:+ pod_Name p)
           (om_Labels (pod_Meta p)) (om_OwnerReferences (pod_Meta p)))
    (pod_Spec p) (pod_Status p).

(** The secrets of the cluster are those stored under their names. *)
Definition named (w : cluster) : gmap string Secret :=
  filter (λ ks, sec_Name ks.2 = ks.1) (m_secrets w).

#[global] Instance client : KubeClient cluster := {
  pods_Watch sel w := guard OWatch (inr tt, w) w;
  pods_WatchStop w := w;
  pods_Create p w := guard OPodCreate
    (match m_pods w !! pod_Name p with
     | Some _ => exists_already "pods" (pod_Name p) w
     | None => (inr (with_uid p), set_pods <[pod_Name p := with_uid p]> w)
     end) w;
  pods_Delete n w := guard OPodDelete
    (match m_pods w !! n with
     | Some _ => (inr tt, set_pods (delete n) w)
     | None => not_found "pods" n w
     end) w;
  pods_GetLogs n o w := guard OGetLogs
    (match m_logs w !! plo_Container o with
     | Some _ => (inr tt, w)
     | None => not_found "container" (plo_Container o) w
     end) w;
  pods_LogClose w := guard OLogClose (inr tt, w) w;
  pods_List sel w := guard OPodList
    (inr (filter (λ p, String.append "peer-id=" <$> om_Labels (pod_Meta p) !! "peer-id"
                       = Some sel) (snd <$> map_to_list (m_pods w))), w) w;
  secrets_Create s w := guard OSecretCreate
    (match m_secrets w !! sec_Name s with
     | Some _ => exists_already "secrets" (sec_Name s) w
     | None => (inr tt, set_secrets <[sec_Name s := store s]> w)
     end) w;
  secrets_Get n w := guard OSecretGet
    (match m_secrets w !! n with
     | Some s => if bool_decide (sec_Name s = n) then (inr s, w)
                 else not_found "secrets" n w
     | None => not_found "secrets" n w
     end) w;
  secrets_Update s w := guard OSecretUpdate
    (match named w !! sec_Name s with
     | Some _ => (inr tt, set_secrets <[sec_Name s := store s]> w)
     | None => not_found "secrets" (sec_Name s) w
     end) w;
  secrets_Delete n w := guard OSecretDelete
    (match m_secrets w !! n with
     | Some _ => (inr tt, set_secrets (delete n) w)
     | None => not_found "secrets" n w
     end) w;
  nodes_List w := guard ONodeList (inr (m_nodes w), w) w }.

Lemma stored_as_store s : stored_as s (store s).
Proof. by repeat split. Qed.

Lemma named_insert s (m : gmap string Secret) :
  filter (λ ks : string * Secret, sec_Name ks.2 = ks.1) (<[sec_Name s := store s]> m) =
  <[sec_Name s := store s]> (filter (λ ks, sec_Name ks.2 = ks.1) m).
Proof. by apply map_filter_insert_True. Qed.

Ltac solve_store :=
  repeat intro; simpl in *; unfold guard, not_found, exists_already in *;
  repeat case_match; repeat case_bool_decide; simplify_eq/=; eauto.

#[global] Instance secret_store : SecretStore cluster.
Proof.
  refine {| secrets := named |}; unfold named; try solve_store.
  - solve_store. split; [apply map_lookup_filter_None; by left|].
    exists (store s). split; [apply stored_as_store|apply named_insert].
  - solve_store. split; [by apply map_lookup_filter_Some|done].
  - solve_store. split; [eauto|]. exists (store s). split; [apply stored_as_store|apply named_insert].
  - solve_store. apply map_filter_delete.
Defined.
End Mem.

(** ** A cluster in memory in which no request is lost *)

Module Sound.
Record cluster := mkCluster { inner : Mem.cluster }.

(** The operations of [Mem] with nothing failing. *)
Definition on {A} (f : Mem.cluster → A * Mem.cluster) (w : cluster) : A * cluster :=
  let m := inner w in
  let '(a, m') := f (Mem.mkCluster (Mem.m_pods m) (Mem.m_secrets m) (Mem.m_logs m) (Mem.m_nodes m) []) in
  (a, mkCluster m').

#[global] Instance client : KubeClient cluster := {
  pods_Watch sel := on (pods_Watch sel);
  pods_WatchStop w := w;
  pods_Create p := on (pods_Create p);
  pods_Delete n := on (pods_Delete n);
  pods_GetLogs n o := on (pods_GetLogs n o);
  pods_LogClose := on pods_LogClose;
  pods_List sel := on (pods_List sel);
  secrets_Create s := on (secrets_Create s);
  secrets_Get n := on (secrets_Get n);
  secrets_Update s := on (secrets_Update s);
  secrets_Delete n := on (secrets_Delete n);
  nodes_List := on nodes_List }.

Lemma on_inv {A} (f : Mem.cluster → A * Mem.cluster) w a w' :
  on f w = (a, w') →
  ∃ m m', Mem.named m = Mem.named (inner w) ∧ f m = (a, m') ∧ w' = mkCluster m'.
Proof.
  unfold on. destruct (f _) as [a0 m'] eqn:E. intros [= -> <-].
  eexists _, m'. split; [|by split; [exact E|]]. done.
Qed.

Lemma on_secrets {A} (f : Mem.cluster → A * Mem.cluster) w :
  (∀ m, Mem.named (f m).2 = Mem.named m) →
  Mem.named (inner (on f w).2) = Mem.named (inner w).
Proof.
  intros Hf. unfold on. set (m := Mem.mkCluster _ _ _ _ _). specialize (Hf m).
  destruct (f m) as [a m']. exact Hf.
Qed.

Ltac from_mem :=
  intros; match goal with H : on _ _ = _ |- _ =>
    let m := fresh "m" in let m' := fresh "m" in let Hm := fresh "Hm" in
    apply on_inv in H as (m & m' & Hm & H & ->); simpl; rewrite <- Hm
  end.

#[global] Instance secret_store : SecretStore cluster.
Proof.
  refine {| secrets w := Mem.named (inner w) |}; simpl.
  - intros * H. from_mem. exact (secrets_Create_ok (W:=Mem.cluster) _ _ _ H).
  - intros * H. from_mem. exact (secrets_Create_err (W:=Mem.cluster) _ _ _ _ H).
  - intros * H. from_mem. exact (secrets_Get_ok (W:=Mem.cluster) _ _ _ _ H).
  - intros * H. from_mem. exact (secrets_Get_err (W:=Mem.cluster) _ _ _ _ H).
  - intros * H. from_mem. exact (secrets_Update_ok (W:=Mem.cluster) _ _ _ H).
  - intros * H. from_mem. exact (secrets_Update_err (W:=Mem.cluster) _ _ _ _ H).
  - intros * H. from_mem. exact (secrets_Delete_ok (W:=Mem.cluster) _ _ _ H).
  - intros * H. from_mem. exact (secrets_Delete_err (W:=Mem.cluster) _ _ _ _ H).
  - intros sel w. exact (on_secrets (pods_Watch (W:=Mem.cluster) sel) w (pods_Watch_secrets (W:=Mem.cluster) sel)).
  - done.
  - intros p w. exact (on_secrets (pods_Create (W:=Mem.cluster) p) w (pods_Create_secrets (W:=Mem.cluster) p)).
  - intros n w. exact (on_secrets (pods_Delete (W:=Mem.cluster) n) w (pods_Delete_secrets (W:=Mem.cluster) n)).
  - intros n o w. exact (on_secrets (pods_GetLogs (W:=Mem.cluster) n o) w (pods_GetLogs_secrets (W:=Mem.cluster) n o)).
  - intros w. exact (on_secrets (pods_LogClose (W:=Mem.cluster)) w (pods_LogClose_secrets (W:=Mem.cluster))).
  - intros w. exact (on_secrets (nodes_List (W:=Mem.cluster)) w (nodes_List_secrets (W:=Mem.cluster))).
Defined.
End Sound.
