(* ===== verification/LogStream.v ===== *)
(** * Log streaming

    pkg/k8sbuilder/server.go, streamLogs: the goroutine that copies one log
    stream, line by line, to the response stream. The scanner is bufio.Scanner
    with ScanLines and its default limit. The goroutine makes a turn of its loop
    out of the bytes it has, or waits in Read for more of the stream, which may
    take any time; [stream_messages] says what the bytes of a stream make it
    send. *)
From S2P Require Import Prelude GoStrings KubeTypes KubeApi.

(** ** bufio.Scanner with ScanLines *)

(** bufio.MaxScanTokenSize: the scanner's buffer never grows past it. *)
Definition MaxScanTokenSize : N := 65536.

Definition ErrTooLong : go_error := ErrorString "bufio.Scanner: token too long".

(** The bytes up to the first newline, and those after it if there is one. *)
Fixpoint break_nl (s : string) : string * option string :=
  match s with
  | EmptyString => ("", None)
  | String a s' =>
      if bool_decide (a = nl) then ("", Some s')
      else let '(l, o) := break_nl s' in (String a l, o)
  end.

Definition dropCR (s : string) : string := TrimSuffix s (String cr "").

Inductive scan_result :=
  | Token (line rest : string)
  | TooLong
  | AtEnd
  | NeedData.

Definition too_long (line : string) : bool :=
  (MaxScanTokenSize <=? N.of_nat (slen line))%N.

(** What Scan makes of the bytes in its buffer; [ended] says that a Read has
    reported the end of the stream. A line with no newline among the first
    MaxScanTokenSize bytes fills the buffer. The bytes left at the end of the
    stream are a last line of their own; before it, Scan has to read more. *)
Definition Scan (ended : bool) (s : string) : scan_result :=
  match break_nl s with
  | (l, o) =>
      if too_long l then TooLong
      else match o with
           | Some rest => Token (dropCR l) rest
           | None =>
               if negb ended then NeedData
               else if bool_decide (s = "") then AtEnd else Token (dropCR l) ""
           end
  end.

Lemma break_nl_spec s l o :
  break_nl s = (l, o) →
  has_byte nl l = false ∧
  s = match o with Some r => l +:+ String nl r | None => l end.
Proof.
  revert l o. induction s as [|a s IH]; intros l o; simpl.
  - by intros [= <- <-].
  - case_bool_decide as Ha.
    + intros [= <- <-]. subst a. done.
    + destruct (break_nl s) as [l' o'] eqn:E. intros [= <- <-].
      destruct (IH l' o' eq_refl) as [? ->]. simpl.
      rewrite bool_decide_eq_false_2 by done. split; [done|]. by destruct o'.
Qed.

Lemma break_nl_app s t :
  break_nl (s +:+ t) =
  match break_nl s with
  | (l, Some r) => (l, Some (r +:+ t))
  | (l, None) => let '(l', o) := break_nl t in (l +:+ l', o)
  end.
Proof.
  induction s as [|a s IH]; simpl; [by destruct (break_nl t)|]. case_bool_decide; [done|].
  rewrite IH. destruct (break_nl s) as [l [r|]]; [done|]. by destruct (break_nl t).
Qed.

(** Scan consumes bytes, so a stream has finitely many tokens. *)
Lemma Scan_Token_shorter b s l r : Scan b s = Token l r → slen r < slen s.
Proof.
  unfold Scan. destruct (break_nl s) as [l' o] eqn:E.
  apply break_nl_spec in E as [_ E].
  destruct (too_long l'); [done|]. destruct o as [r'|].
  - intros [= _ <-]. subst s. rewrite slen_app. simpl. lia.
  - destruct b; [|done]. simpl. case_bool_decide as Hs; [done|]. intros [= _ <-].
    destruct s; [done|simpl; lia].
Qed.

(** What was found before the end does not depend on what comes after it. *)
Lemma Scan_Token_more b s t l r : Scan false s = Token l r → Scan b (s +:+ t) = Token l (r +:+ t).
Proof.
  unfold Scan. rewrite break_nl_app. destruct (break_nl s) as [l' [r'|]]; destruct (too_long l'); try done.
  by intros [= -> <-].
Qed.

Lemma Scan_TooLong_more b b' s t : Scan b s = TooLong → Scan b' (s +:+ t) = TooLong.
Proof.
  unfold Scan. rewrite break_nl_app. destruct (break_nl s) as [l [r'|]].
  - by destruct (too_long l).
  - destruct (break_nl t) as [l' o] eqn:E. destruct (too_long l) eqn:Hl.
    + intros _. assert (too_long (l +:+ l') = true) as ->; [|done].
      unfold too_long in *. apply N.leb_le. apply N.leb_le in Hl. rewrite slen_app. lia.
    + by destruct b; repeat case_match.
Qed.

Lemma Scan_AtEnd_inv b s : Scan b s = AtEnd → b = true ∧ s = "".
Proof.
  unfold Scan. destruct (break_nl s) as [l [r|]]; destruct (too_long l); try done.
  destruct b; [|done]. simpl. by case_bool_decide.
Qed.

(** Why the scan of a buffer stops. *)
Inductive scan_stop := StopTooLong | StopEnd | StopData.

#[export] Instance scan_stop_eq_dec : EqDecision scan_stop.
Proof. solve_decision. Defined.

(** All tokens, and why there are no more. *)
Fixpoint scan_fuel (fuel : nat) (ended : bool) (s : string) : list string * scan_stop :=
  match fuel with
  | O => ([], StopData)
  | S fuel' =>
      match Scan ended s with
      | Token l r => let '(ls, b) := scan_fuel fuel' ended r in (l :: ls, b)
      | TooLong => ([], StopTooLong)
      | AtEnd => ([], StopEnd)
      | NeedData => ([], StopData)
      end
  end.

Definition scan_lines (ended : bool) (s : string) : list string * scan_stop :=
  scan_fuel (S (slen s)) ended s.

Lemma scan_fuel_enough f1 f2 b s :
  slen s < f1 → slen s < f2 → scan_fuel f1 b s = scan_fuel f2 b s.
Proof.
  revert f2 s. induction f1 as [|f1 IH]; intros [|f2] s H1 H2; [lia..|]. simpl.
  destruct (Scan b s) as [l r| | |] eqn:E; [|done..].
  apply Scan_Token_shorter in E. rewrite (IH f2 r) by lia. done.
Qed.

Lemma scan_lines_eq b s :
  scan_lines b s =
  match Scan b s with
  | Token l r => let '(ls, st) := scan_lines b r in (l :: ls, st)
  | TooLong => ([], StopTooLong)
  | AtEnd => ([], StopEnd)
  | NeedData => ([], StopData)
  end.
Proof.
  unfold scan_lines at 1. cbn [scan_fuel].
  destruct (Scan b s) as [l r| | |] eqn:E; [|done..].
  pose proof (Scan_Token_shorter b s l r E).
  unfold scan_lines. by rewrite (scan_fuel_enough (slen s) (S (slen r))) by lia.
Qed.

Lemma scan_lines_open s : (scan_lines false s).2 ≠ StopEnd.
Proof.
  remember (slen s) as n eqn:Hn. revert s Hn. induction n as [n IH] using lt_wf_ind. intros s ->.
  rewrite scan_lines_eq. destruct (Scan false s) as [l r| | |] eqn:E; [|done| |done].
  - specialize (IH (slen r) (Scan_Token_shorter _ _ _ _ E) r eq_refl). by destruct (scan_lines false r).
  - by apply Scan_AtEnd_inv in E as [[=] _].
Qed.

(** *** Reference definition: the pieces between newlines *)

(** The last piece is a line only when it is not empty. *)
Fixpoint drop_last_empty (l : list string) : list string :=
  match l with
  | [] => []
  | [x] => if bool_decide (x = "") then [] else [x]
  | x :: xs => x :: drop_last_empty xs
  end.

(** The lines before the first one that is too long. *)
Fixpoint until_too_long (l : list string) : list string * bool :=
  match l with
  | [] => ([], false)
  | x :: xs =>
      if too_long x then ([], true)
      else let '(ls, b) := until_too_long xs in (dropCR x :: ls, b)
  end.

Definition split_lines (s : string) : list string := drop_last_empty (Split nl s).

Lemma split_lines_break s :
  split_lines s =
  match break_nl s with
  | (l, Some r) => l :: split_lines r
  | (l, None) => if bool_decide (s = "") then [] else [l]
  end.
Proof.
  destruct (break_nl s) as [l o] eqn:E. apply break_nl_spec in E as [Hl E].
  unfold split_lines. destruct o as [r|]; subst s.
  - rewrite Split_app by done. pose proof (Split_not_nil nl r).
    by destruct (Split nl r).
  - by rewrite Split_id.
Qed.

(** The scan of a stream gives its lines, up to the first that is too long. *)
Lemma scan_lines_reference b s ls st :
  scan_lines b s = (ls, st) → st ≠ StopData →
  until_too_long (split_lines s) = (ls, bool_decide (st = StopTooLong)).
Proof.
  remember (slen s) as n eqn:Hn. revert s ls Hn.
  induction n as [n IH] using lt_wf_ind. intros s ls ->.
  rewrite scan_lines_eq, split_lines_break. unfold Scan.
  destruct (break_nl s) as [l o] eqn:E. pose proof (break_nl_spec s l o E) as [Hl Hs].
  destruct o as [r|].
  - simpl. destruct (too_long l); [by intros [= <- <-]|].
    destruct (scan_lines b r) as [ls' st'] eqn:Er. intros [= <- ->] Hst.
    rewrite (IH (slen r)) with (s := r) (ls := ls'); [done| |done..].
    rewrite Hs, slen_app. simpl. lia.
  - destruct (decide (s = "")) as [H0|H0].
    + rewrite !(bool_decide_eq_true_2 (s = "")) by done. rewrite H0 in E. simpl in E. injection E as <-.
      change (too_long "") with false. cbn [negb]. by destruct b; simpl; intros [= <- <-].
    + rewrite !(bool_decide_eq_false_2 (s = "")) by done. simpl. destruct (too_long l); [by intros [= <- <-]|].
      destruct b; simpl; [|by intros [= <- <-]]. by intros [= <- <-].
Qed.

(** ** The goroutine *)

(** [g_read] are the bytes its Reads have given, [g_end] how the stream ended
    (with io.EOF or a read error), once a Read has said so, and [g_rest] the
    bytes in the scanner's buffer. *)
Record goroutine := mkGoroutine {
  g_name : string;
  g_read : string;
  g_end : option (option go_error);
  g_rest : string;
  g_done : bool }.

(** [go streamLogs(stream, status.Name, logger, &wg)]. *)
Definition spawn (name : string) : goroutine := mkGoroutine name "" None "" false.

Definition line_message (name line : string) : string := name +:+ ": " +:+ line +:+ NL.
Definition scan_error_message (name : string) (e : go_error) : string :=
  name +:+ ": scanning log lines failed: " +:+ Error e +:+ NL.

Definition finish (g : goroutine) : goroutine :=
  mkGoroutine (g_name g) (g_read g) (g_end g) (g_rest g) true.

Definition consume (rest : string) (g : goroutine) : goroutine :=
  mkGoroutine (g_name g) (g_read g) (g_end g) rest (g_done g).

Definition ended (g : goroutine) : bool := bool_decide (is_Some (g_end g)).

(** scanner.Err(): the read error that ended the stream, other than io.EOF. *)
Definition read_error (end_ : option (option go_error)) : option go_error := end_ ≫= id.

(** One turn of the loop, or the end of it, out of the bytes in the buffer: the
    message to log, if any, and the goroutine after it; [g_done] is the call of
    wg.Done. There is none while the goroutine waits in Read. *)
Definition streamLogs_step (g : goroutine) : option (option string * goroutine) :=
  match Scan (ended g) (g_rest g) with
  | Token l r => Some (Some (line_message (g_name g) l), consume r g)
  | TooLong => Some (Some (scan_error_message (g_name g) ErrTooLong), finish g)
  | AtEnd => Some (scan_error_message (g_name g) <$> read_error (g_end g), finish g)
  | NeedData => None
  end.

(** What a Read gives: bytes, as far as there are any, or the end of the stream.
    A stream that is followed may give nothing for any time. Reads that give
    nothing at all are passed over, and one that gives the last bytes together
    with the end is taken as two; a closed stream ends with a read error. *)
Inductive read_result :=
  | Data (bytes : string)
  | End (err : option go_error).

(** A Read returns to the goroutine that waits in it. *)
Definition streamLogs_read (r : read_result) (g : goroutine) : option goroutine :=
  match Scan (ended g) (g_rest g), r with
  | NeedData, Data "" => None
  | NeedData, Data d =>
      Some (mkGoroutine (g_name g) (g_read g +:+ d) (g_end g) (g_rest g +:+ d) (g_done g))
  | NeedData, End e => Some (mkGoroutine (g_name g) (g_read g) (Some e) (g_rest g) (g_done g))
  | _, _ => None
  end.

(** *** What it sends *)

Definition stop_message (name : string) (end_ : option (option go_error)) (st : scan_stop) : list string :=
  match st with
  | StopTooLong => [scan_error_message name ErrTooLong]
  | StopEnd => option_list (scan_error_message name <$> read_error end_)
  | StopData => []
  end.

(** The messages for a stream that has given these bytes, and has ended or not. *)
Definition stream_messages (name : string) (end_ : option (option go_error)) (s : string) : list string :=
  let '(ls, st) := scan_lines (bool_decide (is_Some end_)) s in
  (line_message name <$> ls) ++ stop_message name end_ st.

(** What the goroutine can send without a further Read. *)
Definition to_send (g : goroutine) : list string :=
  if g_done g then [] else stream_messages (g_name g) (g_end g) (g_rest g).

(** How the stream of a goroutine may go on. *)
Definition goes_on (g : goroutine) (end_ : option (option go_error)) (more : string) : Prop :=
  match g_end g with None => True | Some e => end_ = Some e ∧ more = "" end.

Definition after_lines (ls : list string) (r : list string * scan_stop) : list string * scan_stop :=
  (ls ++ r.1, r.2).

(** Along the turns of a goroutine, [sent] are the messages for the lines it has
    consumed and, when it has ended, for the reason. *)
Definition streaming (g : goroutine) (sent : list string) : Prop :=
  ∃ ls,
    (∀ e s, goes_on g e s →
       scan_lines (bool_decide (is_Some e)) (g_read g +:+ s) =
       after_lines ls (scan_lines (bool_decide (is_Some e)) (g_rest g +:+ s))) ∧
    if g_done g then
      ∃ st, st ≠ StopData ∧
        (∀ e s, goes_on g e s → scan_lines (bool_decide (is_Some e)) (g_rest g +:+ s) = ([], st)) ∧
        sent = (line_message (g_name g) <$> ls) ++ stop_message (g_name g) (g_end g) st
    else sent = line_message (g_name g) <$> ls.

Lemma streaming_spawn name : streaming (spawn name) [].
Proof. exists []. split; [|done]. intros e s _. by destruct (scan_lines _ _). Qed.

Lemma goes_on_now g : goes_on g (g_end g) "".
Proof. unfold goes_on. by destruct (g_end g). Qed.

(** A turn sends one message more. *)
Lemma streaming_step g m g' sent :
  g_done g = false → streamLogs_step g = Some (m, g') → streaming g sent → streaming g' (sent ++ option_list m).
Proof.
  intros Hd E (ls & Hls & Hs). rewrite Hd in Hs. subst sent. unfold streamLogs_step, ended in E.
  assert (∀ g', g_end g' = g_end g → ∀ e s, goes_on g' e s → goes_on g e s) as Hgo by (unfold goes_on; by intros ? ->).
  destruct (Scan _ (g_rest g)) as [l r| | |] eqn:Es; [| | |done]; injection E as <- <-.
  - exists (ls ++ [l]). split; [|simpl; by rewrite Hd, fmap_app].
    intros e s Hg. cbn [consume g_read g_rest]. rewrite Hls by (by eapply Hgo).
    assert (Scan (bool_decide (is_Some e)) (g_rest g +:+ s) = Token l (r +:+ s)) as Et.
    { unfold goes_on in Hg. cbn [consume g_end] in Hg. destruct (g_end g) as [e0|]; [|by apply Scan_Token_more].
      destruct Hg as [-> ->]. by rewrite !sapp_nil_r. }
    rewrite (scan_lines_eq _ (g_rest g +:+ s)), Et. unfold after_lines. destruct (scan_lines _ (r +:+ s)) as [l2 st]. cbn [fst snd].
    by rewrite <- app_assoc.
  - exists ls. split; [exact Hls|]. exists StopTooLong. split; [done|]. split; [|done].
    intros e s _. cbn [finish g_rest]. by rewrite scan_lines_eq, (Scan_TooLong_more _ _ _ _ Es).
  - apply Scan_AtEnd_inv in Es as [He%bool_decide_eq_true Hr]. exists ls. split; [exact Hls|].
    exists StopEnd. split; [done|]. split; [|done].
    intros e s Hg. unfold goes_on in Hg. cbn [finish g_end] in Hg. destruct He as [e0 He]. rewrite He in Hg. destruct Hg as [-> ->].
    cbn [finish g_rest]. rewrite Hr. done.
Qed.

(** A Read sends nothing. *)
Lemma streaming_read g r g' sent :
  g_done g = false → streamLogs_read r g = Some g' → streaming g sent → streaming g' sent.
Proof.
  intros Hd E (ls & Hls & Hs). rewrite Hd in Hs. unfold streamLogs_read, ended in E.
  destruct (Scan _ (g_rest g)) eqn:Es; try (by destruct r as [[]|]).
  assert (g_end g = None) as Hn.
  { destruct (g_end g) as [e0|] eqn:He; [|done]. exfalso. revert Es. unfold Scan. simpl.
    by destruct (break_nl (g_rest g)) as [l [?|]]; destruct (too_long l); try case_bool_decide. }
  unfold goes_on in Hls. rewrite Hn in Hls.
  destruct r as [[|a d]|e0]; [done|..]; injection E as <-; exists ls; (split; [|simpl; by rewrite Hd]).
  - intros e s _. cbn [g_read g_rest]. rewrite <- !sapp_assoc. by apply Hls.
  - intros e s [-> ->]. cbn [g_read g_rest]. by apply Hls.
Qed.

(** So at every moment the messages sent and those for the bytes in the buffer
    are the messages for the bytes read. *)
Lemma streaming_messages g sent :
  streaming g sent → stream_messages (g_name g) (g_end g) (g_read g) = sent ++ to_send g.
Proof.
  intros (ls & Hls & Hs). specialize (Hls _ _ (goes_on_now g)). rewrite !sapp_nil_r in Hls.
  unfold to_send, stream_messages. rewrite Hls. unfold after_lines. destruct (g_done g).
  - destruct Hs as (st & _ & Hst & ->). specialize (Hst _ _ (goes_on_now g)). rewrite sapp_nil_r in Hst.
    rewrite Hst. cbn [fst snd]. by rewrite !app_nil_r.
  - subst sent. destruct (scan_lines _ (g_rest g)) as [l2 st]. cbn [fst snd]. by rewrite fmap_app, app_assoc.
Qed.

(** And they are a beginning of the messages for the whole stream, however it
    goes on. *)
Lemma streaming_prefix g sent e s :
  streaming g sent → goes_on g e s → sent `prefix_of` stream_messages (g_name g) e (g_read g +:+ s).
Proof.
  intros (ls & Hls & Hs) Hg. specialize (Hls _ _ Hg). unfold stream_messages. rewrite Hls. unfold after_lines.
  destruct (g_done g).
  - destruct Hs as (st & Hst & Hrest & ->). rewrite (Hrest _ _ Hg). cbn [fst snd]. rewrite app_nil_r.
    apply prefix_app. assert (stop_message (g_name g) (g_end g) st = stop_message (g_name g) e st) as ->; [|done].
    destruct st; [done| |done]. specialize (Hrest _ _ (goes_on_now g)).
    unfold goes_on in Hg. destruct (g_end g) as [e0|]; [by destruct Hg as [-> _]|]. exfalso.
    pose proof (scan_lines_open (g_rest g +:+ "")) as Ho. simpl in Hrest. by rewrite Hrest in Ho.
  - subst sent. destruct (scan_lines _ (g_rest g +:+ s)) as [l2 st]. cbn [fst snd]. rewrite fmap_app, <- app_assoc.
    by apply prefix_app_r.
Qed.

(** The messages for a stream that was read as far as its goroutine reads. *)
Definition whole_log (name : string) (end_ : option (option go_error)) (bytes : string) (sent : list string) : Prop :=
  (∃ e, end_ = Some e ∧ Forall (λ l, too_long l = false) (split_lines bytes) ∧
     sent = (line_message name <$> (dropCR <$> split_lines bytes)) ++ option_list (scan_error_message name <$> e)) ∨
  (∃ before l after, split_lines bytes = before ++ l :: after ∧
     Forall (λ l, too_long l = false) before ∧ too_long l = true ∧
     sent = (line_message name <$> (dropCR <$> before)) ++ [scan_error_message name ErrTooLong]).

Lemma until_too_long_spec l ls b :
  until_too_long l = (ls, b) →
  if b then ∃ before x after, l = before ++ x :: after ∧ Forall (λ l, too_long l = false) before ∧
              too_long x = true ∧ ls = dropCR <$> before
  else Forall (λ l, too_long l = false) l ∧ ls = dropCR <$> l.
Proof.
  revert ls b. induction l as [|x l IH]; intros ls b; simpl; [by intros [= <- <-]|].
  destruct (too_long x) eqn:Hx.
  - intros [= <- <-]. exists [], x, l. done.
  - destruct (until_too_long l) as [ls' b'] eqn:E. intros [= <- <-]. specialize (IH _ _ eq_refl). destruct b'.
    + destruct IH as (before & y & after & -> & Hb & Hy & ->). exists (x :: before), y, after. split; [done|].
      split; [by constructor|]. done.
    + destruct IH as [Hl ->]. split; [by constructor|done].
Qed.

Lemma streaming_done g sent :
  streaming g sent → g_done g = true → whole_log (g_name g) (g_end g) (g_read g) sent.
Proof.
  intros (ls & Hls & Hs) Hd. rewrite Hd in Hs. destruct Hs as (st & Hst & Hrest & ->).
  specialize (Hls _ _ (goes_on_now g)). specialize (Hrest _ _ (goes_on_now g)). rewrite Hrest in Hls.
  rewrite sapp_nil_r in Hls, Hrest. unfold after_lines in Hls. cbn [fst snd] in Hls. rewrite app_nil_r in Hls.
  pose proof (scan_lines_reference _ _ _ _ Hls Hst) as Hu. apply until_too_long_spec in Hu.
  destruct st; [|cbn in Hu|done].
  - right. rewrite bool_decide_eq_true_2 in Hu by done. destruct Hu as (before & x & after & E & Hb & Hx & ->).
    by exists before, x, after.
  - left. rewrite bool_decide_eq_false_2 in Hu by done. destruct Hu as [Hf ->].
    destruct (g_end g) as [e|] eqn:He; [by exists e|].
    exfalso. pose proof (scan_lines_open (g_rest g)) as Ho. simpl in Hrest. by rewrite Hrest in Ho.
Qed.

(** A measure that every turn decreases, and every Read that ends the stream. *)
Definition turns_left (g : goroutine) : nat :=
  if g_done g then 0 else S (slen (g_rest g)) + (if ended g then 0 else 1).

Lemma streamLogs_step_turns g m g' :
  g_done g = false → streamLogs_step g = Some (m, g') → turns_left g' < turns_left g.
Proof.
  intros Hd. unfold streamLogs_step, turns_left. rewrite Hd.
  destruct (Scan _ (g_rest g)) as [l r| | |] eqn:E; [| | |done]; intros [= <- <-]; simpl; [|lia..].
  rewrite Hd. apply Scan_Token_shorter in E. unfold ended. simpl. lia.
Qed.

Lemma streamLogs_end_turns g e g' :
  g_done g = false → streamLogs_read (End e) g = Some g' → turns_left g' < turns_left g.
Proof.
  intros Hd. unfold streamLogs_read, turns_left. rewrite Hd. unfold ended.
  destruct (g_end g) as [e0|].
  - simpl. unfold Scan. destruct (break_nl (g_rest g)) as [l [?|]]; destruct (too_long l); try done. simpl. by case_bool_decide.
  - destruct (Scan _ (g_rest g)); try done. intros [= <-]. simpl. lia.
Qed.

Lemma streamLogs_step_name g m g' : streamLogs_step g = Some (m, g') → g_name g' = g_name g.
Proof. unfold streamLogs_step. by case_match; intros [= <- <-]. Qed.

Lemma streamLogs_step_read g m g' :
  streamLogs_step g = Some (m, g') → g_read g' = g_read g ∧ g_end g' = g_end g.
Proof. unfold streamLogs_step. by case_match; intros [= <- <-]. Qed.

Lemma streamLogs_read_name r g g' : streamLogs_read r g = Some g' → g_name g' = g_name g ∧ g_done g' = g_done g.
Proof. unfold streamLogs_read. by repeat case_match; intros [= <-]. Qed.

(** A goroutine moves, or it waits for what a Read will give. *)
Lemma streamLogs_waits g :
  (∃ r, streamLogs_step g = Some r) ∨
  (streamLogs_step g = None ∧ (∀ d, d ≠ "" → is_Some (streamLogs_read (Data d) g)) ∧
   ∀ e, is_Some (streamLogs_read (End e) g)).
Proof.
  unfold streamLogs_step, streamLogs_read. destruct (Scan _ (g_rest g)); [left; by eexists..|].
  right. split; [done|]. split; [intros [|a d] H; [done|by eexists]|intros e; by eexists].
Qed.
