(* ===== verification/SerializedStream.v ===== *)
(** * The serialized response streams

    pkg/k8sbuilder/server.go, serializedBuildStream and serializedRunStream:
    the handler and the log goroutines write to one gRPC stream, whose Send
    must not be called by two of them at once, so Send is wrapped in a mutex.
    The two types are the same code at two message types; the model is one
    transition system of threads that call Log. The atomic system below is
    what the rest of the development uses for Log ([KubeApi.send]); the
    theorems show that the code with its mutex implements it. *)
From S2P Require Import Prelude GoStrings.

(** ** The code: Log, Send, Lock, inner Send, Unlock *)

(** Where a thread is in [Log msg]. *)
Inductive send_pc :=
  | Outside                    (* between two calls of Log *)
  | Locking (msg : string)     (* in Send, before s.mutex.Lock() *)
  | Locked (msg : string)      (* holds the mutex, inner Send not called yet *)
  | Sending (msg : string)     (* inside the inner Send *)
  | Unlocking.                 (* inner Send returned, deferred Unlock to run *)

Record thread := mkThread { t_pc : send_pc; t_script : list string }.

(** [wire] is what the inner stream has sent, with the thread that sent it. *)
Record serialized := mkSerialized {
  threads : list thread;
  mutex : option nat;
  wire : list (nat * string) }.

Definition set_thread (i : nat) (t : thread) (m : option nat) (w : list (nat * string))
    (s : serialized) : serialized :=
  mkSerialized (<[i := t]> (threads s)) m w.

Inductive send_step : serialized → serialized → Prop :=
  | step_call i msg ms s :
      threads s !! i = Some (mkThread Outside (msg :: ms)) →
      send_step s (set_thread i (mkThread (Locking msg) ms) (mutex s) (wire s) s)
  | step_lock i msg ms s :
      threads s !! i = Some (mkThread (Locking msg) ms) → mutex s = None →
      send_step s (set_thread i (mkThread (Locked msg) ms) (Some i) (wire s) s)
  | step_begin i msg ms s :
      threads s !! i = Some (mkThread (Locked msg) ms) →
      send_step s (set_thread i (mkThread (Sending msg) ms) (mutex s) (wire s) s)
  | step_end i msg ms s :
      threads s !! i = Some (mkThread (Sending msg) ms) →
      send_step s
        (set_thread i (mkThread Unlocking ms) (mutex s) (wire s ++ [(i, msg)]) s)
  | step_unlock i ms s :
      threads s !! i = Some (mkThread Unlocking ms) →
      send_step s (set_thread i (mkThread Outside ms) None (wire s) s).

Definition send_init (scripts : list (list string)) : serialized :=
  mkSerialized (mkThread Outside <$> scripts) None [].

Definition send_reachable (scripts : list (list string)) : serialized → Prop :=
  rtc send_step (send_init scripts).

(** The thread is between Lock and Unlock. *)
Definition in_critical (t : thread) : bool :=
  match t_pc t with Locked _ | Sending _ | Unlocking => true | _ => false end.

(** The thread is inside the inner Send. *)
Definition in_flight (t : thread) : bool :=
  match t_pc t with Sending _ => true | _ => false end.

(** ** The mutex invariant *)

Definition mutex_inv (s : serialized) : Prop :=
  ∀ i t, threads s !! i = Some t → in_critical t = true → mutex s = Some i.

Lemma mutex_inv_init scripts : mutex_inv (send_init scripts).
Proof.
  intros i t. simpl. rewrite list_lookup_fmap.
  destruct (scripts !! i); intros [= <-]. done.
Qed.

Lemma lookup_set_thread i t m w s j t' :
  threads (set_thread i t m w s) !! j = Some t' →
  (j = i ∧ t' = t) ∨ (j ≠ i ∧ threads s !! j = Some t').
Proof.
  simpl. intros [(-> & <- & _)|[? ?]]%list_lookup_insert_Some; [by left|by right].
Qed.

Lemma mutex_inv_step s s' : mutex_inv s → send_step s s' → mutex_inv s'.
Proof.
  intros Hinv Hstep j t Hj Hc.
  inversion Hstep as [i|i ??? Hi|i|i|i ?? Hi]; subst;
    apply lookup_set_thread in Hj as [[-> ->]|[Hne Hj]];
    simpl in *; try done; try (by eapply Hinv).
  - specialize (Hinv _ _ Hj Hc). congruence.
  - pose proof (Hinv _ _ Hj Hc). pose proof (Hinv _ _ Hi eq_refl). congruence.
Qed.

Lemma mutex_inv_reachable scripts s : send_reachable scripts s → mutex_inv s.
Proof.
  apply rtc_invariant; eauto using mutex_inv_init, mutex_inv_step.
Qed.

(** ** The atomic system: one step of Log appends the message *)

Record atomic := mkAtomic {
  a_scripts : list (list string);
  a_wire : list (nat * string) }.

Inductive atomic_step : atomic → atomic → Prop :=
  | step_Log i msg ms a :
      a_scripts a !! i = Some (msg :: ms) →
      atomic_step a (mkAtomic (<[i := ms]> (a_scripts a)) (a_wire a ++ [(i, msg)])).

(** A message counts as unsent until the inner Send returns. *)
Definition unsent (t : thread) : list string :=
  match t_pc t with
  | Locking m | Locked m | Sending m => m :: t_script t
  | Outside | Unlocking => t_script t
  end.

Definition abstract (s : serialized) : atomic :=
  mkAtomic (unsent <$> threads s) (wire s).

Lemma abstract_stutter i t t' m s :
  threads s !! i = Some t → unsent t' = unsent t →
  abstract (set_thread i t' m (wire s) s) = abstract s.
Proof.
  intros Hi Hu. unfold abstract. simpl. f_equal.
  rewrite list_fmap_insert, Hu. apply list_insert_id.
  by rewrite list_lookup_fmap, Hi.
Qed.

Lemma send_step_simulation s s' :
  send_step s s' → abstract s' = abstract s ∨ atomic_step (abstract s) (abstract s').
Proof.
  intros Hstep. inversion Hstep as [?????|?????|?????|i msg ms ? Hi|????]; subst;
    try (left; by eapply abstract_stutter).
  right. unfold abstract at 2. simpl. rewrite list_fmap_insert.
  apply (step_Log i msg ms (abstract s)). simpl.
  by rewrite list_lookup_fmap, Hi.
Qed.

Lemma serialized_refines_atomic scripts s :
  send_reachable scripts s → rtc atomic_step (mkAtomic scripts []) (abstract s).
Proof.
  revert s. apply rtc_ind_r; [|intros s s' _ Hstep IH].
  - unfold send_init, abstract. simpl. rewrite <- list_fmap_compose.
    replace ((unsent ∘ mkThread Outside) <$> scripts) with scripts; [done|].
    symmetry. etrans; [|apply list_fmap_id]. by apply list_fmap_ext.
  - destruct (send_step_simulation s s' Hstep) as [->|?]; [done|].
    by eapply rtc_r.
Qed.

(** What thread i has sent. *)
Definition sent_by (i : nat) (w : list (nat * string)) : list string :=
  snd <$> filter (λ m, m.1 = i) w.

Lemma sent_by_app i w w' : sent_by i (w ++ w') = sent_by i w ++ sent_by i w'.
Proof. unfold sent_by. by rewrite filter_app, fmap_app. Qed.

Lemma atomic_order scripts a i script :
  rtc atomic_step (mkAtomic scripts []) a → scripts !! i = Some script →
  ∃ rest, a_scripts a !! i = Some rest ∧ script = sent_by i (a_wire a) ++ rest.
Proof.
  intros H Hi. revert a H. apply rtc_ind_r; [by eauto|intros a a' _ Hstep IH].
  destruct IH as (rest & Hr & ->). inversion Hstep as [j msg ms ? Hj]; subst; simpl.
  rewrite sent_by_app. destruct (decide (j = i)) as [->|Hne].
  - rewrite Hr in Hj. injection Hj as ->. exists ms.
    rewrite list_lookup_insert_eq by (by eapply lookup_lt_Some).
    split; [done|]. unfold sent_by at 3. rewrite filter_cons_True by done.
    simpl. by rewrite <- app_assoc.
  - exists rest. rewrite list_lookup_insert_ne by done. split; [done|].
    unfold sent_by at 3. rewrite filter_cons_False by done. simpl.
    by rewrite app_nil_r.
Qed.

(** ** Progress *)

(** Steps a thread has still to make. *)
Definition thread_work (t : thread) : nat :=
  5 * length (t_script t) +
  match t_pc t with Outside => 0 | Unlocking => 1 | Sending _ => 2 | Locked _ => 3 | Locking _ => 4 end.

Definition work (s : serialized) : nat := sum_list (thread_work <$> threads s).

Lemma sum_list_insert (l : list nat) i x y :
  l !! i = Some x → sum_list (<[i := y]> l) + x = sum_list l + y.
Proof.
  revert i. induction l as [|z l IH]; intros [|i]; simpl; try done.
  - intros [= ->]. lia.
  - intros H. specialize (IH i H). lia.
Qed.

Lemma work_step s s' : send_step s s' → work s' < work s.
Proof.
  intros Hstep. unfold work.
  inversion Hstep as [i msg ms ? Hi|i msg ms ? Hi|i msg ms ? Hi|i msg ms ? Hi|i ms ? Hi]; subst;
    cbn [set_thread threads]; rewrite list_fmap_insert;
    (match type of Hi with _ = Some ?t => match goal with |- sum_list (<[i := ?y]> ?l) < _ =>
       assert (Hl := sum_list_insert l i (thread_work t) y);
       rewrite list_lookup_fmap, Hi in Hl; specialize (Hl eq_refl) end end);
    unfold thread_work in *; cbn [t_pc t_script length] in *; lia.
Qed.

Lemma send_step_terminates s : Acc (flip send_step) s.
Proof.
  remember (work s) as n eqn:E. revert s E.
  induction (lt_wf n) as [n _ IH]. intros s ->. constructor. intros s' Hs.
  by apply (IH (work s')); [apply work_step|].
Qed.

(** A thread that waits for the mutex waits for one that can go on. *)
Lemma stuck_all_done s :
  mutex_inv s → (∀ i, mutex s = Some i → ∃ t, threads s !! i = Some t ∧ in_critical t = true) →
  (∀ s', ¬ send_step s s') → ∀ i t, threads s !! i = Some t → t = mkThread Outside [].
Proof.
  intros Hinv Hheld Hstuck i [pc ms] Hi. destruct pc as [|msg|msg|msg|].
  - destruct ms as [|msg ms]; [done|]. by destruct (Hstuck _ (step_call i msg ms s Hi)).
  - destruct (mutex s) as [j|] eqn:Hm; [|by destruct (Hstuck _ (step_lock i msg ms s Hi Hm))].
    destruct (Hheld j eq_refl) as ([pc' ms'] & Hj & Hc). destruct pc' as [| | | |]; try done.
    + by destruct (Hstuck _ (step_begin j _ ms' s Hj)).
    + by destruct (Hstuck _ (step_end j _ ms' s Hj)).
    + by destruct (Hstuck _ (step_unlock j ms' s Hj)).
  - by destruct (Hstuck _ (step_begin i msg ms s Hi)).
  - by destruct (Hstuck _ (step_end i msg ms s Hi)).
  - by destruct (Hstuck _ (step_unlock i ms s Hi)).
Qed.

(** The mutex is held by a thread between Lock and Unlock. *)
Definition held (s : serialized) : Prop :=
  ∀ i, mutex s = Some i → ∃ t, threads s !! i = Some t ∧ in_critical t = true.

Lemma held_set i t t0 w s :
  threads s !! i = Some t0 → in_critical t = true → held (set_thread i t (Some i) w s).
Proof.
  intros Hi Hc j [= <-]. exists t. simpl. split; [|done].
  apply list_lookup_insert_eq. by eapply lookup_lt_Some.
Qed.

Lemma held_step s s' : mutex_inv s → held s → send_step s s' → held s'.
Proof.
  intros Hinv Hheld Hstep.
  inversion Hstep as [i msg ms ? Hi|i msg ms ? Hi Hm|i msg ms ? Hi|i msg ms ? Hi|i ms ? Hi]; subst.
  - intros j Hj. simpl in Hj. destruct (Hheld j Hj) as (t & Ht & Hc). exists t. simpl. split; [|done].
    rewrite list_lookup_insert_ne; [done|]. intros <-. rewrite Hi in Ht. by injection Ht as <-.
  - by eapply held_set.
  - rewrite (Hinv _ _ Hi eq_refl). by eapply held_set.
  - rewrite (Hinv _ _ Hi eq_refl). by eapply held_set.
  - by intros j.
Qed.

Lemma held_reachable scripts s : send_reachable scripts s → held s.
Proof.
  apply rtc_invariant; [by intros i|]. intros y z Hy Hh. apply held_step; [|done].
  by eapply mutex_inv_reachable.
Qed.

(** ** Properties *)

(** C7: whatever the interleaving of the threads, at most one call of the inner
    Send is under way, the stream is one that atomic calls of Log can produce,
    and what it has of a thread is a first part of what the thread logs, in
    the thread's order. *)
Theorem send_serialized scripts s :
  send_reachable scripts s →
  (∀ i j t t', threads s !! i = Some t → threads s !! j = Some t' →
     in_flight t = true → in_flight t' = true → i = j) ∧
  rtc atomic_step (mkAtomic scripts []) (abstract s) ∧
  ∀ i script, scripts !! i = Some script → sent_by i (wire s) `prefix_of` script.
Proof.
  intros Hs. split; [|split].
  - intros i j t t' Hi Hj Hf Hf'. pose proof (mutex_inv_reachable _ _ Hs) as Hinv.
    assert (∀ t, in_flight t = true → in_critical t = true) as Hfc by (by intros [[] ?]).
    pose proof (Hinv _ _ Hi (Hfc _ Hf)). pose proof (Hinv _ _ Hj (Hfc _ Hf')). congruence.
  - by apply serialized_refines_atomic.
  - intros i script Hi. destruct (atomic_order scripts (abstract s) i script) as (rest & _ & ->);
      [by apply serialized_refines_atomic|done|]. by exists rest.
Qed.

(** C39: the threads never block each other for good: every run ends, and it
    ends only when all that the threads log has been sent, each thread's
    messages in its order. *)
Theorem send_delivers scripts s :
  send_reachable scripts s →
  Acc (flip send_step) s ∧
  ((∀ s', ¬ send_step s s') → ∀ i script, scripts !! i = Some script → sent_by i (wire s) = script).
Proof.
  intros Hs. split; [apply send_step_terminates|]. intros Hstuck i script Hi.
  destruct (atomic_order scripts (abstract s) i script) as (rest & Hr & E);
    [by apply serialized_refines_atomic|done|].
  cbn [a_scripts abstract] in Hr. rewrite list_lookup_fmap in Hr.
  destruct (threads s !! i) as [t|] eqn:Ht; [|done]. injection Hr as <-.
  rewrite (stuck_all_done s (mutex_inv_reachable _ _ Hs) (held_reachable _ _ Hs) Hstuck i t Ht) in E.
  by rewrite app_nil_r in E.
Qed.

(** ** Witnesses *)
Module Demo.
(** Two threads, of which the first is sending. *)
Definition scripts : list (list string) := [["a"; "b"]; ["c"]].
Definition sending : serialized :=
  mkSerialized [mkThread (Sending "a") ["b"]; mkThread (Locking "c") []] (Some 0) [].

Lemma sending_reachable : send_reachable scripts sending.
Proof.
  unfold send_reachable.
  eapply rtc_l; [apply (step_call 0 "a" ["b"]); reflexivity|].
  eapply rtc_l; [apply (step_call 1 "c" []); reflexivity|].
  eapply rtc_l; [apply (step_lock 0 "a" ["b"]); reflexivity|].
  eapply rtc_l; [apply (step_begin 0 "a" ["b"]); reflexivity|]. apply rtc_refl.
Defined.
End Demo.

Lemma send_serialized_witness : sent_by 0 (wire Demo.sending) `prefix_of` ["a"; "b"].
Proof.
  destruct (send_serialized Demo.scripts Demo.sending Demo.sending_reachable) as (_ & _ & H).
  by apply H.
Defined.

Lemma send_delivers_witness : Acc (flip send_step) Demo.sending.
Proof. apply (send_delivers Demo.scripts Demo.sending Demo.sending_reachable). Defined.
