(* ===== verification/ExecutePod.v ===== *)
(** * Executing a pod

    pkg/k8sbuilder/server.go, executePod: the handler watches a pod it has
    created, starts one goroutine per container log, and returns when the pod
    ends, the watch ends or the call is cancelled. The select loop, the loop
    over container statuses, wg.Wait and the deferred calls are the states of
    a machine that runs beside the goroutines of [LogStream]; the scheduler,
    the API server's events and what the log streams give are the labels of its
    steps. A schedule makes the machine a function ([exec_run]), which Build and
    Run call. *)
From S2P Require Import Prelude GoStrings KubeTypes KubeApi LogStream.

(** ** Events and scheduling choices *)

Inductive Stage := BUILD | RUN.

#[export] Instance Stage_eq_dec : EqDecision Stage.
Proof. solve_decision. Defined.

Inductive event_type := Added | Modified | Deleted | Bookmark | WatchError.

(** The object of a watch event: the pod, when it is one, and what %v prints. *)
Record watch_event := mkWatchEvent {
  ev_Type : event_type; ev_Pod : option Pod; ev_text : string }.

(** What the select statement receives. *)
Inductive input :=
  | CtxDone (err : string)
  | WatchClosed
  | WatchEvent (ev : watch_event).

(** Which part of the program moves next: the select statement receives an
    input, the handler makes one step of its own, a goroutine makes one turn,
    or the Read in which a goroutine waits returns. *)
Inductive choice :=
  | Select (i : input)
  | MainStep
  | LogStep (n : nat)
  | LogRead (n : nat) (r : read_result).

(** ** The state of a call *)

Inductive deferred :=
  | StopWatch                      (* defer watcher.Stop() *)
  | DeletePodNamed (name : string) (* defer b.deletePod(pod.Name, logger) *)
  | CloseStream (n : nat).         (* defer func() { stream.Close() ... }() *)

Inductive main_pc :=
  | AtSelect
  | Scanning (p : Pod) (todo : list ContainerStatus)
  | Waiting (p : Pod)
  | Unwinding (r : outcome unit)
  | Returned (r : outcome unit).

(** [es_active] is activeLogStreams, with the goroutine each entry started;
    [es_defers] is the stack of deferred calls, the latest first. *)
Record exec_state (W : Type) := mkExec {
  es_k : kworld W;
  es_active : gmap string nat;
  es_gos : list goroutine;
  es_defers : list deferred;
  es_pc : main_pc }.
Arguments mkExec {W} _ _ _ _ _.
Arguments es_k {W} _.
Arguments es_active {W} _.
Arguments es_gos {W} _.
Arguments es_defers {W} _.
Arguments es_pc {W} _.

Definition containerStatuses (p : Pod) : list ContainerStatus :=
  pst_InitContainerStatuses (pod_Status p) ++ pst_ContainerStatuses (pod_Status p).

Definition ErrPodFailed : go_error := ErrorString "pod terminated: pod status is failed".
Definition ErrWatchClosed : go_error :=
  ErrorString "execute pod: watch closed before pod termination".

Definition terminal (p : Pod) : bool :=
  match pst_Phase (pod_Status p) with PodFailed | PodSucceeded => true | _ => false end.

(** What the function returns when the pod has ended. *)
Definition pod_result (p : Pod) : outcome unit :=
  match pst_Phase (pod_Status p) with PodFailed => Err ErrPodFailed | _ => Ok tt end.

Section exec.
Context {W : Type} `{KubeClient W}.
Implicit Types (s : exec_state W).

Definition set_pc (pc : main_pc) s : exec_state W :=
  mkExec (es_k s) (es_active s) (es_gos s) (es_defers s) pc.
Definition set_k (k : kworld W) s : exec_state W :=
  mkExec k (es_active s) (es_gos s) (es_defers s) (es_pc s).
Definition set_go (n : nat) (g : goroutine) s : exec_state W :=
  mkExec (es_k s) (es_active s) (<[n := g]> (es_gos s)) (es_defers s) (es_pc s).

(** *** The branches of the select statement *)

Definition select_step (i : input) s : exec_state W :=
  match i with
  | CtxDone e => set_pc (Unwinding (Err (ErrorString ("execute pod: " +:+ e)))) s
  | WatchClosed => set_pc (Unwinding (Err ErrWatchClosed)) s
  | WatchEvent ev =>
      match ev_Type ev with
      | Added | Modified =>
          match ev_Pod ev with
          | Some p => set_pc (Scanning p (containerStatuses p)) s
          | None => set_pc (Unwinding (Panic "interface conversion: not *v1.Pod")) s
          end
      | WatchError =>
          set_pc (Unwinding (Err (ErrorString
            ("error event from watch: " +:+ ev_text ev)))) s
      | Deleted | Bookmark => s
      end
  end.

(** *** The loop over the container statuses *)

Definition started (st : ContainerStatus) : bool :=
  cs_Running (cst_State st) || bool_decide (is_Some (cs_Terminated (cst_State st))).

Definition log_options (st : ContainerStatus) : PodLogOptions :=
  mkPodLogOptions (cst_Name st) (cs_Running (cst_State st)).

(** One status: open its log stream, unless it is waiting or already open. *)
Definition status_step (p : Pod) (st : ContainerStatus) s : exec_state W :=
  if negb (started st) then s
  else match es_active s !! cst_Name st with
  | Some _ => s
  | None =>
      let '(r, k) := call (PodGetLogs (pod_Name p) (log_options st))
                          (pods_GetLogs (pod_Name p) (log_options st)) (es_k s) in
      match r with
      | Ok _ =>
          let n := length (es_gos s) in
          mkExec k (<[cst_Name st := n]> (es_active s))
            (es_gos s ++ [spawn (cst_Name st)])
            (CloseStream n :: es_defers s) (es_pc s)
      | Err e =>
          set_k (send FromMain (pod_Name p +:+ ": get logs: " +:+ Error e +:+ NL) k) s
      | _ => set_k k s
      end
  end.

(** *** The deferred calls

    Closing a stream may make a Read that waits for it return, with an error;
    a Read may return an error at any time, so nothing else depends on it. *)

(** deletePod deletes a pod and logs an error. *)
Definition deletePod (name : string) : M (kworld W) unit :=
  r ← attempt (call (PodDelete name) (pods_Delete name));
  match r with
  | inl e => Log ("pod delete: " +:+ Error e +:+ NL)
  | inr _ => mret tt
  end.

Definition stopWatch : M (kworld W) unit :=
  call PodWatchStop (λ w, (inr tt, pods_WatchStop w)).

Definition closeStream (n : nat) : M (kworld W) unit :=
  r ← attempt (call (PodLogClose n) pods_LogClose);
  match r with
  | inl e => Log ("Error closing stream: " +:+ Error e +:+ NL)
  | inr _ => mret tt
  end.

Definition run_deferred (d : deferred) s : exec_state W :=
  match d with
  | StopWatch => set_k (stopWatch (es_k s)).2 s
  | DeletePodNamed name => set_k (deletePod name (es_k s)).2 s
  | CloseStream n => set_k (closeStream n (es_k s)).2 s
  end.

(** *** One step of the handler that receives no input *)

Definition main_step s : option (exec_state W) :=
  match es_pc s with
  | AtSelect | Returned _ => None
  | Scanning p (st :: todo) => Some (set_pc (Scanning p todo) (status_step p st s))
  | Scanning p [] => Some (set_pc (if terminal p then Waiting p else AtSelect) s)
  | Waiting p =>
      if forallb g_done (es_gos s) then Some (set_pc (Unwinding (pod_result p)) s)
      else None
  | Unwinding r =>
      match es_defers s with
      | d :: ds =>
          Some (run_deferred d
                  (mkExec (es_k s) (es_active s) (es_gos s) ds (es_pc s)))
      | [] => Some (set_pc (Returned r) s)
      end
  end.

(** *** One step of a goroutine *)

Definition deliver (n : nat) (r : option string * goroutine) s : exec_state W :=
  let s' := set_go n r.2 s in
  match r.1 with
  | Some m => set_k (send (FromStream n) m (es_k s)) s'
  | None => s'
  end.

(** *** The machine *)

Definition exec1 (ch : choice) s : option (exec_state W) :=
  match ch with
  | Select i => match es_pc s with AtSelect => Some (select_step i s) | _ => None end
  | MainStep => main_step s
  | LogStep n =>
      match es_gos s !! n with
      | Some g => if g_done g then None else (λ r, deliver n r s) <$> streamLogs_step g
      | None => None
      end
  | LogRead n r =>
      match es_gos s !! n with
      | Some g => if g_done g then None else (λ g', set_go n g' s) <$> streamLogs_read r g
      | None => None
      end
  end.

(** The same machine as a relation, rule by rule. *)
Inductive exec_step s : choice → exec_state W → Prop :=
  | es_select i :
      es_pc s = AtSelect → exec_step s (Select i) (select_step i s)
  | es_status p st todo :
      es_pc s = Scanning p (st :: todo) →
      exec_step s MainStep (set_pc (Scanning p todo) (status_step p st s))
  | es_scanned p :
      es_pc s = Scanning p [] →
      exec_step s MainStep (set_pc (if terminal p then Waiting p else AtSelect) s)
  | es_waited p :
      es_pc s = Waiting p → (∀ g, g ∈ es_gos s → g_done g = true) →
      exec_step s MainStep (set_pc (Unwinding (pod_result p)) s)
  | es_unwind r d ds :
      es_pc s = Unwinding r → es_defers s = d :: ds →
      exec_step s MainStep
        (run_deferred d (mkExec (es_k s) (es_active s) (es_gos s) ds (es_pc s)))
  | es_return r :
      es_pc s = Unwinding r → es_defers s = [] →
      exec_step s MainStep (set_pc (Returned r) s)
  | es_log n g r :
      es_gos s !! n = Some g → g_done g = false → streamLogs_step g = Some r →
      exec_step s (LogStep n) (deliver n r s)
  | es_read n r g g' :
      es_gos s !! n = Some g → g_done g = false → streamLogs_read r g = Some g' →
      exec_step s (LogRead n r) (set_go n g' s).

Lemma exec1_step ch s s' : exec1 ch s = Some s' ↔ exec_step s ch s'.
Proof.
  split.
  - destruct ch as [i| |n|n r]; simpl.
    + destruct (es_pc s) eqn:Epc; [intros [= <-]|done..]. by constructor.
    + unfold main_step. destruct (es_pc s) as [|p [|st todo]|p|r|r] eqn:Epc; [done| | | | |done].
      * intros [= <-]. by constructor.
      * intros [= <-]. by eapply es_status.
      * destruct (forallb g_done (es_gos s)) eqn:Eall; [intros [= <-]|done].
        apply es_waited; [done|]. intros g Hg. rewrite forallb_forall in Eall.
        by apply Eall, list_elem_of_In.
      * destruct (es_defers s) as [|d ds] eqn:Ed; intros [= <-].
        -- by constructor.
        -- rewrite <- Epc. by eapply es_unwind.
    + destruct (es_gos s !! n) as [g|] eqn:Eg; [|done].
      destruct (g_done g) eqn:Ed; [done|]. intros (r & Er & ->)%fmap_Some. by eapply es_log.
    + destruct (es_gos s !! n) as [g|] eqn:Eg; [|done].
      destruct (g_done g) eqn:Ed; [done|]. intros (g' & Er & ->)%fmap_Some. by eapply es_read.
  - destruct 1 as [i Epc|p st todo Epc|p Epc|p Epc Hall|r d ds Epc Ed|r Epc Ed
                  |n g r Eg Hd Er|n r g g' Eg Hd Er]; simpl; unfold main_step.
    + by rewrite Epc.
    + by rewrite Epc.
    + by rewrite Epc.
    + rewrite Epc. rewrite (proj2 (forallb_forall _ _)); [done|].
      intros g Hg. by apply Hall, list_elem_of_In.
    + rewrite Epc, Ed. done.
    + by rewrite Epc, Ed.
    + by rewrite Eg, Hd, Er.
    + by rewrite Eg, Hd, Er.
Qed.

(** The states reachable from s0, with the choices that lead to them. *)
Inductive reaches (s0 : exec_state W) : list choice → exec_state W → Prop :=
  | reaches_refl : reaches s0 [] s0
  | reaches_step ls s ch s' :
      reaches s0 ls s → exec1 ch s = Some s' → reaches s0 (ls ++ [ch]) s'.

(** The machine as a function of a schedule, until the call returns;
    choices that are not enabled are passed over. *)
Fixpoint exec_run (sched : list choice) s : exec_state W * list choice :=
  match es_pc s with
  | Returned _ => (s, sched)
  | _ =>
      match sched with
      | [] => (s, [])
      | ch :: sched' =>
          match exec1 ch s with
          | Some s' => exec_run sched' s'
          | None => exec_run sched' s
          end
      end
  end.

Definition exec_result s : outcome unit :=
  match es_pc s with Returned r => r | _ => Blocked end.

(** The state in which the loop starts. *)
Definition exec_init (defers : list deferred) (k : kworld W) : exec_state W :=
  mkExec k ∅ [] defers AtSelect.
End exec.

(** ** The whole function *)

(** The world of the function: the cluster and the response stream, and the
    schedule that is left. *)
Record xworld (W : Type) := mkXworld { xw_k : kworld W; xw_sched : list choice }.
Arguments mkXworld {W} _ _.
Arguments xw_k {W} _.
Arguments xw_sched {W} _.

Definition xw_lens {W} : lens (xworld W) (kworld W) :=
  Lens xw_k (λ k x, mkXworld k (xw_sched x)).

Record executeOptions := mkExecuteOptions { UUID_opt : string }.

Section executePod.
Context {W : Type} `{KubeClient W}.

(** [addRef] is addControllerReferenceToCryptoSecret, which
    CryptoSecret.v defines. *)
Variable addRef : Pod → string → M (kworld W) unit.

Definition name_selector (p : Pod) : string := "metadata.name=" +:+ pod_Name p.

(** The loop, from its entry to the end of the function. *)
Definition exec_loop (defers : list deferred) : M (xworld W) unit := λ x,
  let '(s, rest) := exec_run (xw_sched x) (exec_init defers (xw_k x)) in
  (exec_result s, mkXworld (es_k s) rest).

Definition set_controller (p : Pod) (stage : Stage) (opts : option executeOptions)
    : M (kworld W) unit :=
  match stage, opts with
  | RUN, Some o =>
      r ← attempt (addRef p (UUID_opt o));
      match r with
      | inl e =>
          Log ("failed to add controller reference to crypto secret: "
               +:+ Error e +:+ NL) ;; throw e
      | inr _ => mret tt
      end
  | _, _ => mret tt
  end.

(** The part of the function before the loop; watcher.Stop is deferred. *)
Definition exec_setup (p : Pod) (stage : Stage) (opts : option executeOptions)
    : M (kworld W) Pod :=
  p' ← wrap_err (Errorf "pod create: ") (call (PodCreate p) (pods_Create p));
  set_controller p' stage opts ;;
  mret p'.

Definition executePod (p : Pod) (stage : Stage) (opts : option executeOptions)
    : M (xworld W) unit :=
  zoom xw_lens (wrap_err (Errorf "pod watch: ")
    (call (PodWatch (name_selector p)) (pods_Watch (name_selector p)))) ;;
  r ← attempt (zoom xw_lens (exec_setup p stage opts));
  match r with
  | inl e => zoom xw_lens stopWatch ;; throw e
  | inr p' =>
      exec_loop (match stage with
                 | BUILD => [DeletePodNamed (pod_Name p'); StopWatch]
                 | RUN => [StopWatch]
                 end)
  end.
End executePod.
