(* ===== verification/ExecutePodFacts.v ===== *)
(** * Executing a pod: invariants, result, cleanup and termination

    The properties of the machine of [ExecutePod], each by induction on the
    steps of a run: what a run returns is decided by the inputs it received,
    a container's log is streamed once, the lines of a log arrive in order
    and, when the pod has ended, as many as the scanner takes; every deferred
    call is made once, in reverse order; and between two inputs the machine
    stops, or waits for a log stream that gives nothing. *)
From S2P Require Import Prelude GoStrings KubeTypes KubeApi LogStream ExecutePod.
From Stdlib Require Import Relation_Operators Wellfounded.

(** ** What the traces record *)

Definition is_cleanup (c : kcall) : bool :=
  match c with PodWatchStop | PodDelete _ | PodLogClose _ => true | _ => false end.

(** The requests of a trace that release something. *)
Definition cleanups (cs : list kcall) : list kcall := filter (λ c, is_cleanup c) cs.

Definition deferred_call (d : deferred) : kcall :=
  match d with
  | StopWatch => PodWatchStop
  | DeletePodNamed name => PodDelete name
  | CloseStream n => PodLogClose n
  end.

(** What goroutine n has sent. *)
Definition sent_from (n : nat) (l : list (origin * string)) : list string :=
  snd <$> filter (λ m, m.1 = FromStream n) l.

Lemma cleanups_app l l' : cleanups (l ++ l') = cleanups l ++ cleanups l'.
Proof. apply filter_app. Qed.

Lemma sent_from_app n l l' : sent_from n (l ++ l') = sent_from n l ++ sent_from n l'.
Proof. unfold sent_from. by rewrite filter_app, fmap_app. Qed.

Lemma sent_from_main n m : sent_from n [(FromMain, m)] = [].
Proof. done. Qed.

Lemma sent_from_stream n i m :
  sent_from n [(FromStream i, m)] = if decide (i = n) then [m] else [].
Proof.
  unfold sent_from. case_decide as Hn; subst.
  - by rewrite filter_cons_True.
  - rewrite filter_cons_False; [done|]. simpl. congruence.
Qed.

(** A change of the world that neither releases anything nor speaks for a
    goroutine. *)
Definition quiet {W} (k k' : kworld W) : Prop :=
  cleanups (calls k') = cleanups (calls k) ∧
  ∀ n, sent_from n (sent k') = sent_from n (sent k).

Lemma quiet_refl {W} (k : kworld W) : quiet k k.
Proof. done. Qed.

Lemma quiet_trans {W} (k1 k2 k3 : kworld W) : quiet k1 k2 → quiet k2 k3 → quiet k1 k3.
Proof. intros [? H1] [? H2]. split; [congruence|]. intros n. by rewrite H2. Qed.

Section facts.
Context {W : Type} `{KubeClient W}.
Implicit Types (s : exec_state W) (k : kworld W).

(** ** How each operation changes the state *)

Lemma quiet_call {A} c (f : W → (go_error + A) * W) k :
  is_cleanup c = false → quiet k (call c f k).2.
Proof.
  intros Hc. unfold call. destruct (f (kube k)) as [r w]. split; simpl; [|done].
  rewrite cleanups_app. unfold cleanups at 2. rewrite filter_cons_False.
  - by rewrite app_nil_r.
  - simpl. rewrite Hc. by intros [].
Qed.

Lemma quiet_send_main msg k : quiet k (send FromMain msg k).
Proof. split; simpl; [done|]. intros n. by rewrite sent_from_app, app_nil_r. Qed.

(** The two things a turn of the status loop can do. *)
Lemma status_step_cases p st s :
  (∃ k, status_step p st s = set_k k s ∧ quiet (es_k s) k) ∨
  (∃ k, es_active s !! cst_Name st = None ∧ started st = true ∧
     quiet (es_k s) k ∧
     status_step p st s =
       mkExec k (<[cst_Name st := length (es_gos s)]> (es_active s))
         (es_gos s ++ [spawn (cst_Name st)])
         (CloseStream (length (es_gos s)) :: es_defers s) (es_pc s)).
Proof.
  unfold status_step.
  destruct (started st); [|left; exists (es_k s); by destruct s].
  destruct (es_active s !! cst_Name st) eqn:Ea; [left; exists (es_k s); by destruct s|].
  simpl. destruct (call _ _ (es_k s)) as [r k] eqn:Ec.
  pose proof (quiet_call (PodGetLogs (pod_Name p) (log_options st))
    (pods_GetLogs (pod_Name p) (log_options st)) (es_k s) eq_refl) as Hq.
  rewrite Ec in Hq. simpl in Hq. destruct r as [[]|e|m|].
  - right. by exists k.
  - left. eexists. split; [done|]. eapply quiet_trans; [done|]. apply quiet_send_main.
  - left. by exists k.
  - left. by exists k.
Qed.

Lemma attempt_log_cleanup {A} c (f : W → (go_error + A) * W) (msg : go_error → string) k :
  let k' := (r ← attempt (call c f);
             match r with inl e => Log (msg e) | inr _ => mret tt end) k in
  calls k'.2 = calls k ++ [c] ∧ ∀ n, sent_from n (sent k'.2) = sent_from n (sent k).
Proof.
  simpl. unfold mbind, M_bind, attempt, call.
  destruct (f (kube k)) as [[e|a] w]; simpl.
  - split; [done|]. intros n. by rewrite sent_from_app, app_nil_r.
  - done.
Qed.

Lemma run_deferred_world d s :
  cleanups (calls (es_k (run_deferred d s))) =
    cleanups (calls (es_k s)) ++ [deferred_call d] ∧
  ∀ n, sent_from n (sent (es_k (run_deferred d s))) = sent_from n (sent (es_k s)).
Proof.
  assert (∀ k', calls k' = calls (es_k s) ++ [deferred_call d] ∧
    (∀ n, sent_from n (sent k') = sent_from n (sent (es_k s))) →
    es_k (run_deferred d s) = k' →
    cleanups (calls (es_k (run_deferred d s))) =
      cleanups (calls (es_k s)) ++ [deferred_call d] ∧
    ∀ n, sent_from n (sent (es_k (run_deferred d s))) = sent_from n (sent (es_k s)))
    as Hk.
  { intros k' [Hc Hs] ->. rewrite Hc, cleanups_app. split; [by destruct d|done]. }
  destruct d as [|name|n].
  - by eapply (Hk (stopWatch (es_k s)).2).
  - eapply (Hk (deletePod name (es_k s)).2); [|done]. apply attempt_log_cleanup.
  - eapply (Hk (closeStream n (es_k s)).2); [apply attempt_log_cleanup|done].
Qed.

Lemma run_deferred_frame d s :
  es_active (run_deferred d s) = es_active s ∧
  es_defers (run_deferred d s) = es_defers s ∧
  es_pc (run_deferred d s) = es_pc s ∧
  es_gos (run_deferred d s) = es_gos s.
Proof. by destruct d. Qed.

Lemma deliver_frame n r s :
  es_active (deliver n r s) = es_active s ∧
  es_defers (deliver n r s) = es_defers s ∧
  es_pc (deliver n r s) = es_pc s ∧
  es_gos (deliver n r s) = <[n := r.2]> (es_gos s) ∧
  calls (es_k (deliver n r s)) = calls (es_k s) ∧
  ∀ i, sent_from i (sent (es_k (deliver n r s))) =
       sent_from i (sent (es_k s)) ++ (if decide (n = i) then option_list r.1 else []).
Proof.
  unfold deliver. destruct r as [[m|] g]; simpl; repeat split; try done; intros i.
  - rewrite sent_from_app, sent_from_stream. done.
  - case_decide; by rewrite app_nil_r.
Qed.

Lemma select_step_frame i s :
  es_k (select_step i s) = es_k s ∧ es_active (select_step i s) = es_active s ∧
  es_gos (select_step i s) = es_gos s ∧ es_defers (select_step i s) = es_defers s.
Proof. unfold select_step. by repeat case_match. Qed.

(** Induction on the steps of a run. *)
Lemma reaches_invariant (P : exec_state W → Prop) s0 ls s :
  P s0 → (∀ s ch s', P s → exec_step s ch s' → P s') → reaches s0 ls s → P s.
Proof.
  intros H0 Hstep. induction 1 as [|ls s ch s' _ IH Hex]; [done|].
  apply exec1_step in Hex. eauto.
Qed.

Lemma exec_run_reaches sched s0 ls s :
  reaches s0 ls s → ∃ ls', reaches s0 (ls ++ ls') (exec_run sched s).1 ∧ ls' `sublist_of` sched.
Proof.
  revert ls s. induction sched as [|ch sched IH]; intros ls s Hr; simpl.
  - exists []. rewrite app_nil_r. by destruct (es_pc s).
  - assert (∃ ls', reaches s0 (ls ++ ls') s ∧ ls' `sublist_of` ch :: sched) as Hstop.
    { exists []. rewrite app_nil_r. split; [done|apply sublist_nil_l]. }
    destruct (exec1 ch s) as [s'|] eqn:E.
    + destruct (IH (ls ++ [ch]) s') as (ls' & Hls' & Hsub); [by econstructor|].
      rewrite <- app_assoc in Hls'.
      assert (∃ l, reaches s0 (ls ++ l) (exec_run sched s').1 ∧ l `sublist_of` ch :: sched) as Hgo.
      { exists (ch :: ls'). split; [done|by apply sublist_skip]. }
      by destruct (es_pc s).
    + destruct (IH ls s Hr) as (ls' & Hls' & Hsub).
      assert (∃ l, reaches s0 (ls ++ l) (exec_run sched s).1 ∧ l `sublist_of` ch :: sched) as Hgo.
      { exists ls'. split; [done|by apply sublist_cons]. }
      by destruct (es_pc s).
Qed.
End facts.

#[local] Arguments deliver : simpl never.
#[local] Arguments run_deferred : simpl never.
#[local] Arguments status_step : simpl never.
#[local] Arguments select_step : simpl never.
#[local] Arguments streamLogs_step : simpl never.

(** ** The result: the first input that decides *)

(** The inputs among the choices of a run. *)
Definition inputs (ls : list choice) : list input :=
  omap (λ ch, match ch with Select i => Some i | _ => None end) ls.

(** Specification: what an input on its own makes the function return. *)
Definition verdict_input (i : input) : option (outcome unit) :=
  match i with
  | CtxDone e => Some (Err (ErrorString ("execute pod: " +:+ e)))
  | WatchClosed => Some (Err ErrWatchClosed)
  | WatchEvent ev =>
      match ev_Type ev with
      | Added | Modified =>
          match ev_Pod ev with
          | Some p => if terminal p then Some (pod_result p) else None
          | None => Some (Panic "interface conversion: not *v1.Pod")
          end
      | WatchError =>
          Some (Err (ErrorString ("error event from watch: " +:+ ev_text ev)))
      | Deleted | Bookmark => None
      end
  end.

Fixpoint verdict (ins : list input) : option (outcome unit) :=
  match ins with
  | [] => None
  | i :: ins' => match verdict_input i with Some r => Some r | None => verdict ins' end
  end.

Lemma verdict_snoc l i :
  verdict (l ++ [i]) = match verdict l with Some r => Some r | None => verdict_input i end.
Proof.
  induction l as [|j l IH]; simpl; [by destruct (verdict_input i)|].
  by destruct (verdict_input j).
Qed.

(** What the position of the handler says about the inputs so far. *)
Definition verdict_at (pc : main_pc) : option (outcome unit) :=
  match pc with
  | AtSelect => None
  | Scanning p _ => if terminal p then Some (pod_result p) else None
  | Waiting p => Some (pod_result p)
  | Unwinding r | Returned r => Some r
  end.

Section verdict.
Context {W : Type} `{KubeClient W}.
Implicit Types (s : exec_state W) (k : kworld W).

Lemma verdict_at_select i s :
  es_pc s = AtSelect → verdict_at (es_pc (select_step i s)) = verdict_input i.
Proof.
  intros Epc. unfold select_step.
  destruct i as [e| |[[] [p|] t]]; simpl; try done; by rewrite Epc.
Qed.

Lemma status_step_pc p st s : es_pc (status_step p st s) = es_pc s.
Proof.
  destruct (status_step_cases p st s) as [(k & -> & _)|(k & _ & _ & _ & ->)]; done.
Qed.

Lemma reaches_verdict defers k ls s :
  reaches (exec_init defers k) ls s → verdict (inputs ls) = verdict_at (es_pc s).
Proof.
  induction 1 as [|ls s ch s' _ IH Hex]; [done|]. apply exec1_step in Hex.
  unfold inputs. rewrite omap_app. fold (inputs ls).
  destruct Hex as [i Epc|p st todo Epc|p Epc|p Epc _|r d ds Epc _|r Epc _
                  |n g r _ _ _|n r g g' _ _ _]; simpl; rewrite ?app_nil_r.
  - rewrite verdict_snoc, IH, Epc. simpl. by rewrite verdict_at_select.
  - by rewrite IH, Epc.
  - rewrite IH, Epc. simpl. by destruct (terminal p).
  - by rewrite IH, Epc.
  - rewrite IH. destruct (run_deferred_frame d
      (mkExec (es_k s) (es_active s) (es_gos s) ds (es_pc s))) as (_ & _ & -> & _).
    done.
  - by rewrite IH, Epc.
  - by destruct (deliver_frame n r s) as (_ & _ & -> & _).
  - done.
Qed.
End verdict.

(** ** One stream per container *)

Section streams.
Context {W : Type} `{KubeClient W}.
Implicit Types (s : exec_state W) (k : kworld W).

(** activeLogStreams has exactly the containers that have a goroutine. *)
Definition active_inv s : Prop :=
  ∀ name n, es_active s !! name = Some n ↔ g_name <$> es_gos s !! n = Some name.

Lemma active_inv_same s s' :
  es_active s' = es_active s → g_name <$> es_gos s' = g_name <$> es_gos s →
  active_inv s → active_inv s'.
Proof.
  intros Ha Hg Hinv name n. rewrite Ha, (Hinv name n).
  rewrite <- (list_lookup_fmap g_name (es_gos s)), <- Hg.
  by rewrite (list_lookup_fmap g_name (es_gos s')).
Qed.

Lemma names_insert (l : list goroutine) n g g' :
  l !! n = Some g → g_name g' = g_name g → g_name <$> <[n := g']> l = g_name <$> l.
Proof.
  intros Hl Hn. rewrite list_fmap_insert, Hn. apply list_insert_id.
  by rewrite list_lookup_fmap, Hl.
Qed.

Lemma active_inv_spawn p st s : active_inv s → active_inv (status_step p st s).
Proof.
  intros Hinv.
  destruct (status_step_cases p st s) as [(k & -> & _)|(k & Ha & _ & _ & ->)]; [done|].
  intros name n. simpl. rewrite lookup_insert. case_decide as Hname.
  - subst name. split.
    + intros [= <-]. rewrite lookup_app_r, Nat.sub_diag by done. done.
    + intros Hn. destruct (decide (n < length (es_gos s))) as [Hlt|Hge].
      * rewrite lookup_app_l in Hn by done. apply Hinv in Hn. congruence.
      * rewrite lookup_app_r in Hn by lia.
        destruct (n - length (es_gos s)) as [|j] eqn:Ej; [|by destruct j].
        f_equal. lia.
  - rewrite (Hinv name n). destruct (decide (n < length (es_gos s))) as [Hlt|Hge].
    + by rewrite lookup_app_l.
    + rewrite lookup_app_r by lia. rewrite (lookup_ge_None_2 (es_gos s)) by lia.
      split; [done|]. destruct (n - length (es_gos s)) as [|j]; [|by destruct j].
      simpl. intros [= ?]. congruence.
Qed.

Lemma reaches_active defers k ls s :
  reaches (exec_init defers k) ls s → active_inv s.
Proof.
  apply reaches_invariant; [by intros name n|]. clear s ls.
  intros s ch s' Hinv Hex.
  destruct Hex as [i _|p st todo _|p _|p _ _|r d ds _ _|r _ _|n g [m g'] Eg _ Er|n r g g' Eg _ Er].
  - destruct (select_step_frame i s) as (_ & Ha & Hg & _).
    apply (active_inv_same s); by rewrite ?Hg.
  - apply (active_inv_spawn p st s Hinv).
  - done.
  - done.
  - destruct (run_deferred_frame d
      (mkExec (es_k s) (es_active s) (es_gos s) ds (es_pc s))) as (Ha & _ & _ & Hg).
    apply (active_inv_same s); [done|by rewrite Hg|done].
  - done.
  - destruct (deliver_frame n (m, g') s) as (Ha & _ & _ & Hg & _).
    apply (active_inv_same s); [done| |done]. rewrite Hg. eapply names_insert; [done|].
    by eapply streamLogs_step_name.
  - apply (active_inv_same s); [done| |done]. eapply names_insert; [done|].
    by apply streamLogs_read_name in Er as [? _].
Qed.

Lemma active_inv_NoDup s : active_inv s → NoDup (g_name <$> es_gos s).
Proof.
  intros Hinv. apply NoDup_alt. intros i j name Hi Hj.
  rewrite list_lookup_fmap in Hi, Hj. apply Hinv in Hi, Hj. congruence.
Qed.
End streams.

(** ** Delivery of the log lines *)

(** The results the function returns only after wg.Wait. *)
Definition after_wait (r : outcome unit) : Prop := r = Ok tt ∨ r = Err ErrPodFailed.

(** What the Reads of goroutine n gave in a run: bytes, and the end. *)
Definition bytes_read (n : nat) (ls : list choice) : string :=
  foldr String.append "" (omap (λ ch, match ch with
    | LogRead i (Data d) => if decide (i = n) then Some d else None
    | _ => None end) ls).

Definition end_read (n : nat) (ls : list choice) : option (option go_error) :=
  last (omap (λ ch, match ch with
    | LogRead i (End e) => if decide (i = n) then Some e else None
    | _ => None end) ls).

Lemma foldr_append_app l l' :
  foldr String.append "" (l ++ l') = foldr String.append "" l +:+ foldr String.append "" l'.
Proof. induction l as [|x l IH]; simpl; [done|]. by rewrite IH, sapp_assoc. Qed.

(** Only the Reads of n count. *)
Lemma bytes_read_snoc n ls ch :
  bytes_read n (ls ++ [ch]) =
  bytes_read n ls +:+ match ch with LogRead i (Data d) => if decide (i = n) then d else "" | _ => "" end.
Proof.
  unfold bytes_read. rewrite omap_app, foldr_append_app. f_equal.
  destruct ch as [| | |i [d|e]]; simpl; try done. case_decide; simpl; [by rewrite sapp_nil_r|done].
Qed.

Lemma end_read_snoc n ls ch :
  end_read n (ls ++ [ch]) =
  match ch with LogRead i (End e) => if decide (i = n) then Some e else end_read n ls | _ => end_read n ls end.
Proof.
  unfold end_read. rewrite omap_app.
  destruct ch as [| | |i [d|e]]; simpl; rewrite ?app_nil_r; try done.
  case_decide; simpl; [by rewrite last_snoc|by rewrite app_nil_r].
Qed.

Section delivery.
Context {W : Type} `{KubeClient W}.
Implicit Types (s : exec_state W) (k : kworld W).

(** [ls] are the choices that led to the state. *)
Record delivery_inv (ls : list choice) s : Prop := {
  di_streams n g : es_gos s !! n = Some g → streaming g (sent_from n (sent (es_k s)));
  di_read n g : es_gos s !! n = Some g → g_read g = bytes_read n ls ∧ g_end g = end_read n ls;
  di_fresh n : length (es_gos s) ≤ n →
    sent_from n (sent (es_k s)) = [] ∧ bytes_read n ls = "" ∧ end_read n ls = None;
  di_done :
    match es_pc s with
    | Unwinding r | Returned r =>
        after_wait r → ∀ n g, es_gos s !! n = Some g → g_done g = true
    | _ => True
    end }.

(** A choice that is no Read is not seen. *)
Definition no_read (ch : choice) : Prop := match ch with LogRead _ _ => False | _ => True end.

Lemma no_read_bytes n ls ch : no_read ch → bytes_read n (ls ++ [ch]) = bytes_read n ls.
Proof. intros Hch. rewrite bytes_read_snoc. destruct ch; try done; by rewrite sapp_nil_r. Qed.

Lemma no_read_end n ls ch : no_read ch → end_read n (ls ++ [ch]) = end_read n ls.
Proof. intros Hch. rewrite end_read_snoc. by destruct ch. Qed.

(** A step of the handler that leaves the goroutines alone. *)
Lemma delivery_inv_handler ls ch s s' :
  no_read ch → es_gos s' = es_gos s →
  (∀ n, sent_from n (sent (es_k s')) = sent_from n (sent (es_k s))) →
  match es_pc s' with
  | Unwinding r | Returned r => after_wait r → ∀ n g, es_gos s !! n = Some g → g_done g = true
  | _ => True
  end → delivery_inv ls s → delivery_inv (ls ++ [ch]) s'.
Proof.
  intros Hch Hg Hs Hd [H1 H2 H3 _].
  split; intros; rewrite ?Hg, ?Hs, ?no_read_bytes, ?no_read_end in *; eauto.
Qed.

(** No branch of the select statement returns a result of the wait. *)
Lemma select_step_after_wait i s r :
  es_pc s = AtSelect → es_pc (select_step i s) = Unwinding r → ¬ after_wait r.
Proof.
  intros Epc. unfold select_step.
  destruct i as [e| |[[] [p|] t]]; simpl; rewrite ?Epc; intros [= <-] [?|?]; done.
Qed.

Lemma select_step_returned i s r : es_pc s = AtSelect → es_pc (select_step i s) ≠ Returned r.
Proof. intros Epc. unfold select_step. by repeat case_match; rewrite ?Epc. Qed.

Lemma status_step_delivery ls p st todo s :
  es_pc s = Scanning p (st :: todo) →
  delivery_inv ls s → delivery_inv (ls ++ [MainStep]) (set_pc (Scanning p todo) (status_step p st s)).
Proof.
  intros Epc Hinv. pose proof Hinv as [H1 H2 H3 _].
  destruct (status_step_cases p st s) as [(k & -> & _ & Hs)|(k & _ & _ & [_ Hs] & ->)].
  - by apply (delivery_inv_handler ls MainStep s).
  - split; simpl; [..|done].
    + intros n g Hg. rewrite Hs. apply lookup_app_Some in Hg as [Hg|[Hle Hg]]; [by apply H1|].
      apply list_lookup_singleton_Some in Hg as [Hn <-].
      destruct (H3 n) as (-> & _); [lia|]. apply streaming_spawn.
    + intros n g Hg. rewrite no_read_bytes, no_read_end by done.
      apply lookup_app_Some in Hg as [Hg|[Hle Hg]]; [by apply H2|].
      apply list_lookup_singleton_Some in Hg as [Hn <-]. destruct (H3 n) as (_ & -> & ->); [lia|done].
    + intros n. rewrite length_app, Hs, no_read_bytes, no_read_end by done. intros ?. apply H3. lia.
Qed.

(** A goroutine moves, or a Read of it returns: the others are not concerned. *)
Lemma goroutine_delivery ls ch n g g' s s' :
  es_gos s !! n = Some g → g_done g = false → es_gos s' = <[n := g']> (es_gos s) → es_pc s' = es_pc s →
  (∀ i, i ≠ n → sent_from i (sent (es_k s')) = sent_from i (sent (es_k s)) ∧
     bytes_read i (ls ++ [ch]) = bytes_read i ls ∧ end_read i (ls ++ [ch]) = end_read i ls) →
  (streaming g (sent_from n (sent (es_k s))) → streaming g' (sent_from n (sent (es_k s')))) →
  (g_read g = bytes_read n ls → g_end g = end_read n ls →
     g_read g' = bytes_read n (ls ++ [ch]) ∧ g_end g' = end_read n (ls ++ [ch])) →
  delivery_inv ls s → delivery_inv (ls ++ [ch]) s'.
Proof.
  intros Hg Hd Hgos Hpc Hoth Hstr Hread [H1 H2 H3 H4].
  assert (n < length (es_gos s)) as Hn by (by eapply lookup_lt_Some).
  split; rewrite ?Hgos.
  - intros i gi Hi. apply list_lookup_insert_Some in Hi as [(<- & <- & _)|[Hne Hi]]; [by apply Hstr, H1|].
    destruct (Hoth i) as (-> & _); [done|]. by apply H1.
  - intros i gi Hi. apply list_lookup_insert_Some in Hi as [(<- & <- & _)|[Hne Hi]].
    + destruct (H2 n g Hg). by apply Hread.
    + destruct (Hoth i) as (_ & -> & ->); [done|]. by apply H2.
  - intros i. rewrite length_insert. intros Hi. destruct (Hoth i) as (-> & -> & ->); [lia|]. by apply H3.
  - rewrite Hpc. destruct (es_pc s); try done; intros Hw; specialize (H4 Hw n g Hg); congruence.
Qed.

Lemma reaches_delivery defers k ls s :
  (∀ n, sent_from n (sent k) = []) →
  reaches (exec_init defers k) ls s → delivery_inv ls s.
Proof.
  intros Hk. induction 1 as [|ls s ch s' _ Hinv Hex]; [by split|]. apply exec1_step in Hex.
  destruct Hex as [i Epc|p st todo Epc|p Epc|p Epc Hall|r d ds Epc _|r Epc _
                  |n g [m g'] Hg Hd Er|n r g g' Hg Hd Er].
  - destruct (select_step_frame i s) as (Hk' & _ & Hg & _).
    apply (delivery_inv_handler ls _ s); rewrite ?Hk'; [done..| |done].
    destruct (es_pc (select_step i s)) as [| | |r|r] eqn:E; [done..| |].
    + by intros ?%(select_step_after_wait i s r Epc).
    + by apply select_step_returned in E.
  - by apply status_step_delivery.
  - apply (delivery_inv_handler ls _ s); [done..| |done]. simpl. by destruct (terminal p).
  - apply (delivery_inv_handler ls _ s); [done..| |done]. simpl.
    intros _ n g Hg. by eapply Hall, list_elem_of_lookup_2.
  - set (s0 := mkExec _ _ _ _ _). destruct (run_deferred_frame d s0) as (_ & _ & Hpc & Hg).
    destruct (run_deferred_world d s0) as [_ Hs].
    apply (delivery_inv_handler ls _ s); [done|exact Hg|exact Hs| |done].
    pose proof (di_done _ _ Hinv) as H4. rewrite Hpc. exact H4.
  - apply (delivery_inv_handler ls _ s); [done..| |done]. simpl.
    pose proof (di_done _ _ Hinv) as H4. by rewrite Epc in H4.
  - destruct (deliver_frame n (m, g') s) as (_ & _ & Hpc & Hgos & _ & Hs). cbn [fst snd] in *.
    apply (goroutine_delivery ls _ n g g' s); [done..| | | |done].
    + intros i Hi. rewrite Hs, decide_False, app_nil_r, no_read_bytes, no_read_end by done. done.
    + rewrite Hs, decide_True by done. by apply streaming_step.
    + rewrite no_read_bytes, no_read_end by done. by destruct (streamLogs_step_read g m g' Er) as [-> ->].
  - apply (goroutine_delivery ls _ n g g' s); [done..| | | |done].
    + intros i Hi. rewrite bytes_read_snoc, end_read_snoc. destruct r; rewrite ?decide_False by done; by rewrite sapp_nil_r.
    + by eapply streaming_read.
    + intros Hb He. rewrite bytes_read_snoc, end_read_snoc. revert Er. unfold streamLogs_read.
      destruct (Scan _ (g_rest g)); try by destruct r as [[]|].
      destruct r as [[|a d]|e]; [done|..]; intros [= <-]; rewrite decide_True by done; simpl; [by rewrite Hb|].
      by rewrite sapp_nil_r.
Qed.
End delivery.

(** ** The deferred calls *)

(** The deferred closings of n streams, the latest first. *)
Fixpoint closers (n : nat) : list deferred :=
  match n with O => [] | S n' => CloseStream n' :: closers n' end.

Section cleanup.
Context {W : Type} `{KubeClient W}.
Implicit Types (s : exec_state W) (k : kworld W).

(** [ran] are the deferred calls made so far. *)
Definition cleanup_inv (base : list deferred) k s : Prop :=
  ∃ ran,
    closers (length (es_gos s)) ++ base = ran ++ es_defers s ∧
    cleanups (calls (es_k s)) = cleanups (calls k) ++ (deferred_call <$> ran) ∧
    match es_pc s with
    | AtSelect | Scanning _ _ | Waiting _ => ran = []
    | Unwinding _ => True
    | Returned _ => es_defers s = []
    end.

Lemma cleanup_inv_pc base k s pc :
  cleanup_inv base k s →
  match pc with
  | AtSelect | Scanning _ _ | Waiting _ =>
      match es_pc s with AtSelect | Scanning _ _ | Waiting _ => True | _ => False end
  | Unwinding _ => True
  | Returned _ => es_defers s = []
  end → cleanup_inv base k (set_pc pc s).
Proof.
  intros (ran & Hd & Hc & Hpc) H'. exists ran. split; [done|split; [done|]].
  simpl. destruct pc; [by destruct (es_pc s)..|done|done].
Qed.

Lemma cleanup_inv_status base k p st todo s :
  es_pc s = Scanning p (st :: todo) →
  cleanup_inv base k s → cleanup_inv base k (status_step p st s).
Proof.
  intros Epc (ran & Hd & Hc & Hran). rewrite Epc in Hran. subst ran.
  destruct (status_step_cases p st s)
    as [(k' & -> & Hk & _)|(k' & _ & _ & [Hk _] & ->)].
  - exists []. simpl. rewrite Epc, Hk. done.
  - exists []. simpl. rewrite Epc, Hk. split; [|done].
    rewrite length_app, Nat.add_1_r. simpl in *. by rewrite Hd.
Qed.

Lemma cleanup_inv_deferred base k r d ds s :
  es_pc s = Unwinding r → es_defers s = d :: ds → cleanup_inv base k s →
  cleanup_inv base k
    (run_deferred d (mkExec (es_k s) (es_active s) (es_gos s) ds (es_pc s))).
Proof.
  intros Epc Eds (ran & Hd & Hc & _). set (s0 := mkExec _ _ _ _ _).
  destruct (run_deferred_frame d s0) as (_ & Hds & Hpc & Hgos).
  destruct (run_deferred_world d s0) as [Hc0 _].
  exists (ran ++ [d]). rewrite Hgos, Hds, Hpc, Hc0. simpl. rewrite Epc, Hc, Hd, Eds.
  split; [by rewrite <- app_assoc|split; [|done]].
  by rewrite fmap_app, app_assoc.
Qed.

Lemma cleanup_inv_deliver base k n r s :
  cleanup_inv base k s → cleanup_inv base k (deliver n r s).
Proof.
  intros (ran & Hd & Hc & Hpc0).
  destruct (deliver_frame n r s) as (_ & Hds & Hpc & Hgos & Hcalls & _).
  exists ran. rewrite Hds, Hpc, Hgos, Hcalls, length_insert. done.
Qed.

Lemma reaches_cleanup base k ls s :
  reaches (exec_init base k) ls s → cleanup_inv base k s.
Proof.
  apply reaches_invariant.
  { exists []. simpl. by rewrite app_nil_r. }
  clear s ls. intros s ch s' Hinv Hex.
  destruct Hex as [i Epc|p st todo Epc|p Epc|p Epc Hall|r d ds Epc Ed|r Epc Ed
                  |n g r Hg Hd Er|n r g g' Hg Hd Er].
  - destruct Hinv as (ran & Hd & Hc & Hran). rewrite Epc in Hran. subst ran.
    destruct (select_step_frame i s) as (Hk & _ & Hg & Hds).
    exists []. rewrite Hk, Hg, Hds. split; [done|split; [done|]].
    destruct (es_pc (select_step i s)) eqn:E; try done.
    exfalso. revert E. unfold select_step. by repeat case_match; rewrite ?Epc.
  - pose proof (cleanup_inv_status base k p st todo s Epc Hinv).
    apply cleanup_inv_pc; [done|]. by rewrite status_step_pc, Epc.
  - apply cleanup_inv_pc; [done|]. rewrite Epc. by destruct (terminal p).
  - by apply cleanup_inv_pc.
  - by eapply cleanup_inv_deferred.
  - by apply cleanup_inv_pc.
  - by apply cleanup_inv_deliver.
  - destruct Hinv as (ran & H1 & H2 & H3). exists ran. simpl. rewrite length_insert. done.
Qed.
End cleanup.

(** ** Termination between inputs *)

(** The choices the handler and the goroutines make on their own... *)
Definition internal (ch : choice) : Prop :=
  match ch with MainStep | LogStep _ => True | _ => False end.

(** ... and those with which log streams end. *)
Definition closing (ch : choice) : Prop :=
  match ch with LogRead _ (End _) => True | _ => internal ch end.

Section termination.
Context {W : Type} `{KubeClient W}.
Implicit Types (s : exec_state W) (k : kworld W).

Definition closing_step s' s : Prop :=
  ∃ ch, closing ch ∧ exec1 ch s = Some s'.

(** Where the handler is, the steps it has there, the turns of the goroutines. *)
Definition phase (pc : main_pc) : nat :=
  match pc with
  | Scanning _ _ => 3
  | Waiting _ => 2
  | Unwinding _ => 1
  | AtSelect | Returned _ => 0
  end.

Definition steps_here s : nat :=
  match es_pc s with
  | Scanning _ todo => length todo
  | Unwinding _ => length (es_defers s)
  | _ => 0
  end.

Definition turns s : nat := sum_list (turns_left <$> es_gos s).

Definition rank s : nat * (nat * nat) := (phase (es_pc s), (steps_here s, turns s)).

Definition rank_lt : relation (nat * (nat * nat)) :=
  slexprod nat (nat * nat) lt (slexprod nat nat lt lt).

Lemma rank_lt_wf : well_founded rank_lt.
Proof. apply wf_slexprod; [apply lt_wf|]. apply wf_slexprod; apply lt_wf. Qed.

Lemma sum_list_insert_lt (l : list goroutine) n g g' :
  l !! n = Some g → turns_left g' < turns_left g →
  sum_list (turns_left <$> <[n := g']> l) < sum_list (turns_left <$> l).
Proof.
  revert n. induction l as [|h l IH]; intros [|n]; simpl; intros Hl Hlt; try done.
  - injection Hl as ->. unfold id. lia.
  - apply Nat.add_lt_mono_l. exact (IH n Hl Hlt).
Qed.

Lemma goroutine_rank n g g' s s' :
  es_gos s !! n = Some g → turns_left g' < turns_left g →
  es_gos s' = <[n := g']> (es_gos s) → es_pc s' = es_pc s → es_defers s' = es_defers s →
  rank_lt (rank s') (rank s).
Proof.
  intros Hg Hlt Hgos Hpc Hds. unfold rank, steps_here, turns. rewrite Hds, Hpc, Hgos.
  apply right_slex, right_slex. by eapply sum_list_insert_lt.
Qed.

Lemma closing_step_rank s' s : closing_step s' s → rank_lt (rank s') (rank s).
Proof.
  intros (ch & Hi & Hex). apply exec1_step in Hex.
  destruct Hex as [i|p st todo Epc|p Epc|p Epc Hall|r d ds Epc Ed|r Epc Ed
                  |n g [m g'] Hg Hd Er|n r g g' Hg Hd Er]; [done|..].
  - unfold rank, steps_here. rewrite Epc. apply right_slex, left_slex. simpl. lia.
  - unfold rank. rewrite Epc. apply left_slex. destruct (terminal p); simpl; lia.
  - unfold rank. rewrite Epc. apply left_slex. simpl. lia.
  - set (s0 := mkExec _ _ _ _ _).
    destruct (run_deferred_frame d s0) as (_ & Hds & Hpc & _).
    unfold rank, steps_here. rewrite Hpc, Hds. simpl. rewrite Epc, Ed.
    apply right_slex, left_slex. simpl. lia.
  - unfold rank. rewrite Epc. apply left_slex. simpl. lia.
  - destruct (deliver_frame n (m, g') s) as (_ & Hds & Hpc & Hgos & _).
    eapply goroutine_rank; [exact Hg|by eapply streamLogs_step_turns|done..].
  - destruct r as [d|e]; [done|]. eapply goroutine_rank; [exact Hg|by eapply streamLogs_end_turns|done..].
Qed.

Lemma closing_step_wf : well_founded closing_step.
Proof.
  apply (wf_projected rank_lt rank); [|apply rank_lt_wf]. apply closing_step_rank.
Qed.

(** wg.Wait waits for a goroutine that waits for its stream. *)
Definition starved s : Prop :=
  ∃ p n, es_pc s = Waiting p ∧ (∃ g, es_gos s !! n = Some g ∧ g_done g = false) ∧
    exec1 (LogStep n) s = None ∧
    (∀ d, d ≠ "" → is_Some (exec1 (LogRead n (Data d)) s)) ∧ (∀ e, is_Some (exec1 (LogRead n (End e)) s)).

Lemma not_all_done (l : list goroutine) :
  forallb g_done l = false → ∃ n g, l !! n = Some g ∧ g_done g = false.
Proof.
  induction l as [|g l IH]; simpl; [done|]. destruct (g_done g) eqn:Hd; [|by exists 0, g].
  intros (n & g' & ? & ?)%IH. by exists (S n), g'.
Qed.

(** The handler waits for nothing but an input or the goroutines, and a
    goroutine for nothing but its stream. *)
Lemma internal_progress s :
  es_pc s = AtSelect ∨ (∃ r, es_pc s = Returned r) ∨
  (∃ ch s', internal ch ∧ exec1 ch s = Some s') ∨ starved s.
Proof.
  destruct (es_pc s) as [|p [|st todo]|p|r|r] eqn:Epc; [by left|..|by eauto].
  1,2: right; right; left; eexists MainStep, _; split; [done|];
    simpl; unfold main_step; by rewrite Epc.
  - right; right. destruct (forallb g_done (es_gos s)) eqn:Eall.
    + left. eexists MainStep, _. split; [done|]. simpl. unfold main_step. by rewrite Epc, Eall.
    + apply not_all_done in Eall as (n & g & Hg & Hd).
      destruct (streamLogs_waits g) as [[r Er]|(Es & Hdata & Hend)].
      * left. eexists (LogStep n), _. split; [done|]. simpl. by rewrite Hg, Hd, Er.
      * right. exists p, n. split; [exact Epc|]. split; [by exists g|]. simpl. rewrite Hg, Hd, Es. split; [done|].
        split; [intros d Hne; destruct (Hdata d Hne) as [g' ->]|intros e; destruct (Hend e) as [g' ->]]; by eexists.
  - right; right; left. destruct (es_defers s) as [|d ds] eqn:Ed; eexists MainStep, _;
      (split; [done|]); simpl; unfold main_step; by rewrite Epc, Ed.
Qed.

(** So the handler comes back to the select statement or returns, on its own
    steps unless it is to wait for the logs, and otherwise when these end. *)
Lemma closing_run s0 ls s :
  reaches s0 ls s →
  ∃ ls' s', reaches s0 (ls ++ ls') s' ∧ Forall closing ls' ∧
    (es_pc s' = AtSelect ∨ ∃ r, es_pc s' = Returned r) ∧
    (Forall internal ls' ∨ ∃ ls1 ls2 s1, ls' = ls1 ++ ls2 ∧ reaches s0 (ls ++ ls1) s1 ∧ Forall internal ls1 ∧ starved s1).
Proof.
  revert ls. induction (closing_step_wf s) as [s _ IH]. intros ls Hr.
  assert (∀ ch s', closing ch → exec1 ch s = Some s' →
    ∃ ls' s'', reaches s0 (ls ++ ch :: ls') s'' ∧ Forall closing (ch :: ls') ∧
      (es_pc s'' = AtSelect ∨ ∃ r, es_pc s'' = Returned r) ∧
      (Forall internal ls' ∨ ∃ ls1 ls2 s1, ls' = ls1 ++ ls2 ∧ reaches s0 (ls ++ ch :: ls1) s1 ∧ Forall internal ls1 ∧ starved s1))
    as Hstep.
  { intros ch s' Hch Hex. destruct (IH s' ltac:(by exists ch) (ls ++ [ch])) as (ls' & s'' & Hr' & Hc & Hpc & Hi); [by econstructor|].
    rewrite <- app_assoc in Hr'. exists ls', s''. split; [exact Hr'|]. split; [by constructor|]. split; [exact Hpc|].
    destruct Hi as [Hi|(ls1 & ls2 & s1 & E & Hr1 & H1)]; [by left|right]. rewrite <- app_assoc in Hr1. by exists ls1, ls2, s1. }
  destruct (internal_progress s) as [Hs|[Hs|[(ch & s' & Hi & Hex)|Hst]]].
  - exists [], s. rewrite app_nil_r. eauto 8.
  - exists [], s. rewrite app_nil_r. eauto 8.
  - destruct (Hstep ch s') as (ls' & s'' & Hr' & Hc & Hpc & Hii); [by destruct ch|done|].
    exists (ch :: ls'), s''. split; [done|]. split; [done|]. split; [done|].
    destruct Hii as [Hii|(ls1 & ls2 & s1 & -> & Hr1 & Hi1 & Hs1)]; [left; by constructor|right].
    exists (ch :: ls1), ls2, s1. split; [done|]. split; [done|]. split; [by constructor|done].
  - pose proof Hst as (p & n & _ & _ & _ & _ & Hend). destruct (Hend None) as [s' Hex].
    destruct (Hstep (LogRead n (End None)) s') as (ls' & s'' & Hr' & Hc & Hpc & _); [done|done|].
    exists (LogRead n (End None) :: ls'), s''. split; [done|]. split; [done|]. split; [done|]. right.
    exists [], (LogRead n (End None) :: ls'), s. rewrite app_nil_r. by repeat split.
Qed.
End termination.

Lemma inputs_closing ls ls' : Forall closing ls' → inputs (ls ++ ls') = inputs ls.
Proof.
  intros Hi. unfold inputs. rewrite omap_app. fold (inputs ls) (inputs ls').
  assert (inputs ls' = []) as ->; [|by rewrite app_nil_r].
  induction Hi as [|ch l Hch _ IH]; [done|]. by destruct ch.
Qed.

Lemma internal_closing ls : Forall internal ls → Forall closing ls.
Proof. intros Hi. eapply Forall_impl; [exact Hi|]. by intros []. Qed.

(** ** Strict runs, for concrete executions *)

(** Every choice of the list is enabled. *)
Fixpoint follow {W} `{KubeClient W} (ls : list choice) (s : exec_state W)
    : option (exec_state W) :=
  match ls with
  | [] => Some s
  | ch :: ls' => exec1 ch s ≫= follow ls'
  end.

Lemma follow_reaches {W} `{KubeClient W} (ls : list choice) (s0 s : exec_state W) :
  follow ls s0 = Some s → reaches s0 ls s.
Proof.
  assert (∀ ls0 s1, reaches s0 ls0 s1 → follow ls s1 = Some s → reaches s0 (ls0 ++ ls) s)
    as Hgen.
  { induction ls as [|ch ls IH]; intros ls0 s1 Hr.
    - simpl. intros [= ->]. by rewrite app_nil_r.
    - simpl. destruct (exec1 ch s1) as [s2|] eqn:E; simpl; [|done]. intros Hf.
      replace (ls0 ++ ch :: ls) with ((ls0 ++ [ch]) ++ ls)
        by (by rewrite <- app_assoc).
      eapply IH; [|done]. by econstructor. }
  apply (Hgen [] s0). constructor.
Qed.

(** *** A pod of two containers, in a cluster in memory *)

Module Demo.
Definition pod (ph : PodPhase) : Pod :=
  mkPod (mkObjectMeta "chaincode-build-1" "" ∅ []) (mkPodSpec RestartPolicyNever [] [] [] [] None)
    (mkPodStatus ph
       [mkContainerStatus "build" (mkContainerState false (Some "Completed"))]
       [mkContainerStatus "upload" (mkContainerState true None)]).

Definition cluster : Mem.cluster :=
  Mem.mkCluster ∅ ∅ {[ "build" := tt; "upload" := tt ]} [] [].

Definition world : kworld Mem.cluster := mkKworld cluster [] [].

Definition start : exec_state Mem.cluster :=
  exec_init [DeletePodNamed "chaincode-build-1"; StopWatch] world.

Definition event (ph : PodPhase) : choice :=
  Select (WatchEvent (mkWatchEvent Modified (Some (pod ph)) "")).

(** The pod runs, then ends; its logs arrive in pieces, and the second goroutine
    is the faster one. *)
Definition schedule : list choice :=
  [ event PodRunning; MainStep; MainStep; LogRead 0 (Data "o"); MainStep;
    LogRead 1 (Data ("sent" +:+ NL)); LogStep 1; LogRead 1 (End None); LogStep 1;
    LogRead 0 (Data ("ne" +:+ NL +:+ "tw")); LogStep 0;
    event PodSucceeded; MainStep; MainStep; MainStep;
    LogRead 0 (Data "o"); LogRead 0 (End None); LogStep 0; LogStep 0;
    MainStep; MainStep; MainStep; MainStep; MainStep; MainStep ].

Definition final : exec_state Mem.cluster := default start (follow schedule start).

Lemma run : reaches start schedule final.
Proof. apply follow_reaches. unfold final. by vm_compute. Qed.

(** The call is cancelled while two logs are read. *)
Definition cancelled_schedule : list choice :=
  [event PodRunning; MainStep; MainStep; LogRead 0 (Data ("one" +:+ NL)); MainStep; Select (CtxDone "context canceled");
   MainStep; MainStep; MainStep; MainStep; MainStep].

Definition cancelled : exec_state Mem.cluster := default start (follow cancelled_schedule start).

(** Only the end of the pod waits for the goroutines: when the call ends for
    another reason it has returned, with its streams closed, while a goroutine
    goes on to log what its scanner holds, to a response stream that is over. *)
Lemma executePod_late_log :
  reaches start cancelled_schedule cancelled ∧
  es_pc cancelled = Returned (Err (ErrorString "execute pod: context canceled")) ∧
  ∃ s, exec1 (LogStep 0) cancelled = Some s ∧
    sent (es_k s) = sent (es_k cancelled) ++ [(FromStream 0, "build: one" +:+ NL)].
Proof.
  split; [apply follow_reaches; unfold cancelled; by vm_compute|]. split; [by vm_compute|].
  eexists. split; [reflexivity|]. by vm_compute.
Qed.

(** The pod has ended, and a log that is followed has not. *)
Definition waiting_schedule : list choice :=
  [event PodSucceeded; MainStep; MainStep; LogRead 0 (End None); LogStep 0; MainStep].

Definition waiting : exec_state Mem.cluster := default start (follow waiting_schedule start).

(** The wait for the goroutines hears nothing else: a cancellation of the call
    is not received while a log that is followed stays open. *)
Lemma executePod_wait_deaf :
  reaches start waiting_schedule waiting ∧ starved waiting ∧
  ∀ ch, is_Some (exec1 ch waiting) → ∃ r, ch = LogRead 1 r.
Proof.
  assert (follow waiting_schedule start = Some waiting) as E by (vm_compute; reflexivity).
  assert (∃ p, es_pc waiting = Waiting p) as [p Epc] by (vm_compute; by eexists).
  split; [by apply follow_reaches|]. split.
  - exists p, 1. split; [exact Epc|]. split; [vm_compute; by eexists|]. split; [by vm_compute|].
    split; [intros [|a d] Hd; [done|]|intros e]; vm_compute; by eexists.
  - intros [i| |n|n r] [s' Hs'].
    + simpl in Hs'. by rewrite Epc in Hs'.
    + vm_compute in Hs'. discriminate Hs'.
    + destruct n as [|[|n]]; vm_compute in Hs'; discriminate Hs'.
    + destruct n as [|[|n]]; [vm_compute in Hs'; discriminate Hs'|by eexists|vm_compute in Hs'; discriminate Hs'].
Qed.
End Demo.

(** ** The properties of a call of executePod *)

(** C1: What executePod returns is decided by the inputs of its select
    statement alone, whatever the interleaving with the log goroutines and
    whatever the API server answers: the first cancellation, end or error of
    the watch, event without a pod, or event with a pod in a final phase
    decides, and the function returns nil only when that input shows the pod
    succeeded; while no such input has come the call does not end. *)
Theorem executePod_first_verdict {W} `{KubeClient W} (defers : list deferred)
    (k : kworld W) (ls : list choice) (s : exec_state W) :
  reaches (exec_init defers k) ls s →
  match es_pc s with
  | Returned r | Unwinding r => verdict (inputs ls) = Some r
  | Waiting p => verdict (inputs ls) = Some (pod_result p)
  | Scanning p _ =>
      verdict (inputs ls) = if terminal p then Some (pod_result p) else None
  | AtSelect => verdict (inputs ls) = None
  end.
Proof. intros Hr. pose proof (reaches_verdict _ _ _ _ Hr). by destruct (es_pc s). Qed.

Lemma executePod_first_verdict_witness :
  verdict (inputs Demo.schedule) = Some (Ok tt) ∧
  es_pc Demo.final = Returned (Ok tt).
Proof.
  split; [|by vm_compute].
  exact (executePod_first_verdict [DeletePodNamed "chaincode-build-1"; StopWatch]
           Demo.world Demo.schedule Demo.final Demo.run).
Defined.

(** C17: A container's log is streamed at most once in a call, however many
    events report the container: no two goroutines have the same container
    name, and activeLogStreams names exactly the containers with one. *)
Theorem executePod_streams_once {W} `{KubeClient W} (defers : list deferred)
    (k : kworld W) (ls : list choice) (s : exec_state W) :
  reaches (exec_init defers k) ls s →
  NoDup (g_name <$> es_gos s) ∧
  ∀ name, is_Some (es_active s !! name) ↔ name ∈ (g_name <$> es_gos s).
Proof.
  intros Hr. apply reaches_active in Hr as Hinv. split; [by apply active_inv_NoDup|].
  intros name. rewrite list_elem_of_lookup. split.
  - intros [n Hn]. apply Hinv in Hn. exists n. by rewrite list_lookup_fmap.
  - intros [n Hn]. rewrite list_lookup_fmap in Hn. exists n. by apply Hinv.
Qed.

Lemma executePod_streams_once_witness :
  NoDup (g_name <$> es_gos Demo.final) ∧ length (es_gos Demo.final) = 2.
Proof.
  split; [|by vm_compute].
  exact (proj1 (executePod_streams_once [DeletePodNamed "chaincode-build-1"; StopWatch]
           Demo.world Demo.schedule Demo.final Demo.run)).
Defined.

(** C18: At every moment of a call, what a goroutine has sent to the response
    stream are, in the order of the log, messages for what its Reads have given:
    one for every line that is complete, up to the first line that is too long
    for the scanner, but for those it still has in its buffer; and, however the
    log goes on and ends, they are the beginning of the messages for all of it. *)
Theorem executePod_logs_in_order {W} `{KubeClient W} (defers : list deferred)
    (k : kworld W) (ls : list choice) (s : exec_state W) (n : nat) (g : goroutine) :
  (∀ i, sent_from i (sent k) = []) →
  reaches (exec_init defers k) ls s → es_gos s !! n = Some g →
  g_read g = bytes_read n ls ∧ g_end g = end_read n ls ∧
  stream_messages (g_name g) (end_read n ls) (bytes_read n ls) = sent_from n (sent (es_k s)) ++ to_send g ∧
  (∀ more e, goes_on g e more →
     sent_from n (sent (es_k s)) `prefix_of` stream_messages (g_name g) e (bytes_read n ls +:+ more)).
Proof.
  intros Hk Hr Hg. apply (reaches_delivery defers k ls s) in Hr; [|done].
  pose proof (di_streams _ _ Hr n g Hg) as Hs. destruct (di_read _ _ Hr n g Hg) as [Hb He].
  rewrite <- Hb, <- He. split; [done|]. split; [done|].
  split; [by apply streaming_messages|]. intros more e. by apply streaming_prefix.
Qed.

Lemma executePod_logs_in_order_witness :
  ∃ g, es_gos Demo.final !! 0 = Some g ∧
  stream_messages (g_name g) (Some None) ("one" +:+ NL +:+ "two") =
     sent_from 0 (sent (es_k Demo.final)) ++ to_send g.
Proof.
  destruct (es_gos Demo.final !! 0) as [g|] eqn:E; [|by vm_compute in E].
  exists g. split; [done|].
  exact (proj1 (proj2 (proj2 (executePod_logs_in_order [DeletePodNamed "chaincode-build-1"; StopWatch]
           Demo.world Demo.schedule Demo.final 0 g (λ i, eq_refl) Demo.run E)))).
Defined.

(** C4: When executePod returns because the pod has succeeded or failed, every
    goroutine has ended, and the client has been sent the log of its container
    as far as the scanner takes it: when no line has 64 KiB or more, the log has
    been read to its end and all of its lines have been sent, and after them the
    read error, if one ended it; otherwise all the lines before the first such
    line, and the scanner's error, and the rest of that log is lost. *)
Theorem executePod_logs_complete {W} `{KubeClient W} (defers : list deferred)
    (k : kworld W) (ls : list choice) (s : exec_state W) (r : outcome unit) :
  (∀ i, sent_from i (sent k) = []) →
  reaches (exec_init defers k) ls s → es_pc s = Returned r →
  r = Ok tt ∨ r = Err ErrPodFailed →
  ∀ n g, es_gos s !! n = Some g →
    let lines := split_lines (bytes_read n ls) in
    let message l := line_message (g_name g) (dropCR l) in
    g_done g = true ∧
    ((∃ e, end_read n ls = Some e ∧ Forall (λ l, too_long l = false) lines ∧
        sent_from n (sent (es_k s)) =
          (message <$> lines) ++ option_list (scan_error_message (g_name g) <$> e)) ∨
     (∃ before l after, lines = before ++ l :: after ∧
        Forall (λ l, too_long l = false) before ∧ too_long l = true ∧
        sent_from n (sent (es_k s)) =
          (message <$> before) ++ [scan_error_message (g_name g) ErrTooLong])).
Proof.
  intros Hk Hr Hpc Hw n g Hg. apply (reaches_delivery defers k ls s) in Hr; [|done].
  pose proof (di_done _ _ Hr) as Hd. rewrite Hpc in Hd. specialize (Hd Hw n g Hg). split; [exact Hd|].
  pose proof (streaming_done g _ (di_streams _ _ Hr n g Hg) Hd) as Hlog.
  destruct (di_read _ _ Hr n g Hg) as [Hb He]. rewrite Hb, He in Hlog.
  destruct Hlog as [(e & H1 & H2 & H3)|(before & l & after & H1 & H2 & H3 & H4)]; [left; exists e|right; exists before, l, after];
    rewrite <- list_fmap_compose in *; done.
Qed.

Lemma executePod_logs_complete_witness :
  es_pc Demo.final = Returned (Ok tt) ∧
  sent_from 0 (sent (es_k Demo.final)) = ["build: one" +:+ NL; "build: two" +:+ NL] ∧
  ∀ n g, es_gos Demo.final !! n = Some g → g_done g = true.
Proof.
  split; [by vm_compute|]. split; [by vm_compute|]. intros n g Hg.
  exact (proj1 (executePod_logs_complete [DeletePodNamed "chaincode-build-1"; StopWatch]
           Demo.world Demo.schedule Demo.final (Ok tt) (λ i, eq_refl) Demo.run
           ltac:(by vm_compute) (or_introl eq_refl) n g Hg)).
Defined.

(** C19: When the loop of executePod has returned, on any path, each log stream
    it opened has been closed exactly once, the last opened first, and then
    the calls deferred before the loop (deleting the build pod, stopping the
    watch) have been made exactly once each; until the handler starts to
    return none of these calls has been made. *)
Theorem executePod_cleans_up {W} `{KubeClient W} (defers : list deferred)
    (k : kworld W) (ls : list choice) (s : exec_state W) :
  reaches (exec_init defers k) ls s →
  match es_pc s with
  | Returned _ =>
      cleanups (calls (es_k s)) = cleanups (calls k) ++
        (deferred_call <$> closers (length (es_gos s)) ++ defers)
  | Unwinding _ =>
      cleanups (calls (es_k s)) ++ (deferred_call <$> es_defers s) =
        cleanups (calls k) ++ (deferred_call <$> closers (length (es_gos s)) ++ defers)
  | _ => cleanups (calls (es_k s)) = cleanups (calls k)
  end.
Proof.
  intros (ran & Hd & Hc & Hpc)%reaches_cleanup.
  destruct (es_pc s) as [| | |r|r].
  1-3: by rewrite Hc, Hpc, app_nil_r.
  - by rewrite Hc, Hd, fmap_app, app_assoc.
  - by rewrite Hc, Hd, Hpc, app_nil_r.
Qed.

Lemma executePod_cleans_up_witness :
  es_pc Demo.final = Returned (Ok tt) ∧
  cleanups (calls (es_k Demo.final)) =
    [PodLogClose 1; PodLogClose 0; PodDelete "chaincode-build-1"; PodWatchStop].
Proof.
  split; [by vm_compute|].
  pose proof (executePod_cleans_up [DeletePodNamed "chaincode-build-1"; StopWatch]
    Demo.world Demo.schedule Demo.final Demo.run) as Hc.
  exact Hc.
Defined.

