(* ===== verification/Base64.v ===== *)
(** * base64.StdEncoding

    The encoding the crypto secret uses for the client certificate and key
    (pkg/k8sbuilder/server.go, toSecretData), with a decoder and the proof
    that what was encoded can be recovered. *)
From S2P Require Import Prelude GoStrings.
From Stdlib Require Import ZifyNat.

Definition alphabet : string :=
  "ABCDEFGHIJKLMNOPQRSTUVWXYZabcdefghijklmnopqrstuvwxyz0123456789+/".

Definition pad : ascii := "="%char.

(** The character of a 6-bit digit. *)
Definition digit_char (d : nat) : ascii :=
  match String.get d alphabet with Some a => a | None => pad end.

Fixpoint index_of (a : ascii) (s : string) : option nat :=
  match s with
  | EmptyString => None
  | String b s' => if bool_decide (b = a) then Some 0 else S <$> index_of a s'
  end.

(** The 6-bit digit of a character. *)
Definition char_digit (a : ascii) : option nat := index_of a alphabet.

Fixpoint EncodeToString (s : string) : string :=
  match s with
  | String a (String b (String c s')) =>
      let x := nat_of_ascii a in let y := nat_of_ascii b in let z := nat_of_ascii c in
      String (digit_char (x / 4))
        (String (digit_char ((x mod 4) * 16 + y / 16))
           (String (digit_char ((y mod 16) * 4 + z / 64))
              (String (digit_char (z mod 64)) (EncodeToString s'))))
  | String a (String b EmptyString) =>
      let x := nat_of_ascii a in let y := nat_of_ascii b in
      String (digit_char (x / 4))
        (String (digit_char ((x mod 4) * 16 + y / 16))
           (String (digit_char ((y mod 16) * 4)) (String pad "")))
  | String a EmptyString =>
      let x := nat_of_ascii a in
      String (digit_char (x / 4))
        (String (digit_char ((x mod 4) * 16)) (String pad (String pad "")))
  | EmptyString => ""
  end.

Definition byte1 (d1 d2 : nat) : ascii := ascii_of_nat (d1 * 4 + d2 / 16).
Definition byte2 (d2 d3 : nat) : ascii := ascii_of_nat ((d2 mod 16) * 16 + d3 / 4).
Definition byte3 (d3 d4 : nat) : ascii := ascii_of_nat ((d3 mod 4) * 64 + d4).

Fixpoint DecodeString (s : string) : option string :=
  match s with
  | EmptyString => Some ""
  | String a (String b (String c (String d s'))) =>
      d1 ← char_digit a; d2 ← char_digit b;
      match char_digit c, char_digit d with
      | Some d3, Some d4 =>
          r ← DecodeString s';
          Some (String (byte1 d1 d2) (String (byte2 d2 d3) (String (byte3 d3 d4) r)))
      | Some d3, None =>
          if bool_decide (d = pad ∧ s' = "")
          then Some (String (byte1 d1 d2) (String (byte2 d2 d3) "")) else None
      | None, _ =>
          if bool_decide (c = pad ∧ d = pad ∧ s' = "")
          then Some (String (byte1 d1 d2) "") else None
      end
  | _ => None
  end.

(** ** Round trip *)

Lemma char_digit_char d : d < 64 → char_digit (digit_char d) = Some d.
Proof.
  intros Hd. do 64 (destruct d as [|d]; [reflexivity|]). lia.
Qed.

Lemma char_digit_pad : char_digit pad = None.
Proof. reflexivity. Qed.

Lemma string_ind3 (P : string → Prop) :
  P "" → (∀ a, P (String a "")) → (∀ a b, P (String a (String b ""))) →
  (∀ a b c s, P s → P (String a (String b (String c s)))) → ∀ s, P s.
Proof.
  intros H0 H1 H2 H3. fix IH 1. intros [|a [|b [|c s]]]; [done..|]. apply H3, IH.
Qed.

Ltac byte_arith :=
  repeat match goal with
  | |- context [nat_of_ascii ?a] =>
      pose proof (nat_ascii_bounded a); pose proof (ascii_nat_embedding a);
      generalize dependent (nat_of_ascii a); intros
  end;
  Zify.zify; Z.div_mod_to_equations; lia.

Lemma byte1_ok a y :
  y < 16 → byte1 (nat_of_ascii a / 4) ((nat_of_ascii a mod 4) * 16 + y) = a.
Proof.
  intros Hy. unfold byte1. rewrite <- (ascii_nat_embedding a) at 3. f_equal. byte_arith.
Qed.

Lemma byte2_ok x b z :
  z < 4 →
  byte2 (x * 16 + nat_of_ascii b / 16) ((nat_of_ascii b mod 16) * 4 + z) = b.
Proof.
  intros Hz. unfold byte2. rewrite <- (ascii_nat_embedding b) at 3. f_equal. byte_arith.
Qed.

Lemma byte3_ok y c :
  byte3 (y * 4 + nat_of_ascii c / 64) (nat_of_ascii c mod 64) = c.
Proof.
  unfold byte3. rewrite <- (ascii_nat_embedding c) at 3. f_equal. byte_arith.
Qed.

Lemma DecodeString_EncodeToString s : DecodeString (EncodeToString s) = Some s.
Proof.
  induction s as [|a|a b|a b c s IH] using string_ind3; [done| | |];
    cbn [EncodeToString DecodeString].
  - rewrite !char_digit_char by byte_arith. cbn [mbind option_bind].
    rewrite char_digit_pad, bool_decide_eq_true_2 by done.
    rewrite <- (Nat.add_0_r ((nat_of_ascii a mod 4) * 16)), byte1_ok by lia. done.
  - rewrite !char_digit_char by byte_arith. cbn [mbind option_bind].
    rewrite char_digit_pad, bool_decide_eq_true_2 by done.
    rewrite byte1_ok by byte_arith.
    rewrite <- (Nat.add_0_r ((nat_of_ascii b mod 16) * 4)), byte2_ok by lia. done.
  - rewrite !char_digit_char by byte_arith. cbn [mbind option_bind].
    rewrite IH. cbn [mbind option_bind].
    rewrite byte1_ok, byte2_ok, byte3_ok by byte_arith. done.
Qed.
