(* ===== verification/Uuid.v ===== *)
(** * Random identifiers

    pkg/k8sbuilder/server.go, UUID: a version 4 UUID from 16 random bytes,
    printed in the 8-4-4-4-12 form. The bytes come from crypto/rand, which is
    the stream [entropy] of the server's world. *)
From S2P Require Import Prelude GoStrings.

(** uuid[8] = uuid[8]&^0xc0 | 0x80. *)
Definition set_variant (b : Z) : Z := Z.lor (Z.ldiff b 0xc0) 0x80.
(** uuid[6] = uuid[6]&^0xf0 | 0x40. *)
Definition set_version (b : Z) : Z := Z.lor (Z.ldiff b 0xf0) 0x40.

Definition stamp (u : list Z) : list Z :=
  alter set_version 6 (alter set_variant 8 u).

(** u[i:j]. *)
Definition slice (i j : nat) (u : list Z) : list Z := take (j - i) (drop i u).

Definition format_uuid (u : list Z) : string :=
  hex_bytes (slice 0 4 u) +:+ "-" +:+ hex_bytes (slice 4 6 u) +:+ "-" +:+
  hex_bytes (slice 6 8 u) +:+ "-" +:+ hex_bytes (slice 8 10 u) +:+ "-" +:+
  hex_bytes (drop 10 u).

Definition UUID_of (random : list Z) : string := format_uuid (stamp random).

Definition is_byte (b : Z) : Prop := (0 ≤ b < 256)%Z.

(** ** Properties *)

Lemma stamp_length u : length (stamp u) = length u.
Proof. unfold stamp. by rewrite !length_alter. Qed.

Lemma UUID_of_length u : length u = 16 → slen (UUID_of u) = 36.
Proof.
  intros Hu. unfold UUID_of, format_uuid. rewrite !slen_app, !slen_hex_bytes.
  unfold slice. rewrite !length_take, !length_drop, stamp_length, Hu. done.
Qed.

(** Sixteen bytes, one by one. *)
Ltac sixteen u Hu :=
  do 16 (destruct u as [|? u]; [discriminate Hu|]); destruct u; [|discriminate Hu].

(** A property of every byte, by checking the 256 of them. *)
Definition every_byte : list Z := Z.of_nat <$> seq 0 256.

Lemma every_byte_spec b : is_byte b → b ∈ every_byte.
Proof.
  intros Hb. apply list_elem_of_fmap. exists (Z.to_nat b). unfold is_byte in Hb.
  split; [lia|]. apply elem_of_seq. lia.
Qed.

Lemma byte_forall (P : Z → bool) :
  forallb P every_byte = true → ∀ b, is_byte b → P b = true.
Proof.
  intros HP b Hb. rewrite forallb_forall in HP.
  by apply HP, list_elem_of_In, every_byte_spec.
Qed.

(** The two hexadecimal digits determine a byte. *)
Definition unhex (a : ascii) : Z :=
  let n := Z.of_nat (nat_of_ascii a) in if (n <? 58)%Z then (n - 48)%Z else (n - 87)%Z.

Definition read_byte (s : string) : Z :=
  match s with String a (String b _) => (unhex a * 16 + unhex b)%Z | _ => 0%Z end.

Lemma read_hex_byte b : is_byte b → read_byte (hex_byte b) = b.
Proof.
  intros Hb. apply Z.eqb_eq.
  apply (byte_forall (λ b, (read_byte (hex_byte b) =? b)%Z)); [by vm_compute|done].
Qed.

Lemma set_version_digit b :
  is_byte b → (set_version b =? 64 + b mod 16)%Z = true.
Proof. apply (byte_forall (λ b, (set_version b =? 64 + b mod 16)%Z)). by vm_compute. Qed.

Lemma set_variant_digit b :
  is_byte b → (set_variant b =? 128 + b mod 64)%Z = true.
Proof. apply (byte_forall (λ b, (set_variant b =? 128 + b mod 64)%Z)). by vm_compute. Qed.

Lemma set_version_byte b : is_byte b → is_byte (set_version b).
Proof.
  intros Hb. pose proof (set_version_digit b Hb) as E. apply Z.eqb_eq in E.
  unfold is_byte in *. pose proof (Z.mod_pos_bound b 16). lia.
Qed.

Lemma set_variant_byte b : is_byte b → is_byte (set_variant b).
Proof.
  intros Hb. pose proof (set_variant_digit b Hb) as E. apply Z.eqb_eq in E.
  unfold is_byte in *. pose proof (Z.mod_pos_bound b 64). lia.
Qed.

Lemma stamp_bytes u : Forall is_byte u → Forall is_byte (stamp u).
Proof.
  intros Hu. apply Forall_lookup. intros i b. unfold stamp.
  rewrite Forall_lookup in Hu.
  destruct (decide (i = 6)) as [->|H6].
  - rewrite list_lookup_alter_eq, list_lookup_alter_ne by done.
    destruct (u !! 6) eqn:E; intros [= <-]. eauto using set_version_byte.
  - rewrite list_lookup_alter_ne by done. destruct (decide (i = 8)) as [->|H8].
    + rewrite list_lookup_alter_eq.
      destruct (u !! 8) eqn:E; intros [= <-]. eauto using set_variant_byte.
    + rewrite list_lookup_alter_ne by done. eauto.
Qed.

(** The digits of a printed list of bytes can be read back. *)
Fixpoint read_bytes (n : nat) (s : string) : list Z :=
  match n with O => [] | S n' => read_byte s :: read_bytes n' (drop_bytes 2 s) end.

Lemma read_hex_bytes bs t :
  Forall is_byte bs → read_bytes (length bs) (hex_bytes bs +:+ t) = bs.
Proof.
  induction 1 as [|b bs Hb Hbs IH]; [done|]. cbn [length read_bytes hex_bytes foldr].
  f_equal.
  - rewrite <- sapp_assoc. rewrite <- (read_hex_byte b Hb) at 2. done.
  - rewrite <- sapp_assoc. exact IH.
Qed.

(** Two lists of bytes printed at the same length with anything behind. *)
Lemma hex_bytes_app_inj bs bs' t t' :
  length bs = length bs' → Forall is_byte bs → Forall is_byte bs' →
  hex_bytes bs +:+ t = hex_bytes bs' +:+ t' → bs = bs' ∧ t = t'.
Proof.
  intros Hl Hbs Hbs' E.
  assert (bs = bs') as ->.
  { rewrite <- (read_hex_bytes bs t), <- (read_hex_bytes bs' t') by done.
    by rewrite E, Hl. }
  split; [done|]. by apply (inj (String.append (hex_bytes bs'))) in E.
Qed.

Lemma slice_bytes i j u : Forall is_byte u → Forall is_byte (slice i j u).
Proof. intros. unfold slice. by apply Forall_take, Forall_drop. Qed.

Lemma format_uuid_inj u v :
  length u = 16 → length v = 16 → Forall is_byte u → Forall is_byte v →
  format_uuid u = format_uuid v → u = v.
Proof.
  intros Hu Hv Bu Bv. unfold format_uuid. intros E.
  assert (∀ i j, length (slice i j u) = length (slice i j v)) as Hs.
  { intros i j. unfold slice. rewrite !length_take, !length_drop. lia. }
  repeat match type of E with
  | hex_bytes (slice ?i ?j u) +:+ _ = _ =>
      apply hex_bytes_app_inj in E as [?E E];
        [injection E as E|apply Hs|by apply slice_bytes|by apply slice_bytes]
  end.
  rewrite <- (sapp_nil_r (hex_bytes (drop 10 u))),
    <- (sapp_nil_r (hex_bytes (drop 10 v))) in E.
  apply hex_bytes_app_inj in E as [E _];
    [|rewrite !length_drop; lia|by apply Forall_drop|by apply Forall_drop].
  unfold slice in *. simpl in *.
  rewrite <- (take_drop 4 u), <- (take_drop 4 v). f_equal; [done|].
  rewrite <- (take_drop 2 (drop 4 u)), <- (take_drop 2 (drop 4 v)). f_equal; [done|].
  rewrite !drop_drop. simpl.
  rewrite <- (take_drop 2 (drop 6 u)), <- (take_drop 2 (drop 6 v)). f_equal; [done|].
  rewrite !drop_drop. simpl.
  rewrite <- (take_drop 2 (drop 8 u)), <- (take_drop 2 (drop 8 v)). f_equal; [done|].
  by rewrite !drop_drop.
Qed.

(** ** The source of randomness *)

(** The n-th read of 16 bytes, or its failure. *)
Record entropy := mkEntropy { en_read : nat → go_error + list Z; en_pos : nat }.

Definition rand_Read : M entropy (list Z) := λ e,
  (match en_read e (en_pos e) with inl err => Err err | inr b => Ok b end,
   mkEntropy (en_read e) (S (en_pos e))).

(** UUID panics when there is no randomness. *)
Definition UUID : M entropy string :=
  r ← attempt rand_Read;
  match r with
  | inl err => panic ("failed to generate UUID: " +:+ Error err)
  | inr u => mret (UUID_of u)
  end.

(** A read gives 16 bytes. *)
Definition entropy_ok (e : entropy) : Prop :=
  ∀ n u, en_read e n = inr u → length u = 16 ∧ Forall is_byte u.

(** *** The characters of a UUID *)

Definition uuid_char (a : ascii) : bool :=
  let n := nat_of_ascii a in
  ((48 <=? n) && (n <=? 57)) || ((97 <=? n) && (n <=? 102)) || (n =? 45).

Lemma hex_byte_chars b : is_byte b → all_bytes uuid_char (hex_byte b) = true.
Proof.
  apply (byte_forall (λ b, all_bytes uuid_char (hex_byte b))). by vm_compute.
Qed.

Lemma hex_bytes_chars bs :
  Forall is_byte bs → all_bytes uuid_char (hex_bytes bs) = true.
Proof.
  induction 1 as [|b bs Hb _ IH]; [done|]. cbn [hex_bytes foldr].
  by rewrite all_bytes_app, hex_byte_chars.
Qed.

Lemma UUID_of_chars u : Forall is_byte u → all_bytes uuid_char (UUID_of u) = true.
Proof.
  intros Hu%stamp_bytes. unfold UUID_of, format_uuid.
  rewrite !all_bytes_app, !hex_bytes_chars by (by apply slice_bytes || by apply Forall_drop).
  done.
Qed.

(** The last character is a hexadecimal digit. *)
Definition dns_alnum (a : ascii) : bool :=
  let n := nat_of_ascii a in ((48 <=? n) && (n <=? 57)) || ((97 <=? n) && (n <=? 122)).

Definition last_alnum (s : string) : Prop := ∃ t a, s = t +:+ String a "" ∧ dns_alnum a = true.

Lemma last_alnum_app s t : last_alnum t → last_alnum (s +:+ t).
Proof. intros (u & a & -> & H). exists (s +:+ u), a. by rewrite sapp_assoc. Qed.

Lemma hex_byte_last b : is_byte b → last_alnum (hex_byte b).
Proof.
  intros Hb. exists (String (hex_digit (Z.shiftr b 4)) ""), (hex_digit (Z.land b 15)).
  split; [done|]. by apply (byte_forall (λ b, dns_alnum (hex_digit (Z.land b 15)))).
Qed.

Lemma hex_bytes_last bs : bs ≠ [] → Forall is_byte bs → last_alnum (hex_bytes bs).
Proof.
  intros Hne H. induction H as [|b bs Hb Hbs IH]; [done|]. cbn [hex_bytes foldr].
  destruct bs as [|c bs].
  - cbn [foldr]. rewrite sapp_nil_r. by apply hex_byte_last.
  - apply last_alnum_app. by apply IH.
Qed.

Lemma UUID_of_last u : length u = 16 → Forall is_byte u → last_alnum (UUID_of u).
Proof.
  intros Hl Hu%stamp_bytes. unfold UUID_of, format_uuid.
  do 8 apply last_alnum_app. apply hex_bytes_last; [|by apply Forall_drop].
  intros E. apply (f_equal length) in E. rewrite length_drop, stamp_length, Hl in E. done.
Qed.

(** ** Properties *)

(** The digit at a position of the text. *)
Definition char_at (n : nat) (s : string) : string := take_bytes 1 (drop_bytes n s).

(** A UUID has the 8-4-4-4-12 form of RFC 4122 in lower case: 36 characters,
    hexadecimal digits with dashes at 8, 13, 18 and 23, the version digit 4 at
    14 and one of 8, 9, a and b, the variant, at 19. *)
Theorem UUID_format u :
  length u = 16 → Forall is_byte u →
  slen (UUID_of u) = 36 ∧ all_bytes uuid_char (UUID_of u) = true ∧
  Forall (λ n, char_at n (UUID_of u) = "-") [8; 13; 18; 23] ∧
  char_at 14 (UUID_of u) = "4" ∧
  char_at 19 (UUID_of u) ∈ ["8"; "9"; "a"; "b"].
Proof.
  intros Hl Hu. split; [by apply UUID_of_length|]. split; [by apply UUID_of_chars|].
  sixteen u Hl. rewrite !Forall_cons in Hu.
  destruct Hu as (_&_&_&_&_&_&H6&_&H8&_).
  unfold UUID_of, format_uuid, stamp, slice, char_at.
  cbn [alter list_alter take drop Nat.sub hex_bytes foldr hex_byte String.append take_bytes drop_bytes].
  split; [by repeat (apply Forall_cons; split; [reflexivity|])|]. split.
  - pose proof (byte_forall (λ b, bool_decide
      (String (hex_digit (Z.shiftr (set_version b) 4)) "" = "4")) ltac:(by vm_compute) _ H6) as E.
    by apply bool_decide_eq_true in E.
  - pose proof (byte_forall (λ b, bool_decide
      (String (hex_digit (Z.shiftr (set_variant b) 4)) "" ∈ ["8"; "9"; "a"; "b"]))
      ltac:(by vm_compute) _ H8) as E.
    by apply bool_decide_eq_true in E.
Qed.

Lemma UUID_format_witness :
  slen (UUID_of (repeat 255%Z 16)) = 36 ∧
  UUID_of (repeat 255%Z 16) = "ffffffff-ffff-4fff-bfff-ffffffffffff".
Proof.
  split; [|by vm_compute].
  apply (UUID_format (repeat 255%Z 16)); [reflexivity|]. repeat constructor; lia.
Defined.

(** No randomness is lost in printing: two UUIDs are equal exactly when the
    random bytes agree outside the six bits of version and variant. *)
Theorem UUID_collision u v :
  length u = 16 → length v = 16 → Forall is_byte u → Forall is_byte v →
  UUID_of u = UUID_of v ↔ stamp u = stamp v.
Proof.
  intros Hu Hv Bu Bv. split; [|by unfold UUID_of; intros ->].
  apply format_uuid_inj; rewrite ?stamp_length; auto using stamp_bytes.
Qed.

Lemma UUID_collision_witness :
  UUID_of (repeat 0%Z 16) = UUID_of (repeat 0%Z 6 ++ [240%Z] ++ repeat 0%Z 9).
Proof.
  apply (UUID_collision (repeat 0%Z 16) (repeat 0%Z 6 ++ [240%Z] ++ repeat 0%Z 9));
    [reflexivity|reflexivity|repeat constructor; lia|repeat constructor; lia|by vm_compute].
Defined.

Lemma UUID_ok e :
  entropy_ok e →
  (∃ s e', UUID e = (Ok s, e') ∧ (∃ u, s = UUID_of u ∧ length u = 16 ∧ Forall is_byte u) ∧
           entropy_ok e') ∨
  (∃ p e', UUID e = (Panic p, e') ∧ entropy_ok e').
Proof.
  intros He. unfold UUID, mbind, M_bind, attempt, rand_Read.
  destruct (en_read e (en_pos e)) as [err|u] eqn:E; [right; by eexists _, _|left].
  destruct (He _ _ E) as [Hl Hb]. eexists _, _. split; [done|].
  split; [by exists u|done].
Qed.
