(* ===== verification/CryptoSecret.v ===== *)
(** * The crypto secret of a run

    pkg/k8sbuilder/server.go: the secret that carries the peer's certificate
    and the client's certificate and key to the run container
    (createCryptoSecret, toSecretData), its owner reference to the pod
    (addControllerReferenceToCryptoSecret) and its removal
    (deleteCryptoSecret). *)
From S2P Require Import Prelude GoStrings KubeTypes KubeApi Containers Base64.

Definition secret_name (uuid : string) : string := "certs-" +:+ uuid.

Definition toSecretData (r : runMetadata) : gmap string string :=
  list_to_map
    [ ("peer.crt", RootCert r);
      ("client_pem.crt", ClientCert r);
      ("client_pem.key", ClientKey r);
      ("client.crt", EncodeToString (ClientCert r));
      ("client.key", EncodeToString (ClientKey r)) ].

(** The owner reference to a pod, as the program writes it everywhere. *)
Definition controller_reference (name uid : string) : OwnerReference :=
  mkOwnerReference "v1" "Pod" name uid (Some true) (Some true).

Section secret.
Context {W : Type} `{KubeClient W}.

Definition new_secret (m : runMetadata) (uuid : string) : Secret :=
  mkSecret (mkObjectMeta (secret_name uuid) "" ∅ []) ∅ (toSecretData m).

Definition createCryptoSecret (m : runMetadata) (uuid : string) : M (kworld W) unit :=
  call (SecretCreate (new_secret m uuid)) (secrets_Create (new_secret m uuid)).

Definition deleteCryptoSecret (uuid : string) : M (kworld W) unit :=
  let name := secret_name uuid in
  r ← attempt (call (SecretGet name) (secrets_Get name));
  match r with
  | inl _ => mret tt        (* do nothing if the secret has already been deleted *)
  | inr secret =>
      match om_OwnerReferences (sec_Meta secret) with
      | _ :: _ => mret tt   (* it will be garbage collected with its owner *)
      | [] =>
          Log ("crypto secret does not have owner references, deleting secret" +:+ NL) ;;
          call (SecretDelete name) (secrets_Delete name)
      end
  end.

Definition addControllerReferenceToCryptoSecret (owner : Pod) (uuid : string)
    : M (kworld W) unit :=
  let name := secret_name uuid in
  secret ← wrap_err (Errorf ("failed to get " +:+ name +:+ " secret: "))
             (call (SecretGet name) (secrets_Get name));
  let secret' :=
    set_owner_references [controller_reference (pod_Name owner) (pod_UID owner)] secret in
  call (SecretUpdate secret') (secrets_Update secret').
End secret.

(** ** What the run container finds in the secret *)

(** The container gets the PEM files themselves and their base64 forms. *)
Lemma toSecretData_lookup r :
  toSecretData r !! "peer.crt" = Some (RootCert r) ∧
  toSecretData r !! "client_pem.crt" = Some (ClientCert r) ∧
  toSecretData r !! "client_pem.key" = Some (ClientKey r) ∧
  (toSecretData r !! "client.crt" ≫= DecodeString) = Some (ClientCert r) ∧
  (toSecretData r !! "client.key" ≫= DecodeString) = Some (ClientKey r).
Proof.
  unfold toSecretData. simpl list_to_map.
  repeat split; simplify_map_eq; try done; apply DecodeString_EncodeToString.
Qed.

(** ** The secret store along the operations *)

Section store.
Context {W : Type} `{SecretStore W}.
Implicit Types (k : kworld W).

(** The secrets of the cluster as the program sees them. *)
Definition ksecrets k : gmap string Secret := secrets (kube k).

(** The secret that was made, without an owner, is the only change. *)
Lemma createCryptoSecret_made m uuid k k' :
  createCryptoSecret m uuid k = (Ok tt, k') →
  ksecrets k !! secret_name uuid = None ∧
  kube k' = (secrets_Create (new_secret m uuid) (kube k)).2 ∧
  ∃ s, ksecrets k' = <[secret_name uuid := s]> (ksecrets k) ∧
    om_OwnerReferences (sec_Meta s) = [] ∧ sec_Data s = toSecretData m ∧ sec_StringData s = ∅.
Proof.
  unfold createCryptoSecret, call.
  destruct (secrets_Create _ (kube k)) as [[e|[]] w] eqn:E; [done|]. intros [= <-].
  apply secrets_Create_ok in E as (Hn & s & Hs & Hw). split; [done|]. split; [done|].
  exists s. split; [exact Hw|]. destruct Hs as (_ & Ho & Hd & Hsd). split; [exact Ho|]. split; [|exact Hsd].
  simpl in Hd. by rewrite Hd, (right_id_L ∅ (∪)).
Qed.

Lemma createCryptoSecret_err m uuid k e k' :
  createCryptoSecret m uuid k = (Err e, k') → ksecrets k' = ksecrets k.
Proof.
  unfold createCryptoSecret, call.
  destruct (secrets_Create _ (kube k)) as [[e'|[]] w] eqn:E; [|done].
  intros [= _ <-]. by apply secrets_Create_err in E.
Qed.

(** The branches of deleteCryptoSecret. *)
Lemma deleteCryptoSecret_cases uuid k :
  let name := secret_name uuid in
  (∃ e w, secrets_Get name (kube k) = (inl e, w) ∧
     deleteCryptoSecret uuid k = (Ok tt, mkKworld w (calls k ++ [SecretGet name]) (sent k))) ∨
  (∃ s w, secrets_Get name (kube k) = (inr s, w) ∧
     om_OwnerReferences (sec_Meta s) ≠ [] ∧
     deleteCryptoSecret uuid k = (Ok tt, mkKworld w (calls k ++ [SecretGet name]) (sent k))) ∨
  (∃ s w w' r, secrets_Get name (kube k) = (inr s, w) ∧
     om_OwnerReferences (sec_Meta s) = [] ∧ secrets_Delete name w = (r, w') ∧
     deleteCryptoSecret uuid k =
       (match r with inl e => Err e | inr _ => Ok tt end,
        mkKworld w' (calls k ++ [SecretGet name] ++ [SecretDelete name])
          (sent k ++ [(FromMain,
            "crypto secret does not have owner references, deleting secret" +:+ NL)]))).
Proof.
  simpl. unfold deleteCryptoSecret, mbind, M_bind, attempt, Log, modify, send, call.
  destruct (secrets_Get _ (kube k)) as [[e|s] w] eqn:Eget; simpl.
  - left. eauto.
  - destruct (om_OwnerReferences (sec_Meta s)) as [|ref refs] eqn:Eown; simpl.
    + right. right. destruct (secrets_Delete (secret_name uuid) w) as [r w'] eqn:Edel.
      exists s, w, w', r. rewrite <- app_assoc. by destruct r as [e|[]].
    + right. left. exists s, w. rewrite Eown. done.
Qed.

(** The owner reference makes the secret the property of the pod and keeps
    what it carries. *)
Lemma addControllerReference_ok owner uuid k k' :
  addControllerReferenceToCryptoSecret owner uuid k = (Ok tt, k') →
  ∃ s s', ksecrets k !! secret_name uuid = Some s ∧
    ksecrets k' = <[secret_name uuid := s']> (ksecrets k) ∧
    om_OwnerReferences (sec_Meta s') =
      [controller_reference (pod_Name owner) (pod_UID owner)] ∧
    sec_Data s' = sec_StringData s ∪ sec_Data s.
Proof.
  unfold addControllerReferenceToCryptoSecret, mbind, M_bind, wrap_err, call.
  destruct (secrets_Get _ (kube k)) as [[e|s] w] eqn:Eget; simpl; [done|].
  set (s1 := set_owner_references _ s).
  destruct (secrets_Update s1 w) as [[e|[]] w'] eqn:Eup; [done|]. intros [= <-].
  apply secrets_Get_ok in Eget as (Hs & Hn & Hw).
  apply secrets_Update_ok in Eup as (_ & s' & (_ & Ho & Hd & _) & Hw').
  change (sec_Name s1) with (sec_Name s) in Hw'. rewrite Hn, Hw in Hw'.
  exists s, s'. done.
Qed.

Lemma addControllerReference_err owner uuid k e k' :
  addControllerReferenceToCryptoSecret owner uuid k = (Err e, k') →
  ksecrets k' = ksecrets k.
Proof.
  unfold addControllerReferenceToCryptoSecret, mbind, M_bind, wrap_err, call.
  destruct (secrets_Get _ (kube k)) as [[e'|s] w] eqn:Eget; simpl.
  - intros [= _ <-]. by apply secrets_Get_err in Eget.
  - set (s1 := set_owner_references _ s).
    destruct (secrets_Update s1 w) as [[e'|[]] w'] eqn:Eup; [|done]. intros [= _ <-].
    apply secrets_Get_ok in Eget as (_ & _ & Hw). apply secrets_Update_err in Eup.
    unfold ksecrets. simpl. by rewrite Eup.
Qed.
End store.
