(* ===== verification/GoPath.v ===== *)
(** * Paths

    The functions of Go's packages path and path/filepath the program calls
    (Clean, Join, Rel, Base, Dir, Ext), on the elements between slashes, and
    the way the kernel resolves a path name in a tree without symbolic links.
    The lemmas relate the two: a cleaned or joined path names the same file,
    and joining a path without parent elements stays below the first part. *)
From S2P Require Import Prelude GoStrings.

Definition slash : ascii := "/"%char.
Definition SLASH : string := String slash "".

Definition rooted (p : string) : bool := HasPrefix p SLASH.

(** An element that names a directory entry. *)
Definition normal (x : string) : Prop := x ≠ "" ∧ x ≠ "." ∧ x ≠ "..".

(** ** Resolution by the kernel *)

(** One element, on the reversed list of directories walked so far. *)
Definition kstep (st : list string) (x : string) : list string :=
  if bool_decide (x = "" ∨ x = ".") then st
  else if bool_decide (x = "..") then tail st
  else x :: st.

(** The entry a path names, as the list of names from the root. *)
Definition resolve (cwd : list string) (p : string) : list string :=
  reverse (foldl kstep (if rooted p then [] else reverse cwd) (Split slash p)).

(** ** path.Clean and filepath.Clean *)

(** One element, on the reversed list of elements of the result. *)
Definition clean_step (root : bool) (st : list string) (x : string) : list string :=
  if bool_decide (x = "" ∨ x = ".") then st
  else if bool_decide (x = "..") then
    match st with
    | y :: st' => if bool_decide (y = "..") then ".." :: st else st'
    | [] => if root then [] else [".."]
    end
  else x :: st.

Definition clean_elems (root : bool) (l : list string) : list string :=
  foldl (clean_step root) [] l.

Definition Clean (p : string) : string :=
  let body := Join (reverse (clean_elems (rooted p) (Split slash p))) SLASH in
  if rooted p then SLASH +:+ body
  else if bool_decide (body = "") then "." else body.

(** ** path.Join and filepath.Join: leading empty elements are dropped *)

Fixpoint drop_empty (l : list string) : list string :=
  match l with
  | x :: l' => if bool_decide (x = "") then drop_empty l' else l
  | [] => []
  end.

Definition PathJoin (elem : list string) : string :=
  match drop_empty elem with
  | [] => ""
  | l => Clean (Join l SLASH)
  end.

(** ** filepath.Rel *)

Fixpoint strip_common (l1 l2 : list string) : list string * list string :=
  match l1, l2 with
  | x :: l1', y :: l2' => if bool_decide (x = y) then strip_common l1' l2' else (l1, l2)
  | _, _ => (l1, l2)
  end.

(** The elements of a cleaned path. *)
Definition cleaned_elems (p : string) : list string :=
  reverse (clean_elems (rooted p) (Split slash p)).

Definition ErrRel (base targ : string) : go_error :=
  ErrorString ("Rel: can't make " +:+ targ +:+ " relative to " +:+ base).

Definition Rel (basepath targpath : string) : go_error + string :=
  if bool_decide (Clean targpath = Clean basepath) then inr "."
  else if bool_decide (rooted basepath ≠ rooted targpath) then inl (ErrRel basepath targpath)
  else
    let '(b, t) := strip_common (cleaned_elems basepath) (cleaned_elems targpath) in
    if bool_decide (head b = Some "..") then inl (ErrRel basepath targpath)
    else inr (Join (((λ _, "..") <$> b) ++ t) SLASH).

(** ** filepath.Base, Dir and Ext *)

(** The bytes after the last slash, and those up to and with it. *)
Definition last_elem (p : string) : string := default "" (last (Split slash p)).
Definition dir_part (p : string) : string :=
  take_bytes (slen p - slen (last_elem p)) p.

Fixpoint trim_slashes (p : list string) : list string :=
  match p with
  | [] => []
  | x :: l => match trim_slashes l with
              | [] => if bool_decide (x = "") then [] else [x]
              | l' => x :: l'
              end
  end.

Definition Base (p : string) : string :=
  if bool_decide (p = "") then "."
  else default SLASH (last (trim_slashes (Split slash p))).

Definition Dir (p : string) : string := Clean (dir_part p).

(** The suffix of the last element from its last dot on. *)
Definition Ext (p : string) : string :=
  match Split "."%char (last_elem p) with
  | [] | [_] => ""
  | l => String "."%char (default "" (last l))
  end.

(** ** Elements *)

Lemma rooted_SLASH p : rooted (SLASH +:+ p) = true.
Proof. apply HasPrefix_spec. by exists p. Qed.

Lemma rooted_String a p : rooted (String a p) = bool_decide (a = slash).
Proof.
  unfold rooted. case_bool_decide as Ha.
  - subst a. apply (rooted_SLASH p).
  - simpl. by rewrite bool_decide_eq_false_2.
Qed.

Lemma kstep_skip st x : x = "" ∨ x = "." → kstep st x = st.
Proof. intros. unfold kstep. by rewrite bool_decide_eq_true_2. Qed.

Lemma kstep_name st x : normal x → kstep st x = x :: st.
Proof.
  intros (H1 & H2 & H3). unfold kstep. rewrite bool_decide_eq_false_2 by tauto.
  by rewrite bool_decide_eq_false_2.
Qed.

Lemma foldl_kstep_normal st l : Forall normal l → foldl kstep st l = reverse l ++ st.
Proof.
  intros H. revert st. induction H as [|x l Hx _ IH]; intros st; [done|].
  cbn [foldl]. by rewrite IH, kstep_name, reverse_cons, <- app_assoc.
Qed.

(** The named elements of a path. *)
Definition elems (p : string) : list string :=
  filter (λ x, x ≠ "" ∧ x ≠ ".") (Split slash p).

Lemma foldl_kstep_filter st l :
  foldl kstep st l = foldl kstep st (filter (λ x, x ≠ "" ∧ x ≠ ".") l).
Proof.
  revert st. induction l as [|x l IH]; intros st; [done|]. cbn [foldl].
  destruct (decide (x ≠ "" ∧ x ≠ ".")) as [H|H].
  - rewrite filter_cons_True by done. cbn [foldl]. apply IH.
  - rewrite filter_cons_False by done. rewrite IH, kstep_skip; [done|].
    destruct (decide (x = "")); [by left|]. destruct (decide (x = ".")); [by right|]. tauto.
Qed.

(** No parent elements. *)
Definition no_dotdot (p : string) : Prop := ".." ∉ Split slash p.

Lemma elems_normal p : no_dotdot p → Forall normal (elems p).
Proof.
  intros Hp. apply Forall_forall. intros x [[H1 H2] Hx]%list_elem_of_filter.
  repeat split; [done..|]. by intros ->.
Qed.

Lemma resolve_no_dotdot cwd p :
  no_dotdot p → resolve cwd p = (if rooted p then [] else cwd) ++ elems p.
Proof.
  intros Hp. unfold resolve. rewrite foldl_kstep_filter. fold (elems p).
  rewrite foldl_kstep_normal by by apply elems_normal.
  rewrite reverse_app, reverse_involutive. by destruct (rooted p); rewrite ?reverse_involutive.
Qed.

(** ** Clean does not change the file a path names *)

(** What the stack of Clean holds. *)
Definition clean_elem (x : string) : Prop := x ≠ "" ∧ x ≠ ".".

Lemma clean_step_elems root st x :
  Forall clean_elem st → Forall clean_elem (clean_step root st x).
Proof.
  intros H. unfold clean_step. case_bool_decide as H1; [done|].
  case_bool_decide as H2.
  - destruct st as [|y st]; [by destruct root; repeat constructor|].
    case_bool_decide; [by constructor|]. by inversion H.
  - constructor; [|done]. split; intros ->; tauto.
Qed.

Lemma clean_elems_elems root l : Forall clean_elem (clean_elems root l).
Proof.
  unfold clean_elems. assert (Forall clean_elem []) as H by constructor.
  revert H. generalize (@nil string) as st.
  induction l as [|x l IH]; intros st Hst; [done|]. by apply IH, clean_step_elems.
Qed.

(** On a rooted path the stack has no parent elements. *)
Lemma clean_step_rooted st x :
  Forall normal st → Forall normal (clean_step true st x).
Proof.
  intros H. unfold clean_step. case_bool_decide as H1; [done|]. case_bool_decide as H2.
  - destruct st as [|y st]; [done|]. inversion H as [|? ? (? & ? & ?) ?]; subst.
    by rewrite bool_decide_eq_false_2.
  - constructor; [|done]. repeat split; intros ->; tauto.
Qed.

Lemma clean_elems_rooted l : Forall normal (clean_elems true l).
Proof.
  unfold clean_elems. assert (Forall normal []) as H by constructor.
  revert H. generalize (@nil string) as st.
  induction l as [|x l IH]; intros st Hst; [done|]. by apply IH, clean_step_rooted.
Qed.

Lemma kstep_clean_step (root : bool) base st x :
  Forall clean_elem st → (root = true → base = []) →
  foldl kstep base (reverse (clean_step root st x)) =
  kstep (foldl kstep base (reverse st)) x.
Proof.
  intros Hst Hb. unfold clean_step. case_bool_decide as H1.
  - by rewrite (kstep_skip (foldl kstep base (reverse st)) x).
  - case_bool_decide as H2.
    + subst x. destruct st as [|y st].
      * destruct root; [|done]. rewrite Hb by done. done.
      * case_bool_decide as Hy.
        -- rewrite reverse_cons, foldl_app. done.
        -- rewrite reverse_cons, foldl_app. simpl.
           inversion Hst as [|? ? [Hy1 Hy2] ?]; subst.
           rewrite (kstep_name _ y) by (by repeat split). done.
    + rewrite reverse_cons, foldl_app. done.
Qed.

Lemma foldl_kstep_clean (root : bool) base l :
  (root = true → base = []) →
  foldl kstep base (reverse (clean_elems root l)) = foldl kstep base l.
Proof.
  intros Hb. unfold clean_elems.
  induction l as [|x l IH] using rev_ind; [done|].
  rewrite !foldl_app. cbn [foldl]. rewrite kstep_clean_step; [|apply clean_elems_elems|done].
  by rewrite IH.
Qed.

Lemma clean_elems_no_slash root l :
  Forall (λ x, has_byte slash x = false) l →
  Forall (λ x, has_byte slash x = false) (clean_elems root l).
Proof.
  intros Hl. unfold clean_elems.
  assert (∀ st, Forall (λ x, has_byte slash x = false) st →
    Forall (λ x, has_byte slash x = false) (foldl (clean_step root) st l)) as Hgen.
  { induction Hl as [|x l Hx Hl IH]; intros st Hst; [done|]. apply IH.
    unfold clean_step. repeat case_bool_decide; [done| |by constructor].
    destruct st as [|y st]; [by destruct root; repeat constructor|].
    case_bool_decide; [by constructor|by inversion Hst]. }
  by apply Hgen.
Qed.

(** The elements of a cleaned path are those on the stack. *)
Lemma Split_Clean p :
  Split slash (Clean p) =
  let l := reverse (clean_elems (rooted p) (Split slash p)) in
  match l with
  | [] => if rooted p then [""; ""] else ["."]
  | _ => if rooted p then "" :: l else l
  end.
Proof.
  pose proof (clean_elems_no_slash (rooted p) _ (Split_no_sep slash p)) as Hns.
  pose proof (clean_elems_elems (rooted p) (Split slash p)) as Hce.
  unfold Clean. apply (Forall_reverse _ _) in Hns, Hce.
  set (l := reverse _) in *. destruct l as [|x l].
  - by destruct (rooted p).
  - destruct (rooted p).
    + change (SLASH +:+ ?b) with ("" +:+ String slash b).
      rewrite Split_app by done. by rewrite Split_Join.
    + rewrite bool_decide_eq_false_2; [by rewrite Split_Join|].
      inversion Hce as [|? ? [Hx _] _]; subst. destruct x; [done|]. by destruct l.
Qed.

Lemma rooted_Clean p : rooted (Clean p) = rooted p.
Proof.
  unfold Clean. destruct (rooted p) eqn:E; [apply rooted_SLASH|].
  pose proof (clean_elems_no_slash false _ (Split_no_sep slash p)) as Hns.
  pose proof (clean_elems_elems false (Split slash p)) as Hce.
  apply (Forall_reverse _ _) in Hns, Hce. set (l := reverse _) in *.
  destruct l as [|x l]; [done|].
  inversion Hns as [|? ? Hx _]; inversion Hce as [|? ? [Hx' _] _]; subst.
  destruct x as [|a x]; [done|]. simpl in Hx. apply orb_false_iff in Hx as [Ha _].
  rewrite bool_decide_eq_false_2 by by destruct l.
  by destruct l; simpl; rewrite rooted_String.
Qed.

Lemma resolve_Clean cwd p : resolve cwd (Clean p) = resolve cwd p.
Proof.
  unfold resolve. rewrite rooted_Clean, Split_Clean.
  set (l := clean_elems _ _). f_equal.
  assert (foldl kstep (if rooted p then [] else reverse cwd) (reverse l) =
    foldl kstep (if rooted p then [] else reverse cwd) (Split slash p)) as <-.
  { unfold l. apply foldl_kstep_clean. by intros ->. }
  destruct (reverse l) as [|x r]; [by destruct (rooted p)|]. by destruct (rooted p).
Qed.

Lemma resolve_PathJoin2 cwd a b :
  a ≠ "" →
  resolve cwd (PathJoin [a; b]) =
  reverse (foldl kstep (reverse (resolve cwd a)) (Split slash b)).
Proof.
  intros Ha. unfold PathJoin. cbn [drop_empty].
  rewrite bool_decide_eq_false_2 by done.
  rewrite resolve_Clean. change (Join [a; b] SLASH) with (a +:+ SLASH +:+ b).
  unfold resolve.
  change (Split slash (a +:+ SLASH +:+ b)) with (Split slash (a +:+ String slash b)).
  rewrite Split_app_any, foldl_app, reverse_involutive.
  replace (rooted (a +:+ SLASH +:+ b)) with (rooted a); [done|].
  destruct a as [|c a]; [done|]. simpl. by rewrite !rooted_String.
Qed.

(** Joining a path without parent elements stays below the directory. *)
Lemma resolve_PathJoin_below cwd a b :
  a ≠ "" → no_dotdot b →
  resolve cwd (PathJoin [a; b]) = resolve cwd a ++ elems b.
Proof.
  intros Ha Hb. rewrite resolve_PathJoin2, foldl_kstep_filter by done. fold (elems b).
  rewrite foldl_kstep_normal by by apply elems_normal.
  by rewrite reverse_app, !reverse_involutive.
Qed.

(** A cleaned rooted path has no parent elements. *)
Lemma Clean_rooted_no_dotdot p : rooted p = true → no_dotdot (Clean p).
Proof.
  intros Hp. unfold no_dotdot. rewrite Split_Clean, Hp. simpl.
  pose proof (clean_elems_rooted (Split slash p)) as Hn. apply (Forall_reverse _ _) in Hn.
  set (l := reverse _) in *. intros Hin.
  assert (".." ∈ l) as Hl.
  { destruct l; [by apply list_elem_of_In in Hin as [?|[?|[]]]|].
    by apply elem_of_cons in Hin as [?|?]. }
  rewrite Forall_forall in Hn. by destruct (Hn _ Hl) as (_ & _ & ?).
Qed.

Lemma Clean_not_empty p : Clean p ≠ "".
Proof. unfold Clean. destruct (rooted p); [done|]. by case_bool_decide. Qed.

(** *** Joining one name *)

(** The name of a directory entry. *)
Definition name_ok (x : string) : Prop := normal x ∧ has_byte slash x = false.

#[export] Instance name_ok_dec x : Decision (name_ok x).
Proof. unfold name_ok, normal. apply _. Defined.

Lemma name_ok_elems x : name_ok x → no_dotdot x ∧ elems x = [x].
Proof.
  intros [(H1 & H2 & H3) Hs]. unfold no_dotdot, elems. rewrite Split_id by done. split.
  - intros Hin. apply list_elem_of_singleton in Hin. congruence.
  - by rewrite filter_cons_True, filter_nil.
Qed.

Lemma PathJoin_not_empty a b : a ≠ "" → PathJoin [a; b] ≠ "".
Proof.
  intros Ha. unfold PathJoin. cbn [drop_empty]. rewrite bool_decide_eq_false_2 by done.
  apply Clean_not_empty.
Qed.

Lemma resolve_child cwd d x :
  d ≠ "" → name_ok x → resolve cwd (PathJoin [d; x]) = resolve cwd d ++ [x].
Proof.
  intros Hd Hx. destruct (name_ok_elems x Hx) as [Hn He].
  by rewrite resolve_PathJoin_below, He.
Qed.

(** Names on top of parent elements, and none of those on a rooted path. *)
Definition canonical (root : bool) (st : list string) : Prop :=
  ∃ l n, st = l ++ replicate n ".." ∧ Forall normal l ∧ (root = true → n = 0).

Lemma clean_step_canonical root st x : canonical root st → canonical root (clean_step root st x).
Proof.
  intros (l & n & -> & Hl & Hn). unfold clean_step. case_bool_decide as H1; [by exists l, n|].
  case_bool_decide as H2.
  - destruct l as [|y l]; simpl.
    + destruct n as [|n]; simpl.
      * destruct root; [by exists [], 0|by exists [], 1].
      * exists [], (S (S n)).
        split; [done|]. split; [done|]. intros Hr. by specialize (Hn Hr).
    + inversion Hl as [|? ? (? & ? & ?) ?]; subst. cbn [app]. rewrite bool_decide_eq_false_2 by done.
      by exists l, n.
  - exists (x :: l), n. split; [done|]. split; [|done]. constructor; [|done].
    repeat split; intros ->; tauto.
Qed.

Lemma clean_elems_canonical root l : canonical root (clean_elems root l).
Proof.
  unfold clean_elems. assert (canonical root []) as H by (exists [], 0; by repeat split; try constructor).
  revert H. generalize (@nil string) as st.
  induction l as [|x l IH]; intros st Hst; [done|]. by apply IH, clean_step_canonical.
Qed.

Lemma clean_step_normal root st x : normal x → clean_step root st x = x :: st.
Proof.
  intros (H1 & H2 & H3). unfold clean_step. rewrite !bool_decide_eq_false_2; [done|done|by intros [?|?]].
Qed.

(** Cleaning a canonical path changes nothing. *)
Lemma clean_elems_reverse root st : canonical root st → clean_elems root (reverse st) = st.
Proof.
  intros (l & n & -> & Hl & Hn). unfold clean_elems. rewrite reverse_app, foldl_app.
  assert (foldl (clean_step root) [] (reverse (replicate n "..")) = replicate n "..") as ->.
  { destruct root; [by rewrite Hn|]. rewrite reverse_replicate. clear.
    induction n as [|n IH]; [done|]. rewrite replicate_S_end, foldl_app, IH. cbn [foldl].
    rewrite <- replicate_S_end. unfold clean_step. rewrite bool_decide_eq_false_2 by (intros [?|?]; done).
    rewrite bool_decide_eq_true_2 by done. by destruct n. }
  clear Hn. revert Hl. induction l as [|x l IH]; intros Hl; [done|].
  inversion_clear Hl as [|? ? Hx Hl']. rewrite reverse_cons, foldl_app, (IH Hl').
  cbn [foldl app]. by rewrite clean_step_normal.
Qed.

Lemma cleaned_elems_Clean p : cleaned_elems (Clean p) = cleaned_elems p.
Proof.
  unfold cleaned_elems. rewrite rooted_Clean, Split_Clean. cbv zeta. f_equal.
  pose proof (clean_elems_canonical (rooted p) (Split slash p)) as Hc.
  pose proof (clean_elems_reverse _ _ Hc) as Hr.
  destruct (reverse (clean_elems (rooted p) (Split slash p))) as [|x l] eqn:E.
  - apply (f_equal reverse) in E. rewrite reverse_involutive in E. rewrite E. by destruct (rooted p).
  - rewrite <- Hr. clear. by destruct (rooted p).
Qed.

Lemma cleaned_elems_child p x :
  p ≠ "" → name_ok x → cleaned_elems (PathJoin [p; x]) = cleaned_elems p ++ [x].
Proof.
  intros Hp [Hx Hs]. unfold PathJoin. cbn [drop_empty]. rewrite bool_decide_eq_false_2 by done.
  rewrite cleaned_elems_Clean. change (Join [p; x] SLASH) with (p +:+ String slash x).
  unfold cleaned_elems, clean_elems. rewrite Split_app_any, (Split_id slash x Hs), foldl_app. cbn [foldl].
  assert (rooted (p +:+ String slash x) = rooted p) as ->.
  { destruct p as [|c p]; [done|]. simpl. by rewrite !rooted_String. }
  by rewrite clean_step_normal, reverse_cons.
Qed.

Lemma rooted_child p x : p ≠ "" → rooted (PathJoin [p; x]) = rooted p.
Proof.
  intros Hp. unfold PathJoin. cbn [drop_empty]. rewrite bool_decide_eq_false_2 by done.
  rewrite rooted_Clean. change (Join [p; x] SLASH) with (p +:+ String slash x).
  destruct p as [|c p]; [done|]. simpl. by rewrite !rooted_String.
Qed.

Lemma strip_common_app l1 l2 : strip_common l1 (l1 ++ l2) = ([], l2).
Proof. induction l1 as [|x l1 IH]; [by destruct l2|]. simpl. by rewrite bool_decide_eq_true_2. Qed.

(** The relative path of a path below another is what is below. *)
Lemma Rel_below base targ rel :
  rooted targ = rooted base → cleaned_elems targ = cleaned_elems base ++ rel → rel ≠ [] →
  Rel base targ = inr (Join rel SLASH).
Proof.
  intros Hr He Hne. unfold Rel. rewrite bool_decide_eq_false_2.
  - rewrite bool_decide_eq_false_2 by congruence. by rewrite He, strip_common_app.
  - intros E. apply (f_equal cleaned_elems) in E. rewrite !cleaned_elems_Clean, He in E.
    apply (f_equal length) in E. rewrite length_app in E. destruct rel; [done|]. simpl in E. lia.
Qed.

Lemma Rel_same base : Rel base base = inr ".".
Proof. unfold Rel. by rewrite bool_decide_eq_true_2. Qed.

(** The directory of a path that was joined. *)
Lemma last_elem_join q x : has_byte slash x = false → last_elem (q +:+ String slash x) = x.
Proof. intros Hx. unfold last_elem. by rewrite Split_app_any, (Split_id slash x Hx), last_snoc. Qed.

Lemma dir_part_join q x : has_byte slash x = false → dir_part (q +:+ String slash x) = q +:+ SLASH.
Proof.
  intros Hx. unfold dir_part. rewrite last_elem_join by done.
  change (q +:+ String slash x) with (q +:+ (SLASH +:+ x)). rewrite sapp_assoc, slen_app, Nat.add_sub.
  by rewrite take_bytes_app.
Qed.

Lemma dir_part_name x : has_byte slash x = false → dir_part x = "".
Proof.
  intros Hx. unfold dir_part, last_elem. rewrite Split_id by done. cbn [last default]. by rewrite Nat.sub_diag.
Qed.

Lemma resolve_slash_end cwd q : q ≠ "" → resolve cwd (q +:+ SLASH) = resolve cwd q.
Proof.
  intros Hq. unfold resolve, SLASH. rewrite Split_app_any, foldl_app.
  destruct q as [|c q]; [done|]. cbn [String.append]. by rewrite !rooted_String.
Qed.

Lemma Clean_elems p :
  Clean p = if rooted p then SLASH +:+ Join (cleaned_elems p) SLASH
            else if bool_decide (Join (cleaned_elems p) SLASH = "") then "." else Join (cleaned_elems p) SLASH.
Proof. done. Qed.

Lemma Join_not_empty l x : x ≠ "" → Join (l ++ [x]) SLASH ≠ "".
Proof.
  intros Hx. destruct l as [|y l]; [done|]. rewrite Join_app by done. by destruct (Join (y :: l) SLASH).
Qed.

Lemma PathJoin_Clean d x : d ≠ "" → PathJoin [d; x] = Clean (PathJoin [d; x]).
Proof.
  intros Hd. rewrite (Clean_elems (PathJoin [d; x])). unfold PathJoin. cbn [drop_empty].
  rewrite bool_decide_eq_false_2 by done. rewrite rooted_Clean, cleaned_elems_Clean. apply Clean_elems.
Qed.

Lemma resolve_Dir_child cwd d x : d ≠ "" → name_ok x → resolve cwd (Dir (PathJoin [d; x])) = resolve cwd d.
Proof.
  intros Hd Hx. unfold Dir. rewrite resolve_Clean, (PathJoin_Clean d x Hd), Clean_elems.
  rewrite rooted_child, cleaned_elems_child by done. destruct Hx as [(Hx & _) Hsl].
  rewrite <- (resolve_Clean cwd d), (Clean_elems d).
  rewrite (bool_decide_eq_false_2 (Join (cleaned_elems d ++ [x]) SLASH = "")) by by apply Join_not_empty.
  destruct (decide (cleaned_elems d = [])) as [->|Hne].
  - cbn [app Join]. destruct (rooted d).
    + change (SLASH +:+ x) with ("" +:+ String slash x). by rewrite dir_part_join.
    + by rewrite dir_part_name.
  - rewrite Join_app by done. change (SLASH +:+ Join [x] SLASH) with (String slash x).
    assert (Join (cleaned_elems d) SLASH ≠ "") as Hj.
    { unfold cleaned_elems in *. pose proof (clean_elems_elems (rooted d) (Split slash d)) as Hc.
      apply (Forall_reverse _ _) in Hc. destruct (exists_last Hne) as (l & y & E). rewrite E in *.
      apply Join_not_empty. apply Forall_app in Hc as [_ Hc]. by inversion Hc as [|? ? [? _] _]. }
    destruct (rooted d).
    + rewrite sapp_assoc, dir_part_join by done. by rewrite resolve_slash_end by done.
    + rewrite bool_decide_eq_false_2, dir_part_join by done. by rewrite resolve_slash_end.
Qed.
