(* ===== verification/Url.v ===== *)
(** * URLs

    The part of net/url the program uses: url.Parse, URL.String, URL.Hostname,
    and urlJoin of pkg/k8sbuilder/server.go, which places a path of the shared
    volume below the base URL of the file server. A URL that urlJoin makes is
    put between single quotes into a shell command, so the facts of this file
    say which bytes it can hold and that the file server reads back the path
    it was made from. *)
From S2P Require Import Prelude GoStrings GoPath.

(** ** Bytes *)

Definition in_range (lo hi : nat) (a : ascii) : bool :=
  (lo <=? nat_of_ascii a) && (nat_of_ascii a <=? hi).

Definition is_digit (a : ascii) : bool := in_range 48 57 a.
Definition is_letter (a : ascii) : bool := in_range 65 90 a || in_range 97 122 a.
Definition is_alnum (a : ascii) : bool := is_letter a || is_digit a.

Definition one_of (cs : string) (a : ascii) : bool := has_byte a cs.

Definition quote : ascii := ascii_of_nat 39.
Definition dquote : ascii := ascii_of_nat 34.

(** ** Escaping *)

Inductive encoding := encodePath | encodeHost | encodeZone | encodeUserPassword | encodeFragment.

#[export] Instance encoding_eq_dec : EqDecision encoding.
Proof. solve_decision. Defined.

Definition host_mode (m : encoding) : bool :=
  match m with encodeHost | encodeZone => true | _ => false end.

Definition shouldEscape (c : ascii) (mode : encoding) : bool :=
  if is_alnum c then false
  else if host_mode mode && one_of (String dquote (String quote "!$&()*+,;=:[]<>")) c then false
  else if one_of "-_.~" c then false
  else if one_of "$&+,/:;=?@" c then
    match mode with
    | encodePath => bool_decide (c = "?"%char)
    | encodeUserPassword => one_of "@/?:" c
    | encodeFragment => false
    | encodeHost | encodeZone => true
    end
  else negb (bool_decide (mode = encodeFragment) && one_of "!()*" c).

(** Two hexadecimal digits in upper case. *)
Definition upper_digit (n : nat) : ascii :=
  if n <? 10 then ascii_of_nat (48 + n) else ascii_of_nat (55 + n).

Definition percent (a : ascii) : string :=
  String "%" (String (upper_digit (nat_of_ascii a / 16))
    (String (upper_digit (nat_of_ascii a mod 16)) "")).

Fixpoint escape (s : string) (mode : encoding) : string :=
  match s with
  | EmptyString => ""
  | String a s' =>
      (if shouldEscape a mode then percent a else String a "") +:+ escape s' mode
  end.

Definition unhex_digit (a : ascii) : option nat :=
  let n := nat_of_ascii a in
  if in_range 48 57 a then Some (n - 48)
  else if in_range 97 102 a then Some (n - 87)
  else if in_range 65 70 a then Some (n - 55)
  else None.

Definition unhex_pair (a b : ascii) : option ascii :=
  h ← unhex_digit a; l ← unhex_digit b; Some (ascii_of_nat (16 * h + l)).

(** An escape a host or a zone must not hold. *)
Definition bad_escape (mode : encoding) (v : ascii) : bool :=
  match mode with
  | encodeHost => (nat_of_ascii v <? 128) && negb (bool_decide (v = "%"%char))
  | encodeZone => negb (bool_decide (v = "%"%char)) && negb (bool_decide (v = " "%char)) &&
                  shouldEscape v encodeHost
  | _ => false
  end.

Fixpoint unescape (s : string) (mode : encoding) : string + string :=
  match s with
  | EmptyString => inr ""
  | String a s' =>
      if bool_decide (a = "%"%char) then
        match s' with
        | String h (String l s'') =>
            match unhex_pair h l with
            | None => inl "invalid URL escape"
            | Some v =>
                if bad_escape mode v then inl "invalid URL escape"
                else match unescape s'' mode with
                     | inl e => inl e
                     | inr t => inr (String v t)
                     end
            end
        | _ => inl "invalid URL escape"
        end
      else if host_mode mode && (nat_of_ascii a <? 128) && shouldEscape a mode
      then inl "invalid character in host name"
      else match unescape s' mode with
           | inl e => inl e
           | inr t => inr (String a t)
           end
  end.

Definition validEncoded (s : string) (mode : encoding) : bool :=
  all_bytes (λ a, one_of (String quote "!$&()*+,;=:@[]%") a || negb (shouldEscape a mode)) s.

(** ** url.URL *)

Record URL := mkURL {
  u_Scheme : string;
  u_Opaque : string;
  u_User : option (string * option string);
  u_Host : string;
  u_Path : string;
  u_RawPath : string;
  u_OmitHost : bool;
  u_ForceQuery : bool;
  u_RawQuery : string;
  u_Fragment : string;
  u_RawFragment : string }.

(** The text before the first c, and c with the rest. *)
Definition cut_before (c : ascii) (s : string) : string * string :=
  match cut c s with Some (x, y) => (x, String c y) | None => (s, "") end.

(** The scheme and what follows the colon. *)
Fixpoint getScheme_from (first : bool) (s : string) : option (option (string * string)) :=
  match s with
  | EmptyString => Some None
  | String a s' =>
      if is_letter a then
        match getScheme_from false s' with
        | Some (Some (x, y)) => Some (Some (String a x, y))
        | r => r
        end
      else if is_digit a || one_of "+-." a then
        if first then Some None
        else match getScheme_from false s' with
             | Some (Some (x, y)) => Some (Some (String a x, y))
             | r => r
             end
      else if bool_decide (a = ":"%char) then
        if first then None else Some (Some ("", s'))
      else Some None
  end.

Definition getScheme (s : string) : string + (string * string) :=
  match getScheme_from true s with
  | None => inl "missing protocol scheme"
  | Some None => inr ("", s)
  | Some (Some (x, y)) => inr (x, y)
  end.

Definition validOptionalPort (port : string) : bool :=
  match port with
  | EmptyString => true
  | String a p => bool_decide (a = ":"%char) && all_bytes is_digit p
  end.

Definition validUserinfo (s : string) : bool :=
  all_bytes (λ a, is_alnum a || one_of (String quote "-._:~!$&()*+,;=%@") a) s.

(** Before the first %25, and from it on. *)
Fixpoint cut_zone (s : string) : option (string * string) :=
  if HasPrefix s "%25" then Some ("", s)
  else match s with
       | EmptyString => None
       | String a s' => '(x, y) ← cut_zone s'; Some (String a x, y)
       end.

Definition sbind {A B} (r : string + A) (f : A → string + B) : string + B :=
  match r with inl e => inl e | inr a => f a end.

Definition parseHost (host : string) : string + string :=
  if HasPrefix host "[" then
    match cut_last "]"%char host with
    | None => inl "missing ']' in host"
    | Some (inner, colonPort) =>
        if negb (validOptionalPort colonPort) then inl "invalid port after host"
        else match cut_zone inner with
        | Some (h1, h2) =>
            sbind (unescape h1 encodeHost) (λ a,
            sbind (unescape h2 encodeZone) (λ b,
            sbind (unescape (String "]"%char colonPort) encodeHost) (λ c,
            inr (a +:+ b +:+ c))))
        | None => unescape host encodeHost
        end
    end
  else match cut_last ":"%char host with
  | Some (_, port) =>
      if validOptionalPort (String ":"%char port) then unescape host encodeHost
      else inl "invalid port after host"
  | None => unescape host encodeHost
  end.

Definition parseUser (userinfo : string) : string + (string * option string) :=
  if negb (validUserinfo userinfo) then inl "invalid userinfo"
  else match cut ":"%char userinfo with
  | None => sbind (unescape userinfo encodeUserPassword) (λ u, inr (u, None))
  | Some (u, p) =>
      sbind (unescape u encodeUserPassword) (λ u',
      sbind (unescape p encodeUserPassword) (λ p', inr (u', Some p')))
  end.

Definition parseAuthority (authority : string)
    : string + (option (string * option string) * string) :=
  match cut_last "@"%char authority with
  | None => sbind (parseHost authority) (λ h, inr (None, h))
  | Some (userinfo, host) =>
      sbind (parseHost host) (λ h, sbind (parseUser userinfo) (λ u, inr (Some u, h)))
  end.

(** The decoded text, and the raw one when it is not the default encoding. *)
Definition set_encoded (mode : encoding) (p : string) : string + (string * string) :=
  sbind (unescape p mode) (λ t,
    inr (t, if bool_decide (p = escape t mode) then "" else p)).

Definition is_ctl (a : ascii) : bool :=
  (nat_of_ascii a <? 32) || (nat_of_ascii a =? 127).

Definition parse_rest (scheme rest0 : string) : string + URL :=
  let force := HasSuffix rest0 "?" && (length (Split "?"%char rest0) =? 2) in
  let '(rest, query) :=
    if force then (take_bytes (slen rest0 - 1) rest0, "")
    else match cut "?"%char rest0 with Some (x, y) => (x, y) | None => (rest0, "") end in
  if negb (rooted rest) && negb (bool_decide (scheme = "")) then
    inr (mkURL scheme rest None "" "" "" false force query "" "")
  else if negb (rooted rest) && has_byte ":"%char (cut_before slash rest).1 then
    inl "first path segment in URL cannot contain colon"
  else
    let authority :=
      (negb (bool_decide (scheme = "")) || negb (HasPrefix rest "///")) &&
      HasPrefix rest "//" in
    let '(a, path) :=
      if authority then cut_before slash (drop_bytes 2 rest) else ("", rest) in
    sbind (if authority then parseAuthority a else inr (None, "")) (λ '(user, host),
    sbind (set_encoded encodePath path) (λ '(p, raw),
    inr (mkURL scheme "" user host p raw
           (negb authority && negb (bool_decide (scheme = "")) && rooted rest)
           force query "" ""))).

Definition parse_no_fragment (rawURL : string) : string + URL :=
  if negb (all_bytes (λ a, negb (is_ctl a)) rawURL)
  then inl "invalid control character in URL"
  else if bool_decide (rawURL = "*")
  then inr (mkURL "" "" None "" "*" "" false false "" "" "")
  else sbind (getScheme rawURL) (λ '(scheme, rest), parse_rest (ToLower scheme) rest).

(** url.Parse; the error is the reason it gives. *)
Definition Parse (rawURL : string) : string + URL :=
  match cut "#"%char rawURL with
  | None => parse_no_fragment rawURL
  | Some (u, frag) =>
      sbind (parse_no_fragment u) (λ u,
      sbind (set_encoded encodeFragment frag) (λ '(f, raw),
      inr (mkURL (u_Scheme u) (u_Opaque u) (u_User u) (u_Host u) (u_Path u) (u_RawPath u)
             (u_OmitHost u) (u_ForceQuery u) (u_RawQuery u) f raw)))
  end.

(** ** URL.String *)

Definition encoded (mode : encoding) (raw t : string) : string :=
  if negb (bool_decide (raw = "")) && validEncoded raw mode &&
     bool_decide (unescape raw mode = inr t)
  then raw else escape t mode.

Definition EscapedPath (u : URL) : string :=
  if bool_decide (u_Path u = "*") && negb
     (negb (bool_decide (u_RawPath u = "")) && validEncoded (u_RawPath u) encodePath &&
      bool_decide (unescape (u_RawPath u) encodePath = inr (u_Path u)))
  then "*" else encoded encodePath (u_RawPath u) (u_Path u).

Definition user_text (u : string * option string) : string :=
  escape u.1 encodeUserPassword +:+
  match u.2 with Some p => ":" +:+ escape p encodeUserPassword | None => "" end.

Definition authority_text (u : URL) : string :=
  let none := bool_decide (u_Host u = "") && bool_decide (u_User u = None) in
  if bool_decide (u_Scheme u = "") && none then ""
  else if u_OmitHost u && none then ""
  else
    (if none && bool_decide (u_Path u = "") then "" else "//") +:+
    match u_User u with Some ui => user_text ui +:+ "@" | None => "" end +:+
    escape (u_Host u) encodeHost.

Definition URL_String (u : URL) : string :=
  let scheme := if bool_decide (u_Scheme u = "") then "" else u_Scheme u +:+ ":" in
  let body :=
    if negb (bool_decide (u_Opaque u = "")) then scheme +:+ u_Opaque u
    else
      let start := scheme +:+ authority_text u in
      let path := EscapedPath u in
      start +:+
      (if negb (bool_decide (path = "")) && negb (rooted path) &&
          negb (bool_decide (u_Host u = "")) then SLASH else "") +:+
      (if bool_decide (start = "") && has_byte ":"%char (cut_before slash path).1
       then "./" else "") +:+ path in
  body +:+
  (if u_ForceQuery u || negb (bool_decide (u_RawQuery u = "")) then "?" +:+ u_RawQuery u else "") +:+
  (if bool_decide (u_Fragment u = "") then ""
   else "#" +:+ encoded encodeFragment (u_RawFragment u) (u_Fragment u)).

(** URL.Hostname: the host without the port and without brackets. *)
Definition Hostname (u : URL) : string :=
  let host :=
    match cut_last ":"%char (u_Host u) with
    | Some (h, p) => if validOptionalPort (String ":"%char p) then h else u_Host u
    | None => u_Host u
    end in
  if HasPrefix host "[" && HasSuffix host "]"
  then take_bytes (slen host - 2) (drop_bytes 1 host) else host.

(** ** urlJoin *)

Definition set_path (u : URL) (p : string) : URL :=
  mkURL (u_Scheme u) (u_Opaque u) (u_User u) (u_Host u) p (u_RawPath u) (u_OmitHost u)
    (u_ForceQuery u) (u_RawQuery u) (u_Fragment u) (u_RawFragment u).

(** [inl]: urlJoin panics with the error. *)
Definition urlJoin (rawurl pathSegment : string) : string + string :=
  sbind (Parse rawurl) (λ u,
    inr (URL_String (set_path u (PathJoin [u_Path u; pathSegment])))).

(** ** Facts: escaping *)

Lemma hex_digit_plain n : n < 16 → is_alnum (upper_digit n) = true.
Proof. intros. do 16 (destruct n as [|n]; [done|]). lia. Qed.

Lemma is_alnum_shouldEscape a mode : is_alnum a = true → shouldEscape a mode = false.
Proof. unfold shouldEscape. by intros ->. Qed.

(** The bytes of an escaped text. *)
Definition escaped_byte (mode : encoding) (a : ascii) : bool :=
  bool_decide (a = "%"%char) || negb (shouldEscape a mode).

Lemma percent_bytes mode a : all_bytes (escaped_byte mode) (percent a) = true.
Proof.
  pose proof (nat_ascii_bounded a). unfold percent. cbn [all_bytes].
  unfold escaped_byte at 2 3.
  rewrite !is_alnum_shouldEscape by
    (apply hex_digit_plain; first [apply Nat.Div0.div_lt_upper_bound; lia|apply Nat.mod_upper_bound; lia]).
  by rewrite !orb_true_r.
Qed.

Lemma escape_bytes s mode : all_bytes (escaped_byte mode) (escape s mode) = true.
Proof.
  induction s as [|a s IH]; [done|]. cbn [escape]. rewrite all_bytes_app, IH, andb_true_r.
  destruct (shouldEscape a mode) eqn:E; [apply percent_bytes|].
  cbn [all_bytes]. unfold escaped_byte. by rewrite E, orb_true_r.
Qed.

Lemma escape_plain s mode :
  all_bytes (λ a, negb (shouldEscape a mode)) s = true → escape s mode = s.
Proof.
  induction s as [|a s IH]; cbn [all_bytes escape]; [done|].
  intros [Ha Hs]%andb_true_iff. apply negb_true_iff in Ha. by rewrite Ha, IH.
Qed.

Lemma unhex_percent a :
  unhex_pair (upper_digit (nat_of_ascii a / 16)) (upper_digit (nat_of_ascii a mod 16)) = Some a.
Proof. destruct a as [[] [] [] [] [] [] [] []]; reflexivity. Qed.

(** Reading back what was escaped. *)
Lemma unescape_escape s mode :
  host_mode mode = false → shouldEscape "%" mode = true →
  unescape (escape s mode) mode = inr s.
Proof.
  intros Hm Hp. induction s as [|a s IH]; [done|]. cbn [escape].
  destruct (shouldEscape a mode) eqn:E.
  - unfold percent. cbn [String.append unescape]. rewrite bool_decide_eq_true_2 by done.
    rewrite unhex_percent. assert (bad_escape mode a = false) as -> by by destruct mode.
    by rewrite IH.
  - cbn [String.append unescape]. rewrite bool_decide_eq_false_2 by congruence.
    rewrite Hm. cbn [andb]. by rewrite IH.
Qed.

(** A text in which every byte stands for itself. *)
Lemma unescape_plain s mode :
  all_bytes (λ a, negb (shouldEscape a mode)) s = true → has_byte "%"%char s = false →
  unescape s mode = inr s.
Proof.
  induction s as [|a s IH]; cbn [all_bytes has_byte unescape]; [done|].
  intros [Ha Hs]%andb_true_iff [Hn Hs']%orb_false_iff. rewrite Hn.
  apply negb_true_iff in Ha. by rewrite Ha, andb_false_r, IH.
Qed.

(** An escaped path keeps its slashes where they are. *)
Lemma rooted_escape p : rooted (escape p encodePath) = rooted p.
Proof.
  destruct p as [|a p]; [done|]. cbn [escape]. rewrite rooted_String.
  destruct (shouldEscape a encodePath) eqn:E.
  - unfold percent. cbn [String.append]. rewrite rooted_String.
    rewrite bool_decide_eq_false_2 by done. symmetry. apply bool_decide_eq_false. by intros ->.
  - cbn [String.append]. by rewrite rooted_String.
Qed.

(** ** Facts: https URLs with a plain authority

    The base URL of the file server is https://, a host name or address with
    an optional port, and a path. *)

Definition plain_byte (a : ascii) : bool := is_alnum a || one_of "-._~:" a.

(** A host name or an IPv4 address, with or without a port. *)
Definition plain_authority (hp : string) : bool :=
  negb (bool_decide (hp = "")) && all_bytes plain_byte hp &&
  match cut_last ":"%char hp with Some (_, p) => all_bytes is_digit p | None => true end.

Lemma plain_byte_host a : plain_byte a = true → negb (shouldEscape a encodeHost) = true.
Proof. destruct a as [[] [] [] [] [] [] [] []]; vm_compute; congruence. Qed.

Lemma plain_byte_ctl a : plain_byte a = true → negb (is_ctl a) = true.
Proof. destruct a as [[] [] [] [] [] [] [] []]; vm_compute; congruence. Qed.

Lemma escaped_byte_ctl a : escaped_byte encodePath a = true → negb (is_ctl a) = true.
Proof. destruct a as [[] [] [] [] [] [] [] []]; vm_compute; congruence. Qed.

Lemma plain_authority_spec hp :
  plain_authority hp = true →
  hp ≠ "" ∧ all_bytes plain_byte hp = true ∧
  (∀ h p, cut_last ":"%char hp = Some (h, p) → all_bytes is_digit p = true).
Proof.
  unfold plain_authority. intros [[H1 H2]%andb_true_iff H3]%andb_true_iff.
  apply negb_true_iff, bool_decide_eq_false in H1. split; [done|]. split; [done|].
  intros h p E. by rewrite E in H3.
Qed.

Lemma parseHost_plain hp : plain_authority hp = true → parseHost hp = inr hp.
Proof.
  intros (_ & Hp & Hd)%plain_authority_spec.
  assert (unescape hp encodeHost = inr hp) as Hu.
  { apply unescape_plain.
    - by eapply all_bytes_impl; [apply plain_byte_host|].
    - by apply (all_bytes_not _ plain_byte). }
  unfold parseHost. assert (HasPrefix hp "[" = false) as ->.
  { destruct hp as [|a hp]; [done|]. simpl. rewrite bool_decide_eq_false_2; [done|].
    intros ->. by simpl in Hp. }
  destruct (cut_last ":"%char hp) as [[h p]|] eqn:E; [|done].
  cbn [validOptionalPort]. by rewrite bool_decide_eq_true_2, (Hd h p) by done.
Qed.

Lemma parseAuthority_plain hp : plain_authority hp = true → parseAuthority hp = inr (None, hp).
Proof.
  intros H. unfold parseAuthority. rewrite cut_last_none.
  - by rewrite parseHost_plain.
  - apply plain_authority_spec in H as (_ & Hp & _). by apply (all_bytes_not _ plain_byte).
Qed.

(** A path as it stands in a URL: nothing, or rooted and escaped. *)
Definition url_path (P : string) : Prop :=
  (P = "" ∨ rooted P = true) ∧ all_bytes (escaped_byte encodePath) P = true.

Lemma cut_before_path hp P :
  plain_authority hp = true → url_path P → cut_before slash (hp +:+ P) = (hp, P).
Proof.
  intros (_ & Hp & _)%plain_authority_spec [HP _]. unfold cut_before.
  assert (has_byte slash hp = false) as Hs by by apply (all_bytes_not _ plain_byte).
  destruct HP as [->|HP]; [by rewrite sapp_nil_r, cut_none|].
  destruct P as [|a P]; [done|]. rewrite rooted_String in HP. apply bool_decide_eq_true in HP as ->.
  by rewrite cut_app.
Qed.

Section https.
Context (hp P path : string).
Context (Hhp : plain_authority hp = true) (HP : url_path P).

Lemma https_no_byte c :
  plain_byte c = false → escaped_byte encodePath c = false → c ≠ slash →
  has_byte c ("//" +:+ hp +:+ P) = false.
Proof using Hhp HP.
  intros H1 H2 H3. apply plain_authority_spec in Hhp as (_ & Hp & _). destruct HP as [_ HPb].
  rewrite !has_byte_app, (all_bytes_not c plain_byte hp), (all_bytes_not c (escaped_byte encodePath) P) by done.
  simpl. rewrite bool_decide_eq_false_2; [done|]. by intros <-.
Qed.

Lemma https_no_ctl : all_bytes (λ a, negb (is_ctl a)) ("https://" +:+ hp +:+ P) = true.
Proof using Hhp HP.
  apply plain_authority_spec in Hhp as (_ & Hp & _). destruct HP as [_ HPb].
  rewrite !all_bytes_app.
  rewrite (all_bytes_impl _ _ hp plain_byte_ctl Hp), (all_bytes_impl _ _ P escaped_byte_ctl HPb).
  done.
Qed.

Lemma getScheme_https t : getScheme ("https:" +:+ t) = inr ("https", t).
Proof using. reflexivity. Qed.

(** Such a URL is read as its authority and its path. *)
Lemma Parse_https :
  unescape P encodePath = inr path →
  Parse ("https://" +:+ hp +:+ P) =
  inr (mkURL "https" "" None hp path (if bool_decide (P = escape path encodePath) then "" else P)
         false false "" "" "").
Proof using Hhp HP.
  intros Hu. unfold Parse. change ("https://" +:+ hp +:+ P) with ("https:" +:+ ("//" +:+ hp +:+ P)).
  rewrite cut_none.
  2: { rewrite has_byte_app. by rewrite https_no_byte. }
  unfold parse_no_fragment. change ("https:" +:+ ("//" +:+ hp +:+ P)) with ("https://" +:+ hp +:+ P) at 1.
  rewrite https_no_ctl. cbn [negb]. rewrite bool_decide_eq_false_2 by done.
  rewrite getScheme_https. cbn [sbind]. change (ToLower "https") with "https". unfold parse_rest.
  rewrite HasSuffix_byte by by apply https_no_byte. cbn [andb].
  rewrite cut_none by by apply https_no_byte.
  change (rooted ("//" +:+ hp +:+ P)) with true. cbn [negb andb].
  rewrite (bool_decide_eq_false_2 ("https" = "")) by done. cbn [negb orb andb].
  rewrite (proj2 (HasPrefix_spec ("//" +:+ hp +:+ P) "//")) by eauto.
  change (drop_bytes 2 ("//" +:+ hp +:+ P)) with (hp +:+ P).
  rewrite cut_before_path, parseAuthority_plain by done. cbn [sbind]. unfold set_encoded.
  by rewrite Hu.
Qed.
End https.

(** What urlJoin appends. *)
Definition joined_path (base seg : string) : string :=
  let p := escape (PathJoin [base; seg]) encodePath in
  if bool_decide (p = "") || rooted p then p else SLASH +:+ p.

Lemma joined_path_url_path base seg : url_path (joined_path base seg).
Proof.
  unfold joined_path. pose proof (escape_bytes (PathJoin [base; seg]) encodePath) as Hb.
  set (p := escape _ _) in *. destruct (bool_decide (p = "") || rooted p) eqn:E.
  - apply orb_true_iff in E as [E%bool_decide_eq_true|E]; split; auto.
  - split; [right; apply rooted_SLASH|]. by rewrite all_bytes_app, Hb.
Qed.

(** A path is always escaped the default way when its raw form is not kept. *)
Lemma EscapedPath_default u :
  u_RawPath u = "" → u_Path u ≠ "*" → EscapedPath u = escape (u_Path u) encodePath.
Proof. intros H1 H2. unfold EscapedPath, encoded. rewrite H1, bool_decide_eq_false_2 by done. done. Qed.

Lemma urlJoin_https hp base seg :
  plain_authority hp = true → url_path base → has_byte "%"%char base = false →
  PathJoin [base; seg] ≠ "*" →
  urlJoin ("https://" +:+ hp +:+ base) seg = inr ("https://" +:+ hp +:+ joined_path base seg).
Proof.
  intros Hhp Hb Hpc Hstar. unfold urlJoin.
  assert (all_bytes (λ a, negb (shouldEscape a encodePath)) base = true) as Hplain.
  { destruct Hb as [_ Hb]. revert Hpc Hb. clear. induction base as [|a s IH]; [done|].
    cbn [has_byte all_bytes]. intros [Ha Hs]%orb_false_iff [Hb Hb']%andb_true_iff.
    unfold escaped_byte in Hb. rewrite Ha in Hb. simpl in Hb. by rewrite Hb, IH. }
  rewrite (Parse_https hp base base) by (done || by apply unescape_plain). cbn [sbind]. f_equal.
  rewrite escape_plain, bool_decide_eq_true_2 by done.
  unfold URL_String, set_path. cbn [u_Scheme u_Opaque u_Host u_User u_Path u_RawPath u_OmitHost
    u_ForceQuery u_RawQuery u_Fragment u_RawFragment].
  rewrite EscapedPath_default by done. cbn [u_Path].
  pose proof Hhp as (Hne & Hpb & _)%plain_authority_spec.
  unfold authority_text. cbn [u_Scheme u_Host u_User u_OmitHost u_Path].
  rewrite (bool_decide_eq_false_2 (hp = "")) by done.
  rewrite (escape_plain hp encodeHost) by by eapply all_bytes_impl; [apply plain_byte_host|].
  unfold joined_path. set (p := escape (PathJoin [base; seg]) encodePath).
  destruct (bool_decide (p = "")) eqn:E1; destruct (rooted p) eqn:E2; simpl;
    by rewrite ?sapp_nil_r, <- ?sapp_assoc.
Qed.

Definition slashed (p : string) : string :=
  if bool_decide (p = "") || rooted p then p else SLASH +:+ p.

Lemma joined_path_escape base seg :
  joined_path base seg = escape (slashed (PathJoin [base; seg])) encodePath.
Proof.
  unfold joined_path, slashed. rewrite rooted_escape.
  assert (bool_decide (escape (PathJoin [base; seg]) encodePath = "") =
          bool_decide (PathJoin [base; seg] = "")) as ->.
  { apply bool_decide_ext. split; [|by intros ->]. destruct (PathJoin [base; seg]) as [|a p]; [done|].
    cbn [escape]. by destruct (shouldEscape a encodePath). }
  by destruct (bool_decide _ || _).
Qed.

Lemma Parse_joined hp base seg :
  plain_authority hp = true →
  Parse ("https://" +:+ hp +:+ joined_path base seg) =
  inr (mkURL "https" "" None hp (slashed (PathJoin [base; seg])) "" false false "" "" "").
Proof.
  intros Hhp. rewrite (Parse_https hp _ (slashed (PathJoin [base; seg]))).
  - rewrite joined_path_escape. by rewrite bool_decide_eq_true_2.
  - done.
  - apply joined_path_url_path.
  - rewrite joined_path_escape. by apply unescape_escape.
Qed.

(** ** Properties *)

(** A base URL as fsBaseURL gives it: https, an authority, a plain path. *)
Definition base_url (hp base : string) : Prop :=
  plain_authority hp = true ∧ url_path base ∧ has_byte "%"%char base = false.

(** C34: below a plain https base URL, urlJoin does not panic, whatever the path
    segment, and its result holds no quote, no white space, no other byte below
    that of the blank, no backslash and no glob bracket or brace: it stays one
    word between the single quotes of the shell command it is written into. *)
Theorem urlJoin_shell_safe hp base seg :
  base_url hp base → PathJoin [base; seg] ≠ "*" →
  ∃ url, urlJoin ("https://" +:+ hp +:+ base) seg = inr url ∧
    Forall (λ c, has_byte c url = false)
      ([quote; dquote; " "%char; nl; cr; ascii_of_nat 92; "["%char; "]"%char; "{"%char; "}"%char] ++
       (ascii_of_nat <$> seq 0 32)).
Proof.
  intros (Hhp & Hb & Hpc) Hstar. rewrite urlJoin_https by done. eexists. split; [done|].
  pose proof (joined_path_url_path base seg) as HP.
  assert (∀ c, plain_byte c = false → escaped_byte encodePath c = false → c ≠ slash →
    has_byte c "https:" = false → has_byte c ("https://" +:+ hp +:+ joined_path base seg) = false) as H.
  { intros c H1 H2 H3 H4. change ("https://" +:+ ?t) with ("https:" +:+ ("//" +:+ t)).
    rewrite has_byte_app, H4. by apply https_no_byte. }
  cbn [app seq fmap list_fmap]. repeat (apply Forall_cons; split; [by apply H|]). by apply Forall_nil.
Qed.

(** C35: the URL urlJoin makes is read back by url.Parse with the host of the base
    and, decoded, exactly the joined path; for a base without a path of its own
    and a segment without parent elements, this path names on the file server
    the same entry below its root that the segment names below the shared
    directory. *)
Theorem urlJoin_read_back hp base seg url :
  base_url hp base → PathJoin [base; seg] ≠ "*" →
  urlJoin ("https://" +:+ hp +:+ base) seg = inr url →
  ∃ u, Parse url = inr u ∧ u_Host u = hp ∧ u_Path u = slashed (PathJoin [base; seg]) ∧
    (base = "/" → no_dotdot seg → elems (Clean (u_Path u)) = elems seg).
Proof.
  intros (Hhp & Hb & Hpc) Hstar. rewrite urlJoin_https by done. intros E.
  assert (url = "https://" +:+ hp +:+ joined_path base seg) as -> by congruence. clear E.
  rewrite Parse_joined by done. eexists. split; [done|]. cbn [u_Host u_Path].
  split; [done|]. split; [done|]. intros -> Hd.
  assert (resolve [] (PathJoin ["/"; seg]) = elems seg) as Hr.
  { by rewrite resolve_PathJoin_below. }
  assert (rooted (PathJoin ["/"; seg]) = true) as Hroot.
  { apply (rooted_Clean (Join ["/"; seg] SLASH)). }
  unfold slashed. rewrite Hroot, orb_true_r.
  rewrite <- Hr, <- resolve_Clean, resolve_no_dotdot by by apply Clean_rooted_no_dotdot.
  by rewrite rooted_Clean, Hroot.
Qed.

Lemma urlJoin_shell_safe_witness :
  ∃ url, urlJoin "https://127.0.0.1:22222/" ("it's a" +:+ NL +:+ "path;rm -rf *") = inr url ∧
    has_byte quote url = false.
Proof.
  destruct (urlJoin_shell_safe "127.0.0.1:22222" "/" ("it's a" +:+ NL +:+ "path;rm -rf *"))
    as (url & H1 & H2).
  - repeat split; try reflexivity. by right.
  - vm_compute. discriminate.
  - exists url. split; [exact H1|]. by inversion H2.
Defined.

Lemma urlJoin_read_back_witness :
  ∃ u, Parse "https://127.0.0.1:22222/build7/chaincode%20source.tar" = inr u ∧
    elems (Clean (u_Path u)) = ["build7"; "chaincode source.tar"].
Proof.
  destruct (urlJoin_read_back "127.0.0.1:22222" "/" "build7/chaincode source.tar"
    "https://127.0.0.1:22222/build7/chaincode%20source.tar") as (u & H1 & _ & _ & H2).
  - repeat split; try reflexivity. by right.
  - vm_compute. discriminate.
  - vm_compute. reflexivity.
  - exists u. split; [exact H1|]. rewrite H2; [reflexivity|reflexivity|].
    unfold no_dotdot. apply (bool_decide_unpack _). vm_compute. exact I.
Defined.
