(* ===== verification/PodSpec.v ===== *)
(** * The pods of a build and of a run

    pkg/k8sbuilder/server.go: the Server's configuration and the pods it
    describes (buildPodDefinition, runPodDefinition, hasZoneLabels,
    genPullSecretList), around the containers of [Containers]. The facts of
    the file are about what Kubernetes requires of the description: names,
    labels, volumes, owners. *)
From S2P Require Import Prelude GoStrings KubeTypes Containers KubeApi Url Uuid CryptoSecret.

(** ** Configuration *)

Record BasicAuth := mkBasicAuth { ba_Username : string; ba_Password : string }.

(** [sv_NodeClient]: whether a NodeClient is set. *)
Record Server := mkServer {
  sv_NodeClient : bool;
  sv_SharedPath : string;
  sv_FSBaseURL : string;
  sv_FileTransferImage : string;
  sv_BuilderImage : string;
  sv_GoEnvImage : string;
  sv_JavaEnvImage : string;
  sv_NodeEnvImage : string;
  sv_ImagePullSecrets : list string;
  sv_PeerID : string;
  sv_Auth : BasicAuth;
  sv_TLSCertString : string }.

(** The chaincode metadata from the package. *)
Record chaincodeMetadata := mkChaincodeMetadata { md_Path : string; md_Type : string }.

Definition genPullSecretList (secrets : list string) : list string :=
  foldl (λ pullSecrets secret, pullSecrets ++ [secret]) [] secrets.

(** urlJoin, as a call that may panic. *)
Definition url_join {S} (rawurl seg : string) : M S string :=
  match urlJoin rawurl seg with
  | inl e => panic ("parse " +:+ DQ +:+ rawurl +:+ DQ +:+ ": " +:+ e)
  | inr u => mret u
  end.

(** ** The container for a type of chaincode *)

Definition buildContainerDefinition (b : Server) (md : chaincodeMetadata)
    : go_error + Container :=
  let t := ToLower (md_Type md) in
  if bool_decide (t = "golang") then inr (golangBuildContainer (md_Path md) (sv_BuilderImage b))
  else if bool_decide (t = "java") then inr (javaBuildContainer (sv_JavaEnvImage b))
  else if bool_decide (t = "node") then inr (nodeBuildContainer (sv_BuilderImage b))
  else if bool_decide (t = "executable") then inr (executableBuildContainer (sv_BuilderImage b))
  else inl (ErrorString ("unsupported chaincode type: " +:+ md_Type md)).

(** [localmspid] as in [toRunEnv]. *)
Definition runContainerDefinition (b : Server) (localmspid ccType : string) (rmd : runMetadata)
    : go_error + Container :=
  let t := ToLower ccType in
  if bool_decide (t = "golang") then inr (golangRunContainer localmspid rmd (sv_GoEnvImage b))
  else if bool_decide (t = "java") then inr (javaRunContainer localmspid rmd (sv_JavaEnvImage b))
  else if bool_decide (t = "node") then inr (nodeRunContainer localmspid rmd (sv_NodeEnvImage b))
  else if bool_decide (t = "executable") then inr (executableRunContainer localmspid rmd (sv_GoEnvImage b))
  else if bool_decide (t = "external") then
    inl (ErrorString ("something went wrong, chaincode type: " +:+ ccType))
  else inl (ErrorString ("unsupported chaincode type: " +:+ ccType)).

(** ** The build pod *)

Definition SQ : string := String quote "".

(** The credentials of the file server. *)
Definition auth_env (b : Server) : list EnvVar :=
  [ mkEnvVar "USERNAME" (ba_Username (sv_Auth b));
    mkEnvVar "PASSWORD" (ba_Password (sv_Auth b)) ].

Definition setup_volume (b : Server) : Container :=
  mkContainer "setup-chaincode-volume" (sv_FileTransferImage b) PullAlways ["/bin/sh"]
    ["-c"; "mkdir -p /chaincode/input /chaincode/output /chaincode/certs && chmod 777 /chaincode/input /chaincode/output /chaincode/certs && echo -e ${TLS_CERT} > /chaincode/certs/cacert.pem"]
    [mkEnvVar "TLS_CERT" (sv_TLSCertString b)] "" [chaincodeMount] None.

Definition download_source (b : Server) (sourceURL : string) : Container :=
  mkContainer "download-chaincode-source" (sv_FileTransferImage b) PullAlways ["/bin/sh"]
    ["-c"; "curl -u ${USERNAME}:${PASSWORD} --cacert /chaincode/certs/cacert.pem -s -o- -L " +:+
           SQ +:+ sourceURL +:+ SQ +:+
           " | tar -C /chaincode/input -xvf - && chmod -R 777 /chaincode/input"]
    (auth_env b) "" [chaincodeMount] None.

Definition upload_output (b : Server) (outputURL : string) : Container :=
  mkContainer "upload-chaincode-output" (sv_FileTransferImage b) PullAlways ["/bin/sh"]
    ["-c"; "cd /chaincode/output && tar cvf /chaincode/output.tar $(ls -A) && curl -u ${USERNAME}:${PASSWORD} --cacert /chaincode/certs/cacert.pem -s --upload-file /chaincode/output.tar " +:+
           SQ +:+ outputURL +:+ SQ]
    (auth_env b) "" [chaincodeMount] (Some (run_as_user 7051)).

(** The pod, once the URLs and the random name are known. *)
Definition build_pod (b : Server) (buildContainer : Container)
    (sourceURL outputURL uuid peerPodName peerPodUID : string) : Pod :=
  mkPod
    (mkObjectMeta ("chaincode-build-" +:+ uuid) "" {[ "peer-id" := sv_PeerID b ]}
       [controller_reference peerPodName peerPodUID])
    (mkPodSpec RestartPolicyNever (genPullSecretList (sv_ImagePullSecrets b))
       [mkVolume "chaincode" EmptyDir]
       [setup_volume b; download_source b sourceURL; buildContainer]
       [upload_output b outputURL] None)
    zeroPodStatus.

Definition buildPodDefinition (b : Server) (buildContainer : Container)
    (sourcePath outputPath peerPodName peerPodUID : string) : M entropy Pod :=
  sourceURL ← url_join (sv_FSBaseURL b) sourcePath;
  outputURL ← url_join (sv_FSBaseURL b) outputPath;
  uuid ← UUID;
  mret (build_pod b buildContainer sourceURL outputURL uuid peerPodName peerPodUID).

(** ** The run pod *)

(** The chaincode id as a label value: no colons, at most 63 bytes. *)
Definition chaincode_label (chaincodeID : string) : string :=
  let id := replace_byte ":" "-" chaincodeID in
  if 63 <? slen id then take_bytes 62 id else id.

Definition zone_label : string := "topology.kubernetes.io/zone".

Definition download_output (b : Server) (chaincodeURL : string) : Container :=
  mkContainer "download-chaincode-output" (sv_FileTransferImage b) PullAlways ["/bin/sh"]
    ["-c"; "mkdir -p /chaincode/output /chaincode/certs && chmod -R 777 /chaincode/output /chaincode/certs && echo -e ${TLS_CERT} > /chaincode/certs/cacert.pem && curl -u ${USERNAME}:${PASSWORD} --cacert /chaincode/certs/cacert.pem -s -o- -L " +:+
           SQ +:+ chaincodeURL +:+ SQ +:+ " | tar -C /chaincode/output -xvf -"]
    (auth_env b ++ [mkEnvVar "TLS_CERT" (sv_TLSCertString b)]) "" [chaincodeMount] None.

Definition zone_affinity (b : Server) : Affinity :=
  {| RequiredDuringSchedulingIgnoredDuringExecution :=
       [mkPodAffinityTerm {[ "app" := sv_PeerID b ]} zone_label] |}.

Definition run_pod (b : Server) (runContainer : Container) (rmd : runMetadata)
    (chaincodeURL uuid peerPodName peerPodUID : string) (zones : bool) : Pod :=
  mkPod
    (mkObjectMeta ("chaincode-execution-" +:+ uuid) ""
       (list_to_map [ ("peer-id", sv_PeerID b);
                      ("chaincode-id", chaincode_label (ChaincodeID rmd));
                      ("app", sv_PeerID b) ])
       [controller_reference peerPodName peerPodUID])
    (mkPodSpec RestartPolicyNever (genPullSecretList (sv_ImagePullSecrets b))
       [mkVolume "chaincode" EmptyDir; mkVolume "certs" (SecretVolume ("certs-" +:+ uuid))]
       [download_output b chaincodeURL]
       [runContainer]
       (if zones then Some (zone_affinity b) else None))
    zeroPodStatus.

Section kube.
Context {W : Type} `{KubeClient W}.

(** A failed request counts as no zones. *)
Definition hasZoneLabels (b : Server) : M (kworld W) bool :=
  if negb (sv_NodeClient b) then mret false
  else
    r ← attempt (call NodeList nodes_List);
    match r with
    | inl _ => mret false
    | inr nodes => mret (existsb (λ n, bool_decide (is_Some (node_Labels n !! zone_label))) nodes)
    end.

Definition runPodDefinition (b : Server) (runContainer : Container) (rmd : runMetadata)
    (chaincodePath uuid peerPodName peerPodUID : string) : M (kworld W) Pod :=
  chaincodeURL ← url_join (sv_FSBaseURL b) chaincodePath;
  zones ← hasZoneLabels b;
  mret (run_pod b runContainer rmd chaincodeURL uuid peerPodName peerPodUID zones).
End kube.
