(* ===== verification/PodSpecFacts.v ===== *)
(** * What the pods look like to Kubernetes

    The descriptions of [PodSpec] are well formed (volumes, container names,
    object names), belong to the peer's pod, and the label made from a
    chaincode id is short and free of colons; what the truncation of that
    label gets wrong. *)
From S2P Require Import Prelude GoStrings GoPath KubeTypes Containers KubeApi Url Uuid CryptoSecret.
From S2P Require Import Base64 PodSpec.

(** ** Names *)

Definition name_byte (a : ascii) : bool := dns_alnum a || bool_decide (a = "-"%char).

(** A DNS label, as Kubernetes wants the name of a pod to be. *)
Definition dns_label (s : string) : Prop :=
  slen s ≤ 63 ∧ all_bytes name_byte s = true ∧
  (∃ a t, s = String a t ∧ dns_alnum a = true) ∧ last_alnum s.

Lemma uuid_char_name a : uuid_char a = true → name_byte a = true.
Proof. destruct a as [[] [] [] [] [] [] [] []]; vm_compute; congruence. Qed.

(** A prefix of the program and a UUID. *)
Lemma dns_label_uuid prefix u :
  length u = 16 → Forall is_byte u → slen prefix ≤ 27 →
  all_bytes name_byte prefix = true →
  (∃ a t, prefix = String a t ∧ dns_alnum a = true) →
  dns_label (prefix +:+ UUID_of u).
Proof.
  intros Hl Hu Hp Hb (a & t & -> & Ha). split; [|split; [|split]].
  - rewrite slen_app, UUID_of_length by done. lia.
  - rewrite all_bytes_app, Hb. eapply all_bytes_impl; [apply uuid_char_name|].
    by apply UUID_of_chars.
  - by exists a, (t +:+ UUID_of u).
  - by apply last_alnum_app, UUID_of_last.
Qed.

(** ** Well-formed pods *)

Definition all_containers (p : Pod) : list Container :=
  ps_InitContainers (pod_Spec p) ++ ps_Containers (pod_Spec p).

(** The containers have different names (executePod tells their logs apart by
    the name), the volumes too, and every mount is of a volume of the pod. *)
Record pod_wf (p : Pod) : Prop := {
  wf_containers : NoDup (c_Name <$> all_containers p);
  wf_volumes : NoDup (v_Name <$> ps_Volumes (pod_Spec p));
  wf_mounts : Forall (λ c, Forall (λ m, vm_Name m ∈ (v_Name <$> ps_Volumes (pod_Spec p)))
                (c_VolumeMounts c)) (all_containers p) }.

Ltac solve_pod_wf :=
  split; apply (bool_decide_unpack _); vm_compute; exact I.

Lemma build_pod_wf b md c src out uuid pn pu :
  buildContainerDefinition b md = inr c → pod_wf (build_pod b c src out uuid pn pu).
Proof.
  unfold buildContainerDefinition. repeat case_bool_decide; intros [= <-]; solve_pod_wf.
Qed.

Lemma run_pod_wf b env t rmd c url uuid pn pu zones :
  runContainerDefinition b env t rmd = inr c → pod_wf (run_pod b c rmd url uuid pn pu zones).
Proof.
  unfold runContainerDefinition. repeat case_bool_decide; intros [= <-]; solve_pod_wf.
Qed.

Lemma genPullSecretList_id l : genPullSecretList l = l.
Proof.
  unfold genPullSecretList.
  assert (∀ acc, foldl (λ ps s, ps ++ [s]) acc l = acc ++ l) as H; [|apply H].
  induction l as [|x l IH]; intros acc; [by rewrite app_nil_r|]. cbn [foldl].
  by rewrite IH, <- app_assoc.
Qed.

Lemma url_join_ok {S} hp base seg (s : S) :
  base_url hp base → PathJoin [base; seg] ≠ "*" →
  url_join ("https://" +:+ hp +:+ base) seg s = (Ok ("https://" +:+ hp +:+ joined_path base seg), s).
Proof.
  intros (H1 & H2 & H3) Hs. unfold url_join. by rewrite urlJoin_https.
Qed.

(** The owner of a pod of the program. *)
Definition owned_by (pn pu : string) (p : Pod) : Prop :=
  om_OwnerReferences (pod_Meta p) = [controller_reference pn pu].

Section pods.
Context (b : Server) (hp base : string).
Context (Hbase : base_url hp base) (Hurl : sv_FSBaseURL b = "https://" +:+ hp +:+ base).

Lemma buildPodDefinition_run c src out pn pu e :
  PathJoin [base; src] ≠ "*" → PathJoin [base; out] ≠ "*" →
  buildPodDefinition b c src out pn pu e =
  match UUID e with
  | (Ok uuid, e') =>
      (Ok (build_pod b c ("https://" +:+ hp +:+ joined_path base src)
             ("https://" +:+ hp +:+ joined_path base out) uuid pn pu), e')
  | (Err x, e') => (Err x, e')
  | (Panic x, e') => (Panic x, e')
  | (Blocked, e') => (Blocked, e')
  end.
Proof using Hbase Hurl.
  intros Hs Ho. unfold buildPodDefinition. rewrite Hurl.
  erewrite bind_ok by by apply url_join_ok. erewrite bind_ok by by apply url_join_ok.
  unfold mbind, M_bind. by destruct (UUID e) as [[] ?].
Qed.
End pods.

(** C31: below a plain https base URL, and as long as there is randomness, the
    build of a supported chaincode type is described by a well-formed pod: its
    name is a DNS label made of a fresh UUID, it is never restarted, belongs to
    the peer's pod and carries the peer's label. The build container is the last
    of three init containers, which Kubernetes runs one after the other, each to
    its end, and before the containers: the first sets the volume up, the second
    unpacks the source from the URL of the source, and the only container, which
    uploads the output to the URL of the output, starts after the build. *)
Theorem buildPodDefinition_ok b hp base md c src out pn pu e u :
  base_url hp base → sv_FSBaseURL b = "https://" +:+ hp +:+ base →
  PathJoin [base; src] ≠ "*" → PathJoin [base; out] ≠ "*" →
  buildContainerDefinition b md = inr c →
  entropy_ok e → en_read e (en_pos e) = inr u →
  ∃ p e', buildPodDefinition b c src out pn pu e = (Ok p, e') ∧ en_pos e' = S (en_pos e) ∧
    pod_Name p = "chaincode-build-" +:+ UUID_of u ∧ dns_label (pod_Name p) ∧ pod_wf p ∧
    owned_by pn pu p ∧ om_Labels (pod_Meta p) !! "peer-id" = Some (sv_PeerID b) ∧
    ps_RestartPolicy (pod_Spec p) = RestartPolicyNever ∧
    ps_ImagePullSecrets (pod_Spec p) = sv_ImagePullSecrets b ∧
    (∃ setup download, ps_InitContainers (pod_Spec p) = [setup; download; c] ∧
       c_Name setup = "setup-chaincode-volume" ∧ c_Name download = "download-chaincode-source" ∧
       ∃ s1 s2, c_Args download = ["-c"; s1 +:+ SQ +:+ "https://" +:+ hp +:+ joined_path base src +:+ SQ +:+ s2]) ∧
    (∃ upload, ps_Containers (pod_Spec p) = [upload] ∧ c_Name upload = "upload-chaincode-output" ∧
       ∃ s1, c_Args upload = ["-c"; s1 +:+ SQ +:+ "https://" +:+ hp +:+ joined_path base out +:+ SQ]).
Proof.
  intros Hb Hurl Hs Ho Hc He Hr. rewrite (buildPodDefinition_run b hp base) by done.
  unfold UUID, mbind, M_bind, attempt, rand_Read. rewrite Hr. destruct (He _ _ Hr) as [Hl Hu].
  eexists _, _. split; [done|]. split; [done|]. split; [done|]. split.
  { apply (dns_label_uuid "chaincode-build-"); [done|done|simpl; lia|done|by eexists _, _]. }
  split; [by eapply build_pod_wf|]. split; [done|]. split; [done|]. split; [done|].
  split; [apply genPullSecretList_id|]. split.
  - eexists _, _. split; [reflexivity|]. split; [done|]. split; [done|].
    cbn [download_source c_Args]. eexists "curl -u ${USERNAME}:${PASSWORD} --cacert /chaincode/certs/cacert.pem -s -o- -L ", _.
    by rewrite <- !sapp_assoc.
  - eexists. split; [reflexivity|]. split; [done|]. cbn [upload_output c_Args].
    eexists "cd /chaincode/output && tar cvf /chaincode/output.tar $(ls -A) && curl -u ${USERNAME}:${PASSWORD} --cacert /chaincode/certs/cacert.pem -s --upload-file /chaincode/output.tar ".
    by rewrite <- !sapp_assoc.
Qed.

(** What a run container has of the secret of its run: the volume of the secret
    is mounted at /certs, and the variables that name the files of the peer's
    certificate and of the client's certificate and key name, below it, entries
    with exactly these, or with their base64 form. *)
Definition reads_secret (rmd : runMetadata) (c : Container) : Prop :=
  (∀ m, m ∈ c_VolumeMounts c ∧ vm_Name m = "certs" ↔ m = mkVolumeMount "certs" "/certs" "") ∧
  let file variable content := ∃ key,
    mkEnvVar variable ("/certs/" +:+ key) ∈ c_Env c ∧ (toSecretData rmd !! key) = Some content in
  file "CORE_PEER_TLS_ROOTCERT_FILE" (RootCert rmd) ∧
  file "CORE_TLS_CLIENT_CERT_FILE" (ClientCert rmd) ∧ file "CORE_TLS_CLIENT_KEY_FILE" (ClientKey rmd) ∧
  file "CORE_TLS_CLIENT_CERT_PATH" (EncodeToString (ClientCert rmd)) ∧
  file "CORE_TLS_CLIENT_KEY_PATH" (EncodeToString (ClientKey rmd)).

Lemma runContainer_reads_secret b env t rmd c :
  runContainerDefinition b env t rmd = inr c → reads_secret rmd c.
Proof.
  assert (∀ c, c_Env c = toRunEnv env rmd →
    (∀ m, m ∈ c_VolumeMounts c ∧ vm_Name m = "certs" ↔ m = mkVolumeMount "certs" "/certs" "") → reads_secret rmd c) as Hall.
  { intros c0 He Hm. split; [exact Hm|]. cbv zeta. rewrite He. unfold toSecretData. simpl list_to_map.
    split; [exists "peer.crt"|split; [exists "client_pem.crt"|split; [exists "client_pem.key"|split; [exists "client.crt"|exists "client.key"]]]];
      (split; [apply list_elem_of_In; simpl; tauto|by simplify_map_eq]). }
  unfold runContainerDefinition. repeat case_bool_decide; intros [= <-]; (apply Hall; [done|]);
    intros m; simpl; rewrite !elem_of_cons, elem_of_nil; (split; [intros [[->|[->|[->|[]]]] Hn]; done|intros ->; tauto]).
Qed.


(** C32: the run of a supported chaincode type is described by a well-formed pod
    that has no container but the chaincode's, belongs to the peer's pod, is
    never restarted, and is bound to the peer's zone only when some node has a
    zone label and a NodeClient is set. Its volume certs is the secret
    createCryptoSecret makes for the same UUID, and the chaincode's container
    mounts it at /certs, where its environment names the peer's certificate, the
    client's certificate and the client's key. *)
Theorem runPodDefinition_ok {W} `{KubeClient W} b hp base env t rmd c path u pn pu
    (k : kworld W) :
  base_url hp base → sv_FSBaseURL b = "https://" +:+ hp +:+ base → PathJoin [base; path] ≠ "*" →
  runContainerDefinition b env t rmd = inr c → length u = 16 → Forall is_byte u →
  ∃ p k', runPodDefinition b c rmd path (UUID_of u) pn pu k = (Ok p, k') ∧
    pod_Name p = "chaincode-execution-" +:+ UUID_of u ∧ dns_label (pod_Name p) ∧ pod_wf p ∧
    owned_by pn pu p ∧ ps_RestartPolicy (pod_Spec p) = RestartPolicyNever ∧
    ps_Containers (pod_Spec p) = [c] ∧
    (∀ v, v ∈ ps_Volumes (pod_Spec p) ∧ v_Name v = "certs" ↔
       v = mkVolume "certs" (SecretVolume (sec_Name (new_secret rmd (UUID_of u))))) ∧
    reads_secret rmd c ∧
    (om_Labels (pod_Meta p) !! "peer-id" = Some (sv_PeerID b) ∧
     om_Labels (pod_Meta p) !! "chaincode-id" = Some (chaincode_label (ChaincodeID rmd))) ∧
    (is_Some (ps_Affinity (pod_Spec p)) →
       sv_NodeClient b = true ∧
       ∃ nodes n, (nodes_List (kube k)).1 = inr nodes ∧ n ∈ nodes ∧
         is_Some (node_Labels n !! zone_label)).
Proof.
  intros Hb Hurl Hs Hc Hl Hu. unfold runPodDefinition. rewrite Hurl.
  erewrite bind_ok by by apply url_join_ok.
  assert (∃ z k', hasZoneLabels b k = (Ok z, k') ∧ (z = true → sv_NodeClient b = true ∧
       ∃ nodes n, (nodes_List (kube k)).1 = inr nodes ∧ n ∈ nodes ∧
         is_Some (node_Labels n !! zone_label))) as (z & k' & Hz & Hzt).
  { unfold hasZoneLabels. destruct (sv_NodeClient b); [|by eexists _, _].
    unfold mbind, M_bind, attempt, call. cbn [negb].
    destruct (nodes_List (kube k)) as [[e|nodes] w]; [by eexists _, _|].
    eexists _, _. split; [done|]. intros (n & Hn & Hz)%existsb_exists. split; [done|].
    exists nodes, n. split; [done|]. split; [by apply list_elem_of_In|].
    by apply bool_decide_eq_true in Hz. }
  erewrite bind_ok by exact Hz. eexists _, _. split; [done|]. split; [done|]. split.
  { apply (dns_label_uuid "chaincode-execution-"); [done|done|simpl; lia|done|by eexists _, _]. }
  split; [by eapply run_pod_wf|]. split; [done|]. split; [done|]. split; [done|].
  split.
  { intros v. cbn [run_pod pod_Spec ps_Volumes]. rewrite !elem_of_cons, elem_of_nil.
    split; [intros [[->|[->|[]]] Hn]; done|intros ->; split; [by right; left|done]]. }
  split; [by eapply runContainer_reads_secret|].
  split; [done|]. destruct z; [by auto|]. intros [? [=]].
Qed.

(** ** The label made from a chaincode id *)

Definition label_byte (a : ascii) : bool := is_alnum a || one_of "-_." a.

(** A valid label value that is not empty. *)
Definition label_value (s : string) : Prop :=
  slen s ≤ 63 ∧ all_bytes label_byte s = true ∧
  (∃ a t, s = String a t ∧ is_alnum a = true) ∧ (∃ t a, s = t +:+ String a "" ∧ is_alnum a = true).

Lemma alnum_last s :
  s ≠ "" → all_bytes is_alnum s = true → ∃ t a, s = t +:+ String a "" ∧ is_alnum a = true.
Proof.
  intros Hne H. destruct (string_snoc s Hne) as (t & a & ->). exists t, a. split; [done|].
  rewrite all_bytes_app in H. by apply andb_true_iff in H as [_ [? _]%andb_true_iff].
Qed.

(** The id of an installed package: its label, a colon and its hash. *)
Definition package_id (name hash : string) : string := name +:+ ":" +:+ hash.

Section label.
Context (name hash : string).
Context (Hn : all_bytes label_byte name = true)
  (Hn1 : ∃ a t, name = String a t ∧ is_alnum a = true)
  (Hh : hash ≠ "" ∧ all_bytes is_alnum hash = true).

Lemma package_id_replaced : replace_byte ":" "-" (package_id name hash) = name +:+ "-" +:+ hash.
Proof using Hn Hh.
  unfold package_id, replace_byte. rewrite !string_map_app. f_equal; [|f_equal].
  - apply replace_byte_id. by apply (all_bytes_not _ label_byte).
  - apply replace_byte_id. destruct Hh. by apply (all_bytes_not _ is_alnum).
Qed.

Lemma replaced_bytes : all_bytes label_byte (name +:+ "-" +:+ hash) = true.
Proof using Hn Hh.
  rewrite !all_bytes_app, Hn. destruct Hh as [_ H].
  rewrite (all_bytes_impl is_alnum label_byte hash); [done| |done].
  intros a Ha. unfold label_byte. by rewrite Ha.
Qed.

Lemma chaincode_label_short :
  slen name < 61 → label_value (chaincode_label (package_id name hash)).
Proof using Hn Hn1 Hh.
  intros Hlen. unfold chaincode_label. rewrite package_id_replaced.
  destruct Hn1 as (a & t & Ea & Ha). destruct Hh as [Hne Hha].
  destruct (63 <? slen (name +:+ "-" +:+ hash)) eqn:E.
  - apply Nat.ltb_lt in E. rewrite !slen_app in E. simpl in E.
    rewrite take_bytes_app_ge by lia. rewrite (take_bytes_app_ge _ "-") by (simpl; lia).
    set (m := 62 - slen name - slen "-"). assert (1 ≤ m ∧ m ≤ slen hash ∧ slen name + 1 + m = 62) as Hm.
    { unfold m. simpl. lia. }
    split; [|split; [|split]].
    + rewrite !slen_app, slen_take_bytes. simpl. lia.
    + rewrite all_bytes_app, Hn. cbn [String.append all_bytes].
      rewrite (all_bytes_impl is_alnum label_byte (take_bytes m hash)); [done| |by apply all_bytes_take].
      intros c Hc. unfold label_byte. by rewrite Hc.
    + subst name. by eexists _, _.
    + destruct (alnum_last (take_bytes m hash)) as (u & c & Eu & Hc).
      * intros E0. apply (f_equal slen) in E0. rewrite slen_take_bytes in E0. simpl in E0. lia.
      * by apply all_bytes_take.
      * rewrite Eu. exists (name +:+ "-" +:+ u), c. by rewrite <- !sapp_assoc.
  - apply Nat.ltb_ge in E. split; [done|]. split; [apply replaced_bytes|]. split.
    + subst name. by eexists _, _.
    + destruct (alnum_last hash Hne Hha) as (u & c & Eu & Hc).
      rewrite Eu. exists (name +:+ "-" +:+ u), c. by rewrite <- !sapp_assoc.
Qed.

Lemma chaincode_label_61 :
  slen name = 61 → 2 ≤ slen hash → chaincode_label (package_id name hash) = name +:+ "-".
Proof using Hn Hh.
  intros Hlen Hhash. unfold chaincode_label. rewrite package_id_replaced.
  assert ((63 <? slen (name +:+ "-" +:+ hash)) = true) as ->.
  { apply Nat.ltb_lt. rewrite !slen_app. simpl. lia. }
  rewrite take_bytes_app_ge, Hlen by lia. done.
Qed.
End label.

(** C33: the chaincode-id label of any chaincode id has at most 63 bytes and no
    colon; for a package whose label has fewer than 61 bytes, all of them
    allowed in Kubernetes labels, it is a valid label value. *)
Theorem chaincode_label_ok id name hash :
  slen (chaincode_label id) ≤ 63 ∧ has_byte ":"%char (chaincode_label id) = false ∧
  (all_bytes label_byte name = true → (∃ a t, name = String a t ∧ is_alnum a = true) →
   (hash ≠ "" ∧ all_bytes is_alnum hash = true) → slen name < 61 →
   label_value (chaincode_label (package_id name hash))).
Proof.
  split; [|split; [|by intros; apply chaincode_label_short]].
  - unfold chaincode_label. destruct (63 <? _) eqn:E; [|by apply Nat.ltb_ge in E].
    rewrite slen_take_bytes. lia.
  - unfold chaincode_label. assert (has_byte ":" (replace_byte ":" "-" id) = false) as H.
    { by apply replace_byte_no_old. }
    destruct (63 <? _); [by apply take_bytes_has_byte|done].
Qed.

(** Cutting the id at 62 bytes can cut right behind the dash that replaces the
    colon: for every package label of 61 bytes the result ends in a dash, which
    Kubernetes does not allow, so the run pod of such a chaincode is refused. *)
Theorem chaincode_label_cut name hash :
  all_bytes label_byte name = true → slen name = 61 →
  all_bytes is_alnum hash = true → 2 ≤ slen hash →
  chaincode_label (package_id name hash) = name +:+ "-" ∧
  ¬ label_value (chaincode_label (package_id name hash)).
Proof.
  intros Hn Hl Hh Hhl. assert (hash ≠ "") as Hne by by destruct hash; simpl in Hhl; [lia|].
  rewrite chaincode_label_61 by done. split; [done|].
  intros (_ & _ & _ & t & a & E & Ha).
  assert (HasSuffix (name +:+ "-") (String a "") = true) as Hs by (apply HasSuffix_spec; eauto).
  destruct (decide (a = "-"%char)) as [->|Hna]; [done|].
  assert (slen t = slen name) as Ht.
  { apply (f_equal slen) in E. rewrite !slen_app in E. simpl in E. lia. }
  apply (f_equal (drop_bytes (slen name))) in E.
  assert (∀ s u, drop_bytes (slen s) (s +:+ u) = u) as Hd.
  { intros s u. induction s; simpl; [by destruct u|done]. }
  rewrite Hd, <- Ht, Hd in E. congruence.
Qed.

(** ** Witnesses *)
Module Demo.
Definition server : Server :=
  mkServer true "/data" "https://127.0.0.1:22222/" "ft" "builder" "go" "java" "node" ["pull"] "peer0"
    (mkBasicAuth "user" "pass") "cert".
Definition rmd : runMetadata := mkRunMetadata "cc:ab12" "cert" "key" "root" "peer:7051".
Definition random : list Z := repeat 171%Z 16.
Definition entropy : Uuid.entropy := mkEntropy (λ _, inr random) 0.
Definition cluster : Mem.cluster :=
  Mem.mkCluster ∅ ∅ ∅ [mkNode {[ zone_label := "zone-1" ]}] [].

Lemma base : base_url "127.0.0.1:22222" "/".
Proof. repeat split; try reflexivity. by right. Defined.

Lemma random_bytes : Forall is_byte random.
Proof. repeat constructor; lia. Defined.

Lemma entropy_fine : entropy_ok entropy.
Proof. intros n u [= <-]. split; [reflexivity|apply random_bytes]. Defined.
End Demo.

Lemma buildPodDefinition_ok_witness :
  ∃ p e', buildPodDefinition Demo.server (javaBuildContainer "java") "b/s.tar" "b/o.tar" "peer" "uid"
    Demo.entropy = (Ok p, e') ∧ pod_wf p ∧
    ∃ setup download, ps_InitContainers (pod_Spec p) = [setup; download; javaBuildContainer "java"].
Proof.
  destruct (buildPodDefinition_ok Demo.server "127.0.0.1:22222" "/" (mkChaincodeMetadata "" "JAVA")
    (javaBuildContainer "java") "b/s.tar" "b/o.tar" "peer" "uid" Demo.entropy Demo.random)
    as (p & e' & H1 & _ & _ & _ & H2 & _ & _ & _ & _ & (setup & download & H3 & _) & _);
    [apply Demo.base|reflexivity|discriminate|discriminate|reflexivity|apply Demo.entropy_fine
    |reflexivity|]. exists p, e'. split; [exact H1|]. split; [exact H2|]. by exists setup, download.
Defined.

Lemma runPodDefinition_ok_witness :
  ∃ p k', runPodDefinition Demo.server (javaRunContainer "Org1MSP" Demo.rmd "java") Demo.rmd "r/o.tar"
    (UUID_of Demo.random) "peer" "uid" (mkKworld Demo.cluster [] []) = (Ok p, k') ∧ pod_wf p.
Proof.
  destruct (runPodDefinition_ok Demo.server "127.0.0.1:22222" "/" "Org1MSP" "java" Demo.rmd
    (javaRunContainer "Org1MSP" Demo.rmd "java") "r/o.tar" Demo.random "peer" "uid"
    (mkKworld Demo.cluster [] [])) as (p & k' & H1 & _ & _ & H2 & _);
    [apply Demo.base|reflexivity|discriminate|reflexivity|reflexivity|apply Demo.random_bytes|].
  by exists p, k'.
Defined.

Lemma chaincode_label_ok_witness :
  label_value (chaincode_label (package_id "basic_1.0" "0123456789abcdef")).
Proof.
  apply (chaincode_label_ok "" "basic_1.0" "0123456789abcdef"); try reflexivity;
    [by eexists _, _|by split|simpl; lia].
Defined.

Definition long_name : string := foldr String "" (repeat "x"%char 61).

Lemma chaincode_label_cut_witness :
  ¬ label_value (chaincode_label (package_id long_name "abcd")).
Proof. apply (chaincode_label_cut long_name "abcd"); try reflexivity. simpl. lia. Defined.
