(* ===== verification/OsModel.v ===== *)
(** * The operating system

    The part of packages os and io/ioutil the program uses, over a tree of
    files without symbolic links. A path names an entry by [GoPath.resolve].
    Every system call takes one tick of the clock and may fail at any tick
    with an error of the environment's choice ([fault]: permission, full disk,
    I/O error); a write that fails leaves some of its bytes behind. Times are
    ticks; making or removing an entry leaves the times of its directory alone.
    A file handle is the entry it was opened on: the program never
    renames or removes a file it has open. *)
From S2P Require Import Prelude GoStrings GoPath.

(** ** State *)

Record meta := mkMeta { i_mode : Z; i_atime : Z; i_mtime : Z }.

(** A regular file, a directory, or anything else: a device node that cannot
    be opened stands for what is neither. *)
Inductive inode :=
  | File (m : meta) (content : string)
  | Directory (m : meta)
  | Special (m : meta).

Definition i_meta (i : inode) : meta :=
  match i with File m _ | Directory m | Special m => m end.

(** os.FileInfo.IsDir and Mode().IsRegular(). *)
Definition IsDir (i : inode) : bool := match i with Directory _ => true | _ => false end.
Definition IsRegular (i : inode) : bool := match i with File _ _ => true | _ => false end.

Abbreviation fpath := (list string).

(** [os_fault t] is the failure of the system call at tick t, with the number
    of bytes a failing write has already written; [os_tmp t] the random part
    of a temporary name chosen at tick t. *)
Record OS := mkOS {
  os_files : gmap fpath inode;
  os_cwd : fpath;
  os_umask : Z;
  os_env : gmap string string;
  os_tick : nat;
  os_fault : nat → option (errno * nat);
  os_tmp : nat → string }.

Definition set_files (f : gmap fpath inode → gmap fpath inode) (s : OS) : OS :=
  mkOS (f (os_files s)) (os_cwd s) (os_umask s) (os_env s) (os_tick s) (os_fault s) (os_tmp s).

Definition tick (s : OS) : OS :=
  mkOS (os_files s) (os_cwd s) (os_umask s) (os_env s) (S (os_tick s)) (os_fault s) (os_tmp s).

Definition clock (s : OS) : Z := Z.of_nat (os_tick s).

(** os.Getenv: the empty string for a variable that is not set. *)
Definition Getenv (name : string) : M OS string :=
  gets (λ s, default "" (os_env s !! name)).

Definition locate (p : string) (s : OS) : fpath := resolve (os_cwd s) p.

(** ** Looking a path up *)

(** Every directory on the way must exist. *)
Fixpoint walk (fs : gmap fpath inode) (dir rest : fpath) : errno + inode :=
  match fs !! dir with
  | None => inl ENOENT
  | Some i =>
      match rest with
      | [] => inr i
      | x :: rest' =>
          match i with Directory _ => walk fs (dir ++ [x]) rest' | _ => inl ENOTDIR end
      end
  end.

Definition find_inode (p : string) (s : OS) : errno + inode :=
  if bool_decide (p = "") then inl ENOENT else walk (os_files s) [] (locate p s).

(** ** System calls *)

(** One system call on a path: it may fail for reasons of the environment. *)
Definition sys {A} (op path : string) (body : M OS A) : M OS A := λ s,
  match os_fault s (os_tick s) with
  | Some (e, _) => (Err (PathError op path e), tick s)
  | None => body (tick s)
  end.

Definition stat_as (op p : string) : M OS inode :=
  sys op p (λ s,
    match find_inode p s with
    | inl e => (Err (PathError op p e), s)
    | inr i => (Ok i, s)
    end).

(** os.Stat and os.Lstat. *)
Definition Stat (p : string) : M OS inode := stat_as "stat" p.
Definition Lstat (p : string) : M OS inode := stat_as "lstat" p.

(** os.Open. *)
Definition Open (p : string) : M OS fpath :=
  sys "open" p (λ s,
    match find_inode p s with
    | inl e => (Err (PathError "open" p e), s)
    | inr (Special _) => (Err (PathError "open" p EINVAL), s)
    | inr _ => (Ok (locate p s), s)
    end).

(** file.Stat(). *)
Definition Fstat (h : fpath) (p : string) : M OS inode :=
  sys "stat" p (λ s,
    match os_files s !! h with
    | Some i => (Ok i, s)
    | None => (Err (PathError "stat" p ENOENT), s)
    end).

(** Reading a file to its end. *)
Definition ReadHandle (h : fpath) (p : string) : M OS string :=
  sys "read" p (λ s,
    match os_files s !! h with
    | Some (File _ c) => (Ok c, s)
    | Some (Directory _) => (Err (PathError "read" p EISDIR), s)
    | _ => (Err (PathError "read" p EINVAL), s)
    end).

Definition new_meta (perm : Z) (s : OS) : meta :=
  mkMeta (Z.ldiff perm (os_umask s)) (clock s) (clock s).

(** The directory of an entry that is to be made exists. *)
Definition parent_ok (fs : gmap fpath inode) (h : fpath) : errno + unit :=
  match walk fs [] (removelast h) with
  | inl e => inl e
  | inr (Directory _) => inr tt
  | inr _ => inl ENOTDIR
  end.

(** os.OpenFile(p, O_CREATE|O_TRUNC|O_RDWR, perm). *)
Definition OpenTrunc (p : string) (perm : Z) : M OS fpath :=
  sys "open" p (λ s,
    let h := locate p s in
    if bool_decide (p = "") then (Err (PathError "open" p ENOENT), s)
    else match parent_ok (os_files s) h with
    | inl e => (Err (PathError "open" p e), s)
    | inr _ =>
        match os_files s !! h with
        | Some (File m _) =>
            (Ok h, set_files <[h := File (mkMeta (i_mode m) (i_atime m) (clock s)) ""]> s)
        | Some (Directory _) => (Err (PathError "open" p EISDIR), s)
        | Some (Special _) => (Err (PathError "open" p EINVAL), s)
        | None => (Ok h, set_files <[h := File (new_meta perm s) ""]> s)
        end
    end).

(** os.OpenFile(p, O_WRONLY|O_CREATE|O_EXCL, perm). *)
Definition OpenExcl (p : string) (perm : Z) : M OS fpath :=
  sys "open" p (λ s,
    let h := locate p s in
    if bool_decide (p = "") then (Err (PathError "open" p ENOENT), s)
    else match parent_ok (os_files s) h with
    | inl e => (Err (PathError "open" p e), s)
    | inr _ =>
        match os_files s !! h with
        | Some _ => (Err (PathError "open" p EEXIST), s)
        | None => (Ok h, set_files <[h := File (new_meta perm s) ""]> s)
        end
    end).

Definition set_content (h : fpath) (f : string → string) (s : OS) : OS :=
  match os_files s !! h with
  | Some (File m c) =>
      set_files <[h := File (mkMeta (i_mode m) (i_atime m) (clock s)) (f c)]> s
  | _ => s
  end.

(** Writing behind what the file already holds. *)
Definition WriteHandle (h : fpath) (p data : string) : M OS unit := λ s,
  match os_fault s (os_tick s) with
  | Some (e, n) =>
      (Err (PathError "write" p e),
       set_content h (λ c, c +:+ take_bytes n data) (tick s))
  | None => (Ok tt, set_content h (λ c, c +:+ data) (tick s))
  end.

Definition CloseHandle (h : fpath) (p : string) : M OS unit :=
  sys "close" p (mret tt).

(** os.Mkdir on a path already resolved. *)
Definition mkdir (h : fpath) (p : string) (perm : Z) : M OS unit :=
  sys "mkdir" p (λ s,
    match parent_ok (os_files s) h with
    | inl e => (Err (PathError "mkdir" p e), s)
    | inr _ =>
        match os_files s !! h with
        | Some _ => (Err (PathError "mkdir" p EEXIST), s)
        | None => (Ok tt, set_files <[h := Directory (new_meta perm s)]> s)
        end
    end).

(** os.MkdirAll: the directories on the way, the outermost first. *)
Fixpoint mkdir_all (dir rest : fpath) (p : string) (perm : Z) : M OS unit :=
  match rest with
  | [] => mret tt
  | x :: rest' =>
      let dir' := dir ++ [x] in
      i ← gets (λ s, os_files s !! dir');
      match i with
      | Some (Directory _) => mkdir_all dir' rest' p perm
      | Some _ => throw (PathError "mkdir" p ENOTDIR)
      | None => mkdir dir' p perm ;; mkdir_all dir' rest' p perm
      end
  end.

Definition MkdirAll (p : string) (perm : Z) : M OS unit :=
  h ← gets (locate p); mkdir_all [] h p perm.

(** The zero time leaves the access time as it is. *)
Definition set_times (atime : option Z) (mtime : Z) (i : inode) : inode :=
  let m := mkMeta (i_mode (i_meta i)) (default (i_atime (i_meta i)) atime) mtime in
  match i with
  | File _ c => File m c
  | Directory _ => Directory m
  | Special _ => Special m
  end.

Definition Chtimes (p : string) (atime : option Z) (mtime : Z) : M OS unit :=
  sys "chtimes" p (λ s,
    match find_inode p s with
    | inl e => (Err (PathError "chtimes" p e), s)
    | inr i => (Ok tt, set_files <[locate p s := set_times atime mtime i]> s)
    end).

(** *** Directories *)

Definition child_of (dir k : fpath) : option string :=
  if bool_decide (take (length dir) k = dir)
  then match drop (length dir) k with [x] => Some x | _ => None end
  else None.

Definition name_le (a b : string * inode) : Prop := String.leb a.1 b.1 = true.

#[export] Instance name_le_dec : RelDecision name_le.
Proof. intros a b. unfold name_le. apply _. Defined.

(** The entries of a directory, sorted by name. *)
Definition children (fs : gmap fpath inode) (dir : fpath) : list (string * inode) :=
  merge_sort name_le
    (omap (λ ki, (λ x, (x, ki.2)) <$> child_of dir ki.1) (map_to_list fs)).

(** ioutil.ReadDir. *)
Definition ReadDir (p : string) : M OS (list (string * inode)) :=
  sys "open" p (λ s,
    match find_inode p s with
    | inl e => (Err (PathError "open" p e), s)
    | inr (Directory _) => (Ok (children (os_files s) (locate p s)), s)
    | inr _ => (Err (PathError "readdirent" p ENOTDIR), s)
    end).

Definition join_dir (dir name : string) : string :=
  if HasSuffix dir SLASH then dir +:+ name else dir +:+ SLASH +:+ name.

(** os.TempDir. *)
Definition default_temp : M OS string :=
  d ← Getenv "TMPDIR"; mret (if bool_decide (d = "") then "/tmp" else d).

(** The attempts of ioutil.TempDir to make a directory with a random name. *)
Fixpoint temp_try (attempts : nat) (dir prefix : string) : M OS string :=
  name ← gets (λ s, join_dir dir (prefix +:+ os_tmp s (os_tick s)));
  h ← gets (locate name);
  r ← attempt (mkdir h name 448);
  match r with
  | inr _ => mret name
  | inl e =>
      if IsExist e then
        match attempts with
        | O => throw (PathError "mkdirtemp" (join_dir dir prefix +:+ "*") EEXIST)
        | S n => temp_try n dir prefix
        end
      else if IsNotExist e then
        r ← attempt (Stat dir);
        match r with
        | inl e' => throw (if IsNotExist e' then e' else e)
        | inr _ => throw e
        end
      else throw e
  end.

(** ioutil.TempDir: ten thousand names are tried. *)
Definition TempDir (dir prefix : string) : M OS string :=
  dir ← (if bool_decide (dir = "") then default_temp else mret dir);
  temp_try (Z.to_nat 9999) dir prefix.

(** os.RemoveAll: what is below the entry goes too. *)
Definition RemoveAll (p : string) : M OS unit :=
  sys "unlinkat" p (λ s,
    let h := locate p s in
    (Ok tt, set_files (filter (λ ki, ¬ h `prefix_of` ki.1)) s)).

(** ioutil.ReadFile and WriteFile. *)
Definition ReadFile (p : string) : M OS string :=
  h ← Open p; ReadHandle h p.

Definition WriteFile (p data : string) (perm : Z) : M OS unit :=
  h ← OpenTrunc p perm;
  r ← attempt (WriteHandle h p data);
  c ← attempt (CloseHandle h p);
  match r, c with
  | inl e, _ => throw e
  | inr _, inl e => throw e
  | inr _, inr _ => mret tt
  end.

(** ** Facts *)

(** The environment lets the calls of a state succeed. *)
Definition no_fault (s : OS) : Prop := ∀ t, os_fault s t = None.

(** Every entry but the root lies in a directory, and the root is one. *)
Record fs_wf (fs : gmap fpath inode) : Prop := {
  wf_root : ∃ m, fs !! [] = Some (Directory m);
  wf_parent p x i : fs !! (p ++ [x]) = Some i → ∃ m, fs !! p = Some (Directory m) }.

(** In such a tree, looking up is a lookup. *)
Lemma wf_prefix fs p q i :
  fs_wf fs → fs !! (p ++ q) = Some i → q ≠ [] → ∃ m, fs !! p = Some (Directory m).
Proof.
  intros Hwf. revert i. induction q as [|x q IH] using rev_ind; intros i Hi Hq; [done|].
  rewrite app_assoc in Hi. apply (wf_parent fs Hwf) in Hi as [m Hm].
  destruct q as [|y q]; [rewrite app_nil_r in Hm; eauto|].
  by eapply IH.
Qed.

Lemma walk_found fs dir rest i :
  fs_wf fs → fs !! (dir ++ rest) = Some i → walk fs dir rest = inr i.
Proof.
  intros Hwf. revert dir. induction rest as [|x rest IH]; intros dir Hi.
  - rewrite app_nil_r in Hi. simpl. by rewrite Hi.
  - destruct (wf_prefix fs dir (x :: rest) i Hwf Hi) as [m Hm]; [done|].
    simpl. rewrite Hm. apply IH. by rewrite <- app_assoc.
Qed.

Lemma walk_inr fs dir rest i : walk fs dir rest = inr i → fs !! (dir ++ rest) = Some i.
Proof.
  revert dir. induction rest as [|x rest IH]; intros dir; simpl.
  - destruct (fs !! dir) eqn:E; [|done]. intros [= <-]. by rewrite app_nil_r.
  - destruct (fs !! dir) as [[| |]|]; try done. intros Hi. apply IH in Hi.
    by rewrite <- app_assoc in Hi.
Qed.

(** A lookup that fails because nothing is there. *)
Lemma walk_missing fs dir rest :
  fs_wf fs → fs !! (dir ++ rest) = None → ∃ e, walk fs dir rest = inl e.
Proof.
  intros Hwf H. destruct (walk fs dir rest) as [e|i] eqn:E; [eauto|].
  apply walk_inr in E. congruence.
Qed.

Lemma find_inode_inr p s i :
  find_inode p s = inr i → p ≠ "" ∧ os_files s !! locate p s = Some i.
Proof.
  unfold find_inode. case_bool_decide; [done|]. intros Hi%walk_inr. done.
Qed.

Lemma find_inode_found p s i :
  fs_wf (os_files s) → p ≠ "" → os_files s !! locate p s = Some i →
  find_inode p s = inr i.
Proof.
  intros Hwf Hp Hi. unfold find_inode. rewrite bool_decide_eq_false_2 by done.
  by apply walk_found.
Qed.

(** *** What a call leaves alone *)

(** The settings of the process stay. *)
Definition same_process (s s' : OS) : Prop :=
  os_cwd s' = os_cwd s ∧ os_umask s' = os_umask s ∧ os_env s' = os_env s ∧
  os_fault s' = os_fault s ∧ os_tmp s' = os_tmp s.

(** Nothing in the tree changes. *)
Definition same_tree (s s' : OS) : Prop :=
  same_process s s' ∧ os_files s' = os_files s.

#[export] Instance same_process_pre : PreOrder same_process.
Proof.
  split; [by intros s|]. intros s1 s2 s3 (?&?&?&?&?) (?&?&?&?&?). repeat split; congruence.
Qed.

#[export] Instance same_tree_pre : PreOrder same_tree.
Proof.
  split; [by intros s|]. intros s1 s2 s3 [? ?] [? ?]. split; [by etrans|congruence].
Qed.

Lemma same_process_tick s : same_process s (tick s).
Proof. done. Qed.

Lemma same_tree_tick s : same_tree s (tick s).
Proof. done. Qed.

Lemma locate_same p s s' : same_process s s' → locate p s' = locate p s.
Proof. intros (Hc & _). unfold locate. by rewrite Hc. Qed.

Lemma keeps_sys {A} (R : relation OS) `{!PreOrder R} op p (body : M OS A) :
  (∀ s, R s (tick s)) → keeps R body → keeps R (sys op p body).
Proof.
  intros Ht Hb s. unfold sys. destruct (os_fault s (os_tick s)) as [[e n]|]; simpl.
  - apply Ht.
  - etrans; [apply Ht|apply Hb].
Qed.

(** A body that only looks. *)
Lemma keeps_look {A} (f : OS → outcome A) : keeps same_tree (λ s, (f s, s)).
Proof. by intros s. Qed.

Ltac solve_look :=
  apply (keeps_sys same_tree); [exact same_tree_tick|];
  let s := fresh in intros s; simpl; repeat case_match; done.

Lemma keeps_Stat p : keeps same_tree (Stat p).
Proof. solve_look. Qed.
Lemma keeps_Lstat p : keeps same_tree (Lstat p).
Proof. solve_look. Qed.
Lemma keeps_Open p : keeps same_tree (Open p).
Proof. solve_look. Qed.
Lemma keeps_Fstat h p : keeps same_tree (Fstat h p).
Proof. solve_look. Qed.
Lemma keeps_ReadHandle h p : keeps same_tree (ReadHandle h p).
Proof. solve_look. Qed.
Lemma keeps_CloseHandle h p : keeps same_tree (CloseHandle h p).
Proof. solve_look. Qed.
Lemma keeps_ReadDir p : keeps same_tree (ReadDir p).
Proof. solve_look. Qed.

#[export] Hint Resolve keeps_Stat keeps_Lstat keeps_Open keeps_Fstat keeps_ReadHandle
  keeps_CloseHandle keeps_ReadDir : keeps.

Lemma keeps_ReadFile p : keeps same_tree (ReadFile p).
Proof. unfold ReadFile. keeps_tac. Qed.

Lemma keeps_Getenv v : keeps same_tree (Getenv v).
Proof. apply keeps_gets, _. Qed.

#[export] Hint Resolve keeps_ReadFile keeps_Getenv : keeps.

(** *** Opening and writing *)

(** One entry at h may change, and the settings stay. *)
Definition only_at (h : fpath) (s s' : OS) : Prop :=
  same_process s s' ∧ ∀ p, p ≠ h → os_files s' !! p = os_files s !! p.

#[export] Instance only_at_pre h : PreOrder (only_at h).
Proof.
  split; [by intros s|]. intros s1 s2 s3 [? H1] [? H2]. split; [by etrans|].
  intros p Hp. rewrite H2, H1 by done. done.
Qed.

Lemma same_tree_only_at h s s' : same_tree s s' → only_at h s s'.
Proof. intros [? E]. split; [done|]. intros p _. by rewrite E. Qed.

Lemma set_content_only_at h f s : only_at h s (set_content h f s).
Proof.
  unfold set_content. destruct (os_files s !! h) as [[m c| |]|]; try done.
  split; [done|]. intros p Hp. simpl. by rewrite lookup_insert_ne.
Qed.

Lemma WriteHandle_only_at h p data : keeps (only_at h) (WriteHandle h p data).
Proof.
  intros s. unfold WriteHandle. destruct (os_fault s (os_tick s)) as [[e n]|]; simpl;
    (etrans; [|apply set_content_only_at]); by apply same_tree_only_at.
Qed.

(** O_EXCL: the entry is made new, or nothing changes. *)
Lemma OpenExcl_cases p perm s :
  (∃ e s', OpenExcl p perm s = (Err e, s') ∧ same_tree s s') ∨
  (∃ m s', OpenExcl p perm s = (Ok (locate p s), s') ∧ same_process s s' ∧
     os_files s !! locate p s = None ∧
     os_files s' = <[locate p s := File m ""]> (os_files s)).
Proof.
  unfold OpenExcl, sys. destruct (os_fault s (os_tick s)) as [[e n]|];
    [left; by eexists _, _|].
  case_bool_decide; [left; by eexists _, _|].
  destruct (parent_ok _ _); [left; by eexists _, _|].
  destruct (os_files (tick s) !! locate p (tick s)) eqn:E; [left; by eexists _, _|].
  right. exists (new_meta perm (tick s)). by eexists.
Qed.

(** Without failures, O_EXCL makes the entry when its directory exists. *)
Lemma OpenExcl_ok p perm s :
  no_fault s → p ≠ "" → parent_ok (os_files s) (locate p s) = inr tt →
  os_files s !! locate p s = None →
  OpenExcl p perm s =
    (Ok (locate p s),
     set_files <[locate p s := File (new_meta perm (tick s)) ""]> (tick s)).
Proof.
  intros Hf Hp Hpar Hn. unfold OpenExcl, sys. rewrite Hf.
  rewrite bool_decide_eq_false_2 by done.
  change (os_files (tick s)) with (os_files s).
  change (locate p (tick s)) with (locate p s). by rewrite Hpar, Hn.
Qed.

Lemma OpenExcl_exists p perm s i :
  no_fault s → p ≠ "" → parent_ok (os_files s) (locate p s) = inr tt →
  os_files s !! locate p s = Some i →
  OpenExcl p perm s = (Err (PathError "open" p EEXIST), tick s).
Proof.
  intros Hf Hp Hpar Hn. unfold OpenExcl, sys. rewrite Hf.
  rewrite bool_decide_eq_false_2 by done.
  change (os_files (tick s)) with (os_files s).
  change (locate p (tick s)) with (locate p s). by rewrite Hpar, Hn.
Qed.

Lemma OpenExcl_no_parent p perm s e :
  no_fault s → p ≠ "" → parent_ok (os_files s) (locate p s) = inl e →
  OpenExcl p perm s = (Err (PathError "open" p e), tick s).
Proof.
  intros Hf Hp Hpar. unfold OpenExcl, sys. rewrite Hf.
  rewrite bool_decide_eq_false_2 by done.
  change (os_files (tick s)) with (os_files s).
  change (locate p (tick s)) with (locate p s). by rewrite Hpar.
Qed.

Lemma WriteHandle_ok h p data s m c :
  no_fault s → os_files s !! h = Some (File m c) →
  WriteHandle h p data s =
    (Ok tt, set_files <[h := File (mkMeta (i_mode m) (i_atime m) (clock (tick s)))
                              (c +:+ data)]> (tick s)).
Proof.
  intros Hf Hh. unfold WriteHandle, set_content. rewrite Hf.
  change (os_files (tick s)) with (os_files s). by rewrite Hh.
Qed.

(** Opening and reading a regular file that is there. *)
Lemma Open_found p s i :
  no_fault s → find_inode p s = inr i → (∀ m, i ≠ Special m) →
  Open p s = (Ok (locate p s), tick s).
Proof.
  intros Hf Hi Hs. unfold Open, sys. rewrite Hf.
  change (find_inode p (tick s)) with (find_inode p s). rewrite Hi.
  by destruct i as [| |m]; [..|by destruct (Hs m)].
Qed.

Lemma Open_missing p s e :
  no_fault s → find_inode p s = inl e → Open p s = (Err (PathError "open" p e), tick s).
Proof.
  intros Hf Hi. unfold Open, sys. rewrite Hf.
  change (find_inode p (tick s)) with (find_inode p s). by rewrite Hi.
Qed.

Lemma stat_as_ok op p s i :
  no_fault s → find_inode p s = inr i → stat_as op p s = (Ok i, tick s).
Proof.
  intros Hf Hi. unfold stat_as, sys. rewrite Hf.
  change (find_inode p (tick s)) with (find_inode p s). by rewrite Hi.
Qed.

Lemma ReadDir_ok p s m :
  no_fault s → find_inode p s = inr (Directory m) →
  ReadDir p s = (Ok (children (os_files s) (locate p s)), tick s).
Proof.
  intros Hf Hi. unfold ReadDir, sys. rewrite Hf.
  change (find_inode p (tick s)) with (find_inode p s). by rewrite Hi.
Qed.

Lemma Fstat_ok h p s i :
  no_fault s → os_files s !! h = Some i → Fstat h p s = (Ok i, tick s).
Proof.
  intros Hf Hi. unfold Fstat, sys. rewrite Hf.
  change (os_files (tick s)) with (os_files s). by rewrite Hi.
Qed.

Lemma ReadHandle_ok h p s m c :
  no_fault s → os_files s !! h = Some (File m c) → ReadHandle h p s = (Ok c, tick s).
Proof.
  intros Hf Hi. unfold ReadHandle, sys. rewrite Hf.
  change (os_files (tick s)) with (os_files s). by rewrite Hi.
Qed.

(** The tree of a new file in an existing directory is well formed. *)
Lemma fs_wf_insert fs h x i :
  fs_wf fs → (∃ m, fs !! h = Some (Directory m)) → fs !! (h ++ [x]) = None → fs_wf (<[h ++ [x] := i]> fs).
Proof.
  intros [[mr Hr] Hp] [m Hm] Hn. split.
  - exists mr. rewrite lookup_insert_ne; [done|]. by destruct h.
  - intros p y j Hj. destruct (decide (p ++ [y] = h ++ [x])) as [E|Hne].
    + apply app_inj_tail in E as [-> ->]. exists m. rewrite lookup_insert_ne; [done|].
      intros E. apply (f_equal length) in E. rewrite length_app in E. simpl in E. lia.
    + rewrite lookup_insert_ne in Hj by congruence.
      destruct (Hp p y j Hj) as [mp Hmp]. exists mp.
      rewrite lookup_insert_ne; [done|]. intros E. congruence.
Qed.

(** What reading a whole file gives, by what the path names. *)
Definition read_outcome (p : string) (s : OS) (r : outcome string) : Prop :=
  match os_files s !! locate p s with
  | Some (File _ c) => r = Ok c
  | Some (Directory _) => r = Err (PathError "read" p EISDIR)
  | Some (Special _) => r = Err (PathError "open" p EINVAL)
  | None => ∃ e, r = Err (PathError "open" p e)
  end.

Lemma Open_Special p s m :
  no_fault s → find_inode p s = inr (Special m) →
  Open p s = (Err (PathError "open" p EINVAL), tick s).
Proof.
  intros Hf Hi. unfold Open, sys. rewrite Hf.
  change (find_inode p (tick s)) with (find_inode p s). by rewrite Hi.
Qed.

Lemma ReadHandle_Directory h p s m :
  no_fault s → os_files s !! h = Some (Directory m) →
  ReadHandle h p s = (Err (PathError "read" p EISDIR), tick s).
Proof.
  intros Hf Hi. unfold ReadHandle, sys. rewrite Hf.
  change (os_files (tick s)) with (os_files s). by rewrite Hi.
Qed.

(** Opening a file and reading it, with anything done to what was read. *)
Lemma Open_Read_spec {A} p s (k : fpath → M OS string → M OS A) (F : outcome string → outcome A) :
  no_fault s → fs_wf (os_files s) → p ≠ "" →
  (∀ h s', no_fault s' → (k h (ReadHandle h p) s').1 = F (ReadHandle h p s').1) →
  (∀ e, F (Err e) = Err e) →
  ∃ r, read_outcome p s r ∧ ((h ← Open p; k h (ReadHandle h p)) s).1 = F r.
Proof.
  intros Hf Hwf Hp Hk HF. unfold read_outcome.
  destruct (os_files s !! locate p s) as [i|] eqn:Hi.
  - pose proof (find_inode_found p s i Hwf Hp Hi) as Hfi. destruct i as [m c|m|m].
    + eexists. split; [done|]. erewrite bind_ok by by eapply Open_found.
      rewrite Hk by done. by erewrite ReadHandle_ok.
    + eexists. split; [done|]. erewrite bind_ok by by eapply Open_found.
      rewrite Hk by done. by erewrite ReadHandle_Directory.
    + eexists. split; [done|]. erewrite bind_err by by eapply Open_Special. by rewrite HF.
  - destruct (walk_missing (os_files s) [] _ Hwf Hi) as [e He].
    exists (Err (PathError "open" p e)). split; [eauto|].
    erewrite bind_err; [by rewrite HF|]. apply Open_missing; [done|].
    unfold find_inode. by rewrite bool_decide_eq_false_2.
Qed.

Lemma ReadFile_spec p s :
  no_fault s → fs_wf (os_files s) → p ≠ "" → read_outcome p s (ReadFile p s).1.
Proof.
  intros Hf Hwf Hp.
  destruct (Open_Read_spec p s (λ h m, m) (λ r, r) Hf Hwf Hp) as (r & Hr & E); [done..|].
  unfold ReadFile. by rewrite E.
Qed.

(** Closing never panics. *)
Lemma CloseHandle_ends h p s :
  ∃ r, (CloseHandle h p s).1 = r ∧ (∀ t, r ≠ Panic t) ∧ r ≠ Blocked.
Proof. unfold CloseHandle, sys. destruct (os_fault _ _) as [[e n]|]; by eexists. Qed.

(** A new entry in an existing directory keeps the tree well formed. *)
Lemma fs_wf_new F k i : fs_wf F → parent_ok F k = inr tt → F !! k = None → fs_wf (<[k := i]> F).
Proof.
  intros Hwf Hp Hn. assert (k ≠ []) as Hk.
  { intros ->. destruct (wf_root F Hwf). congruence. }
  destruct (exists_last Hk) as (d & x & ->). unfold parent_ok in Hp. rewrite removelast_last in Hp.
  destruct (walk F [] d) as [|[]] eqn:E; try done. apply walk_inr in E.
  apply fs_wf_insert; [done|by eexists|done].
Qed.

(** So does a new regular file in place of one. *)
Lemma fs_wf_replace F k m c m' c' :
  fs_wf F → F !! k = Some (File m c) → fs_wf (<[k := File m' c']> F).
Proof.
  intros [[mr Hr] Hp] Hk. split.
  - exists mr. rewrite lookup_insert_ne; [done|]. intros ->. congruence.
  - intros p x i Hi. assert (p ≠ k) as Hpk.
    { intros ->. destruct (decide (k = k ++ [x])) as [E|E].
      - apply (f_equal length) in E. rewrite length_app in E. simpl in E. lia.
      - rewrite lookup_insert_ne in Hi by done. destruct (Hp _ _ _ Hi) as [m0 ?]. congruence. }
    rewrite lookup_insert_ne by done. destruct (decide (k = p ++ [x])) as [->|Hne].
    + by eapply Hp.
    + rewrite lookup_insert_ne in Hi by done. by eapply Hp.
Qed.

(** The mode of a file OpenTrunc opens. *)
Definition trunc_mode (perm : Z) (umask : Z) (old : option inode) : Z :=
  match old with Some (File m _) => i_mode m | _ => Z.ldiff perm umask end.

(** Without failures, OpenTrunc gives an empty file in an existing directory. *)
Lemma OpenTrunc_ok p perm s :
  no_fault s → fs_wf (os_files s) → p ≠ "" → parent_ok (os_files s) (locate p s) = inr tt →
  (os_files s !! locate p s = None ∨ ∃ m c, os_files s !! locate p s = Some (File m c)) →
  ∃ m, OpenTrunc p perm s = (Ok (locate p s), set_files <[locate p s := File m ""]> (tick s)) ∧
    i_mode m = trunc_mode perm (os_umask s) (os_files s !! locate p s) ∧
    fs_wf (<[locate p s := File m ""]> (os_files s)).
Proof.
  intros Hf Hwf Hp Hpar Hold. unfold OpenTrunc, sys. rewrite Hf. cbv zeta.
  rewrite bool_decide_eq_false_2 by done.
  change (os_files (tick s)) with (os_files s). change (locate p (tick s)) with (locate p s).
  rewrite Hpar. destruct Hold as [Hn|(m & c & Hm)].
  - rewrite Hn. eexists. split; [done|]. split; [done|]. by apply fs_wf_new.
  - rewrite Hm. eexists. split; [done|]. split; [done|]. by eapply fs_wf_replace.
Qed.

Lemma CloseHandle_ok h p s : no_fault s → CloseHandle h p s = (Ok tt, tick s).
Proof. intros Hf. unfold CloseHandle, sys. by rewrite Hf. Qed.

Lemma Chtimes_ok p a m s i :
  no_fault s → find_inode p s = inr i →
  Chtimes p a m s = (Ok tt, set_files <[locate p s := set_times a m i]> (tick s)).
Proof.
  intros Hf Hi. unfold Chtimes, sys. rewrite Hf.
  change (find_inode p (tick s)) with (find_inode p s). by rewrite Hi.
Qed.

(** *** Listing a directory *)

Lemma leb_trans a b c : String.leb a b = true → String.leb b c = true → String.leb a c = true.
Proof.
  unfold String.leb. revert b c. induction a as [|x a IH]; intros [|y b] [|z c]; simpl; try done.
  unfold Ascii.compare.
  destruct (N.compare_spec (Ascii.N_of_ascii x) (Ascii.N_of_ascii y)) as [E1|L1|L1]; [| |done];
    destruct (N.compare_spec (Ascii.N_of_ascii y) (Ascii.N_of_ascii z)) as [E2|L2|L2]; try done;
    destruct (N.compare_spec (Ascii.N_of_ascii x) (Ascii.N_of_ascii z)) as [E3|L3|L3]; try done; try lia.
  apply IH.
Qed.

#[export] Instance name_le_trans : Transitive name_le.
Proof. intros a b c. apply leb_trans. Qed.

#[export] Instance name_le_total : Total name_le.
Proof. intros a b. apply String.leb_total. Qed.

Lemma child_of_Some dir k x : child_of dir k = Some x ↔ k = dir ++ [x].
Proof.
  unfold child_of. split.
  - case_bool_decide as Ht; [|done]. destruct (drop _ k) as [|y [|]] eqn:E; try done.
    intros [= <-]. by rewrite <- (take_drop (length dir) k), Ht, E.
  - intros ->. by rewrite take_app_length, bool_decide_eq_true_2, drop_app_length by done.
Qed.

Lemma elem_of_children fs dir x i : (x, i) ∈ children fs dir ↔ fs !! (dir ++ [x]) = Some i.
Proof.
  unfold children. rewrite merge_sort_Permutation, list_elem_of_omap. split.
  - intros ([k j] & Hk & Hx). apply elem_of_map_to_list in Hk. simpl in Hx.
    destruct (child_of dir k) as [y|] eqn:E; [|done]. injection Hx as -> ->.
    by apply child_of_Some in E as ->.
  - intros Hi. exists (dir ++ [x], i). rewrite elem_of_map_to_list. split; [done|]. simpl.
    by rewrite (proj2 (child_of_Some dir _ x)).
Qed.

Lemma NoDup_children fs dir : NoDup (children fs dir).
Proof.
  unfold children. rewrite merge_sort_Permutation. pose proof (NoDup_map_to_list fs) as Hn.
  induction Hn as [|[k i] l Hk Hl IH]; [constructor|]. cbn [omap list_omap fst snd].
  destruct (child_of dir k) as [x|] eqn:E; [|exact IH]. cbn [fmap option_fmap option_map].
  constructor; [|exact IH]. intros Hin. apply list_elem_of_omap in Hin as ([k' j] & Hin & Hx).
  simpl in Hx. destruct (child_of dir k') as [y|] eqn:E'; [|done]. injection Hx as -> ->.
  apply child_of_Some in E as ->, E' as ->. by apply Hk.
Qed.

(** A listing depends on the entries it lists only. *)
Lemma children_ext fs fs' dir :
  (∀ x, fs !! (dir ++ [x]) = fs' !! (dir ++ [x])) → children fs dir = children fs' dir.
Proof.
  intros H. apply (StronglySorted_unique_strong name_le).
  - intros [x i] [y j] Hx Hy H1 H2. pose proof (String.leb_antisym _ _ H1 H2) as E. simpl in E. subst y.
    apply elem_of_children in Hx, Hy. rewrite H in Hx. congruence.
  - apply (StronglySorted_merge_sort name_le).
  - apply (StronglySorted_merge_sort name_le).
  - apply NoDup_Permutation; [apply NoDup_children..|]. intros [x i].
    by rewrite !elem_of_children, H.
Qed.

(** The length of the longest path. *)
Definition tree_height (fs : gmap fpath inode) : nat :=
  foldr (λ ki n, Nat.max (length ki.1) n) 0 (map_to_list fs).

Lemma tree_height_spec fs k i : fs !! k = Some i → length k ≤ tree_height fs.
Proof.
  intros Hk. apply elem_of_map_to_list in Hk. unfold tree_height.
  induction (map_to_list fs) as [|x l IH]; [by apply not_elem_of_nil in Hk|].
  apply elem_of_cons in Hk as [<-|Hk]; cbn [foldr fst]; [lia|]. specialize (IH Hk). lia.
Qed.

Lemma tree_height_le fs n : (∀ k i, fs !! k = Some i → length k ≤ n) → tree_height fs ≤ n.
Proof.
  intros H. unfold tree_height. assert (∀ x, x ∈ map_to_list fs → length x.1 ≤ n) as Hl.
  { intros [k i] Hx. apply elem_of_map_to_list in Hx. by eapply H. }
  induction (map_to_list fs) as [|x l IH]; cbn [foldr]; [lia|].
  pose proof (Hl x (list_elem_of_here _ _)). assert (foldr (λ ki n, Nat.max (length ki.1) n) 0 l ≤ n); [|lia].
  apply IH. intros y Hy. apply Hl. by apply list_elem_of_further.
Qed.

(** *** Every call returns *)

Abbreviation returns := (ends (λ _ : OS, True)).

Ltac solve_returns :=
  let s := fresh in intros s _; split; [|done];
  unfold stat_as, Open, Fstat, ReadHandle, OpenTrunc, OpenExcl, WriteHandle, CloseHandle, mkdir,
    Chtimes, ReadDir, RemoveAll, sys, mret, M_ret; cbv zeta;
  repeat case_match; simplify_eq/=; done.

Lemma returns_Stat p : returns (Stat p).
Proof. unfold Stat. solve_returns. Qed.
Lemma returns_Lstat p : returns (Lstat p).
Proof. unfold Lstat. solve_returns. Qed.
Lemma returns_Open p : returns (Open p).
Proof. solve_returns. Qed.
Lemma returns_Fstat h p : returns (Fstat h p).
Proof. solve_returns. Qed.
Lemma returns_ReadHandle h p : returns (ReadHandle h p).
Proof. solve_returns. Qed.
Lemma returns_OpenTrunc p perm : returns (OpenTrunc p perm).
Proof. solve_returns. Qed.
Lemma returns_WriteHandle h p d : returns (WriteHandle h p d).
Proof. solve_returns. Qed.
Lemma returns_CloseHandle h p : returns (CloseHandle h p).
Proof. solve_returns. Qed.
Lemma returns_mkdir h p perm : returns (mkdir h p perm).
Proof. solve_returns. Qed.
Lemma returns_Chtimes p a m : returns (Chtimes p a m).
Proof. solve_returns. Qed.
Lemma returns_ReadDir p : returns (ReadDir p).
Proof. solve_returns. Qed.
Lemma returns_RemoveAll p : returns (RemoveAll p).
Proof. solve_returns. Qed.

#[export] Hint Resolve returns_Stat returns_Lstat returns_Open returns_Fstat returns_ReadHandle
  returns_OpenTrunc returns_WriteHandle returns_CloseHandle returns_mkdir returns_Chtimes
  returns_ReadDir returns_RemoveAll : ends.

Lemma returns_mkdir_all dir rest p perm : returns (mkdir_all dir rest p perm).
Proof. revert dir. induction rest as [|x rest IH]; intros dir; cbn [mkdir_all]; ends_tac. Qed.

Lemma returns_MkdirAll p perm : returns (MkdirAll p perm).
Proof. unfold MkdirAll. pose proof returns_mkdir_all. ends_tac. Qed.

Lemma returns_ReadFile p : returns (ReadFile p).
Proof. unfold ReadFile. ends_tac. Qed.

Lemma returns_WriteFile p d perm : returns (WriteFile p d perm).
Proof. unfold WriteFile. ends_tac. Qed.

#[export] Hint Resolve returns_MkdirAll returns_ReadFile returns_WriteFile : ends.

(** *** Every call keeps the settings of the process *)

Ltac solve_process :=
  let s := fresh in intros s;
  unfold OpenTrunc, OpenExcl, WriteHandle, set_content, mkdir, Chtimes, RemoveAll, sys; cbv zeta;
  repeat case_match; simplify_eq/=; done.

Lemma process_OpenTrunc p perm : keeps same_process (OpenTrunc p perm).
Proof. solve_process. Qed.
Lemma process_OpenExcl p perm : keeps same_process (OpenExcl p perm).
Proof. solve_process. Qed.
Lemma process_WriteHandle h p d : keeps same_process (WriteHandle h p d).
Proof. solve_process. Qed.
Lemma process_mkdir h p perm : keeps same_process (mkdir h p perm).
Proof. solve_process. Qed.
Lemma process_Chtimes p a m : keeps same_process (Chtimes p a m).
Proof. solve_process. Qed.
Lemma process_RemoveAll p : keeps same_process (RemoveAll p).
Proof. solve_process. Qed.

Lemma process_same {A} (m : M OS A) : keeps same_tree m → keeps same_process m.
Proof. intros H s. apply H. Qed.

Create HintDb process.
#[export] Hint Resolve process_OpenTrunc process_OpenExcl process_WriteHandle process_mkdir
  process_Chtimes process_RemoveAll : process.
#[export] Hint Extern 5 (keeps same_process _) =>
  apply process_same; solve [eauto with keeps typeclass_instances] : process.

Ltac process_tac := keeps_with ltac:(solve [eauto with process]).

Lemma process_mkdir_all dir rest p perm : keeps same_process (mkdir_all dir rest p perm).
Proof. revert dir. induction rest as [|x rest IH]; intros dir; cbn [mkdir_all]; process_tac. Qed.

Lemma process_MkdirAll p perm : keeps same_process (MkdirAll p perm).
Proof. unfold MkdirAll. pose proof process_mkdir_all. process_tac. Qed.

Lemma process_WriteFile p d perm : keeps same_process (WriteFile p d perm).
Proof. unfold WriteFile. process_tac. Qed.

#[export] Hint Resolve process_MkdirAll process_WriteFile : process.

(** *** A new temporary directory *)

(** A name that was free, of a random part without separators. *)
Lemma temp_try_ok n dir prefix s p s' :
  temp_try n dir prefix s = (Ok p, s') →
  ∃ t, p = join_dir dir (prefix +:+ os_tmp s t) ∧ same_process s s' ∧
    os_files s !! locate p s = None ∧
    ∃ m, os_files s' = <[locate p s := Directory m]> (os_files s).
Proof.
  revert s. induction n as [|n IH]; intros s; cbn [temp_try]; unfold gets at 1, mbind at 1, M_bind at 1;
    unfold gets at 1, mbind at 1, M_bind at 1;
    set (name := join_dir dir (prefix +:+ os_tmp s (os_tick s))).
  all: assert (Hcase : (∃ e, mkdir (locate name s) name 448 s = (Err e, tick s)) ∨
    ∃ m, mkdir (locate name s) name 448 s = (Ok tt, set_files <[locate name s := Directory m]> (tick s)) ∧
      os_files s !! locate name s = None) by
    (unfold mkdir, sys; destruct (os_fault s (os_tick s)) as [[e k]|]; [left; by eexists|];
     destruct (parent_ok _ _) as [e|]; [left; by eexists|];
     change (os_files (tick s)) with (os_files s);
     destruct (os_files s !! locate name s) eqn:E; [left; by eexists|right; by eexists]).
  all: destruct Hcase as [[e He]|(m & Hm & Hn)];
    [rewrite (attempt_err _ _ _ _ _ He)|
     rewrite (attempt_ok _ _ _ _ _ Hm); intros [= <- <-]; exists (os_tick s); split; [done|];
     split; [done|]; split; [done|]; by exists m].
  all: assert (Hex : ∀ e' (r : outcome string) st,
    (r0 ← attempt (Stat dir); match r0 with
      | inl e0 => throw (if IsNotExist e0 then e0 else e') | inr _ => throw e' end) (tick s) = (r, st) →
    ∀ p, r ≠ Ok p) by
    (intros e' r st; unfold attempt, mbind, M_bind; destruct (Stat dir (tick s)) as [[] ?];
     by intros [= <- <-]).
  - destruct (IsExist e); [done|]. destruct (IsNotExist e); [|done]. intros E. by destruct (Hex e _ _ E p).
  - destruct (IsExist e).
    + intros E. apply IH in E as (t & Hp). by exists t.
    + destruct (IsNotExist e); [|done]. intros E. by destruct (Hex e _ _ E p).
Qed.

Lemma TempDir_ok dir prefix s p s' :
  dir ≠ "" → TempDir dir prefix s = (Ok p, s') →
  ∃ t, p = join_dir dir (prefix +:+ os_tmp s t) ∧ same_process s s' ∧
    os_files s !! locate p s = None ∧
    ∃ m, os_files s' = <[locate p s := Directory m]> (os_files s).
Proof.
  intros Hd. unfold TempDir. rewrite bool_decide_eq_false_2 by done.
  rewrite (bind_ok _ _ s dir s) by done. apply temp_try_ok.
Qed.

Lemma process_temp_try n dir prefix : keeps same_process (temp_try n dir prefix).
Proof. induction n as [|n IH]; cbn [temp_try]; process_tac. Qed.

Lemma process_TempDir dir prefix : keeps same_process (TempDir dir prefix).
Proof. unfold TempDir, default_temp. pose proof process_temp_try. process_tac. Qed.
#[export] Hint Resolve process_TempDir : process.

(** *** Making directories *)

(** An entry that stays a directory, or a file, keeps the tree well formed. *)
Lemma fs_wf_update fs k i j : fs_wf fs → fs !! k = Some i → IsDir i = IsDir j → fs_wf (<[k := j]> fs).
Proof.
  intros [[mr Hr] Hp] Hk Hij.
  assert (∀ p m, fs !! p = Some (Directory m) → ∃ m', <[k := j]> fs !! p = Some (Directory m')) as Hdir.
  { intros p m Hm. destruct (decide (k = p)) as [->|Hne].
    - rewrite lookup_insert_eq. rewrite Hm in Hk. injection Hk as <-. destruct j; try done. by eexists.
    - rewrite lookup_insert_ne by done. by exists m. }
  split; [by eapply Hdir|]. intros p x i' Hi. destruct (decide (k = p ++ [x])) as [->|Hne].
  - destruct (Hp p x i Hk) as [m Hm]. by eapply Hdir.
  - rewrite lookup_insert_ne in Hi by done. destruct (Hp p x i' Hi) as [m Hm]. by eapply Hdir.
Qed.

Lemma parent_ok_dir fs d x m : fs_wf fs → fs !! d = Some (Directory m) → parent_ok fs (d ++ [x]) = inr tt.
Proof.
  intros Hwf Hd. unfold parent_ok. rewrite removelast_last.
  by rewrite (walk_found fs [] d (Directory m)) by done.
Qed.

Lemma mkdir_all_last dir rest x p perm s m :
  no_fault s → fs_wf (os_files s) → os_files s !! (dir ++ rest) = Some (Directory m) →
  os_files s !! (dir ++ rest ++ [x]) = None →
  mkdir_all dir (rest ++ [x]) p perm s =
    (Ok tt, set_files <[dir ++ rest ++ [x] := Directory (new_meta perm (tick s))]> (tick s)).
Proof.
  intros Hf Hwf. revert dir. induction rest as [|y rest IH]; intros dir Hd Hn; cbn [app mkdir_all]; cbv zeta;
    (rewrite (bind_ok _ _ _ _ s) by done).
  - cbn [app] in *. rewrite app_nil_r in Hd. rewrite Hn. unfold mkdir, sys.
    unfold mbind at 1, M_bind at 1. rewrite Hf. change (os_files (tick s)) with (os_files s).
    rewrite (parent_ok_dir _ _ _ _ Hwf Hd), Hn. done.
  - assert (∃ m', os_files s !! (dir ++ [y]) = Some (Directory m')) as [m' Hm'].
    { destruct rest as [|z rest]; [by exists m|].
      apply (wf_prefix _ _ (z :: rest) (Directory m) Hwf); [|done]. by rewrite <- app_assoc. }
    rewrite Hm'. rewrite IH; rewrite <- !app_assoc; [done|exact Hd|exact Hn].
Qed.

(** *** The names of a directory *)

Lemma children_name_inj src dir x i j : (x, i) ∈ children src dir → (x, j) ∈ children src dir → i = j.
Proof. rewrite !elem_of_children. congruence. Qed.

Lemma NoDup_children_names src dir : NoDup (children src dir).*1.
Proof.
  pose proof (NoDup_children src dir) as Hn.
  assert (∀ x i j, (x, i) ∈ children src dir → (x, j) ∈ children src dir → i = j) as Hinj
    by (intros; by eapply children_name_inj).
  induction Hn as [|[x i] l Hx Hn IH]; cbn [fmap list_fmap fst]; constructor.
  - intros ([y j] & -> & Hy)%list_elem_of_fmap. cbn [fst] in *. apply Hx.
    rewrite (Hinj y i j); [done|apply list_elem_of_here|by apply list_elem_of_further].
  - apply IH. intros y a b Ha Hb. apply (Hinj y); by apply list_elem_of_further.
Qed.

(** *** What a call looks at

    Without failures, a call that only looks gives the same on the same tree. *)
Definition looks {A} (m : M OS A) : Prop :=
  ∀ s s', no_fault s → same_tree s s' → (m s').1 = (m s).1.

Create HintDb looks.

Lemma no_fault_same s s' : same_process s s' → no_fault s → no_fault s'.
Proof. intros (_ & _ & _ & E & _) Hf t. rewrite E. apply Hf. Qed.

Lemma looks_ret {A} (a : A) : looks (mret a).
Proof. by intros s s'. Qed.

Lemma looks_throw {A} e : looks (throw e : M OS A).
Proof. by intros s s'. Qed.

Lemma looks_lift {A} (r : go_error + A) : looks (lift r).
Proof. by destruct r; intros s s'. Qed.

Lemma looks_gets {A} (f : OS → A) : (∀ s s', same_tree s s' → f s' = f s) → looks (gets f).
Proof. intros Hf s s' _ Hs. unfold gets. cbn. by rewrite (Hf s s'). Qed.

Lemma looks_bind {A B} (m : M OS A) (f : A → M OS B) :
  keeps same_tree m → looks m → (∀ a, looks (f a)) → looks (m ≫= f).
Proof.
  intros Hk Hm Hf s s' Hn Hs. specialize (Hm s s' Hn Hs). pose proof (Hk s) as K1. pose proof (Hk s') as K2.
  unfold mbind, M_bind. destruct (m s) as [r1 s1], (m s') as [r2 s2]. cbn [fst snd] in *. subst r2.
  destruct r1 as [a|e|t|]; [|done..]. apply Hf; [by eapply no_fault_same; [apply K1|]|].
  destruct K1 as [P1 F1], K2 as [P2 F2], Hs as [P F]. split; [|congruence].
  destruct P1 as (?&?&?&?&?), P2 as (?&?&?&?&?), P as (?&?&?&?&?). repeat split; congruence.
Qed.

Lemma looks_attempt {A} (m : M OS A) : looks m → looks (attempt m).
Proof.
  intros Hm s s' Hn Hs. specialize (Hm s s' Hn Hs). unfold attempt.
  destruct (m s) as [r1 s1], (m s') as [r2 s2]. cbn [fst] in Hm. subst r2. by destruct r1.
Qed.

Lemma looks_wrap_err {A} f (m : M OS A) : looks m → looks (wrap_err f m).
Proof.
  intros Hm s s' Hn Hs. specialize (Hm s s' Hn Hs). unfold wrap_err.
  destruct (m s) as [r1 s1], (m s') as [r2 s2]. cbn [fst] in Hm. subst r2. by destruct r1.
Qed.

Lemma find_inode_same p s s' : same_tree s s' → find_inode p s' = find_inode p s.
Proof. intros [Hp Hf]. unfold find_inode. by rewrite Hf, (locate_same _ _ _ Hp). Qed.

Lemma looks_stat_as op p : looks (stat_as op p).
Proof.
  intros s s' Hn Hs. unfold stat_as, sys. rewrite Hn, (no_fault_same s s' (proj1 Hs) Hn).
  change (find_inode p (tick s')) with (find_inode p s'). change (find_inode p (tick s)) with (find_inode p s).
  rewrite (find_inode_same _ _ _ Hs).
  by destruct (find_inode p s).
Qed.

Lemma looks_Stat p : looks (Stat p).
Proof. apply looks_stat_as. Qed.

Lemma looks_Open p : looks (Open p).
Proof.
  intros s s' Hn Hs. unfold Open, sys. rewrite Hn, (no_fault_same s s' (proj1 Hs) Hn).
  change (find_inode p (tick s')) with (find_inode p s'). change (find_inode p (tick s)) with (find_inode p s).
  rewrite (find_inode_same _ _ _ Hs).
  change (locate p (tick s')) with (locate p s'). change (locate p (tick s)) with (locate p s).
  rewrite (locate_same _ _ _ (proj1 Hs)).
  by destruct (find_inode p s) as [e|[]].
Qed.

Lemma looks_ReadHandle h p : looks (ReadHandle h p).
Proof.
  intros s s' Hn Hs. unfold ReadHandle, sys. rewrite Hn, (no_fault_same s s' (proj1 Hs) Hn).
  cbn [tick os_files]. rewrite (proj2 Hs). by destruct (os_files s !! h) as [[]|].
Qed.

#[export] Hint Resolve looks_Stat looks_Open looks_ReadHandle : looks.

Ltac looks_tac :=
  repeat match goal with
  | |- looks (_ ≫= _) => apply looks_bind; [solve [keeps_tac]| |intro]
  | |- looks (mret _) => apply looks_ret
  | |- looks (throw _) => apply looks_throw
  | |- looks (lift _) => apply looks_lift
  | |- looks (attempt _) => apply looks_attempt
  | |- looks (wrap_err _ _) => apply looks_wrap_err
  | |- looks (match ?x with _ => _ end) => destruct x
  | |- looks _ => solve [eauto with looks]
  end.

Lemma looks_ReadFile p : looks (ReadFile p).
Proof. unfold ReadFile. looks_tac. Qed.

Lemma looks_Getenv v : looks (Getenv v).
Proof. apply looks_gets. intros s s' [(_ & _ & -> & _) _]. done. Qed.

#[export] Hint Resolve looks_ReadFile looks_Getenv : looks.

(** *** Names that are missing, and files and directories made new *)

Lemma walk_no_entry fs dir rest x m :
  fs_wf fs → fs !! (dir ++ rest) = Some (Directory m) → fs !! (dir ++ rest ++ [x]) = None →
  walk fs dir (rest ++ [x]) = inl ENOENT.
Proof.
  intros Hwf. revert dir. induction rest as [|y rest IH]; intros dir Hd Hn; cbn [app walk] in *.
  - rewrite app_nil_r in Hd. by rewrite Hd, Hn.
  - destruct (wf_prefix _ _ _ _ Hwf Hd) as [m' ->]; [done|].
    apply IH; rewrite <- app_assoc; done.
Qed.

(** What is missing from a directory is reported as not existing. *)
Lemma find_inode_no_entry p d x s m :
  fs_wf (os_files s) → p ≠ "" → locate p s = d ++ [x] → os_files s !! d = Some (Directory m) →
  os_files s !! (d ++ [x]) = None → find_inode p s = inl ENOENT.
Proof.
  intros Hwf Hp Hl Hd Hn. unfold find_inode. rewrite bool_decide_eq_false_2, Hl by done.
  by apply (walk_no_entry _ [] d x m).
Qed.

Lemma mkdir_all_app dir l1 l2 p perm s m :
  fs_wf (os_files s) → os_files s !! (dir ++ l1) = Some (Directory m) →
  mkdir_all dir (l1 ++ l2) p perm s = mkdir_all (dir ++ l1) l2 p perm s.
Proof.
  intros Hwf. revert dir. induction l1 as [|x l1 IH]; intros dir Hd; cbn [app mkdir_all].
  - by rewrite app_nil_r.
  - assert (∃ m', os_files s !! (dir ++ [x]) = Some (Directory m')) as [m' Hm'].
    { destruct l1 as [|y l1]; [by exists m|]. apply (wf_prefix _ _ (y :: l1) (Directory m) Hwf); [|done].
      by rewrite <- app_assoc. }
    cbv zeta. rewrite (bind_ok _ _ s (Some (Directory m')) s) by (unfold gets; by rewrite Hm').
    rewrite IH; rewrite <- ?app_assoc; done.
Qed.

Lemma mkdir_ok h p perm s :
  no_fault s → parent_ok (os_files s) h = inr tt → os_files s !! h = None →
  mkdir h p perm s = (Ok tt, set_files <[h := Directory (new_meta perm (tick s))]> (tick s)).
Proof.
  intros Hf Hp Hn. unfold mkdir, sys. rewrite Hf. change (os_files (tick s)) with (os_files s). by rewrite Hp, Hn.
Qed.

(** Two directories, one in the other. *)
Lemma MkdirAll_two p perm d x y s m :
  no_fault s → fs_wf (os_files s) → locate p s = d ++ [x; y] → os_files s !! d = Some (Directory m) →
  os_files s !! (d ++ [x]) = None → os_files s !! (d ++ [x; y]) = None →
  ∃ s' m1 m2, MkdirAll p perm s = (Ok tt, s') ∧ same_process s s' ∧
    os_files s' = <[d ++ [x; y] := Directory m2]> (<[d ++ [x] := Directory m1]> (os_files s)) ∧ fs_wf (os_files s').
Proof.
  intros Hf Hwf Hl Hd Hx Hy. unfold MkdirAll. rewrite (bind_ok _ _ s (locate p s) s), Hl by done.
  rewrite (mkdir_all_app [] d [x; y] p perm s m Hwf Hd). cbn [app mkdir_all]. cbv zeta.
  rewrite (bind_ok _ _ s None s) by (unfold gets; by rewrite Hx).
  rewrite (bind_ok _ _ _ _ _ (mkdir_ok _ p perm s Hf (parent_ok_dir _ _ _ _ Hwf Hd) Hx)).
  set (s1 := set_files _ (tick s)). assert (fs_wf (os_files s1)) as Hwf1 by (apply fs_wf_insert; [done|by eexists|done]).
  assert (os_files s1 !! (d ++ [x]) = Some (Directory (new_meta perm (tick s)))) as Hd1 by apply (lookup_insert_eq (os_files s)).
  assert (os_files s1 !! ((d ++ [x]) ++ [y]) = None) as Hy1.
  { unfold s1. cbn [set_files os_files tick]. rewrite <- app_assoc, lookup_insert_ne; [exact Hy|by intros [=]%(inj _)]. }
  pose proof (mkdir_all_last (d ++ [x]) [] y p perm s1 (new_meta perm (tick s)) Hf Hwf1) as E.
  rewrite app_nil_r in E.
  eexists _, (new_meta perm (tick s)), _. split; [exact (E Hd1 Hy1)|]. split; [done|]. cbn [app]. rewrite <- app_assoc. split; [done|].
  cbn [set_files os_files tick]. rewrite app_assoc. apply fs_wf_insert; [done|by eexists|done].
Qed.

(** A new file with its content. *)
Lemma WriteFile_new p data perm d x s m :
  no_fault s → fs_wf (os_files s) → p ≠ "" → locate p s = d ++ [x] → os_files s !! d = Some (Directory m) →
  os_files s !! (d ++ [x]) = None →
  ∃ s' m', WriteFile p data perm s = (Ok tt, s') ∧ same_process s s' ∧ i_mode m' = Z.ldiff perm (os_umask s) ∧
    os_files s' = <[d ++ [x] := File m' data]> (os_files s).
Proof.
  intros Hf Hwf Hp Hl Hd Hn.
  destruct (OpenTrunc_ok p perm s Hf Hwf Hp) as (m1 & Eo & Hm1 & Hwf1);
    [rewrite Hl; by eapply parent_ok_dir|rewrite Hl; by left|]. rewrite Hl in *. rewrite Hn in Hm1.
  unfold WriteFile. rewrite (bind_ok _ _ _ _ _ Eo). set (s1 := set_files _ (tick s)) in *.
  assert (os_files s1 !! (d ++ [x]) = Some (File m1 "")) as Hk by apply (lookup_insert_eq (os_files s)).
  rewrite (attempt_ok _ _ _ _ _ (WriteHandle_ok _ p data s1 m1 "" Hf Hk)).
  rewrite (attempt_ok _ _ _ _ _ (CloseHandle_ok _ p (set_files _ (tick s1)) Hf)).
  eexists _, _. split; [done|]. split; [done|]. split; [|cbn; by rewrite insert_insert_eq]. exact Hm1.
Qed.
