(* ===== verification/FileTransfer.v ===== *)
(** * The file server of the shared volume

    pkg/filetransfer/handler.go: the HTTP handler through which the build and
    run pods download the chaincode and upload its build output. net/http is
    modelled as far as the handler uses it: the Authorization header
    (BasicAuth), the response writer (the first status written counts), and
    ServeFile for requests without conditional or range headers, whose
    guess of a content type for other extensions is left out. *)
From S2P Require Import Prelude GoStrings GoPath OsModel Base64.

(** ** net/http *)

Record request := mkRequest {
  rq_Method : string;
  rq_Path : string;                     (* req.URL.Path *)
  rq_Authorization : option string;
  rq_Body : string;
  rq_BodyErr : option go_error }.       (* the error that ends reading the body *)

(** What was written: text, or the listing of a directory. *)
Inductive body := Text (s : string) | Listing (names : list string).

Record response := mkResponse {
  rs_status : option Z;
  rs_ContentType : option string;
  rs_Location : option string;
  rs_body : list body }.

Definition no_response : response := mkResponse None None None [].

(** The handler's world: the operating system, the response, stdout. *)
Record http_state := mkHttp {
  hs_os : OS; hs_w : response; hs_stdout : list string }.

Definition os_lens : lens http_state OS :=
  Lens hs_os (λ o h, mkHttp o (hs_w h) (hs_stdout h)).

Definition set_response (f : response → response) (h : http_state) : http_state :=
  mkHttp (hs_os h) (f (hs_w h)) (hs_stdout h).

(** w.WriteHeader: only the first call has an effect. *)
Definition WriteHeader (code : Z) : M http_state unit :=
  modify (set_response (λ r,
    mkResponse (match rs_status r with None => Some code | s => s end)
      (rs_ContentType r) (rs_Location r) (rs_body r))).

(** w.Write: the status is 200 unless one was written before. *)
Definition Write (b : body) : M http_state unit :=
  WriteHeader 200 ;;
  modify (set_response (λ r,
    mkResponse (rs_status r) (rs_ContentType r) (rs_Location r) (rs_body r ++ [b]))).

Definition SetContentType (ct : string) : M http_state unit :=
  modify (set_response (λ r, mkResponse (rs_status r) (Some ct) (rs_Location r) (rs_body r))).

Definition Println (s : string) : M http_state unit :=
  modify (λ h, mkHttp (hs_os h) (hs_w h) (hs_stdout h ++ [s +:+ NL])).

(** *** Basic authentication *)

Definition BasicAuth (r : request) : option (string * string) :=
  auth ← rq_Authorization r;
  if bool_decide (ToLower (take_bytes 6 auth) = "basic ")
  then c ← DecodeString (drop_bytes 6 auth); cut ":"%char c
  else None.

(** req.SetBasicAuth, as a client does it. *)
Definition basic_credentials (username password : string) : string :=
  "Basic " +:+ EncodeToString (username +:+ ":" +:+ password).

(** *** ServeFile *)

Definition localRedirect (location : string) : M http_state unit :=
  modify (set_response (λ r,
    mkResponse (rs_status r) (rs_ContentType r) (Some location) (rs_body r))) ;;
  WriteHeader 301.

(** http.toHTTPError; a path through something that is not a directory counts
    as not existing (http.mapOpenError). *)
Definition toHTTPError (e : go_error) : Z :=
  match e with
  | PathError _ _ ENOENT | PathError _ _ ENOTDIR => 404
  | PathError _ _ EACCES => 403
  | _ => 500
  end%Z.

(** A ".." between slashes or backslashes. *)
Definition url_containsDotDot (p : string) : bool :=
  Contains p ".." &&
  bool_decide (".." ∈ FieldsFunc (λ a, bool_decide (a = slash) ||
                                       bool_decide (a = ascii_of_nat 92)) p).

(** http.Error. *)
Definition http_Error (text : string) (code : Z) : M http_state unit :=
  SetContentType "text/plain; charset=utf-8" ;;
  WriteHeader code ;;
  Write (Text (text +:+ NL)).

Definition serve_error (e : go_error) : M http_state unit :=
  let code := toHTTPError e in
  http_Error (if bool_decide (code = 404%Z) then "404 page not found"
              else if bool_decide (code = 403%Z) then "403 Forbidden"
              else "500 Internal Server Error") code.

(** The content of an open file, or the listing of a directory; when reading
    fails the header has been sent and the body stays behind. *)
Definition serve_inode (h : fpath) (i : inode) (name : string) : M http_state unit :=
  if IsDir i then
    l ← gets (λ s, children (os_files (hs_os s)) h);
    Write (Listing (fst <$> l))
  else
    c ← attempt (zoom os_lens (ReadHandle h name));
    match c with
    | inl e => WriteHeader 200
    | inr c => Write (Text c)
    end.

(** The index page of a directory, or the directory itself. *)
Definition serve_dir (h : fpath) (i : inode) (name : string) : M http_state unit :=
  let index := PathJoin [name; "index.html"] in
  r ← attempt (zoom os_lens (hi ← Open index; ii ← Fstat hi index; mret (hi, ii)));
  match r with
  | inr (hi, ii) => serve_inode hi ii index
  | inl _ => serve_inode h i name
  end.

Definition ServeFile (rq : request) (name : string) : M http_state unit :=
  if url_containsDotDot (rq_Path rq) then http_Error "invalid URL path" 400
  else if HasSuffix (rq_Path rq) "/index.html" then localRedirect "./"
  else
    r ← attempt (zoom os_lens (h ← Open name; i ← Fstat h name; mret (h, i)));
    match r with
    | inl e => serve_error e
    | inr (h, i) =>
        if IsDir i then
          if HasSuffix (rq_Path rq) SLASH then serve_dir h i name
          else localRedirect (Base (rq_Path rq) +:+ SLASH)
        else serve_inode h i name
    end.

(** ** The handler *)

Record Handler := mkHandler { h_Root : string; h_Username : string; h_Password : string }.

Definition contentType (filename : string) : option string :=
  let ext := ToLower (Ext filename) in
  if bool_decide (ext = ".tar") then Some "application/x-tar"
  else if bool_decide (ext = ".json") then Some "application/json; charset=utf-8"
  else None.

Definition error_status (e : go_error) : Z :=
  if IsExist e then 409
  else if IsNotExist e then 404
  else if IsPermission e then 403
  else 400.

Definition sendErrorResponse (e : go_error) : M http_state unit :=
  WriteHeader (error_status e).

(** io.Copy(output, req.Body). *)
Definition copy_body (h : fpath) (name : string) (rq : request) : M http_state unit :=
  zoom os_lens (WriteHandle h name (rq_Body rq)) ;;
  match rq_BodyErr rq with Some e => throw e | None => mret tt end.

(** The PUT branch; the file is closed on every return after it was opened. *)
Definition serve_put (rq : request) (location : string) : M http_state unit :=
  let name := Clean location in
  output ← attempt (zoom os_lens (OpenExcl name 438));
  match output with
  | inl e => sendErrorResponse e
  | inr h =>
      deferring (zoom os_lens (CloseHandle h name))
        (r ← attempt (copy_body h name rq);
         match r with
         | inl e => sendErrorResponse e
         | inr _ => WriteHeader 201
         end)
  end.

(** The check of the credentials, as the code has it. *)
Definition auth_rejects (h : Handler) (username password : string) : bool :=
  negb (bool_decide (username = h_Username h)) && negb (bool_decide (password = h_Password h)).

Definition ServeHTTP (h : Handler) (rq : request) : M http_state unit :=
  let upath := Clean (rq_Path rq) in
  if bool_decide (upath = "/healthz") then
    WriteHeader 200 ;; Write (Text "Chaincode Launcher running")
  else match BasicAuth rq with
  | None => Println "Error parsing basic auth" ;; WriteHeader 401
  | Some (username, password) =>
      if auth_rejects h username password then
        Println "Username or password are not correct" ;; WriteHeader 401
      else if Contains upath ".." || Contains upath (String (ascii_of_nat 0) "") then
        WriteHeader 400
      else
        let location := PathJoin [h_Root h; upath] in
        if bool_decide (rq_Method rq = "GET") then
          match contentType location with
          | Some ct => SetContentType ct
          | None => mret tt
          end ;;
          ServeFile rq location
        else if bool_decide (rq_Method rq = "PUT") then serve_put rq location
        else
          WriteHeader 400 ;; Write (Text ("unsupported method: " +:+ rq_Method rq))
  end.
