(* ===== verification/FileTransferFacts.v ===== *)
(** * The file server: authentication, confinement, uploads and downloads

    What the handler of [FileTransfer] answers on each branch, that it only
    ever adds entries below its root and never changes one that is there, and
    that a download returns what was uploaded. *)
From S2P Require Import Prelude GoStrings GoPath OsModel Base64 FileTransfer.

(** ** What the parts of the handler leave alone *)

Definition on_os (Q : relation OS) : relation http_state :=
  λ h h', Q (hs_os h) (hs_os h').

#[export] Instance on_os_pre Q `{!PreOrder Q} : PreOrder (on_os Q).
Proof. split; [by intros h; unfold on_os|]. intros h1 h2 h3. unfold on_os. apply transitivity. Qed.

(** The status of the response does not become k. *)
Definition never (k : Z) (h h' : http_state) : Prop :=
  rs_status (hs_w h) ≠ Some k → rs_status (hs_w h') ≠ Some k.

#[export] Instance never_pre k : PreOrder (never k).
Proof. split; unfold never; [by intros h|]. intros h1 h2 h3 H1 H2 H. auto. Qed.

(** The response stays as it is. *)
Definition same_response (h h' : http_state) : Prop := hs_w h' = hs_w h.

Lemma keeps_os_lens {A} (Q : relation OS) (m : M OS A) :
  keeps Q m → keeps (on_os Q) (zoom os_lens m).
Proof. apply keeps_zoom. intros s t Ht. exact Ht. Qed.

Lemma keeps_os_response {A} (m : M OS A) : keeps same_response (zoom os_lens m).
Proof. intros s. unfold zoom. destruct (m _). by cbv. Qed.

Lemma keeps_os_never {A} k (m : M OS A) : keeps (never k) (zoom os_lens m).
Proof. intros s. unfold zoom. destruct (m _). by cbv. Qed.

Section response.
Context (Q : relation OS) `{!PreOrder Q}.

Lemma keeps_set_response f : keeps (on_os Q) (modify (set_response f)).
Proof. intros s. unfold on_os. simpl. reflexivity. Qed.

Lemma keeps_WriteHeader c : keeps (on_os Q) (WriteHeader c).
Proof. apply keeps_set_response. Qed.

Lemma keeps_Write b : keeps (on_os Q) (Write b).
Proof.
  apply keeps_bind; [apply _|apply keeps_WriteHeader|]. intros _. apply keeps_set_response.
Qed.

Lemma keeps_SetContentType c : keeps (on_os Q) (SetContentType c).
Proof. apply keeps_set_response. Qed.

Lemma keeps_Println t : keeps (on_os Q) (Println t).
Proof. intros s. unfold on_os. simpl. reflexivity. Qed.
End response.

#[export] Hint Resolve keeps_os_lens keeps_os_never keeps_WriteHeader keeps_Write
  keeps_SetContentType keeps_Println : keeps.

Lemma never_WriteHeader k c : c ≠ k → keeps (never k) (WriteHeader c).
Proof. intros Hc s Hs. simpl. destruct (rs_status (hs_w s)); congruence. Qed.

Lemma never_Write k b : 200%Z ≠ k → keeps (never k) (Write b).
Proof. intros Hk s Hs. simpl. destruct (rs_status (hs_w s)); congruence. Qed.

Lemma never_SetContentType k c : keeps (never k) (SetContentType c).
Proof. by intros s Hs. Qed.

(** The statuses of errors. *)
Lemma error_status_ne e k : k = 401%Z ∨ k = 201%Z → error_status e ≠ k.
Proof. intros []; subst k; unfold error_status; by repeat case_match. Qed.

Lemma toHTTPError_ne e k : k = 401%Z ∨ k = 201%Z → toHTTPError e ≠ k.
Proof. intros []; subst k; unfold toHTTPError; by repeat case_match. Qed.

#[export] Hint Resolve never_WriteHeader never_Write never_SetContentType
  error_status_ne toHTTPError_ne : keeps.
#[export] Hint Extern 4 (_ ≠ _) =>
  match goal with H : _ = _ ∨ _ = _ |- _ => destruct H; subst; done end : keeps.
#[export] Hint Extern 5 (_ ≠ 401%Z) => done : keeps.

Lemma http_Error_status t c st :
  rs_status (hs_w st) = None → rs_status (hs_w (http_Error t c st).2) = Some c.
Proof.
  intros H. unfold http_Error, SetContentType, Write, WriteHeader, modify, mbind, M_bind, set_response.
  simpl. by rewrite H.
Qed.

(** Serving a file changes nothing. *)
Lemma serve_inode_same h i name : keeps (on_os same_tree) (serve_inode h i name).
Proof. unfold serve_inode. keeps_tac. Qed.

Lemma localRedirect_same l : keeps (on_os same_tree) (localRedirect l).
Proof. unfold localRedirect. keeps_tac. apply keeps_set_response, _. Qed.

Lemma Open_Fstat_same name :
  keeps same_tree (h ← Open name; i ← Fstat h name; mret (h, i)).
Proof. keeps_tac. Qed.

#[export] Hint Resolve serve_inode_same localRedirect_same Open_Fstat_same : keeps.

Lemma http_Error_same t c : keeps (on_os same_tree) (http_Error t c).
Proof. unfold http_Error. keeps_tac. Qed.

#[export] Hint Resolve http_Error_same : keeps.

Lemma ServeFile_same rq name : keeps (on_os same_tree) (ServeFile rq name).
Proof. unfold ServeFile, serve_error, serve_dir. keeps_tac. Qed.

Section never.
Context (k : Z) (Hk : k = 401%Z ∨ k = 201%Z).

Lemma never_http_Error t c : c ≠ k → keeps (never k) (http_Error t c).
Proof using Hk. intros Hc. unfold http_Error. keeps_tac. Qed.

Lemma never_serve_inode h i name : keeps (never k) (serve_inode h i name).
Proof using Hk. unfold serve_inode. keeps_tac. Qed.

Lemma never_localRedirect l : keeps (never k) (localRedirect l).
Proof using Hk. unfold localRedirect. keeps_tac. by intros s Hs. Qed.

#[local] Hint Resolve never_http_Error never_serve_inode never_localRedirect : keeps.

Lemma never_ServeFile rq name : keeps (never k) (ServeFile rq name).
Proof using Hk. unfold ServeFile, serve_error, serve_dir. keeps_tac. Qed.
End never.

Lemma never_serve_put rq location : keeps (never 401) (serve_put rq location).
Proof. unfold serve_put, sendErrorResponse, copy_body. keeps_tac. Qed.

#[export] Hint Resolve ServeFile_same never_ServeFile never_serve_put : keeps.

(** ** Uploads *)

Lemma no_dotdot_Contains p : Contains p ".." = false → no_dotdot p.
Proof.
  intros Hp Hin. destruct (Split_substring _ _ _ Hin) as (t & u & E).
  assert (Contains p ".." = true) by (apply Contains_spec; eauto). congruence.
Qed.

(** The tree F with a regular file at h that holds a part of data. *)
Definition uploaded (F : gmap fpath inode) (h : fpath) (data : string) (s : OS) : Prop :=
  ∃ m c u, data = c +:+ u ∧ os_files s = <[h := File m c]> F.

Lemma WriteHandle_uploaded h p data s F m :
  os_files s = <[h := File m ""]> F →
  uploaded F h data (WriteHandle h p data s).2 ∧
  ((WriteHandle h p data s).1 = Ok tt →
   ∃ m', os_files (WriteHandle h p data s).2 = <[h := File m' data]> F).
Proof.
  intros HF.
  assert (∀ f, os_files (set_content h f (tick s)) =
    <[h := File (mkMeta (i_mode m) (i_atime m) (clock (tick s))) (f "")]> F) as Hset.
  { intros f. unfold set_content. change (os_files (tick s)) with (os_files s).
    rewrite HF, lookup_insert_eq. cbn [set_files os_files]. change (os_files (tick s)) with (os_files s).
    by rewrite HF, insert_insert_eq. }
  unfold WriteHandle. destruct (os_fault s (os_tick s)) as [[e n]|]; cbn [fst snd].
  - split; [|done]. eexists _, _, (drop_bytes n data). split; [|apply Hset].
    simpl. by rewrite take_drop_bytes.
  - split; [|intros _; eexists; apply Hset].
    eexists _, _, "". split; [|apply Hset]. simpl. by rewrite sapp_nil_r.
Qed.

Lemma keeps_same_tree_uploaded {A} (m : M OS A) F h data s :
  keeps same_tree m → uploaded F h data s → uploaded F h data (m s).2.
Proof.
  intros Hm (mt & c & u & E & HF). destruct (Hm s) as [_ Hs]. exists mt, c, u. by rewrite Hs.
Qed.

Lemma not_201_error_status e : error_status e ≠ 201%Z.
Proof. apply error_status_ne. by right. Qed.

(** io.Copy leaves a part of the body behind, all of it when it succeeds. *)
Lemma copy_body_uploaded h name rq s F m :
  os_files (hs_os s) = <[h := File m ""]> F →
  same_process (hs_os s) (hs_os (copy_body h name rq s).2) ∧
  hs_w (copy_body h name rq s).2 = hs_w s ∧
  uploaded F h (rq_Body rq) (hs_os (copy_body h name rq s).2) ∧
  ((copy_body h name rq s).1 = Ok tt →
   rq_BodyErr rq = None ∧
   ∃ m', os_files (hs_os (copy_body h name rq s).2) = <[h := File m' (rq_Body rq)]> F).
Proof.
  intros HF. destruct (WriteHandle_uploaded h name (rq_Body rq) _ F m HF) as [Hu Hok].
  pose proof (WriteHandle_only_at h name (rq_Body rq) (hs_os s)) as [Hp _].
  unfold copy_body, mbind, M_bind, zoom. change (view os_lens s) with (hs_os s).
  destruct (WriteHandle _ _ _ _) as [[[]|e|p|] o]; cbn [fst snd] in *; [|done..].
  destruct (rq_BodyErr rq); [done|]. split; [done|]. split; [done|]. split; [done|].
  intros _. split; [done|by apply Hok].
Qed.

(** Closing never panics, nor does it touch the response. *)
Lemma Close_zoom_ends h p (s : http_state) :
  ∃ r, (zoom os_lens (CloseHandle h p) s).1 = r ∧ (∀ t, r ≠ Panic t) ∧ r ≠ Blocked.
Proof.
  destruct (CloseHandle_ends h p (hs_os s)) as (r & E & H). exists r. split; [|done].
  unfold zoom. change (view os_lens s) with (hs_os s). by destruct (CloseHandle h p (hs_os s)).
Qed.

Lemma Close_zoom_same h p (s : http_state) :
  same_tree (hs_os s) (hs_os (zoom os_lens (CloseHandle h p) s).2) ∧
  hs_w (zoom os_lens (CloseHandle h p) s).2 = hs_w s.
Proof.
  pose proof (keeps_CloseHandle h p (hs_os s)) as Hc.
  unfold zoom. change (view os_lens s) with (hs_os s). by destruct (CloseHandle h p (hs_os s)).
Qed.

(** Copying the body never panics. *)
Lemma copy_body_ends h name rq s :
  (∃ s', copy_body h name rq s = (Ok tt, s')) ∨ (∃ e s', copy_body h name rq s = (Err e, s')).
Proof.
  unfold copy_body, mbind, M_bind, zoom, WriteHandle.
  destruct (os_fault _ _) as [[e n]|]; [right; by eexists _, _|].
  destruct (rq_BodyErr rq); [right|left]; by repeat eexists.
Qed.

Lemma serve_put_spec rq location h :
  let h' := (serve_put rq location h).2 in
  let k := locate (Clean location) (hs_os h) in
  let F := os_files (hs_os h) in
  same_process (hs_os h) (hs_os h') ∧
  (same_tree (hs_os h) (hs_os h') ∧
     (rs_status (hs_w h) = None → rs_status (hs_w h') ≠ Some 201%Z) ∨
   F !! k = None ∧ uploaded F k (rq_Body rq) (hs_os h') ∧
     (rs_status (hs_w h) = None → rs_status (hs_w h') = Some 201%Z →
      rq_BodyErr rq = None ∧ ∃ m, os_files (hs_os h') = <[k := File m (rq_Body rq)]> F)).
Proof.
  cbv zeta. unfold serve_put. cbv zeta.
  set (k := locate (Clean location) (hs_os h)) in *.
  set (F := os_files (hs_os h)) in *. set (name := Clean location) in *.
  destruct (OpenExcl_cases name 438 (hs_os h))
    as [(e & o & E & Hs)|(m & o & E & Hp & Hn & Ho)]; apply (zoom_eq os_lens _ h) in E.
  - rewrite (attempt_err _ _ _ _ _ E). split; [apply Hs|]. left. split; [apply Hs|].
    simpl. intros ->. pose proof (not_201_error_status e). congruence.
  - rewrite (attempt_ok _ _ _ _ _ E). set (h1 := put os_lens o h). fold k.
    destruct (copy_body_uploaded k name rq h1 F m Ho) as (Hcp & Hcw & Hcu & Hcok).
    change (hs_w h1) with (hs_w h) in Hcw.
    destruct (copy_body_ends k name rq h1) as [(h2 & E2)|(e & h2 & E2)];
      rewrite E2 in Hcp, Hcw, Hcu, Hcok; cbn [fst snd] in *;
      (erewrite deferring_eq;
        [|by rewrite ?(attempt_ok _ _ _ _ _ E2), ?(attempt_err _ _ _ _ _ E2)|done|apply Close_zoom_ends]);
      cbn [fst snd]; fold k; fold F;
      match goal with |- context [zoom os_lens _ ?h0] => set (h3 := h0) end;
      destruct (Close_zoom_same k name h3) as [[Hc1 Hc2] Hc3];
      (split; [by etrans; [exact Hp|etrans; [exact Hcp|exact Hc1]]|]);
      right; (split; [done|]);
      (split; [destruct Hcu as (m' & c & u & Eu & HF); exists m', c, u; by rewrite Hc2|]);
      rewrite Hc3, Hc2; simpl; rewrite Hcw; intros ->.
    + intros _. by apply Hcok.
    + intros [= Hst]. by pose proof (not_201_error_status e).
Qed.

(** ** The handler *)

(** The check the handler means to make is on both; the one it makes is this. *)
Definition authorised (h : Handler) (rq : request) : Prop :=
  ∃ u p, BasicAuth rq = Some (u, p) ∧ (u = h_Username h ∨ p = h_Password h).

Definition is_healthz (rq : request) : Prop := Clean (rq_Path rq) = "/healthz".

(** The entry a path names below the root of the server. *)
Definition place (h : Handler) (rq : request) (st : http_state) : fpath :=
  resolve (os_cwd (hs_os st)) (h_Root h) ++ elems (Clean (rq_Path rq)).

Lemma auth_rejects_spec h u p :
  auth_rejects h u p = true ↔ u ≠ h_Username h ∧ p ≠ h_Password h.
Proof.
  unfold auth_rejects. rewrite andb_true_iff, !negb_true_iff, !bool_decide_eq_false. done.
Qed.

Lemma auth_accepts h u p :
  u = h_Username h ∨ p = h_Password h → auth_rejects h u p = false.
Proof.
  intros H. apply not_true_iff_false. rewrite auth_rejects_spec. tauto.
Qed.

Lemma keeps_same_tree_eq {A} (m : M http_state A) st :
  keeps (on_os same_tree) m → same_tree (hs_os st) (hs_os (m st).2).
Proof. intros H. apply H. Qed.

(** Where an upload that passes the checks goes. *)
Lemma location_place h rq st :
  h_Root h ≠ "" → Contains (Clean (rq_Path rq)) ".." = false →
  locate (Clean (PathJoin [h_Root h; Clean (rq_Path rq)])) (hs_os st) = place h rq st ∧
  Forall normal (elems (Clean (rq_Path rq))).
Proof.
  intros HR Hd%no_dotdot_Contains. unfold locate. rewrite resolve_Clean.
  by split; [apply resolve_PathJoin_below|apply elems_normal].
Qed.

(** The branches of the handler. *)
Lemma ServeHTTP_put h rq st :
  ¬ is_healthz rq → authorised h rq → Contains (Clean (rq_Path rq)) ".." = false →
  Contains (Clean (rq_Path rq)) (String (ascii_of_nat 0) "") = false →
  rq_Method rq = "PUT" →
  ServeHTTP h rq st = serve_put rq (PathJoin [h_Root h; Clean (rq_Path rq)]) st.
Proof.
  intros Hh (u & p & Ha & Hup) Hd H0 Hm. unfold ServeHTTP.
  rewrite bool_decide_eq_false_2 by done. rewrite Ha, auth_accepts, Hd, H0, Hm by done. done.
Qed.

(** Everything else leaves the tree alone and does not answer 201. *)
Definition quiet_branch (st st' : http_state) : Prop :=
  on_os same_tree st st' ∧ never 201 st st'.

#[export] Instance quiet_branch_pre : PreOrder quiet_branch.
Proof.
  split; [by intros st|]. intros s1 s2 s3 [H1 H2] [H3 H4].
  split; [by etrans|]. by etrans.
Qed.

Lemma keeps_quiet {A} (m : M http_state A) :
  keeps (on_os same_tree) m → keeps (never 201) m → keeps quiet_branch m.
Proof. intros H1 H2 s. by split. Qed.

Lemma quiet_ServeFile rq name : keeps quiet_branch (ServeFile rq name).
Proof. apply keeps_quiet; [apply ServeFile_same|apply never_ServeFile; by right]. Qed.

Lemma quiet_WriteHeader c : c ≠ 201%Z → keeps quiet_branch (WriteHeader c).
Proof. intros. apply keeps_quiet; eauto with keeps typeclass_instances. Qed.

Lemma quiet_Write b : keeps quiet_branch (Write b).
Proof. apply keeps_quiet; [apply keeps_Write, _|by apply never_Write]. Qed.

Lemma quiet_SetContentType c : keeps quiet_branch (SetContentType c).
Proof. apply keeps_quiet; [apply keeps_SetContentType, _|apply never_SetContentType]. Qed.

Lemma quiet_Println t : keeps quiet_branch (Println t).
Proof. apply keeps_quiet; [apply keeps_Println, _|by intros s Hs]. Qed.

#[export] Hint Resolve quiet_ServeFile quiet_WriteHeader quiet_Write quiet_SetContentType
  quiet_Println : keeps.
#[export] Hint Extern 5 (_ ≠ 201%Z) => done : keeps.

Lemma ServeHTTP_quiet h rq :
  is_healthz rq ∨ ¬ authorised h rq ∨ Contains (Clean (rq_Path rq)) ".." = true ∨
  Contains (Clean (rq_Path rq)) (String (ascii_of_nat 0) "") = true ∨ rq_Method rq ≠ "PUT" →
  keeps quiet_branch (ServeHTTP h rq).
Proof.
  intros Hb. unfold ServeHTTP, is_healthz in *. case_bool_decide as Hz; [keeps_tac|].
  destruct (BasicAuth rq) as [[u p]|] eqn:Ha; [|keeps_tac].
  destruct (auth_rejects h u p) eqn:Hr; [keeps_tac|].
  destruct (_ || _) eqn:Hc; [keeps_tac|]. apply orb_false_iff in Hc as [Hc1 Hc2].
  case_bool_decide; [keeps_tac|]. case_bool_decide as Hm; [|keeps_tac].
  exfalso. destruct Hb as [|[Hb|[|[|]]]]; try congruence. apply Hb.
  exists u, p. split; [done|]. apply not_true_iff_false in Hr. rewrite auth_rejects_spec in Hr.
  destruct (decide (u = h_Username h)); [by left|]. destruct (decide (p = h_Password h)); [by right|tauto].
Qed.

#[export] Instance authorised_dec h rq : Decision (authorised h rq).
Proof.
  destruct (BasicAuth rq) as [[u p]|] eqn:E.
  - destruct (decide (u = h_Username h ∨ p = h_Password h)) as [H|H].
    + left. by exists u, p.
    + right. intros (u' & p' & E' & H'). congruence.
  - right. intros (u' & p' & E' & _). congruence.
Defined.

Lemma ServeHTTP_cases h rq st :
  quiet_branch st (ServeHTTP h rq st).2 ∨
  (¬ is_healthz rq ∧ authorised h rq ∧ Contains (Clean (rq_Path rq)) ".." = false ∧
   Contains (Clean (rq_Path rq)) (String (ascii_of_nat 0) "") = false ∧ rq_Method rq = "PUT").
Proof.
  destruct (decide (Clean (rq_Path rq) = "/healthz")); [left; apply ServeHTTP_quiet; tauto|].
  destruct (decide (authorised h rq)); [|left; apply ServeHTTP_quiet; tauto].
  destruct (Contains _ "..") eqn:?; [left; apply ServeHTTP_quiet; tauto|].
  destruct (Contains _ (String (ascii_of_nat 0) "")) eqn:?; [left; apply ServeHTTP_quiet; tauto|].
  destruct (decide (rq_Method rq = "PUT")); [right; by repeat (split; [done|])|left; apply ServeHTTP_quiet; by do 4 right].
Qed.

(** ** Confinement *)

(** C3: whatever the request and whatever fails on the way, the server never
    changes or removes an entry that is there: it leaves the tree as it is, or,
    for an authorised PUT, adds one regular file that holds a leading part of
    the body, at a place that was free and whose path goes down from the root
    of the server by proper names. *)
Theorem ServeHTTP_confined h rq st :
  h_Root h ≠ "" →
  let st' := (ServeHTTP h rq st).2 in
  same_process (hs_os st) (hs_os st') ∧
  (os_files (hs_os st') = os_files (hs_os st) ∨
   rq_Method rq = "PUT" ∧ authorised h rq ∧ Forall normal (elems (Clean (rq_Path rq))) ∧
   os_files (hs_os st) !! place h rq st = None ∧
   uploaded (os_files (hs_os st)) (place h rq st) (rq_Body rq) (hs_os st')).
Proof.
  intros HR. cbv zeta.
  destruct (ServeHTTP_cases h rq st) as [[[Hp Ht] _]|(Hz & Ha & Hd & H0 & Hm)].
  { split; [done|by left]. }
  rewrite ServeHTTP_put by done.
  destruct (location_place h rq st HR Hd) as [Hl Hn].
  pose proof (serve_put_spec rq (PathJoin [h_Root h; Clean (rq_Path rq)]) st) as Hspec.
  cbv zeta in Hspec. rewrite Hl in Hspec. destruct Hspec as [Hp [[[_ Ht] _]|(Hf & Hu & _)]]; split; try done; [by left|].
  right. done.
Qed.

(** 201 is answered only when the body was read to its end and the new file
    holds all of it. *)
Theorem ServeHTTP_created h rq st :
  h_Root h ≠ "" → rs_status (hs_w st) = None →
  let st' := (ServeHTTP h rq st).2 in
  rs_status (hs_w st') = Some 201%Z →
  rq_Method rq = "PUT" ∧ rq_BodyErr rq = None ∧
  os_files (hs_os st) !! place h rq st = None ∧
  ∃ m, os_files (hs_os st') = <[place h rq st := File m (rq_Body rq)]> (os_files (hs_os st)).
Proof.
  intros HR Hst. cbv zeta.
  destruct (ServeHTTP_cases h rq st) as [[_ Hnv]|(Hz & Ha & Hd & H0 & Hm)].
  { intros E. by destruct (Hnv ltac:(congruence)). }
  rewrite ServeHTTP_put by done.
  destruct (location_place h rq st HR Hd) as [Hl Hn].
  pose proof (serve_put_spec rq (PathJoin [h_Root h; Clean (rq_Path rq)]) st) as Hspec.
  cbv zeta in Hspec. rewrite Hl in Hspec. destruct Hspec as [Hp [[_ H]|(Hf & _ & Hok)]]; intros E; [by destruct (H Hst E)|].
  destruct (Hok Hst E). done.
Qed.

(** ** Authentication *)

Lemma ServeHTTP_never_401 h rq :
  is_healthz rq ∨ authorised h rq → keeps (never 401) (ServeHTTP h rq).
Proof.
  intros Hb. unfold ServeHTTP, is_healthz in *. case_bool_decide as Hz; [keeps_tac|].
  destruct Hb as [?|(u & p & Ha & Hup)]; [done|].
  rewrite Ha, auth_accepts by done. keeps_tac.
Qed.

Lemma ServeHTTP_rejects h rq st :
  rs_status (hs_w st) = None → ¬ is_healthz rq → ¬ authorised h rq →
  rs_status (hs_w (ServeHTTP h rq st).2) = Some 401%Z ∧
  rs_body (hs_w (ServeHTTP h rq st).2) = rs_body (hs_w st).
Proof.
  intros Hst Hz Ha. unfold ServeHTTP. rewrite bool_decide_eq_false_2 by done.
  destruct (BasicAuth rq) as [[u p]|] eqn:E; [|simpl; by rewrite Hst].
  assert (auth_rejects h u p = true) as ->.
  { apply auth_rejects_spec. split; intros Heq; apply Ha; exists u, p; by auto. }
  simpl. by rewrite Hst.
Qed.

(** C27: the server answers 401 exactly to the requests for anything but the
    health check whose header has neither the username nor the password of the
    server; it then sends nothing and leaves the tree alone. *)
Theorem ServeHTTP_unauthorised h rq st :
  rs_status (hs_w st) = None →
  let st' := (ServeHTTP h rq st).2 in
  (rs_status (hs_w st') = Some 401%Z ↔ ¬ is_healthz rq ∧ ¬ authorised h rq) ∧
  (rs_status (hs_w st') = Some 401%Z →
   rs_body (hs_w st') = rs_body (hs_w st) ∧ os_files (hs_os st') = os_files (hs_os st)).
Proof.
  intros Hst. cbv zeta.
  assert (rs_status (hs_w (ServeHTTP h rq st).2) = Some 401%Z →
          ¬ is_healthz rq ∧ ¬ authorised h rq) as Hfwd.
  { intros E. split; intros Hb;
      by destruct (ServeHTTP_never_401 h rq ltac:(tauto) st ltac:(congruence)). }
  split.
  - split; [done|]. intros [Hz Ha]. by apply ServeHTTP_rejects.
  - intros [Hz Ha]%Hfwd. split; [by apply ServeHTTP_rejects|].
    by destruct (ServeHTTP_quiet h rq (or_intror (or_introl Ha)) st) as [[_ ?] _].
Qed.

Lemma BasicAuth_credentials u p rq :
  has_byte ":"%char u = false → rq_Authorization rq = Some (basic_credentials u p) →
  BasicAuth rq = Some (u, p).
Proof.
  intros Hu Hr. unfold BasicAuth. rewrite Hr. simpl.
  rewrite DecodeString_EncodeToString. by apply cut_app.
Qed.

Definition with_credentials (rq : request) (u p : string) : request :=
  mkRequest (rq_Method rq) (rq_Path rq) (Some (basic_credentials u p)) (rq_Body rq) (rq_BodyErr rq).

(** Half of the credentials is enough: with the right username any password,
    and with the right password any username, gives exactly the answer and the
    effect that the credentials of the server give. *)
Theorem ServeHTTP_half_credentials h rq u p :
  has_byte ":"%char (h_Username h) = false → has_byte ":"%char u = false →
  u = h_Username h ∨ p = h_Password h →
  ServeHTTP h (with_credentials rq u p) =
  ServeHTTP h (with_credentials rq (h_Username h) (h_Password h)).
Proof.
  intros HU Hu Hup. unfold ServeHTTP.
  rewrite (BasicAuth_credentials u p) by done.
  rewrite (BasicAuth_credentials (h_Username h) (h_Password h)) by done.
  rewrite !auth_accepts by auto. done.
Qed.

(** ** Downloads *)

Definition get_request (h : Handler) (rq : request) : Prop :=
  ¬ is_healthz rq ∧ authorised h rq ∧ rq_Method rq = "GET" ∧
  Contains (rq_Path rq) ".." = false ∧
  Contains (Clean (rq_Path rq)) ".." = false ∧
  Contains (Clean (rq_Path rq)) (String (ascii_of_nat 0) "") = false ∧
  HasSuffix (rq_Path rq) "/index.html" = false.

Definition location (h : Handler) (rq : request) : string :=
  PathJoin [h_Root h; Clean (rq_Path rq)].

Lemma ServeHTTP_get h rq st :
  get_request h rq →
  ServeHTTP h rq st =
  (match contentType (location h rq) with Some ct => SetContentType ct | None => mret tt end ;;
   ServeFile rq (location h rq)) st.
Proof.
  intros (Hh & (u & p & Ha & Hup) & Hm & _ & Hd & H0 & _). unfold ServeHTTP.
  rewrite bool_decide_eq_false_2 by done. rewrite Ha, auth_accepts, Hd, H0, Hm by done. done.
Qed.

Lemma location_not_empty h rq : h_Root h ≠ "" → location h rq ≠ "".
Proof.
  intros HR. unfold location, PathJoin. cbn [drop_empty]. rewrite bool_decide_eq_false_2 by done.
  unfold Clean. destruct (rooted _); [done|]. by case_bool_decide.
Qed.

(** Opening and looking at a file that is there takes two ticks. *)
Lemma Open_Fstat_ok name (s : OS) i :
  no_fault s → fs_wf (os_files s) → name ≠ "" → (∀ m, i ≠ Special m) →
  os_files s !! locate name s = Some i →
  (h ← Open name; i ← Fstat h name; mret (h, i)) s = (Ok (locate name s, i), tick (tick s)).
Proof.
  intros Hf Hwf Hn Hs Hi.
  erewrite bind_ok by (by apply (Open_found _ _ i); [|apply find_inode_found|]).
  erewrite bind_ok by (by apply Fstat_ok). done.
Qed.

Lemma ServeFile_regular rq name st m c :
  no_fault (hs_os st) → fs_wf (os_files (hs_os st)) → name ≠ "" →
  Contains (rq_Path rq) ".." = false → HasSuffix (rq_Path rq) "/index.html" = false →
  os_files (hs_os st) !! locate name (hs_os st) = Some (File m c) →
  rs_status (hs_w st) = None →
  ∃ os', ServeFile rq name st =
    (Ok tt, mkHttp os' (mkResponse (Some 200%Z) (rs_ContentType (hs_w st)) (rs_Location (hs_w st))
                       (rs_body (hs_w st) ++ [Text c])) (hs_stdout st)).
Proof.
  intros Hf Hwf Hn Hd Hx Hi Hst. unfold ServeFile, url_containsDotDot. rewrite Hd, Hx. cbn [andb].
  pose proof (Open_Fstat_ok name (hs_os st) (File m c) Hf Hwf Hn ltac:(done) Hi) as E.
  apply (zoom_eq os_lens _ st) in E. rewrite (attempt_ok _ _ _ _ _ E). cbn [IsDir].
  unfold serve_inode. cbn [IsDir].
  assert (E2 : ReadHandle (locate name (hs_os st)) name (tick (tick (hs_os st))) =
    (Ok c, tick (tick (tick (hs_os st))))).
  { eapply (ReadHandle_ok _ _ (tick (tick (hs_os st)))); [exact Hf|exact Hi]. }
  apply (zoom_eq os_lens _ (put os_lens (tick (tick (hs_os st))) st)) in E2.
  rewrite (attempt_ok _ _ _ _ _ E2). eexists. unfold Write, WriteHeader, modify, mbind, M_bind. cbn.
  unfold set_response. cbn [hs_w hs_os hs_stdout rs_status rs_ContentType rs_Location rs_body]. by rewrite Hst.
Qed.

Lemma walk_error fs dir rest e : walk fs dir rest = inl e → e = ENOENT ∨ e = ENOTDIR.
Proof.
  revert dir. induction rest as [|x rest IH]; intros dir; simpl; repeat case_match;
    naive_solver.
Qed.

(** Opening what is not there ends in a 404. *)
Lemma ServeFile_missing rq name st :
  no_fault (hs_os st) → fs_wf (os_files (hs_os st)) → name ≠ "" →
  Contains (rq_Path rq) ".." = false → HasSuffix (rq_Path rq) "/index.html" = false →
  os_files (hs_os st) !! locate name (hs_os st) = None →
  rs_status (hs_w st) = None →
  rs_status (hs_w (ServeFile rq name st).2) = Some 404%Z.
Proof.
  intros Hf Hwf Hn Hd Hx Hi Hst. unfold ServeFile, url_containsDotDot. rewrite Hd, Hx. cbn [andb].
  destruct (walk_missing (os_files (hs_os st)) [] _ Hwf Hi) as [e He].
  assert (toHTTPError (PathError "open" name e) = 404%Z) as Hcode.
  { by destruct (walk_error _ _ _ _ He) as [->| ->]. }
  assert (E : (h ← Open name; i ← Fstat h name; mret (h, i)) (hs_os st) =
    (Err (PathError "open" name e), tick (hs_os st))).
  { apply bind_err, Open_missing; [done|]. unfold find_inode.
    by rewrite bool_decide_eq_false_2. }
  apply (zoom_eq os_lens _ st) in E. rewrite (attempt_err _ _ _ _ _ E).
  unfold serve_error. rewrite Hcode. by apply http_Error_status.
Qed.

(** The state after the content type has been set. *)
Definition typed (h : Handler) (rq : request) (st : http_state) : http_state :=
  match contentType (location h rq) with
  | Some ct => (SetContentType ct st).2
  | None => st
  end.

Lemma ServeHTTP_get_typed h rq st :
  get_request h rq → hs_w st = no_response →
  ServeHTTP h rq st = ServeFile rq (location h rq) (typed h rq st) ∧
  hs_os (typed h rq st) = hs_os st ∧
  hs_w (typed h rq st) = mkResponse None (contentType (location h rq)) None [].
Proof.
  intros Hg Hw. rewrite ServeHTTP_get by done. unfold typed.
  destruct (contentType _); simpl; by rewrite Hw.
Qed.

Lemma location_get h rq st :
  h_Root h ≠ "" → get_request h rq → locate (location h rq) (hs_os st) = place h rq st.
Proof.
  intros HR (_ & _ & _ & _ & Hd & _). rewrite <- (proj1 (location_place h rq st HR Hd)).
  unfold locate. by rewrite resolve_Clean.
Qed.

Lemma ServeHTTP_get_regular h rq st m c :
  h_Root h ≠ "" → get_request h rq → hs_w st = no_response →
  no_fault (hs_os st) → fs_wf (os_files (hs_os st)) →
  os_files (hs_os st) !! place h rq st = Some (File m c) →
  hs_w (ServeHTTP h rq st).2 =
    mkResponse (Some 200%Z) (contentType (location h rq)) None [Text c].
Proof.
  intros HR Hg Hw Hf Hwf Hi. destruct (ServeHTTP_get_typed h rq st Hg Hw) as (-> & Ho & Hw1).
  rewrite <- (location_get h rq st HR Hg) in Hi.
  pose proof (location_not_empty h rq HR). destruct Hg as (_ & _ & _ & Hd0 & _ & _ & Hx).
  rewrite <- Ho in *.
  destruct (ServeFile_regular rq (location h rq) (typed h rq st) m c) as [os' ->];
    rewrite ?Hw1; done.
Qed.

(** Without failures, a download of a regular file answers 200 with the
    whole content and, for a .tar or .json name in any case, its content type;
    a name that leads nowhere is answered with 404. Nothing on disk changes. *)
Theorem ServeHTTP_get_file h rq st :
  h_Root h ≠ "" → get_request h rq → hs_w st = no_response →
  no_fault (hs_os st) → fs_wf (os_files (hs_os st)) →
  let st' := (ServeHTTP h rq st).2 in
  same_tree (hs_os st) (hs_os st') ∧
  match os_files (hs_os st) !! place h rq st with
  | Some (File _ c) =>
      hs_w st' = mkResponse (Some 200%Z) (contentType (location h rq)) None [Text c]
  | None => rs_status (hs_w st') = Some 404%Z
  | _ => True
  end.
Proof.
  intros HR Hg Hw Hf Hwf. cbv zeta. split.
  { apply ServeHTTP_quiet. destruct Hg as (_ & _ & -> & _). by do 4 right. }
  destruct (os_files _ !! _) as [[m c|m|m]|] eqn:E; [by eapply ServeHTTP_get_regular|done..|].
  destruct (ServeHTTP_get_typed h rq st Hg Hw) as (-> & Ho & Hw1).
  rewrite <- (location_get h rq st HR Hg) in E.
  pose proof (location_not_empty h rq HR). destruct Hg as (_ & _ & _ & Hd0 & _ & _ & Hx).
  rewrite <- Ho in *. apply ServeFile_missing; rewrite ?Hw1; done.
Qed.

(** ** The answers to an upload *)

Definition put_request (h : Handler) (rq : request) : Prop :=
  ¬ is_healthz rq ∧ authorised h rq ∧ rq_Method rq = "PUT" ∧ rq_BodyErr rq = None ∧
  Contains (Clean (rq_Path rq)) ".." = false ∧
  Contains (Clean (rq_Path rq)) (String (ascii_of_nat 0) "") = false.

Definition put_status (F : gmap fpath inode) (k : fpath) : Z :=
  match parent_ok F k with
  | inl ENOENT => 404
  | inl _ => 400
  | inr _ => match F !! k with Some _ => 409 | None => 201 end
  end%Z.

Lemma parent_ok_error fs k e : parent_ok fs k = inl e → e = ENOENT ∨ e = ENOTDIR.
Proof.
  unfold parent_ok. destruct (walk fs [] (removelast k)) as [e'|[]] eqn:E; [|naive_solver..].
  intros [= <-]. by eapply walk_error.
Qed.

(** io.Copy of a whole body into the new file. *)
Lemma copy_body_ok k name rq st m :
  no_fault (hs_os st) → os_files (hs_os st) !! k = Some (File m "") → rq_BodyErr rq = None →
  ∃ m', copy_body k name rq st =
    (Ok tt, put os_lens (set_files <[k := File m' (rq_Body rq)]> (tick (hs_os st))) st).
Proof.
  intros Hf Hk Hb. pose proof (WriteHandle_ok k name (rq_Body rq) (hs_os st) m "" Hf Hk) as E.
  apply (zoom_eq os_lens _ st) in E. unfold copy_body. rewrite (bind_ok _ _ _ _ _ E), Hb.
  by eexists.
Qed.

Lemma serve_put_status rq loc st :
  no_fault (hs_os st) → rs_status (hs_w st) = None → rq_BodyErr rq = None →
  rs_status (hs_w (serve_put rq loc st).2) =
    Some (put_status (os_files (hs_os st)) (locate (Clean loc) (hs_os st))).
Proof.
  intros Hf Hst Hb. unfold serve_put. cbv zeta. set (name := Clean loc).
  set (k := locate name (hs_os st)). unfold put_status.
  destruct (parent_ok (os_files (hs_os st)) k) as [e|[]] eqn:Hpar.
  - pose proof (OpenExcl_no_parent name 438 (hs_os st) e Hf (Clean_not_empty _) Hpar) as E.
    apply (zoom_eq os_lens _ st) in E. rewrite (attempt_err _ _ _ _ _ E). simpl. rewrite Hst.
    by destruct (parent_ok_error _ _ _ Hpar) as [->| ->].
  - destruct (os_files (hs_os st) !! k) as [i|] eqn:Hk.
    + pose proof (OpenExcl_exists name 438 (hs_os st) i Hf (Clean_not_empty _) Hpar Hk) as E.
      apply (zoom_eq os_lens _ st) in E. rewrite (attempt_err _ _ _ _ _ E). simpl. by rewrite Hst.
    + pose proof (OpenExcl_ok name 438 (hs_os st) Hf (Clean_not_empty _) Hpar Hk) as E.
      apply (zoom_eq os_lens _ st) in E. rewrite (attempt_ok _ _ _ _ _ E). fold k.
      match goal with |- context [deferring _ _ ?s0] => set (st1 := s0) end.
      destruct (copy_body_ok k name rq st1 (new_meta 438 (tick (hs_os st))) Hf ltac:(apply lookup_insert_eq) Hb)
        as [m' E2].
      erewrite deferring_eq; [|by rewrite (attempt_ok _ _ _ _ _ E2)|done|apply Close_zoom_ends].
      cbn [snd]. rewrite (proj2 (Close_zoom_same _ _ _)). simpl. by rewrite Hst.
Qed.

(** C28: without failures, an authorised upload of a complete body is answered
    with 201 when the directory exists and the name is free, with 409 when the
    name is taken, with 404 when the directory is missing, and with 400 when
    something on the way is not a directory. *)
Theorem ServeHTTP_put_status h rq st :
  h_Root h ≠ "" → put_request h rq → rs_status (hs_w st) = None → no_fault (hs_os st) →
  rs_status (hs_w (ServeHTTP h rq st).2) =
    Some (put_status (os_files (hs_os st)) (place h rq st)).
Proof.
  intros HR (Hz & Ha & Hm & Hb & Hd & H0) Hst Hf. rewrite ServeHTTP_put by done.
  rewrite serve_put_status by done. by rewrite (proj1 (location_place h rq st HR Hd)).
Qed.

Lemma put_status_201 F k : put_status F k = 201%Z → parent_ok F k = inr tt ∧ F !! k = None.
Proof.
  unfold put_status. destruct (parent_ok F k) as [[]|[]]; try done. by destruct (F !! k).
Qed.

Definition fresh (st : http_state) : http_state := mkHttp (hs_os st) no_response [].

(** C26: what was uploaded can be downloaded: after an upload answered with 201,
    a GET of the same path answers 200 with exactly the bytes of the body. *)
Theorem upload_download h rq rq' st :
  h_Root h ≠ "" → put_request h rq → get_request h rq' →
  Clean (rq_Path rq') = Clean (rq_Path rq) →
  hs_w st = no_response → no_fault (hs_os st) → fs_wf (os_files (hs_os st)) →
  let st1 := (ServeHTTP h rq st).2 in
  rs_status (hs_w st1) = Some 201%Z →
  hs_w (ServeHTTP h rq' (fresh st1)).2 =
    mkResponse (Some 200%Z) (contentType (location h rq')) None [Text (rq_Body rq)].
Proof.
  intros HR Hput Hg Hc Hw Hf Hwf. cbv zeta. destruct Hput as (Hz & Ha & Hm & Hb & Hd & H0).
  rewrite ServeHTTP_put by done. fold (location h rq).
  destruct (location_place h rq st HR Hd) as [Hl _]. fold (location h rq) in Hl.
  pose proof (serve_put_status rq (location h rq) st Hf ltac:(by rewrite Hw) Hb) as Hs.
  pose proof (serve_put_spec rq (location h rq) st) as Hspec. cbv zeta in Hspec.
  rewrite Hl in Hs, Hspec. intros E. rewrite E in Hs. injection Hs as Hs.
  symmetry in Hs. apply put_status_201 in Hs as [Hpar Hn].
  destruct Hspec as [Hp [[_ H]|(_ & _ & H)]]; [by destruct (H ltac:(by rewrite Hw) E)|].
  destruct (H ltac:(by rewrite Hw) E) as [_ [m HF]].
  set (st1 := (serve_put rq (location h rq) st).2) in *.
  destruct Hp as (Hcwd & _ & _ & Hfault & _).
  apply (ServeHTTP_get_regular h rq' (fresh st1) m); try done.
  - intros t. change (os_fault (hs_os st1) t = None). by rewrite Hfault.
  - change (fs_wf (os_files (hs_os st1))). rewrite HF. by apply fs_wf_new.
  - change (os_files (hs_os st1) !! place h rq' (fresh st1) = Some (File m (rq_Body rq))).
    rewrite HF. unfold place. change (hs_os (fresh st1)) with (hs_os st1). rewrite Hcwd, Hc.
    apply lookup_insert_eq.
Qed.

(** ** A server with one volume *)
Module Demo.

Definition meta0 : meta := mkMeta 493 0 0.
Definition tree : gmap fpath inode :=
  <[["data"] := Directory meta0]> {[ [] := Directory meta0 ]}.
Definition os0 : OS := mkOS tree [] 18 ∅ 0 (λ _, None) (λ _, "tmp").
Definition h : Handler := mkHandler "/data" "user" "secret".
Definition st : http_state := mkHttp os0 no_response [].
Definition upload : request :=
  mkRequest "PUT" "/sub/../chaincode.tar" (Some (basic_credentials "user" "wrong")) "bytes" None.
Definition download : request :=
  mkRequest "GET" "/chaincode.tar" (Some (basic_credentials "user" "secret")) "" None.
Definition anonymous : request := mkRequest "GET" "/chaincode.tar" None "" None.

Lemma ft_tree_wf : fs_wf tree.
Proof.
  apply (fs_wf_insert _ [] "data"); [|by exists meta0|done].
  split; [by exists meta0|]. intros p x i Hi. apply lookup_singleton_Some in Hi as [Hp _].
  by destruct p.
Defined.

Lemma upload_ok : put_request h upload.
Proof. split; [done|]. split; [|done]. exists "user", "wrong". split; [reflexivity|by left]. Defined.

Lemma download_ok : get_request h download.
Proof. split; [done|]. split; [|done]. exists "user", "secret". split; [reflexivity|by left]. Defined.

Lemma anonymous_not : ¬ authorised h anonymous.
Proof. intros (u & p & [=] & _). Defined.
End Demo.

Lemma ServeHTTP_confined_witness :
  uploaded (os_files Demo.os0) ["data"; "chaincode.tar"] "bytes"
    (hs_os (ServeHTTP Demo.h Demo.upload Demo.st).2).
Proof.
  destruct (ServeHTTP_confined Demo.h Demo.upload Demo.st ltac:(done)) as [_ [H|H]].
  - apply (f_equal (λ F, F !! ["data"; "chaincode.tar"])) in H. vm_compute in H. discriminate.
  - apply H.
Defined.

Lemma ServeHTTP_created_witness :
  ∃ m, os_files (hs_os (ServeHTTP Demo.h Demo.upload Demo.st).2) =
       <[["data"; "chaincode.tar"] := File m "bytes"]> (os_files Demo.os0).
Proof.
  apply (ServeHTTP_created Demo.h Demo.upload Demo.st); [done|reflexivity|vm_compute; reflexivity].
Defined.

Lemma ServeHTTP_unauthorised_witness :
  rs_status (hs_w (ServeHTTP Demo.h Demo.anonymous Demo.st).2) = Some 401%Z.
Proof.
  apply (ServeHTTP_unauthorised Demo.h Demo.anonymous Demo.st); [reflexivity|].
  split; [done|apply Demo.anonymous_not].
Defined.

Lemma ServeHTTP_half_credentials_witness :
  ServeHTTP Demo.h (with_credentials Demo.upload "user" "anything") =
  ServeHTTP Demo.h (with_credentials Demo.upload "user" "secret").
Proof.
  apply (ServeHTTP_half_credentials Demo.h Demo.upload "user" "anything");
    [reflexivity|reflexivity|by left].
Defined.

Lemma ServeHTTP_get_file_witness :
  rs_status (hs_w (ServeHTTP Demo.h Demo.download Demo.st).2) = Some 404%Z.
Proof.
  apply (ServeHTTP_get_file Demo.h Demo.download Demo.st);
    [done|apply Demo.download_ok|reflexivity|done|apply Demo.ft_tree_wf].
Defined.

Lemma ServeHTTP_put_status_witness :
  rs_status (hs_w (ServeHTTP Demo.h Demo.upload Demo.st).2) = Some 201%Z.
Proof.
  apply (ServeHTTP_put_status Demo.h Demo.upload Demo.st);
    [done|apply Demo.upload_ok|reflexivity|done].
Defined.

Lemma upload_download_witness :
  hs_w (ServeHTTP Demo.h Demo.download (fresh (ServeHTTP Demo.h Demo.upload Demo.st).2)).2 =
  mkResponse (Some 200%Z) (Some "application/x-tar") None [Text "bytes"].
Proof.
  apply (upload_download Demo.h Demo.upload Demo.download Demo.st);
    [done|apply Demo.upload_ok|apply Demo.download_ok|reflexivity|reflexivity|done
    |apply Demo.ft_tree_wf|vm_compute; reflexivity].
Defined.
