(* ===== verification/TarFormat.v ===== *)
(** * Tar archives

    The archives of package archive/tar as the program sees them: a reader
    that yields headers and contents until the end or an error, and a writer.
    The byte format is not modelled: the class [TarFormat] names the reader
    and the parts of an archive (headers, padding, trailer) and the one
    property relied on, that the reader gives back what was written. [Plain]
    is a small format with that property. *)
From S2P Require Import Prelude GoStrings.

Inductive typeflag := TypeReg | TypeDir | TypeOther (n : nat).

(** Times are ticks; [None] is the zero time of an absent record. *)
Record header := mkHeader {
  h_Name : string;
  h_Typeflag : typeflag;
  h_Mode : Z;
  h_Size : nat;
  h_ModTime : Z;
  h_AccessTime : option Z }.

(** An entry, its data as far as it can be read, and the error that ends it. *)
Record entry := mkEntry { e_header : header; e_data : string; e_err : option go_error }.

(** What reading an archive yields: entries, then the end or an error. *)
Record archive := mkArchive { a_entries : list entry; a_err : option go_error }.

(** A regular file or a directory, whole. *)
Definition whole_entry (e : entry) : Prop :=
  e_err e = None ∧ h_Size (e_header e) = slen (e_data e) ∧
  match h_Typeflag (e_header e) with
  | TypeReg => True
  | TypeDir => e_data e = ""
  | TypeOther _ => False
  end.

(** An archive is the header and the padded data of each entry, and a trailer. *)
Class TarFormat := {
  tar_read : string → archive;
  tar_header : header → string;
  (** what follows data of a length *)
  tar_padding : nat → string;
  tar_trailer : string;
  (** the error of a header the format cannot express *)
  tar_header_error : header → option go_error;
  tar_read_write es :
    Forall (λ e, whole_entry e ∧ tar_header_error (e_header e) = None) es →
    tar_read (foldr (λ e s, tar_header (e_header e) +:+ e_data e +:+
                            tar_padding (slen (e_data e)) +:+ s) tar_trailer es) =
    mkArchive es None }.

Section archive.
Context `{TarFormat}.

(** The bytes of one entry, and of an archive. *)
Definition tar_entry (e : entry) : string :=
  tar_header (e_header e) +:+ e_data e +:+ tar_padding (slen (e_data e)).

Fixpoint tar_entries (es : list entry) : string :=
  match es with [] => "" | e :: es' => tar_entry e +:+ tar_entries es' end.

Definition tar_write (es : list entry) : string := tar_entries es +:+ tar_trailer.

Lemma tar_entries_app es1 es2 : tar_entries (es1 ++ es2) = tar_entries es1 +:+ tar_entries es2.
Proof. induction es1 as [|e es1 IH]; [done|]. cbn [tar_entries app]. by rewrite IH, sapp_assoc. Qed.

(** The reader gives back what was written. *)
Lemma tar_read_archive es :
  Forall (λ e, whole_entry e ∧ tar_header_error (e_header e) = None) es →
  tar_read (tar_write es) = mkArchive es None.
Proof.
  intros Hes. rewrite <- tar_read_write by done. f_equal. unfold tar_write. clear Hes.
  induction es as [|e es IH]; [done|]. cbn [tar_entries foldr]. rewrite <- IH. unfold tar_entry.
  by rewrite <- !sapp_assoc.
Qed.
End archive.

(** ** A format *)

Module Plain.
(** A byte in front of every byte of a text, and one behind its end. *)
Fixpoint enc (s : string) : string :=
  match s with
  | EmptyString => String "." ""
  | String a s' => String "-" (String a (enc s'))
  end.

Fixpoint dec (s : string) : option (string * string) :=
  match s with
  | String a s' =>
      if bool_decide (a = "."%char) then Some ("", s')
      else match s' with
           | String b s'' => '(t, r) ← dec s''; Some (String b t, r)
           | EmptyString => None
           end
  | EmptyString => None
  end.

Lemma dec_enc s r : dec (enc s +:+ r) = Some (s, r).
Proof. induction s as [|a s IH]; simpl; [done|]. by rewrite IH. Qed.

Fixpoint enc_nat (n : nat) : string := match n with O => "." | S n => String "-" (enc_nat n) end.

Fixpoint dec_nat (s : string) : option (nat * string) :=
  match s with
  | String a s' =>
      if bool_decide (a = "."%char) then Some (0, s')
      else '(n, r) ← dec_nat s'; Some (S n, r)
  | EmptyString => None
  end.

Lemma dec_enc_nat n r : dec_nat (enc_nat n +:+ r) = Some (n, r).
Proof. induction n as [|n IH]; simpl; [done|]. by rewrite IH. Qed.

Definition enc_Z (z : Z) : string := enc_nat (encode_nat z).
Definition dec_Z (s : string) : option (Z * string) :=
  '(n, r) ← dec_nat s; z ← decode_nat n; Some (z, r).

Lemma dec_enc_Z z r : dec_Z (enc_Z z +:+ r) = Some (z, r).
Proof. unfold dec_Z, enc_Z. rewrite dec_enc_nat. cbn [mbind option_bind]. by rewrite decode_encode_nat. Qed.

Definition enc_header (h : header) : string :=
  enc (h_Name h) +:+ enc_nat (match h_Typeflag h with TypeReg => 0 | TypeDir => 1 | TypeOther n => S (S n) end) +:+
  enc_Z (h_Mode h) +:+ enc_nat (h_Size h) +:+ enc_Z (h_ModTime h) +:+
  enc_nat (match h_AccessTime h with None => 0 | Some z => S (encode_nat z) end).

Definition dec_header (s : string) : option (header * string) :=
  '(name, s) ← dec s; '(t, s) ← dec_nat s; '(m, s) ← dec_Z s; '(size, s) ← dec_nat s;
  '(mt, s) ← dec_Z s; '(a, s) ← dec_nat s;
  at' ← match a with O => Some None | S n => z ← decode_nat n; Some (Some z) end;
  Some (mkHeader name (match t with 0 => TypeReg | 1 => TypeDir | S (S n) => TypeOther n end)
          m size mt at', s).

Lemma dec_enc_header h r : dec_header (enc_header h +:+ r) = Some (h, r).
Proof.
  destruct h as [name t m size mt a]. unfold dec_header, enc_header.
  cbn [h_Name h_Typeflag h_Mode h_Size h_ModTime h_AccessTime].
  rewrite <- !sapp_assoc, dec_enc. cbn [mbind option_bind]. rewrite dec_enc_nat. cbn [mbind option_bind].
  rewrite dec_enc_Z. cbn [mbind option_bind]. rewrite dec_enc_nat. cbn [mbind option_bind].
  rewrite dec_enc_Z. cbn [mbind option_bind]. rewrite dec_enc_nat. cbn [mbind option_bind].
  destruct a as [z|]; rewrite ?decode_encode_nat; by destruct t.
Qed.

Fixpoint dec_all (fuel : nat) (s : string) : archive :=
  match s, fuel with
  | EmptyString, _ => mkArchive [] None
  | _, O => mkArchive [] (Some (ErrorString "unexpected EOF"))
  | _, S n =>
      match dec_header s with
      | Some (h, r) =>
          let e := mkEntry h (take_bytes (h_Size h) r)
                     (if decide (slen r < h_Size h) then Some (ErrorString "unexpected EOF") else None) in
          let a := dec_all n (drop_bytes (h_Size h) r) in
          mkArchive (e :: a_entries a) (a_err a)
      | None => mkArchive [] (Some (ErrorString "archive/tar: invalid tar header"))
      end
  end.

Definition write (es : list entry) : string :=
  foldr (λ e s, enc_header (e_header e) +:+ e_data e +:+ "" +:+ s) "" es.

Lemma enc_header_not_empty h s : enc_header h +:+ s ≠ "".
Proof. unfold enc_header. by destruct (h_Name h). Qed.

Lemma dec_all_write n es :
  Forall whole_entry es → length es ≤ n → dec_all n (write es) = mkArchive es None.
Proof.
  revert es. induction n as [|n IH]; intros es Hes Hn; (destruct es as [|e es]; [done|]); simpl in Hn; [lia|].
  inversion Hes as [|? ? (He & Hsz & _)]; subst. cbn [write foldr]. cbn [dec_all].
  fold (write es). change ("" +:+ write es) with (write es).
  destruct (enc_header (e_header e) +:+ e_data e +:+ write es) as [|a s] eqn:E.
  - by apply enc_header_not_empty in E.
  - rewrite <- E, dec_enc_header, Hsz, take_bytes_app, drop_bytes_app, IH by (done || lia).
    rewrite decide_False by (rewrite slen_app; lia). by destruct e; simpl in *; subst.
Qed.

Lemma slen_write es : length es ≤ slen (write es).
Proof.
  induction es as [|e es IH]; [done|]. cbn [write foldr length]. fold (write es).
  rewrite !slen_app. unfold enc_header. rewrite slen_app.
  destruct (h_Name (e_header e)); simpl; lia.
Qed.

#[global] Instance format : TarFormat.
Proof.
  refine {| tar_read s := dec_all (slen s) s; tar_header := enc_header; tar_padding _ := "";
            tar_trailer := ""; tar_header_error _ := None |}.
  intros es Hes. apply dec_all_write; [|apply slen_write].
  eapply Forall_impl; [exact Hes|]. by intros e [? _].
Defined.
End Plain.
