(* ===== verification/Json.v ===== *)
(** * JSON

    The part of encoding/json the program uses: Unmarshal into a struct of
    strings (the metadata files) and into map[string]interface{}, and Marshal
    of such a map (connection.json). The grammar is the scanner's: white
    space, strings with escapes and surrogate pairs, invalid UTF-8 replaced,
    numbers, no trailing data. The text of a syntax error is not reproduced
    (ErrSyntax), nor the limit on the nesting depth. *)
From S2P Require Import Prelude GoStrings Url.

(** ** Values as they are written *)

#[warnings="-register-all"]
Inductive json :=
  | JNull
  | JBool (b : bool)
  | JNumber (literal : string)
  | JString (s : string)
  | JArray (l : list json)
  | JObject (l : list (string * json)).

Definition ErrSyntax : go_error := ErrorString "invalid JSON input".

(** ** UTF-8 *)

Definition code (a : ascii) : nat := nat_of_ascii a.
Definition byte (n : nat) : ascii := ascii_of_nat n.

Definition cont (a : ascii) : bool := in_range 128 191 a.

Definition valid2 (a b : ascii) : bool := in_range 194 223 a && cont b.

Definition valid3 (a b c : ascii) : bool :=
  (if code a =? 224 then in_range 160 191 b
   else if code a =? 237 then in_range 128 159 b
   else in_range 225 239 a && cont b) && cont c.

Definition valid4 (a b c d : ascii) : bool :=
  (if code a =? 240 then in_range 144 191 b
   else if code a =? 244 then in_range 128 143 b
   else in_range 241 243 a && cont b) && cont c && cont d.

(** U+FFFD. *)
Definition replacement : string := String (byte 239) (String (byte 191) (String (byte 189) "")).

(** Every byte that is not part of a well-formed sequence is replaced. *)
Fixpoint utf8_fix (s : string) : string :=
  match s with
  | EmptyString => ""
  | String a s1 =>
      if code a <? 128 then String a (utf8_fix s1)
      else match s1 with
      | EmptyString => replacement
      | String b s2 =>
          if valid2 a b then String a (String b (utf8_fix s2))
          else match s2 with
          | EmptyString => replacement +:+ utf8_fix s1
          | String c s3 =>
              if valid3 a b c then String a (String b (String c (utf8_fix s3)))
              else match s3 with
              | EmptyString => replacement +:+ utf8_fix s1
              | String d s4 =>
                  if valid4 a b c d
                  then String a (String b (String c (String d (utf8_fix s4))))
                  else replacement +:+ utf8_fix s1
              end
          end
      end
  end.

Definition zbyte (n : Z) : ascii := ascii_of_nat (Z.to_nat n).

(** The encoding of a code point; surrogates have none. *)
Definition encode_rune (n : Z) : string :=
  (if n <? 128 then String (zbyte n) ""
   else if n <? 2048 then
     String (zbyte (192 + n / 64)) (String (zbyte (128 + n mod 64)) "")
   else if (55296 <=? n) && (n <=? 57343) then replacement
   else if n <? 65536 then
     String (zbyte (224 + n / 4096)) (String (zbyte (128 + n / 64 mod 64))
       (String (zbyte (128 + n mod 64)) ""))
   else
     String (zbyte (240 + n / 262144)) (String (zbyte (128 + n / 4096 mod 64))
       (String (zbyte (128 + n / 64 mod 64)) (String (zbyte (128 + n mod 64)) ""))))%Z.

(** ** Strings *)

Definition hex4 (a b c d : ascii) : option Z :=
  w ← unhex_digit a; x ← unhex_digit b; y ← unhex_digit c; z ← unhex_digit d;
  Some (4096 * Z.of_nat w + 256 * Z.of_nat x + 16 * Z.of_nat y + Z.of_nat z)%Z.

Definition high_surrogate (n : Z) : bool := ((55296 <=? n) && (n <=? 56319))%Z.
Definition low_surrogate (n : Z) : bool := ((56320 <=? n) && (n <=? 57343))%Z.

Definition backslash : ascii := byte 92.

Definition simple_escape (a : ascii) : option ascii :=
  if bool_decide (a = dquote) || bool_decide (a = backslash) || bool_decide (a = "/"%char) then Some a
  else if bool_decide (a = "b"%char) then Some (byte 8)
  else if bool_decide (a = "f"%char) then Some (byte 12)
  else if bool_decide (a = "n"%char) then Some nl
  else if bool_decide (a = "r"%char) then Some cr
  else if bool_decide (a = "t"%char) then Some (byte 9)
  else None.

(** A second \u escape, right here. *)
Definition next_u4 (s : string) : option Z :=
  match s with
  | String a (String u (String h1 (String h2 (String h3 (String h4 _))))) =>
      if bool_decide (a = backslash) && bool_decide (u = "u"%char) then hex4 h1 h2 h3 h4 else None
  | _ => None
  end.

(** A string literal behind its opening quote, and what follows it. [pair]
    holds the high half when the escape being read is the low half of a pair. *)
Fixpoint scan_string (pair : option Z) (s : string) : option (string * string) :=
  match s with
  | EmptyString => None
  | String a s1 =>
      if bool_decide (a = dquote) then Some ("", s1)
      else if bool_decide (a = backslash) then
        match s1 with
        | EmptyString => None
        | String e s2 =>
            if bool_decide (e = "u"%char) then
              match s2 with
              | String h1 (String h2 (String h3 (String h4 s3))) =>
                  r ← hex4 h1 h2 h3 h4;
                  match pair with
                  | Some high =>
                      '(t, rest) ← scan_string None s3;
                      Some (encode_rune (65536 + 1024 * (high - 55296) + (r - 56320))%Z +:+ t, rest)
                  | None =>
                      let low := match next_u4 s3 with
                                 | Some l => low_surrogate l
                                 | None => false end in
                      if high_surrogate r && low then scan_string (Some r) s3
                      else '(t, rest) ← scan_string None s3; Some (encode_rune r +:+ t, rest)
                  end
              | _ => None
              end
            else
              c ← simple_escape e;
              '(t, rest) ← scan_string None s2; Some (String c t, rest)
        end
      else if code a <? 32 then None
      else '(t, rest) ← scan_string None s1; Some (String a t, rest)
  end.

(** ** Numbers *)

Fixpoint digits (s : string) : string * string :=
  match s with
  | String a s' => if is_digit a then let '(d, r) := digits s' in (String a d, r) else ("", s)
  | EmptyString => ("", "")
  end.

(** A sign, when there is one of the bytes cs. *)
Definition scan_sign (cs s : string) : string * string :=
  match s with
  | String a t => if one_of cs a then (String a "", t) else ("", s)
  | EmptyString => ("", "")
  end.

Definition scan_int (s : string) : option (string * string) :=
  match s with
  | String a s' =>
      if bool_decide (a = "0"%char) then Some ("0", s')
      else if is_digit a then Some (digits s) else None
  | EmptyString => None
  end.

Definition scan_frac (s : string) : option (string * string) :=
  match s with
  | String a s' =>
      if bool_decide (a = "."%char) then
        match digits s' with ("", _) => None | (d, r) => Some (String a d, r) end
      else Some ("", s)
  | EmptyString => Some ("", "")
  end.

Definition scan_exp (s : string) : option (string * string) :=
  match s with
  | String e s' =>
      if one_of "eE" e then
        let '(sign, s'') := scan_sign "+-" s' in
        match digits s'' with ("", _) => None | (d, r) => Some (String e (sign +:+ d), r) end
      else Some ("", s)
  | EmptyString => Some ("", "")
  end.

Definition scan_number (s : string) : option (string * string) :=
  let '(sign, s1) := scan_sign "-" s in
  '(i, s2) ← scan_int s1; '(f, s3) ← scan_frac s2; '(e, s4) ← scan_exp s3;
  Some (sign +:+ i +:+ f +:+ e, s4).

(** ** Values *)

Definition is_space (a : ascii) : bool :=
  bool_decide (a = " "%char) || bool_decide (a = byte 9) || bool_decide (a = nl) || bool_decide (a = cr).

Fixpoint skip (s : string) : string :=
  match s with
  | String a s' => if is_space a then skip s' else s
  | EmptyString => ""
  end.

Definition expect (a : ascii) (s : string) : option string :=
  match skip s with
  | String b s' => if bool_decide (b = a) then Some s' else None
  | EmptyString => None
  end.

Definition prefix_rest (p s : string) : option string :=
  if HasPrefix s p then Some (drop_bytes (slen p) s) else None.

(** A key, a colon. *)
Definition scan_key (s : string) : option (string * string) :=
  s1 ← expect dquote s; '(k, s2) ← scan_string None s1; s3 ← expect ":" s2; Some (utf8_fix k, s3).

(** One value and what follows it. Every call for a part is made on a shorter
    text, so fuel beyond the length of the text changes nothing. *)
Fixpoint parse (fuel : nat) (s : string) : option (json * string) :=
  match fuel with
  | O => None
  | S n =>
      match skip s with
      | EmptyString => None
      | String a s' as t =>
          if bool_decide (a = dquote) then
            '(x, r) ← scan_string None s'; Some (JString (utf8_fix x), r)
          else if bool_decide (a = "{"%char) then
            match expect "}" s' with
            | Some r => Some (JObject [], r)
            | None =>
                '(k, s1) ← scan_key s'; '(v, s2) ← parse n s1; '(l, r) ← members n s2;
                Some (JObject ((k, v) :: l), r)
            end
          else if bool_decide (a = "["%char) then
            match expect "]" s' with
            | Some r => Some (JArray [], r)
            | None => '(v, s2) ← parse n s'; '(l, r) ← elements n s2; Some (JArray (v :: l), r)
            end
          else if bool_decide (a = "t"%char) then r ← prefix_rest "true" t; Some (JBool true, r)
          else if bool_decide (a = "f"%char) then r ← prefix_rest "false" t; Some (JBool false, r)
          else if bool_decide (a = "n"%char) then r ← prefix_rest "null" t; Some (JNull, r)
          else '(x, r) ← scan_number t; Some (JNumber x, r)
      end
  end
with members (fuel : nat) (s : string) : option (list (string * json) * string) :=
  match fuel with
  | O => None
  | S n =>
      match expect "}" s with
      | Some r => Some ([], r)
      | None =>
          s1 ← expect "," s; '(k, s2) ← scan_key s1; '(v, s3) ← parse n s2;
          '(l, r) ← members n s3; Some ((k, v) :: l, r)
      end
  end
with elements (fuel : nat) (s : string) : option (list json * string) :=
  match fuel with
  | O => None
  | S n =>
      match expect "]" s with
      | Some r => Some ([], r)
      | None =>
          s1 ← expect "," s; '(v, s2) ← parse n s1; '(l, r) ← elements n s2; Some (v :: l, r)
      end
  end.

(** The whole text. *)
Definition parse_json (s : string) : go_error + json :=
  match parse (S (slen s)) s with
  | Some (v, r) => if bool_decide (skip r = "") then inr v else inl ErrSyntax
  | None => inl ErrSyntax
  end.

(** ** Unmarshal into a struct of strings *)

(** The key with its letters in one case; the Kelvin sign and the long s are
    the letters outside ASCII that fold into it. *)
Fixpoint fold_name (s : string) : string :=
  match s with
  | EmptyString => ""
  | String a s1 =>
      match s1 with
      | String b s2 =>
          if (code a =? 197) && (code b =? 191) then String "s" (fold_name s2)
          else match s2 with
          | String c s3 =>
              if (code a =? 226) && (code b =? 132) && (code c =? 170)
              then String "k" (fold_name s3) else String (lower_byte a) (fold_name s1)
          | EmptyString => String (lower_byte a) (fold_name s1)
          end
      | EmptyString => String (lower_byte a) ""
      end
  end.

Definition find_field (fields : list string) (key : string) : option string :=
  if bool_decide (key ∈ fields) then Some key
  else head (filter (λ f, fold_name f = fold_name key) fields).

Definition kind (v : json) : string :=
  match v with
  | JNull => "null" | JBool _ => "bool" | JNumber _ => "number" | JString _ => "string"
  | JArray _ => "array" | JObject _ => "object"
  end.

(** The values of the fields, and the first value of the wrong type. *)
Definition store_field (tname : string) (fields : list string)
    (st : gmap string string * option go_error) (kv : string * json)
    : gmap string string * option go_error :=
  match find_field fields kv.1 with
  | None => st
  | Some f =>
      match kv.2 with
      | JString x => (<[f := x]> st.1, st.2)
      | JNull => st
      | v => (st.1, Some (default (ErrorString ("json: cannot unmarshal " +:+ kind v +:+
                 " into Go struct field " +:+ tname +:+ "." +:+ f +:+ " of type string")) st.2))
      end
  end.

Definition unmarshal_struct (pkg tname : string) (fields : list string) (data : string)
    : go_error + gmap string string :=
  match parse_json data with
  | inl e => inl e
  | inr JNull => inr ∅
  | inr (JObject l) =>
      match foldl (store_field tname fields) (∅, None) l with
      | (m, None) => inr m
      | (_, Some e) => inl e
      end
  | inr v => inl (ErrorString ("json: cannot unmarshal " +:+ kind v +:+
                    " into Go value of type " +:+ pkg +:+ "." +:+ tname))
  end.

Definition field (f : string) (m : gmap string string) : string := default "" (m !! f).

(** ** Enough fuel *)

(** What a part of the scanner leaves is shorter than what it was given. *)
Lemma digits_le s : slen (digits s).2 ≤ slen s.
Proof.
  induction s as [|a s IH]; simpl; [done|]. destruct (is_digit a); [|done].
  destruct (digits s). simpl in *. lia.
Qed.

Lemma skip_le s : slen (skip s) ≤ slen s.
Proof. induction s as [|a s IH]; simpl; [done|]. destruct (is_space a); simpl; lia. Qed.

Lemma expect_lt a s r : expect a s = Some r → slen r < slen s.
Proof.
  unfold expect. pose proof (skip_le s). destruct (skip s) as [|b t]; [done|].
  case_bool_decide; [|done]. intros [= <-]. simpl in *. lia.
Qed.

Lemma bind_Some_inv {A B} (m : option A) (f : A → option B) b :
  m ≫= f = Some b → ∃ a, m = Some a ∧ f a = Some b.
Proof. destruct m; [eauto|done]. Qed.

Lemma scan_string_lt n pair s x r : slen s ≤ n → scan_string pair s = Some (x, r) → slen r < slen s.
Proof.
  revert pair s x r. induction n as [|n IH]; intros pair s x r Hn H; [by destruct s; simpl in *; [|lia]|].
  destruct s as [|a s1]; [done|]. cbn [scan_string slen] in *.
  case_bool_decide; [injection H as _ <-; simpl in *; lia|].
  case_bool_decide.
  - destruct s1 as [|e s2]; [done|]. case_bool_decide.
    + destruct s2 as [|h1 [|h2 [|h3 [|h4 s3]]]]; try done.
      apply bind_Some_inv in H as (v & _ & H). simpl in Hn.
      destruct pair as [high|]; [|destruct (high_surrogate v && _)];
        try (apply bind_Some_inv in H as ([t rest] & Hr & [= _ <-]); apply IH in Hr; simpl; lia).
      apply IH in H; simpl; lia.
    + apply bind_Some_inv in H as (c & _ & H).
      apply bind_Some_inv in H as ([t rest] & Hr & [= _ <-]). simpl in *. apply IH in Hr; lia.
  - destruct (code a <? 32); [done|].
    apply bind_Some_inv in H as ([t rest] & Hr & [= _ <-]). simpl in *. apply IH in Hr; lia.
Qed.

Lemma scan_key_lt s k r : scan_key s = Some (k, r) → slen r < slen s.
Proof.
  unfold scan_key. intros (s1 & H1%expect_lt & H)%bind_Some_inv.
  apply bind_Some_inv in H as ([k' s2] & H2 & H). apply scan_string_lt with (n := slen s1) in H2; [|done].
  apply bind_Some_inv in H as (s3 & H3%expect_lt & [= _ <-]). lia.
Qed.

Lemma digits_lt s d r : digits s = (d, r) → slen r ≤ slen s.
Proof. intros E. pose proof (digits_le s). by rewrite E in *. Qed.

Lemma scan_sign_le cs s g r : scan_sign cs s = (g, r) → slen r ≤ slen s.
Proof.
  destruct s as [|a s]; cbn [scan_sign]; [by intros [= _ <-]|].
  destruct (one_of cs a); intros [= _ <-]; simpl; lia.
Qed.

Lemma scan_number_lt s x r : scan_number s = Some (x, r) → slen r < slen s.
Proof.
  unfold scan_number.
  destruct (scan_sign "-" s) as [sign s1] eqn:Hp. apply scan_sign_le in Hp.
  intros ([i s2] & H1 & H)%bind_Some_inv. apply bind_Some_inv in H as ([f s3] & H2 & H).
  apply bind_Some_inv in H as ([e s4] & H3 & [= _ <-]).
  assert (slen s2 < slen s1).
  { destruct s1 as [|a t]; [done|]. unfold scan_int in H1. case_bool_decide; [simplify_eq/=; lia|].
    destruct (is_digit a) eqn:Ed; [|done]. injection H1 as H1. cbn [digits] in H1. rewrite Ed in H1.
    destruct (digits t) as [d u] eqn:E. apply digits_lt in E. simplify_eq/=. lia. }
  assert (slen s3 ≤ slen s2).
  { destruct s2 as [|a t]; simpl in H2; [by simplify_eq|]. case_bool_decide; [|by simplify_eq].
    destruct (digits t) as [d u] eqn:E. apply digits_lt in E. destruct d; simplify_eq/=. lia. }
  assert (slen s4 ≤ slen s3); [|lia].
  destruct s3 as [|a t]; cbn [scan_exp] in H3; [by simplify_eq|]. destruct (one_of _ a); [|by simplify_eq].
  destruct (scan_sign "+-" t) as [g t'] eqn:Hq. apply scan_sign_le in Hq. destruct (digits t') as [d u] eqn:E. apply digits_lt in E.
  destruct d; simplify_eq/=. lia.
Qed.

Lemma prefix_rest_lt p s r : p ≠ "" → prefix_rest p s = Some r → slen r < slen s.
Proof.
  unfold prefix_rest. destruct (HasPrefix s p) eqn:E; [|done]. intros Hp [= <-].
  apply HasPrefix_spec in E as [t ->]. rewrite slen_drop_bytes, slen_app.
  destruct p; [done|]. simpl. lia.
Qed.

(** Takes a sequence of scans that succeeded apart. *)
Ltac scan_inv :=
  repeat match goal with
  | H : _ ≫= _ = Some _ |- _ =>
      let x := fresh "x" in let Hx := fresh "Hx" in apply bind_Some_inv in H as (x & Hx & H);
      try destruct x as [? ?]
  | H : Some _ = Some _ |- _ => injection H as H; subst
  | H : expect _ _ = Some _ |- _ => apply expect_lt in H
  | H : scan_key _ = Some _ |- _ => apply scan_key_lt in H
  | H : scan_number _ = Some _ |- _ => apply scan_number_lt in H
  | H : prefix_rest _ _ = Some _ |- _ => apply prefix_rest_lt in H; [|done]
  | H : scan_string _ ?s = Some _ |- _ => apply (scan_string_lt (slen s)) in H; [|done]
  end.

Lemma parse_lt n :
  (∀ s v r, parse n s = Some (v, r) → slen r < slen s) ∧
  (∀ s l r, members n s = Some (l, r) → slen r < slen s) ∧
  (∀ s l r, elements n s = Some (l, r) → slen r < slen s).
Proof.
  induction n as [|n (IHp & IHm & IHe)]; [done|]. split; [|split].
  - intros s v r H. cbn [parse] in H. pose proof (skip_le s) as Hs.
    destruct (skip s) as [|a s'] eqn:Es; [done|]. cbn [slen] in Hs.
    repeat case_bool_decide; try (scan_inv; simpl in *; lia).
    + destruct (expect "}" s') eqn:E; scan_inv; [simpl in *; lia|].
      apply IHp in Hx0. apply IHm in Hx1. simpl in *. lia.
    + destruct (expect "]" s') eqn:E; scan_inv; [simpl in *; lia|].
      apply IHp in Hx. apply IHe in Hx0. simpl in *. lia.
  - intros s l r H. cbn [members] in H. destruct (expect "}" s) eqn:E; scan_inv; [lia|].
    apply IHp in Hx1. apply IHm in Hx2. lia.
  - intros s l r H. cbn [elements] in H. destruct (expect "]" s) eqn:E; scan_inv; [lia|].
    apply IHp in Hx0. apply IHe in Hx1. lia.
Qed.

Lemma bind_ext_some {A B} (m : option A) (f g : A → option B) :
  (∀ a, m = Some a → f a = g a) → m ≫= f = m ≫= g.
Proof. destruct m; simpl; [intros H; by apply H|done]. Qed.

Lemma parse_fuel n :
  (∀ m s, slen s < n → n ≤ m → parse m s = parse n s) ∧
  (∀ m s, slen s < n → n ≤ m → members m s = members n s) ∧
  (∀ m s, slen s < n → n ≤ m → elements m s = elements n s).
Proof.
  induction n as [|n (IHp & IHm & IHe)]; [repeat split; lia|].
  pose proof (parse_lt n) as (Lp & _ & _).
  split; [|split]; intros [|m] s Hs Hm; [lia| |lia| |lia|].
  - cbn [parse]. pose proof (skip_le s) as Hk. destruct (skip s) as [|a s'] eqn:Es; [done|].
    cbn [slen] in Hk. repeat case_bool_decide; try done.
    + destruct (expect "}" s') eqn:E; [done|]. apply bind_ext_some. intros [k s1] H1. scan_inv.
      rewrite (IHp m s1) by (simpl in *; lia). apply bind_ext_some. intros [v s2] H2%Lp.
      by rewrite (IHm m s2) by (simpl in *; lia).
    + destruct (expect "]" s') eqn:E; [done|].
      rewrite (IHp m s') by (simpl in *; lia). apply bind_ext_some. intros [v s2] H2%Lp.
      by rewrite (IHe m s2) by (simpl in *; lia).
  - cbn [members]. destruct (expect "}" s) eqn:E; [done|].
    apply bind_ext_some. intros s1 H1. apply bind_ext_some. intros [k s2] H2. scan_inv.
    rewrite (IHp m s2) by lia. apply bind_ext_some. intros [v s3] H3%Lp.
    by rewrite (IHm m s3) by lia.
  - cbn [elements]. destruct (expect "]" s) eqn:E; [done|].
    apply bind_ext_some. intros s1 H1. scan_inv.
    rewrite (IHp m s1) by lia. apply bind_ext_some. intros [v s3] H3%Lp.
    by rewrite (IHe m s3) by lia.
Qed.

(** The fuel of the parser is no bound on what it reads: with any fuel from
    the length of the text on, every text is parsed, or refused, the same. *)
Theorem parse_enough_fuel s m :
  slen s < m → parse m s = parse (S (slen s)) s.
Proof. intros H. apply (proj1 (parse_fuel (S (slen s)))); lia. Qed.

Lemma parse_enough_fuel_witness : parse 100 "[1,[2,{}]]" = parse 11 "[1,[2,{}]]".
Proof. apply (parse_enough_fuel "[1,[2,{}]]" 100). simpl. lia. Defined.
