(* ===== verification/Float64.v ===== *)
(** * Numbers of JSON as float64

    strconv.ParseFloat on a JSON number and the text encoding/json gives a
    float64: the value is rounded to the nearest double (ties to even), and the
    text has the fewest digits that round back to it. All arithmetic is on
    exact integers. A value is [num/den] with both positive. *)
From S2P Require Import Prelude GoStrings.

Open Scope Z_scope.

(** ** Rounding *)

Definition round_half_even (n d : Z) : Z :=
  let q := n / d in
  let r := n mod d in
  if 2 * r <? d then q else if d <? 2 * r then q + 1 else if Z.even q then q else q + 1.

(** [num/den * base^e] as a fraction. *)
Definition scale (base e num den : Z) : Z * Z :=
  if e <? 0 then (num, den * base ^ (- e)) else (num * base ^ e, den).

(** The nearest double m * 2^e, with m below 2^53, or no double: too large. *)
Definition round_double (num den : Z) : option (Z * Z) :=
  let k := Z.log2 num - Z.log2 den in
  let '(a, b) := scale 2 k 1 1 in
  let e := Z.max (if b * num <? a * den then k - 53 else k - 52) (-1074) in
  let '(n, d) := scale 2 (- e) num den in
  let m := round_half_even n d in
  let '(m, e) := if m =? 2 ^ 53 then (2 ^ 52, e + 1) else (m, e) in
  if 971 <? e then None else Some (m, e).

(** ** Reading *)

(** The number of a string of digits. *)
Fixpoint digits_value (acc : Z) (s : string) : Z :=
  match s with
  | EmptyString => acc
  | String a s' => digits_value (10 * acc + (Z.of_nat (nat_of_ascii a) - 48)) s'
  end.

(** The parts of a JSON number: sign, digits, and the power of ten. *)
Definition number_parts (literal : string) : bool * Z * Z :=
  let '(neg, s) := match literal with String "-" s => (true, s) | s => (false, s) end in
  let low := ToLower s in
  let '(mant, ex) := match cut "e" low with
                     | Some (m, String "-" x) => (m, - digits_value 0 x)
                     | Some (m, String "+" x) => (m, digits_value 0 x)
                     | Some (m, x) => (m, digits_value 0 x)
                     | None => (low, 0)
                     end in
  match cut "." mant with
  | Some (i, f) => (neg, digits_value 0 (i +:+ f), ex - Z.of_nat (slen f))
  | None => (neg, digits_value 0 mant, ex)
  end.

(** A double: its sign, and mantissa and exponent. *)
Record double := mkDouble { d_neg : bool; d_m : Z; d_e : Z }.

(** Powers of ten far beyond the range need not be computed. *)
Definition parse_float (literal : string) : option double :=
  let '(neg, m, e) := number_parts literal in
  if m =? 0 then Some (mkDouble neg 0 0)
  else
    let size := Z.log2 m * 30103 / 100000 + e in
    if 330 <? size then None
    else if size <? -350 then Some (mkDouble neg 0 0)
    else
      let '(n, d) := scale 10 e m 1 in
      '(m, e) ← round_double n d; Some (mkDouble neg m e).

(** ** Writing *)

(** The least p, from a guess on, with num/den < 10^p. *)
Fixpoint ten_above (fuel : nat) (p num den : Z) : Z :=
  match fuel with
  | O => p
  | S k => let '(a, b) := scale 10 p 1 1 in
           if b * num <? a * den then p else ten_above k (p + 1) num den
  end.

(** The shortest digits c and power q with c * 10^q rounding to the double. *)
Fixpoint shortest (fuel : nat) (n p : Z) (x : Z * Z) (num den : Z) : Z * Z :=
  let q := p - n in
  let '(a, b) := scale 10 (- q) num den in
  let lo := a / b in
  let near := round_half_even a b in
  let far := if near =? lo then lo + 1 else lo in
  let back c := let '(u, v) := scale 10 q c 1 in
                (0 <? c) && bool_decide (round_double u v = Some x) in
  match fuel with
  | O => (near, q)
  | S k => if back near then (near, q) else if back far then (far, q)
           else shortest k (n + 1) p x num den
  end.

Fixpoint trim_zeros (fuel : nat) (c q : Z) : Z * Z :=
  match fuel with
  | O => (c, q)
  | S k => if (c mod 10 =? 0) && (0 <? c) then trim_zeros k (c / 10) (q + 1) else (c, q)
  end.

Definition zeros (n : Z) : string := foldr String "" (replicate (Z.to_nat n) "0"%char).

(** The digits with the point behind the first dp of them. *)
Definition format_f (ds : string) (dp : Z) : string :=
  let nd := Z.of_nat (slen ds) in
  if dp <=? 0 then "0." +:+ zeros (- dp) +:+ ds
  else if nd <=? dp then ds +:+ zeros (dp - nd)
  else take_bytes (Z.to_nat dp) ds +:+ "." +:+ drop_bytes (Z.to_nat dp) ds.

(** The exponent has no leading zero. *)
Definition format_e (ds : string) (dp : Z) : string :=
  let ex := dp - 1 in
  take_bytes 1 ds +:+ (if (1 <? Z.of_nat (slen ds)) then "." +:+ drop_bytes 1 ds else "") +:+
  "e" +:+ (if ex <? 0 then "-" else "+") +:+ pretty (Z.abs ex).

Definition float_text (f : double) : string :=
  (if d_neg f then "-" else "") +:+
  (if d_m f =? 0 then "0"
   else
     let '(num, den) := scale 2 (d_e f) (d_m f) 1 in
     let p := ten_above 4 ((Z.log2 (d_m f) + d_e f) * 30103 / 100000) num den in
     let '(c, q) := shortest 16 1 p (d_m f, d_e f) num den in
     let '(c, q) := trim_zeros 20 c q in
     let ds := pretty c in
     let dp := q + Z.of_nat (slen ds) in
     if (dp <=? -6) || (22 <=? dp) then format_e ds dp else format_f ds dp).

(** What becomes of a JSON number that is read and written again. *)
Definition renumber (literal : string) : option string := float_text <$> parse_float literal.

Close Scope Z_scope.

(** ** Examples *)
Example renumber_int : renumber "7052" = Some "7052".
Proof. by vm_compute. Qed.
Example renumber_frac : renumber "-0.10e1" = Some "-1".
Proof. by vm_compute. Qed.
Example renumber_big : renumber "12345678901234567890123" = Some "1.2345678901234568e+22".
Proof. by vm_compute. Qed.
Example renumber_inexact : renumber "9007199254740993" = Some "9007199254740992".
Proof. by vm_compute. Qed.
Example renumber_small : renumber "0.00000012" = Some "1.2e-7".
Proof. by vm_compute. Qed.
Example renumber_point : renumber "0.1" = Some "0.1" ∧ renumber "3.14159" = Some "3.14159".
Proof. by vm_compute. Qed.
Example renumber_edges :
  renumber "1.7976931348623157e308" = Some "1.7976931348623157e+308" ∧ renumber "1e309" = None ∧
  renumber "5e-324" = Some "5e-324" ∧ renumber "2e-324" = Some "0" ∧ renumber "-0" = Some "-0".
Proof. by vm_compute. Qed.
Example renumber_powers :
  renumber "100000000000000000000" = Some "100000000000000000000" ∧
  renumber "1000000000000000000000" = Some "1e+21" ∧ renumber "0.000001" = Some "0.000001" ∧
  renumber "5.6843418860808015e-14" = Some "5.684341886080802e-14".
Proof. by vm_compute. Qed.
