(* ===== verification/JsonMap.v ===== *)
(** * JSON objects as maps

    json.Unmarshal into map[string]interface{} and json.Marshal of such a map:
    keys in order, the last of equal keys, numbers through float64, strings
    with the escapes of encoding/json, HTML's among them. *)
From S2P Require Import Prelude GoStrings Url Json Float64.

(** ** Reading *)

(** The first number that is too large for a float64. *)
Fixpoint bad_number (v : json) : option string :=
  match v with
  | JNumber x => match parse_float x with Some _ => None | None => Some x end
  | JArray l =>
      (fix go l := match l with [] => None | v :: l' =>
         match bad_number v with Some x => Some x | None => go l' end end) l
  | JObject l =>
      (fix go l := match l with [] => None | (_, v) :: l' =>
         match bad_number v with Some x => Some x | None => go l' end end) l
  | _ => None
  end.

(** The last of equal keys wins. *)
Definition map_of (l : list (string * json)) : gmap string json :=
  foldl (λ m kv, <[kv.1 := kv.2]> m) ∅ l.

Definition unmarshal_map (data : string) : go_error + gmap string json :=
  match parse_json data with
  | inl e => inl e
  | inr JNull => inr ∅
  | inr (JObject l) =>
      match bad_number (JObject l) with
      | Some x => inl (ErrorString ("json: cannot unmarshal number " +:+ x +:+
                                    " into Go value of type float64"))
      | None => inr (map_of l)
      end
  | inr v => inl (ErrorString ("json: cannot unmarshal " +:+ kind v +:+
                               " into Go value of type map[string]interface {}"))
  end.

(** [v.(string)]. *)
Definition as_string (v : option json) : option string :=
  match v with Some (JString s) => Some s | _ => None end.

(** ** Writing *)

Definition hex_lower (n : nat) : ascii :=
  if n <? 10 then byte (48 + n) else byte (87 + n).

(** \u00XX. *)
Definition u00 (a : ascii) : string :=
  String backslash ("u00" +:+ String (hex_lower (code a / 16)) (String (hex_lower (code a mod 16)) "")).

Definition escape_byte (a : ascii) : string :=
  if bool_decide (a = dquote) || bool_decide (a = backslash) then String backslash (String a "")
  else if code a =? 8 then String backslash "b"
  else if code a =? 12 then String backslash "f"
  else if code a =? 10 then String backslash "n"
  else if code a =? 13 then String backslash "r"
  else if code a =? 9 then String backslash "t"
  else if (code a <? 32) || bool_decide (a = "<"%char) || bool_decide (a = ">"%char)
          || bool_decide (a = "&"%char) then u00 a
  else String a "".

(** U+2028 and U+2029, the line ends of JavaScript. *)
Definition line_end (a b c : ascii) : option string :=
  if (code a =? 226) && (code b =? 128) && (code c =? 168) then Some (String backslash "u2028")
  else if (code a =? 226) && (code b =? 128) && (code c =? 169) then Some (String backslash "u2029")
  else None.

Definition bad_utf8 : string := String backslash "ufffd".

Fixpoint escape_json (s : string) : string :=
  match s with
  | EmptyString => ""
  | String a s1 =>
      if code a <? 128 then escape_byte a +:+ escape_json s1
      else match s1 with
      | EmptyString => bad_utf8
      | String b s2 =>
          if valid2 a b then String a (String b (escape_json s2))
          else match s2 with
          | EmptyString => bad_utf8 +:+ escape_json s1
          | String c s3 =>
              if valid3 a b c then
                default (String a (String b (String c ""))) (line_end a b c) +:+ escape_json s3
              else match s3 with
              | EmptyString => bad_utf8 +:+ escape_json s1
              | String d s4 =>
                  if valid4 a b c d
                  then String a (String b (String c (String d (escape_json s4))))
                  else bad_utf8 +:+ escape_json s1
              end
          end
      end
  end.

Definition marshal_string (s : string) : string :=
  String dquote (escape_json s +:+ String dquote "").

(** Members by key. *)
Definition member_le (a b : string * string) : Prop := String.leb a.1 b.1 = true.

#[export] Instance member_le_dec : RelDecision member_le.
Proof. intros a b. unfold member_le. apply _. Defined.

(** An object of members already written. *)
Definition marshal_members (m : gmap string string) : string :=
  "{" +:+ Join ((λ kv, marshal_string kv.1 +:+ ":" +:+ kv.2) <$> merge_sort member_le (map_to_list m)) ","
  +:+ "}".

Fixpoint marshal (v : json) : string :=
  match v with
  | JNull => "null"
  | JBool b => if b then "true" else "false"
  | JNumber x => default x (renumber x)
  | JString s => marshal_string s
  | JArray l => "[" +:+ Join (marshal <$> l) "," +:+ "]"
  | JObject l =>
      marshal_members (foldl (λ m kv, <[kv.1 := kv.2]> m) ∅ ((λ kv, (kv.1, marshal kv.2)) <$> l))
  end.

(** json.Marshal of a map that was not nil. *)
Definition marshal_map (m : gmap string json) : string := marshal_members (marshal <$> m).

(** ** Examples *)
Module Demo.
Definition q (s : string) : string := String dquote (s +:+ String dquote "").
Definition text : string :=
  "{" +:+ q "b" +:+ ": [1.50, true, null], " +:+ q "a" +:+ ":" +:+ q "x<y" +:+ "," +:+ q "b" +:+ ":{" +:+
  q "z" +:+ ":1," +:+ q "k" +:+ ":-0.0}}".
Definition written : string :=
  "{" +:+ q "a" +:+ ":" +:+ q ("x" +:+ u00 "<" +:+ "y") +:+ "," +:+ q "b" +:+ ":{" +:+ q "k" +:+ ":-0," +:+
  q "z" +:+ ":1}}".
End Demo.

Example marshal_example : marshal_map <$> (match unmarshal_map Demo.text with inr m => Some m | inl _ => None end) = Some Demo.written.
Proof. by vm_compute. Qed.
