(* ===== verification/JsonRoundTrip.v ===== *)
(** * What is written is read back

    json.Unmarshal of what json.Marshal wrote. A string comes back with its
    invalid UTF-8 replaced, which leaves a string that was read alone. Values of
    connection.json are strings, booleans, null and lists of these: for such a
    map the text means the map. *)
From S2P Require Import Prelude GoStrings Url Json Float64 JsonMap.

(** ** Strings *)

(** A text, the same with invalid UTF-8 replaced, and how it is written. *)
Inductive written : string → string → string → Prop :=
  | written_nil : written "" "" ""
  | written_ascii a s x e :
      code a < 128 → written s x e → written (String a s) (String a x) (escape_byte a +:+ e)
  | written_2 a b s x e :
      128 ≤ code a → valid2 a b = true → written s x e →
      written (String a (String b s)) (String a (String b x)) (String a (String b e))
  | written_3 a b c s x e :
      128 ≤ code a → valid2 a b = false → valid3 a b c = true → written s x e →
      written (String a (String b (String c s))) (String a (String b (String c x)))
        (default (String a (String b (String c ""))) (line_end a b c) +:+ e)
  | written_4 a b c d s x e :
      128 ≤ code a → valid2 a b = false → valid3 a b c = false → valid4 a b c d = true → written s x e →
      written (String a (String b (String c (String d s)))) (String a (String b (String c (String d x))))
        (String a (String b (String c (String d e))))
  | written_bad a s x e : written s x e → written (String a s) (replacement +:+ x) (bad_utf8 +:+ e).

Lemma escape_written s : written s (utf8_fix s) (escape_json s).
Proof.
  remember (slen s) as n eqn:Hn. revert s Hn. induction n as [n IH] using lt_wf_ind; intros s ->.
  assert (∀ t, slen t < slen s → written t (utf8_fix t) (escape_json t)) as IH' by (intros t Ht; by apply (IH (slen t))).
  clear IH. destruct s as [|a s1]; [constructor|]. cbn [utf8_fix escape_json].
  destruct (Nat.ltb_spec (code a) 128); [constructor; [done|apply IH'; simpl; lia]|].
  destruct s1 as [|b s2]; [apply (written_bad a "" "" ""), written_nil|].
  destruct (valid2 a b) eqn:E2; [constructor; [done..|apply IH'; simpl; lia]|].
  destruct s2 as [|c s3]; [apply written_bad, IH'; simpl; lia|].
  destruct (valid3 a b c) eqn:E3; [constructor; [done..|apply IH'; simpl; lia]|].
  destruct s3 as [|d s4]; [apply written_bad, IH'; simpl; lia|].
  destruct (valid4 a b c d) eqn:E4; [constructor; [done..|apply IH'; simpl; lia]|].
  apply written_bad, IH'; simpl; lia.
Qed.

(** Replacing twice is replacing once. *)
Lemma written_fixed s x e : written s x e → utf8_fix x = x.
Proof.
  induction 1 as [|a s x e Ha _ IH|a b s x e Ha H2 _ IH|a b c s x e Ha H2 H3 _ IH|a b c d s x e Ha H2 H3 H4 _ IH|a s x e _ IH];
    cbn [utf8_fix]; [done|..|cbn; by rewrite IH].
  - rewrite (proj2 (Nat.ltb_lt _ _) Ha). by rewrite IH.
  - rewrite (proj2 (Nat.ltb_ge _ _) Ha), H2. by rewrite IH.
  - rewrite (proj2 (Nat.ltb_ge _ _) Ha), H2, H3. by rewrite IH.
  - rewrite (proj2 (Nat.ltb_ge _ _) Ha), H2, H3, H4. by rewrite IH.
Qed.

Lemma utf8_fix_idemp s : utf8_fix (utf8_fix s) = utf8_fix s.
Proof. eapply written_fixed, escape_written. Qed.

(** ASCII is UTF-8. *)
Lemma utf8_fix_ascii s : all_bytes (λ a, code a <? 128) s = true → utf8_fix s = s.
Proof. induction s as [|a s IH]; cbn [all_bytes utf8_fix]; [done|]. intros [-> Hs]%andb_prop. by rewrite IH. Qed.

(** Behind what was scanned the scan goes on. *)
Definition and_then (x : string) (m : option (string * string)) : option (string * string) :=
  '(t, r) ← m; Some (x +:+ t, r).

Lemma scan_high a t : 128 ≤ code a → scan_string None (String a t) = and_then (String a "") (scan_string None t).
Proof.
  intros Ha. cbn [scan_string].
  rewrite !bool_decide_eq_false_2 by (intros ->; vm_compute in Ha; lia).
  by rewrite (proj2 (Nat.ltb_ge _ _)) by lia.
Qed.

Lemma scan_escape a t : code a < 128 → scan_string None (escape_byte a +:+ t) = and_then (String a "") (scan_string None t).
Proof. intros Ha. destruct a as [[] [] [] [] [] [] [] []]; first [by (vm_compute in Ha; lia) | reflexivity]. Qed.

Lemma scan_line_end a b c u t :
  line_end a b c = Some u → scan_string None (u +:+ t) = and_then (String a (String b (String c ""))) (scan_string None t).
Proof.
  unfold line_end. intros Hu.
  assert (∀ x n, (code x =? n) = true → x = byte n) as Hb.
  { intros x n Hx%Nat.eqb_eq. unfold byte. rewrite <- Hx. symmetry. apply ascii_nat_embedding. }
  destruct ((code a =? 226) && (code b =? 128) && (code c =? 168)) eqn:E1.
  - injection Hu as <-. apply andb_prop in E1 as [[->%Hb ->%Hb]%andb_prop ->%Hb]. reflexivity.
  - destruct ((code a =? 226) && (code b =? 128) && (code c =? 169)) eqn:E2; [|done].
    injection Hu as <-. apply andb_prop in E2 as [[->%Hb ->%Hb]%andb_prop ->%Hb]. reflexivity.
Qed.

Lemma valid2_high a b : valid2 a b = true → 128 ≤ code b.
Proof. unfold valid2, cont, in_range, code. rewrite !andb_true_iff, !Nat.leb_le. lia. Qed.

Lemma valid3_high a b c : valid3 a b c = true → 128 ≤ code b ∧ 128 ≤ code c.
Proof.
  unfold valid3, cont, in_range, code. intros [H1 H2]%andb_prop. repeat case_match; 
    rewrite ?andb_true_iff, ?Nat.leb_le in *; lia.
Qed.

Lemma valid4_high a b c d : valid4 a b c d = true → 128 ≤ code b ∧ 128 ≤ code c ∧ 128 ≤ code d.
Proof.
  unfold valid4, cont, in_range, code. intros [[H1 H2]%andb_prop H3]%andb_prop. repeat case_match;
    rewrite ?andb_true_iff, ?Nat.leb_le in *; lia.
Qed.

Lemma scan_written s x e r : written s x e → scan_string None (e +:+ String dquote r) = Some (x, r).
Proof.
  induction 1 as [|a s x e Ha _ IH|a b s x e Ha H2 _ IH|a b c s x e Ha _ H3 _ IH|a b c d s x e Ha _ _ H4 _ IH|a s x e _ IH].
  - done.
  - by rewrite <- sapp_assoc, scan_escape, IH.
  - apply valid2_high in H2. cbn [String.append]. by rewrite !scan_high, IH.
  - apply valid3_high in H3 as [Hb Hc]. rewrite <- sapp_assoc.
    destruct (line_end a b c) as [u|] eqn:E; cbn [default id from_option].
    + by rewrite (scan_line_end a b c), IH.
    + cbn [String.append]. by rewrite !scan_high, IH.
  - apply valid4_high in H4 as (Hb & Hc & Hd). cbn [String.append]. by rewrite !scan_high, IH.
  - rewrite <- sapp_assoc. change (scan_string None (bad_utf8 +:+ e +:+ String dquote r)) with
      (and_then replacement (scan_string None (e +:+ String dquote r))). by rewrite IH.
Qed.

(** A string, as it is read. *)
Lemma scan_marshal_string s r : scan_string None (escape_json s +:+ String dquote r) = Some (utf8_fix s, r).
Proof. eapply scan_written, escape_written. Qed.

Lemma marshal_string_app s r : marshal_string s +:+ r = String dquote (escape_json s +:+ String dquote r).
Proof. unfold marshal_string. cbn [String.append]. by rewrite <- sapp_assoc. Qed.

Lemma scan_marshal_key k r : scan_key (marshal_string k +:+ ":" +:+ r) = Some (utf8_fix k, r).
Proof.
  rewrite marshal_string_app. unfold scan_key. change (expect dquote (String dquote ?t)) with (Some t).
  cbn [mbind option_bind]. rewrite scan_marshal_string. cbn. by rewrite utf8_fix_idemp.
Qed.

(** ** Values *)

(** Values without numbers and objects. *)
Fixpoint plain (v : json) : bool :=
  match v with
  | JNull | JBool _ | JString _ => true
  | JArray l => forallb plain l
  | JNumber _ | JObject _ => false
  end.

(** The value that is read for one that is written. *)
Fixpoint coerce (v : json) : json :=
  match v with
  | JString s => JString (utf8_fix s)
  | JArray l => JArray (coerce <$> l)
  | v => v
  end.

(** Induction over values with what holds of every element of a list. *)
Fixpoint plain_ind (P : json → Prop) (Hn : P JNull) (Hb : ∀ b, P (JBool b)) (Hs : ∀ s, P (JString s))
    (Ha : ∀ l, Forall P l → P (JArray l)) (v : json) : plain v = true → P v :=
  match v with
  | JNull => λ _, Hn
  | JBool b => λ _, Hb b
  | JString s => λ _, Hs s
  | JArray l => λ H, Ha l ((fix go l : forallb plain l = true → Forall P l :=
      match l with
      | [] => λ _, Forall_nil_2 P
      | v :: l => λ H, Forall_cons_2 P v l (plain_ind P Hn Hb Hs Ha v (proj1 (andb_prop _ _ H))) (go l (proj2 (andb_prop _ _ H)))
      end) l H)
  | JNumber _ | JObject _ => λ H, False_ind _ (diff_false_true H)
  end.

(** What holds from some fuel on. *)
Definition eventually {A} (f : nat → option A) (x : A) : Prop := ∃ n, ∀ m, n ≤ m → f m = Some x.

(** The tail of a list of texts, up to its closing bracket. *)
Definition tail_text (close : string) (l : list string) : string := foldr (λ x t, "," +:+ x +:+ t) close l.

Lemma Join_tail x l close : Join (x :: l) "," +:+ close = x +:+ tail_text close l.
Proof.
  revert x. induction l as [|y l IH]; intros x; [done|]. rewrite Join_cons by done.
  rewrite <- !sapp_assoc, IH. done.
Qed.

(** A value starts with a byte that is neither a blank nor a closing bracket. *)
Lemma marshal_head v : plain v = true →
  ∃ a t, marshal v = String a t ∧ is_space a = false ∧ a ≠ "]"%char ∧ a ≠ "}"%char.
Proof.
  destruct v as [|[]| |s|l|]; intros Hv; try discriminate Hv; (eexists _, _; split; [reflexivity|]; by repeat split).
Qed.

Lemma tail_text_cons close x l : tail_text close (x :: l) = "," +:+ x +:+ tail_text close l.
Proof. done. Qed.

Lemma tail_text_app close l r : tail_text close l +:+ r = tail_text (close +:+ r) l.
Proof. induction l as [|x l IH]; [done|]. rewrite !tail_text_cons, <- !sapp_assoc. by rewrite IH. Qed.

Lemma expect_none a v r : plain v = true → a = "]"%char ∨ a = "}"%char → expect a (marshal v +:+ r) = None.
Proof.
  intros (b & t & -> & Hs & H1 & H2)%marshal_head Ha. unfold expect. cbn [String.append skip]. rewrite Hs.
  rewrite bool_decide_eq_false_2; [done|]. by destruct Ha as [-> | ->].
Qed.

(** How a value is read. *)
Definition reads_back (v : json) : Prop := ∀ r, eventually (λ n, parse n (marshal v +:+ r)) (coerce v, r).

Lemma elements_back l r :
  Forall reads_back l → eventually (λ n, elements n (tail_text ("]" +:+ r) (marshal <$> l))) (coerce <$> l, r).
Proof.
  induction 1 as [|v l Hv _ [n2 IH]]; [exists 1; by intros [|m] Hm; [lia|]|].
  destruct (Hv (tail_text ("]" +:+ r) (marshal <$> l))) as [n1 Hn1]. exists (S (n1 + n2)). intros [|m] Hm; [lia|].
  change (elements (S m) (tail_text ("]" +:+ r) (marshal <$> v :: l))) with
    ('(w, s2) ← parse m (marshal v +:+ tail_text ("]" +:+ r) (marshal <$> l));
     '(l', r') ← elements m s2; Some (w :: l', r')).
  rewrite Hn1 by lia. cbn [mbind option_bind]. by rewrite IH by lia.
Qed.

Lemma array_back l : Forall (λ v, plain v = true ∧ reads_back v) l → reads_back (JArray l).
Proof.
  intros Hl r. destruct Hl as [|v l [Hp Hv] Hl]; [exists 1; by intros [|m] Hm; [lia|]|].
  destruct (elements_back l r) as [n2 H2]; [eapply Forall_impl; [exact Hl|by intros w []]|].
  destruct (Hv (tail_text ("]" +:+ r) (marshal <$> l))) as [n1 H1].
  exists (S (n1 + n2)). intros [|m] Hm; [lia|].
  replace (marshal (JArray (v :: l)) +:+ r) with ("[" +:+ marshal v +:+ tail_text ("]" +:+ r) (marshal <$> l)).
  2: { rewrite <- tail_text_app, (sapp_assoc (marshal v)), <- Join_tail. cbn [marshal fmap list_fmap]. by rewrite <- !sapp_assoc. }
  change (parse (S m) ("[" +:+ ?t)) with
    (match expect "]" t with
     | Some r => Some (JArray [], r)
     | None => '(v, s2) ← parse m t; '(l, r) ← elements m s2; Some (JArray (v :: l), r)
     end).
  rewrite expect_none by auto. rewrite H1 by lia. cbn [mbind option_bind]. by rewrite H2 by lia.
Qed.

Lemma prefix_rest_app p r : prefix_rest p (p +:+ r) = Some r.
Proof. unfold prefix_rest. rewrite (proj2 (HasPrefix_spec _ _)) by by eexists. by rewrite drop_bytes_app. Qed.

Lemma literal_back v : (if v is JArray _ then False else plain v = true) → reads_back v.
Proof.
  destruct v as [|[]| |s|l|]; intros Hv; try done; intros r; exists 1; (intros [|m] Hm; [lia|]); cbn [marshal].
  - change (prefix_rest "null" ("null" +:+ r) ≫= (λ r, Some (JNull, r)) = Some (JNull, r)). by rewrite prefix_rest_app.
  - change (prefix_rest "true" ("true" +:+ r) ≫= (λ r, Some (JBool true, r)) = Some (JBool true, r)). by rewrite prefix_rest_app.
  - change (prefix_rest "false" ("false" +:+ r) ≫= (λ r, Some (JBool false, r)) = Some (JBool false, r)). by rewrite prefix_rest_app.
  - rewrite marshal_string_app. change (parse (S m) (String dquote ?t)) with
      ('(x, r) ← scan_string None t; Some (JString (utf8_fix x), r)).
    rewrite scan_marshal_string. cbn. by rewrite utf8_fix_idemp.
Qed.

Lemma plain_back v : plain v = true → reads_back v.
Proof.
  intros Hv. apply (plain_ind (λ v, plain v = true ∧ reads_back v)); [..|done]; clear v Hv.
  1-3: by intros; split; [|apply literal_back].
  intros l Hl. split; [|by apply array_back]. induction Hl as [|v l [Hv _] _ IH]; [done|].
  cbn [plain forallb] in *. by rewrite Hv.
Qed.

(** ** Maps *)

Definition member_text (kv : string * json) : string := marshal_string kv.1 +:+ ":" +:+ marshal kv.2.

Definition coerce_member (kv : string * json) : string * json := (utf8_fix kv.1, coerce kv.2).

Lemma member_back kv r : plain kv.2 = true →
  ∃ s, scan_key (member_text kv +:+ r) = Some (utf8_fix kv.1, s) ∧ eventually (λ n, parse n s) (coerce kv.2, r).
Proof.
  intros Hv. exists (marshal kv.2 +:+ r). split; [|by apply plain_back].
  unfold member_text. rewrite <- sapp_assoc, <- sapp_assoc. apply scan_marshal_key.
Qed.

Lemma members_back l r : Forall (λ kv, plain kv.2 = true) l →
  eventually (λ n, members n (tail_text ("}" +:+ r) (member_text <$> l))) (coerce_member <$> l, r).
Proof.
  induction 1 as [|kv l Hv _ [n2 IH]]; [exists 1; by intros [|m] Hm; [lia|]|].
  destruct (member_back kv (tail_text ("}" +:+ r) (member_text <$> l)) Hv) as (s & Hk & n1 & H1).
  exists (S (n1 + n2)). intros [|m] Hm; [lia|].
  change (members (S m) (tail_text ("}" +:+ r) (member_text <$> kv :: l))) with
    ('(k, s2) ← scan_key (member_text kv +:+ tail_text ("}" +:+ r) (member_text <$> l));
     '(v, s3) ← parse m s2; '(l', r') ← members m s3; Some ((k, v) :: l', r')).
  rewrite Hk. cbn [mbind option_bind]. rewrite H1 by lia. cbn [mbind option_bind]. by rewrite IH by lia.
Qed.

Lemma object_back l : Forall (λ kv, plain kv.2 = true) l →
  eventually (λ n, parse n ("{" +:+ Join (member_text <$> l) "," +:+ "}")) (JObject (coerce_member <$> l), "").
Proof.
  intros Hl. destruct Hl as [|kv l Hv Hl]; [exists 1; by intros [|m] Hm; [lia|]|].
  destruct (members_back l "" Hl) as [n2 H2].
  destruct (member_back kv (tail_text "}" (member_text <$> l)) Hv) as (s & Hk & n1 & H1).
  exists (S (n1 + n2)). intros [|m] Hm; [lia|]. cbn [fmap list_fmap]. rewrite Join_tail.
  assert (expect "}" (member_text kv +:+ tail_text "}" (member_text <$> l)) = None) as He by done.
  change (parse (S m) ("{" +:+ ?t)) with
    (match expect "}" t with
     | Some r => Some (JObject [], r)
     | None => '(k, s1) ← scan_key t; '(v, s2) ← parse m s1; '(l, r) ← members m s2; Some (JObject ((k, v) :: l), r)
     end).
  rewrite He, Hk. cbn [mbind option_bind]. rewrite H1 by lia. cbn [mbind option_bind]. by rewrite H2 by lia.
Qed.

(** A text of which a parse is known from some fuel on. *)
Lemma parse_eventually s v : eventually (λ n, parse n s) (v, "") → parse_json s = inr v.
Proof.
  intros [n Hn]. unfold parse_json. rewrite <- (proj1 (parse_fuel (S (slen s))) (n + S (slen s)) s) by lia.
  by rewrite Hn by lia.
Qed.

Lemma map_of_nodup l : NoDup l.*1 → map_of l = list_to_map l.
Proof.
  intros Hl. unfold map_of.
  assert (foldl (λ m kv, <[kv.1 := kv.2]> m) ∅ l = list_to_map (reverse l) :> gmap string json) as ->.
  { rewrite <- (reverse_involutive l) at 1. generalize (reverse l). clear. induction l as [|[k v] l IH]; [done|].
    rewrite reverse_cons, foldl_app. cbn. by rewrite IH. }
  apply list_to_map_proper; [|apply reverse_Permutation]. by rewrite reverse_Permutation.
Qed.

Lemma coerce_plain v : plain v = true → bad_number (coerce v) = None.
Proof.
  revert v. apply plain_ind; [done..|]. intros l Hl. cbn [coerce bad_number].
  induction Hl as [|v l Hv _ IH]; [done|]. cbn [fmap list_fmap]. by rewrite Hv.
Qed.

Lemma bad_number_members l : Forall (λ kv, plain kv.2 = true) l → bad_number (JObject (coerce_member <$> l)) = None.
Proof.
  intros Hl. cbn [bad_number]. induction Hl as [|[k v] l Hv _ IH]; [done|]. cbn [fmap list_fmap coerce_member fst snd].
  cbn [fst snd] in Hv. by rewrite coerce_plain.
Qed.

(** The members in the order they are written in. *)
Lemma marshal_map_text m :
  ∃ l, l ≡ₚ map_to_list m ∧ marshal_map m = "{" +:+ Join (member_text <$> l) "," +:+ "}".
Proof.
  assert (merge_sort member_le (map_to_list (marshal <$> m)) ≡ₚ prod_map id marshal <$> map_to_list m) as Hp.
  { by rewrite merge_sort_Permutation, map_to_list_fmap. }
  apply (Permutation_map_inv (prod_map id marshal)) in Hp as (l & E & Hl). exists l. split; [by symmetry|].
  unfold marshal_map, marshal_members. rewrite E.
  change (List.map (prod_map id marshal) l) with (prod_map id marshal <$> l). by rewrite <- list_fmap_compose.
Qed.

(** A map of plain values under well-formed keys is read back from its text. *)
Lemma unmarshal_marshal_map m :
  (∀ k v, m !! k = Some v → utf8_fix k = k ∧ plain v = true) →
  unmarshal_map (marshal_map m) = inr (coerce <$> m).
Proof.
  intros Hm. destruct (marshal_map_text m) as (l & Hl & ->).
  assert (∀ kv, kv ∈ l → utf8_fix kv.1 = kv.1 ∧ plain kv.2 = true) as Hk.
  { intros [k v] Hkv. apply Hm, elem_of_map_to_list. by rewrite <- Hl. }
  assert (Forall (λ kv, plain kv.2 = true) l) as Hp by (apply Forall_forall; intros kv Hkv; by apply Hk).
  unfold unmarshal_map. rewrite (parse_eventually _ _ (object_back l Hp)). rewrite bad_number_members by done. f_equal.
  assert (coerce_member <$> l = prod_map id coerce <$> l) as ->.
  { apply list_fmap_ext. intros i [k v] Hi. apply list_elem_of_lookup_2, Hk in Hi as [Hu _]. cbn in *. unfold coerce_member. cbn.
    by rewrite Hu. }
  assert (NoDup l.*1) as Hn by (rewrite Hl; apply NoDup_fst_map_to_list).
  rewrite map_of_nodup.
  - rewrite list_to_map_fmap. f_equal. rewrite (list_to_map_proper l (map_to_list m)) by done. apply list_to_map_to_list.
  - rewrite <- list_fmap_compose. exact Hn.
Qed.

(** ** What was read *)

(** A plain value that was read has nothing left to replace. *)
Definition tidy (v : json) : Prop := plain v = true → coerce v = v.

Definition tidy_member (kv : string * json) : Prop := utf8_fix kv.1 = kv.1 ∧ tidy kv.2.

Definition tidy_members (v : json) : Prop := match v with JObject l => Forall tidy_member l | _ => True end.

Lemma tidy_array l : Forall tidy l → tidy (JArray l).
Proof.
  intros Hl H. cbn [plain coerce] in *. f_equal. induction Hl as [|v l Hv _ IH]; [done|].
  apply andb_prop in H as [Hp H]. cbn [fmap list_fmap]. by rewrite Hv, IH.
Qed.

Lemma scan_key_tidy s k r : scan_key s = Some (k, r) → utf8_fix k = k.
Proof.
  unfold scan_key. intros (s1 & _ & H)%bind_Some_inv. apply bind_Some_inv in H as ([k' s2] & _ & H).
  apply bind_Some_inv in H as (s3 & _ & [= <- _]). apply utf8_fix_idemp.
Qed.

Lemma parse_tidy n :
  (∀ s v r, parse n s = Some (v, r) → tidy v ∧ tidy_members v) ∧
  (∀ s l r, members n s = Some (l, r) → Forall tidy_member l) ∧
  (∀ s l r, elements n s = Some (l, r) → Forall tidy l).
Proof.
  induction n as [|n (IHp & IHm & IHe)]; [done|]. split; [|split]; intros s v r H.
  - cbn [parse] in H. destruct (skip s) as [|a s']; [done|].
    repeat case_bool_decide.
    + apply bind_Some_inv in H as ([x r'] & _ & [= <- _]). split; [|done]. intros _. cbn. by rewrite utf8_fix_idemp.
    + destruct (expect "}" s') as [t|]; [injection H as <- _; split; [done|constructor]|].
      apply bind_Some_inv in H as ([k s1] & Hk & H). apply bind_Some_inv in H as ([v' s2] & Hv & H).
      apply bind_Some_inv in H as ([l r'] & Hl & [= <- _]). split; [done|].
      apply Forall_cons. split; [split; [by eapply scan_key_tidy|by eapply IHp]|by eapply IHm].
    + destruct (expect "]" s') as [t|]; [injection H as <- _; by split|].
      apply bind_Some_inv in H as ([v' s2] & Hv & H). apply bind_Some_inv in H as ([l r'] & Hl & [= <- _]).
      split; [|done]. apply tidy_array. apply Forall_cons. split; [by eapply IHp|by eapply IHe].
    + by apply bind_Some_inv in H as (t & _ & [= <- _]).
    + by apply bind_Some_inv in H as (t & _ & [= <- _]).
    + by apply bind_Some_inv in H as (t & _ & [= <- _]).
    + by apply bind_Some_inv in H as ([x r'] & _ & [= <- _]).
  - cbn [members] in H. destruct (expect "}" s); [injection H as <- _; constructor|].
    apply bind_Some_inv in H as (s1 & _ & H). apply bind_Some_inv in H as ([k s2] & Hk & H).
    apply bind_Some_inv in H as ([v' s3] & Hv & H). apply bind_Some_inv in H as ([l r'] & Hl & [= <- _]).
    apply Forall_cons. split; [split; [by eapply scan_key_tidy|by eapply IHp]|by eapply IHm].
  - cbn [elements] in H. destruct (expect "]" s); [injection H as <- _; constructor|].
    apply bind_Some_inv in H as (s1 & _ & H). apply bind_Some_inv in H as ([v' s2] & Hv & H).
    apply bind_Some_inv in H as ([l r'] & Hl & [= <- _]). apply Forall_cons. split; [by eapply IHp|by eapply IHe].
Qed.

Lemma unmarshal_map_tidy s m k v : unmarshal_map s = inr m → m !! k = Some v → tidy_member (k, v).
Proof.
  unfold unmarshal_map, parse_json. intros H Hk.
  destruct (parse (S (slen s)) s) as [[w r]|] eqn:E; [|done]. apply parse_tidy in E as [_ Hw].
  destruct (bool_decide _); [|done]. destruct w as [| | | | |l]; simplify_eq.
  destruct (bad_number _); [done|]. injection H as <-. cbn [tidy_members] in Hw.
  assert (∀ l (m0 : gmap string json), (∀ k v, m0 !! k = Some v → tidy_member (k, v)) → Forall tidy_member l →
    ∀ k v, foldl (λ m kv, <[kv.1 := kv.2]> m) m0 l !! k = Some v → tidy_member (k, v)) as Hfold.
  { clear. induction l as [|[k0 v0] l IH]; intros m0 Hm Hl; [done|]. inversion Hl as [|? ? H1 H2]; subst. cbn.
    apply IH; [|done]. intros k v [[<- <-]|[_ Hv]]%lookup_insert_Some; [done|by apply Hm]. }
  apply (Hfold l ∅); [|done|exact Hk]. intros k0 v0 H0. by rewrite lookup_empty in H0.
Qed.

(** A map that was read is what a reader of its text gets. *)
Lemma unmarshal_again s m :
  unmarshal_map s = inr m → map_Forall (λ _ v, plain v = true) m → unmarshal_map (marshal_map m) = inr m.
Proof.
  intros Hs Hp. rewrite unmarshal_marshal_map.
  - f_equal. apply map_eq. intros k'. rewrite lookup_fmap.
    destruct (m !! k') as [v|] eqn:E; [|done]. cbn. f_equal. eapply unmarshal_map_tidy; [done..|by eapply Hp].
  - intros k' v Hv. split; [by eapply unmarshal_map_tidy|by eapply Hp].
Qed.

(** A map that was read, with one member set to a string, is what a reader of
    its text gets, but for invalid UTF-8 in the new string. *)
Lemma unmarshal_changed s m k x :
  unmarshal_map s = inr m → map_Forall (λ _ v, plain v = true) m → utf8_fix k = k →
  unmarshal_map (marshal_map (<[k := JString x]> m)) = inr (<[k := JString (utf8_fix x)]> m).
Proof.
  intros Hs Hp Hk. rewrite unmarshal_marshal_map.
  - rewrite fmap_insert. f_equal. f_equal. apply map_eq. intros k'. rewrite lookup_fmap.
    destruct (m !! k') as [v|] eqn:E; [|done]. cbn. f_equal. eapply unmarshal_map_tidy; [done..|by eapply Hp].
  - intros k' v [[<- <-]|[_ Hv]]%lookup_insert_Some; [done|]. split; [by eapply unmarshal_map_tidy|by eapply Hp].
Qed.
