(* ===== verification/Metadata.v ===== *)
(** * The metadata of a chaincode

    pkg/k8sbuilder/server.go: containsDotDot, extractChaincodeMetadata (the
    metadata.json of the package archive) and readRunMetadata (the artifacts
    the peer prepared for a run), both below the shared directory. *)
From S2P Require Import Prelude GoStrings GoPath OsModel TarFormat Json Containers PodSpec.

(** A ".." between path separators. *)
Definition containsDotDot (s : string) : bool :=
  if negb (Contains s "..") then false
  else existsb (λ segment, bool_decide (segment = ".."))
         (FieldsFunc (λ a, bool_decide (a = slash)) s).

(** What json.Unmarshal makes of the two files. *)
Definition unmarshal_chaincodeMetadata (contents : string) : go_error + chaincodeMetadata :=
  match unmarshal_struct "k8sbuilder" "chaincodeMetadata" ["path"; "type"] contents with
  | inl e => inl e
  | inr m => inr (mkChaincodeMetadata (field "path" m) (field "type" m))
  end.

Definition unmarshal_runMetadata (contents : string) : go_error + runMetadata :=
  match unmarshal_struct "k8sbuilder" "runMetadata"
          ["chaincode_id"; "client_cert"; "client_key"; "root_cert"; "peer_address"] contents with
  | inl e => inl e
  | inr m => inr (mkRunMetadata (field "chaincode_id" m) (field "client_cert" m)
                    (field "client_key" m) (field "root_cert" m) (field "peer_address" m))
  end.

Definition invalid_path (p : string) : go_error := ErrorString ("invalid metadata path: " +:+ p).

Section metadata.
Context `{TarFormat}.

(** The loop over tr.Next, and reading the entry it stops at. *)
Fixpoint find_metadata (es : list entry) (err : option go_error) : go_error + string :=
  match es with
  | [] => inl (default (ErrorString "metadata.json not found") err)
  | e :: es' =>
      if bool_decide (h_Name (e_header e) = "metadata.json")
      then match e_err e with Some x => inl x | None => inr (e_data e) end
      else find_metadata es' err
  end.

Definition metadata_of_archive (contents : string) : go_error + chaincodeMetadata :=
  let a := tar_read contents in
  match find_metadata (a_entries a) (a_err a) with
  | inl e => inl e
  | inr md => unmarshal_chaincodeMetadata md
  end.

Definition extractChaincodeMetadata (b : Server) (metadataPath : string)
    : M OS chaincodeMetadata :=
  if containsDotDot metadataPath then throw (invalid_path metadataPath)
  else
    let name := Clean (PathJoin [sv_SharedPath b; metadataPath]) in
    h ← Open name;
    deferring (CloseHandle h name)
      (contents ← ReadHandle h name; lift (metadata_of_archive contents)).

Definition readRunMetadata (b : Server) (metadataPath : string) : M OS runMetadata :=
  if containsDotDot metadataPath then throw (invalid_path metadataPath)
  else
    contents ← ReadFile (Clean (PathJoin [sv_SharedPath b; metadataPath]));
    lift (unmarshal_runMetadata contents).
End metadata.

(** ** Facts *)

(** containsDotDot is the check that joining cannot leave the directory. *)
Lemma containsDotDot_spec s : containsDotDot s = false ↔ no_dotdot s.
Proof.
  unfold containsDotDot, no_dotdot. destruct (Contains s "..") eqn:Hc; cbn [negb].
  - rewrite FieldsFunc_Split. rewrite <- not_true_iff_false, existsb_exists. split.
    + intros H Hin. apply H. exists "..". rewrite bool_decide_eq_true. split; [|done].
      apply list_elem_of_In, list_elem_of_filter. done.
    + intros H (x & Hx & ->%bool_decide_eq_true). apply H.
      apply list_elem_of_In, list_elem_of_filter in Hx. apply Hx.
  - split; [|done]. intros _ Hin. destruct (Split_substring _ _ _ Hin) as (t & u & E).
    assert (Contains s ".." = true) by (apply Contains_spec; eauto). congruence.
Qed.

(** The entry a path of a request names: below the shared directory. *)
Definition shared_entry (b : Server) (p : string) (s : OS) : fpath :=
  resolve (os_cwd s) (sv_SharedPath b) ++ elems p.

Lemma locate_shared b p s :
  sv_SharedPath b ≠ "" → containsDotDot p = false →
  locate (Clean (PathJoin [sv_SharedPath b; p])) s = shared_entry b p s.
Proof.
  intros Hs Hp%containsDotDot_spec. unfold locate. rewrite resolve_Clean.
  by apply resolve_PathJoin_below.
Qed.

Lemma extractChaincodeMetadata_same `{TarFormat} b p :
  keeps same_tree (extractChaincodeMetadata b p).
Proof.
  unfold extractChaincodeMetadata. destruct (containsDotDot p); [keeps_tac|].
  apply keeps_bind; [apply _|eauto with keeps|]. intros h.
  apply keeps_deferring; [apply _|eauto with keeps|].
  apply keeps_bind; [apply _|eauto with keeps|]. intros c. apply keeps_lift, _.
Qed.

Lemma readRunMetadata_same b p : keeps same_tree (readRunMetadata b p).
Proof.
  unfold readRunMetadata. destruct (containsDotDot p); [keeps_tac|].
  apply keeps_bind; [apply _|eauto with keeps|]. intros h. apply keeps_lift, _.
Qed.

#[export] Hint Resolve extractChaincodeMetadata_same readRunMetadata_same : keeps.

Definition of_result {A} (r : go_error + A) : outcome A :=
  match r with inl e => Err e | inr a => Ok a end.

Definition after_read {A} (f : string → go_error + A) (r : outcome string) : outcome A :=
  match r with
  | Ok c => of_result (f c)
  | Err e => Err e
  | Panic p => Panic p
  | Blocked => Blocked
  end.

Lemma lift_result {S A} (r : go_error + A) (s : S) : lift r s = (of_result r, s).
Proof. by destruct r. Qed.

Lemma bind_lift {S A B} (m : M S A) (f : A → go_error + B) s :
  ((a ← m; lift (f a)) s).1 =
  match (m s).1 with Ok a => of_result (f a) | Err e => Err e | Panic p => Panic p | Blocked => Blocked end.
Proof. unfold mbind, M_bind. destruct (m s) as [[] ?]; try done. by rewrite lift_result. Qed.

Lemma deferring_result {S A} (d : M S unit) (m : M S A) s :
  (∀ s', ∃ r, (d s').1 = r ∧ (∀ p, r ≠ Panic p) ∧ r ≠ Blocked) →
  (deferring d m s).1 = (m s).1.
Proof.
  intros Hd. unfold deferring. destruct (m s) as [r s']. destruct (Hd s') as (r' & E & Hp & Hb).
  destruct (d s') as [r1 s1]. simpl in E. subst r1.
  destruct r; try done; destruct r'; try done; exfalso; by eapply Hp.
Qed.

(** ** Properties *)

(** C29: containsDotDot rejects exactly the paths with a parent element, and what
    passes stays below the shared directory: joined to it, the path names the
    entry reached from it by the names in the path. *)
Theorem containsDotDot_confines b p s :
  sv_SharedPath b ≠ "" →
  (containsDotDot p = true ↔ ".." ∈ Split slash p) ∧
  (containsDotDot p = false →
   locate (Clean (PathJoin [sv_SharedPath b; p])) s = shared_entry b p s ∧ Forall normal (elems p)).
Proof.
  intros Hs. split.
  - rewrite <- not_false_iff_true, containsDotDot_spec. unfold no_dotdot.
    destruct (decide (".." ∈ Split slash p)); tauto.
  - intros Hp. split; [by apply locate_shared|].
    by apply elems_normal, containsDotDot_spec.
Qed.

(** The archive at a path that passes the check is opened and read. *)
Lemma extract_below `{TarFormat} b p s :
  sv_SharedPath b ≠ "" → containsDotDot p = false → no_fault s → fs_wf (os_files s) →
  let name := Clean (PathJoin [sv_SharedPath b; p]) in
  match os_files s !! shared_entry b p s with
  | Some (File _ c) => (extractChaincodeMetadata b p s).1 = of_result (metadata_of_archive c)
  | Some (Directory _) => (extractChaincodeMetadata b p s).1 = Err (PathError "read" name EISDIR)
  | Some (Special _) => (extractChaincodeMetadata b p s).1 = Err (PathError "open" name EINVAL)
  | None => ∃ e, (extractChaincodeMetadata b p s).1 = Err (PathError "open" name e)
  end.
Proof.
  intros Hs Hp Hf Hwf. unfold extractChaincodeMetadata. rewrite Hp. cbv zeta.
  rewrite <- (locate_shared b p s Hs Hp). set (name := Clean _).
  destruct (Open_Read_spec name s
    (λ h m, deferring (CloseHandle h name) (contents ← m; lift (metadata_of_archive contents)))
    (after_read metadata_of_archive) Hf Hwf (Clean_not_empty _)) as (r & Hr & E).
  - intros h s' Hf'. rewrite deferring_result by by intros; apply CloseHandle_ends.
    rewrite bind_lift. by destruct (ReadHandle h name s') as [[] ?].
  - done.
  - rewrite E. unfold read_outcome in Hr.
    destruct (os_files s !! _) as [[]|]; [by subst..|]. destruct Hr as [e ->]. by exists e.
Qed.

(** The metadata of an archive are those of its first metadata.json. *)
Lemma metadata_of_archive_first `{TarFormat} c before e after :
  a_entries (tar_read c) = before ++ e :: after →
  Forall (λ e, h_Name (e_header e) ≠ "metadata.json") before → h_Name (e_header e) = "metadata.json" →
  metadata_of_archive c =
  match e_err e with Some x => inl x | None => unmarshal_chaincodeMetadata (e_data e) end.
Proof.
  intros Ha Hb He. unfold metadata_of_archive. rewrite Ha.
  assert (∀ err, find_metadata (before ++ e :: after) err =
    match e_err e with Some x => inl x | None => inr (e_data e) end) as ->; [|by destruct (e_err e)].
  intros err. clear Ha. induction Hb as [|e0 es He0 Hes IH]; cbn [app find_metadata].
  - by rewrite bool_decide_eq_true_2.
  - by rewrite bool_decide_eq_false_2.
Qed.

Lemma metadata_of_archive_none `{TarFormat} c :
  Forall (λ e, h_Name (e_header e) ≠ "metadata.json") (a_entries (tar_read c)) →
  metadata_of_archive c = inl (default (ErrorString "metadata.json not found") (a_err (tar_read c))).
Proof.
  intros Ha. unfold metadata_of_archive.
  assert (∀ err, find_metadata (a_entries (tar_read c)) err = inl (default (ErrorString "metadata.json not found") err)) as ->; [|done].
  intros err. induction Ha as [|e es He Hes IH]; cbn [find_metadata]; [done|]. by rewrite bool_decide_eq_false_2.
Qed.

(** C30: without failures, the metadata of a package are what json.Unmarshal makes
    of the first entry named metadata.json of the archive at the path below the
    shared directory, whatever entries, of that name too, come after it; an
    error of reading that entry is returned, and without such an entry the
    error of reading the archive, or that there is none. A path with a parent
    element is refused before anything is opened; on every path, failures
    included, nothing on disk changes. *)
Theorem extractChaincodeMetadata_spec `{TarFormat} b p s :
  sv_SharedPath b ≠ "" →
  let name := Clean (PathJoin [sv_SharedPath b; p]) in
  let r := (extractChaincodeMetadata b p s).1 in
  let named e := h_Name (e_header e) = "metadata.json" in
  same_tree s (extractChaincodeMetadata b p s).2 ∧
  (containsDotDot p = true → extractChaincodeMetadata b p s = (Err (invalid_path p), s)) ∧
  (containsDotDot p = false → no_fault s → fs_wf (os_files s) →
   match os_files s !! shared_entry b p s with
   | Some (File _ c) =>
       (∀ before e after, a_entries (tar_read c) = before ++ e :: after →
          Forall (λ e, ¬ named e) before → named e →
          r = match e_err e with
              | Some x => Err x
              | None => of_result (unmarshal_chaincodeMetadata (e_data e))
              end) ∧
       (Forall (λ e, ¬ named e) (a_entries (tar_read c)) →
          r = Err (default (ErrorString "metadata.json not found") (a_err (tar_read c))))
   | Some (Directory _) => r = Err (PathError "read" name EISDIR)
   | Some (Special _) => r = Err (PathError "open" name EINVAL)
   | None => ∃ e, r = Err (PathError "open" name e)
   end).
Proof.
  intros Hs. cbv zeta. split; [apply extractChaincodeMetadata_same|].
  split; [unfold extractChaincodeMetadata; by intros ->|].
  intros Hp Hf Hwf. pose proof (extract_below b p s Hs Hp Hf Hwf) as He. cbv zeta in He.
  destruct (os_files s !! _) as [[m c|m|m]|]; [|done..]. rewrite He. split.
  - intros before e after Ha Hb Hn. rewrite (metadata_of_archive_first c before e after) by done. by destruct (e_err e).
  - intros Ha. by rewrite metadata_of_archive_none.
Qed.

(** Without failures, the run metadata are what json.Unmarshal makes of the
    file at the path below the shared directory; a path with a parent element
    is refused, and nothing on disk changes. *)
Theorem readRunMetadata_spec b p s :
  sv_SharedPath b ≠ "" →
  let name := Clean (PathJoin [sv_SharedPath b; p]) in
  same_tree s (readRunMetadata b p s).2 ∧
  (containsDotDot p = true → readRunMetadata b p s = (Err (invalid_path p), s)) ∧
  (containsDotDot p = false → no_fault s → fs_wf (os_files s) →
   match os_files s !! shared_entry b p s with
   | Some (File _ c) => (readRunMetadata b p s).1 = of_result (unmarshal_runMetadata c)
   | _ => ∃ e, (readRunMetadata b p s).1 = Err e
   end).
Proof.
  intros Hs. cbv zeta. split; [apply readRunMetadata_same|].
  unfold readRunMetadata. split; [by intros ->|]. intros Hp Hf Hwf. rewrite Hp.
  rewrite <- (locate_shared b p s Hs Hp). rewrite bind_lift.
  pose proof (ReadFile_spec _ s Hf Hwf (Clean_not_empty (PathJoin [sv_SharedPath b; p]))) as Hr.
  unfold read_outcome in Hr.
  destruct (os_files s !! _) as [[]|]; [rewrite Hr; eauto..|]. destruct Hr as [e ->]. eauto.
Qed.

(** An archive that was written with a metadata.json among its entries is
    read as the metadata in the first of them. *)
Theorem metadata_of_written_archive `{TarFormat} before md after :
  Forall (λ e, whole_entry e ∧ tar_header_error (e_header e) = None) (before ++ md :: after) →
  Forall (λ e, h_Name (e_header e) ≠ "metadata.json") before →
  h_Name (e_header md) = "metadata.json" →
  metadata_of_archive (tar_write (before ++ md :: after)) = unmarshal_chaincodeMetadata (e_data md).
Proof.
  intros Hall Hb Hm. rewrite (metadata_of_archive_first _ before md after) by (try done; by rewrite tar_read_archive).
  apply Forall_app in Hall as [_ [[(-> & _) _] _]%Forall_cons]. done.
Qed.

(** ** Witnesses *)
Module Demo.
Definition quoted (s : string) : string := DQ +:+ s +:+ DQ.

Definition metadata_json : string :=
  "{" +:+ quoted "type" +:+ ": " +:+ quoted "golang" +:+ ", " +:+ quoted "path" +:+ ":" +:+
  quoted "example.com/cc" +:+ "}".

Definition chaincode_json : string :=
  "{" +:+ quoted "chaincode_id" +:+ ":" +:+ quoted "cc:ab" +:+ ", " +:+ quoted "peer_address" +:+ ":" +:+
  quoted "peer:7051" +:+ "}" +:+ NL.

Definition file_entry (name data : string) : entry :=
  mkEntry (mkHeader name TypeReg 0 (slen data) 0 None) data None.

Definition package : string := tar_write [file_entry "a" "x"; file_entry "metadata.json" metadata_json; file_entry "metadata.json" "{}"].

Definition meta0 : meta := mkMeta 0 0 0.
Definition tree : gmap fpath inode :=
  <[["data"; "chaincode.json"] := File meta0 chaincode_json]>
  (<[["data"; "p.tar"] := File meta0 package]>
  (<[["data"] := Directory meta0]> {[ [] := Directory meta0 ]})).
Definition os0 : OS := mkOS tree [] 18 ∅ 0 (λ _, None) (λ _, "tmp").

Definition server : Server :=
  mkServer false "/data" "https://127.0.0.1:22222/" "ft" "builder" "go" "java" "node" [] "peer0"
    (mkBasicAuth "user" "pass") "cert".

Lemma md_tree_wf : fs_wf tree.
Proof.
  apply (fs_wf_insert _ ["data"] "chaincode.json"); [|by exists meta0|done].
  apply (fs_wf_insert _ ["data"] "p.tar"); [|by exists meta0|done].
  apply (fs_wf_insert _ [] "data"); [|by exists meta0|done].
  split; [by exists meta0|]. intros p x i Hi. apply lookup_singleton_Some in Hi as [Hp _].
  by destruct p.
Defined.
End Demo.

Lemma containsDotDot_confines_witness :
  locate (Clean (PathJoin ["/data"; "b1/x..y.tar"])) Demo.os0 = ["data"; "b1"; "x..y.tar"].
Proof. apply (containsDotDot_confines Demo.server "b1/x..y.tar" Demo.os0); [done|reflexivity]. Defined.

Lemma extractChaincodeMetadata_spec_witness :
  (extractChaincodeMetadata Demo.server "p.tar" Demo.os0).1 =
  Ok (mkChaincodeMetadata "example.com/cc" "golang").
Proof.
  destruct (extractChaincodeMetadata_spec Demo.server "p.tar" Demo.os0 ltac:(done)) as (_ & _ & H).
  destruct (H ltac:(reflexivity) ltac:(done) Demo.md_tree_wf) as [H1 _].
  etrans; [apply (H1 [Demo.file_entry "a" "x"] (Demo.file_entry "metadata.json" Demo.metadata_json)
    [Demo.file_entry "metadata.json" "{}"])|by vm_compute].
  - by vm_compute.
  - constructor; [discriminate|constructor].
  - reflexivity.
Defined.

Lemma readRunMetadata_spec_witness :
  (readRunMetadata Demo.server "chaincode.json" Demo.os0).1 =
  Ok (mkRunMetadata "cc:ab" "" "" "" "peer:7051").
Proof.
  destruct (readRunMetadata_spec Demo.server "chaincode.json" Demo.os0 ltac:(done)) as (_ & _ & H).
  etrans; [apply H; [reflexivity|done|apply Demo.md_tree_wf]|by vm_compute].
Defined.

Lemma metadata_of_written_archive_witness :
  metadata_of_archive Demo.package = unmarshal_chaincodeMetadata Demo.metadata_json.
Proof.
  apply (metadata_of_written_archive [Demo.file_entry "a" "x"]
    (Demo.file_entry "metadata.json" Demo.metadata_json) [Demo.file_entry "metadata.json" "{}"]); [| |reflexivity].
  - repeat (apply Forall_cons; split; [by repeat split|]). constructor.
  - apply Forall_cons. split; [discriminate|constructor].
Defined.
