(* ===== verification/Server.v ===== *)
(** * Build and Run

    pkg/k8sbuilder/server.go: the two gRPC methods of the side car. A world
    holds the file system and the environment, the source of randomness, the
    cluster with the trace of requests and messages, and the schedule of the
    waiting loop. *)
From S2P Require Import Prelude GoStrings Sidecar KubeTypes Containers KubeApi LogStream ExecutePod Uuid.
From S2P Require Import CryptoSecret Url PodSpec OsModel TarFormat Metadata.

(** ** The world *)

Record sworld (W : Type) := mkSworld {
  sw_os : OS; sw_rand : entropy; sw_x : xworld W }.
Arguments mkSworld {W} _ _ _.
Arguments sw_os {W} _.
Arguments sw_rand {W} _.
Arguments sw_x {W} _.

Definition sw_os_lens {W} : lens (sworld W) OS :=
  Lens sw_os (λ o w, mkSworld o (sw_rand w) (sw_x w)).
Definition sw_rand_lens {W} : lens (sworld W) entropy :=
  Lens sw_rand (λ e w, mkSworld (sw_os w) e (sw_x w)).
Definition sw_x_lens {W} : lens (sworld W) (xworld W) :=
  Lens sw_x (λ x w, mkSworld (sw_os w) (sw_rand w) x).
Definition sw_k_lens {W} : lens (sworld W) (kworld W) :=
  Lens (λ w, xw_k (sw_x w))
    (λ k w, mkSworld (sw_os w) (sw_rand w) (mkXworld k (xw_sched (sw_x w)))).

(** status.Errorf(code, prefix + "%s", err). *)
Definition statusf (code : grpc_code) (prefix : string) (e : go_error) : go_error :=
  StatusError code (prefix +:+ Error e).

Section server.
Context {W : Type} `{KubeClient W} `{TarFormat}.

(** The peer's pod, from the environment; [what] is how the message calls it. *)
Definition peer_env (name what : string) : M (sworld W) string :=
  v ← zoom sw_os_lens (Getenv name);
  if bool_decide (v = "")
  then throw (StatusError Unknown ("failed to get peer pod " +:+ what +:+ ", env var not passed"))
  else mret v.

Definition Build (b : Server) (req : BuildRequest) : M (sworld W) unit :=
  metadata ← wrap_err (statusf InvalidArgument "failed to read metadata: ")
    (zoom sw_os_lens (extractChaincodeMetadata b (br_MetadataPath req)));
  buildContainer ← wrap_err (statusf InvalidArgument "unable to generate build container: ")
    (lift (buildContainerDefinition b metadata));
  peerPodName ← peer_env "PEER_POD_NAME" "name";
  peerPodUID ← peer_env "PEER_POD_UID" "uid";
  pod ← zoom sw_rand_lens
    (buildPodDefinition b buildContainer (br_SourcePath req) (br_OutputPath req) peerPodName peerPodUID);
  wrap_err (statusf Unknown "build failed: ")
    (zoom sw_x_lens (executePod addControllerReferenceToCryptoSecret pod BUILD None)).

(** The part of Run between creating the secret and the deferred removal. *)
Definition run_with_secret (b : Server) (req : RunRequest) (metadata : chaincodeMetadata)
    (rmd : runMetadata) (uuid : string) : M (sworld W) unit :=
  localmspid ← zoom sw_os_lens (Getenv "CORE_PEER_LOCALMSPID");
  runContainer ← wrap_err (statusf InvalidArgument "unable to generate run container: ")
    (lift (runContainerDefinition b localmspid (md_Type metadata) rmd));
  peerPodName ← peer_env "PEER_POD_NAME" "name";
  peerPodUID ← peer_env "PEER_POD_UID" "UID";
  pod ← zoom sw_k_lens
    (runPodDefinition b runContainer rmd (rr_ChaincodePath req) uuid peerPodName peerPodUID);
  wrap_err (statusf Unknown "run failed: ")
    (zoom sw_x_lens (executePod addControllerReferenceToCryptoSecret pod RUN
       (Some (mkExecuteOptions uuid)))).

Definition Run (b : Server) (req : RunRequest) : M (sworld W) unit :=
  metadata ← wrap_err (statusf InvalidArgument "failed to read chaincode metadata: ")
    (zoom sw_os_lens (extractChaincodeMetadata b (rr_MetadataPath req)));
  if bool_decide (md_Type metadata = "external") then mret tt
  else
    rmd ← wrap_err (statusf Unknown "failed to extract run metadata: ")
      (zoom sw_os_lens (readRunMetadata b (rr_ArtifactsPath req)));
    uuid ← zoom sw_rand_lens UUID;
    wrap_err (statusf InvalidArgument "unable to create crypto secret: ")
      (zoom sw_k_lens (createCryptoSecret rmd uuid)) ;;
    deferring_err (zoom sw_k_lens (deleteCryptoSecret uuid))
      (run_with_secret b req metadata rmd uuid).
End server.
