(* ===== verification/ServerFacts.v ===== *)
(** * Build and Run: what they release, what they leave behind, what they answer

    Theorems about the two methods of [Server] as wholes, for any cluster, any
    failures and any schedule: the requests that release resources, the fate
    of the crypto secret, the status codes, and what a success means. *)
From S2P Require Import Prelude GoStrings Sidecar KubeTypes Containers KubeApi LogStream ExecutePod.
From S2P Require Import ExecutePodFacts Base64 Uuid CryptoSecret GoPath Url PodSpec PodSpecFacts OsModel.
From S2P Require Import TarFormat Metadata Server.

(** ** Relations on the cluster's side of the world *)

Definition same_cleanups {W} (k k' : kworld W) : Prop := cleanups (calls k') = cleanups (calls k).

#[export] Instance same_cleanups_pre W : PreOrder (@same_cleanups W).
Proof. split; [by intros k|]. unfold same_cleanups. intros k1 k2 k3. congruence. Qed.

Section cleanup.
Context {W : Type} `{KubeClient W}.
Implicit Types (k : kworld W).

Lemma keeps_call_cleanups {A} c (f : W → (go_error + A) * W) :
  is_cleanup c = false → keeps same_cleanups (call c f).
Proof.
  intros Hc k. apply (quiet_call c f k Hc).
Qed.

Lemma keeps_Log_cleanups m : keeps same_cleanups (Log (W:=W) m).
Proof. by intros k. Qed.

#[local] Hint Resolve keeps_call_cleanups keeps_Log_cleanups : keeps.
#[local] Hint Extern 4 (is_cleanup _ = false) => reflexivity : keeps.

Lemma addControllerReference_cleanups owner uuid :
  keeps same_cleanups (addControllerReferenceToCryptoSecret (W:=W) owner uuid).
Proof. unfold addControllerReferenceToCryptoSecret. keeps_tac. Qed.

#[local] Hint Resolve addControllerReference_cleanups : keeps.

Lemma set_controller_cleanups p stage opts :
  keeps same_cleanups (set_controller (W:=W) addControllerReferenceToCryptoSecret p stage opts).
Proof. unfold set_controller. keeps_tac. Qed.

Lemma stopWatch_cleanups k :
  ∃ k', stopWatch k = (Ok tt, k') ∧ cleanups (calls k') = cleanups (calls k) ++ [PodWatchStop].
Proof. unfold stopWatch, call. eexists. split; [done|]. simpl. by rewrite cleanups_app. Qed.

(** The end of the loop, as a run of the machine. *)
Lemma exec_loop_run defers (x : xworld W) r x' :
  exec_loop defers x = (r, x') →
  ∃ ls s, reaches (exec_init defers (xw_k x)) ls s ∧ ls `sublist_of` xw_sched x ∧
    xw_k x' = es_k s ∧ r = exec_result s.
Proof.
  unfold exec_loop. intros E.
  destruct (exec_run_reaches (xw_sched x) (exec_init defers (xw_k x)) [] (exec_init defers (xw_k x)))
    as (ls & Hls & Hsub); [constructor|].
  destruct (exec_run (xw_sched x) (exec_init defers (xw_k x))) as [s rest].
  injection E as <- <-. by exists ls, s.
Qed.

Lemma exec_loop_releases defers (x : xworld W) r x' :
  exec_loop defers x = (r, x') → r ≠ Blocked →
  ∃ n, cleanups (calls (xw_k x')) =
    cleanups (calls (xw_k x)) ++ (deferred_call <$> closers n ++ defers).
Proof.
  intros (ls & s & Hr & _ & -> & ->)%exec_loop_run Hb.
  apply reaches_cleanup in Hr as (ran & Hd & Hc & Hpc). exists (length (es_gos s)).
  unfold exec_result in Hb. destruct (es_pc s); try done.
  by rewrite Hc, Hd, Hpc, app_nil_r.
Qed.

(** The calls deferred before the loop. *)
Definition stage_defers (stage : Stage) (p : Pod) : list deferred :=
  match stage with
  | BUILD => [DeletePodNamed (pod_Name p); StopWatch]
  | RUN => [StopWatch]
  end.

(** The three ways a call of executePod goes. *)
Lemma executePod_cases p stage opts (x : xworld W) r x' :
  executePod addControllerReferenceToCryptoSecret p stage opts x = (r, x') →
  let '(rw, w1) := pods_Watch (name_selector p) (kube (xw_k x)) in
  let k1 := mkKworld w1 (calls (xw_k x) ++ [PodWatch (name_selector p)]) (sent (xw_k x)) in
  match rw with
  | inl e => r = Err (Errorf "pod watch: " e) ∧ xw_k x' = k1
  | inr _ =>
      ∃ rs k2, exec_setup addControllerReferenceToCryptoSecret p stage opts k1 = (rs, k2) ∧
      match rs with
      | Ok p' => exec_loop (stage_defers stage p') (mkXworld k2 (xw_sched x)) = (r, x')
      | Err e => r = Err e ∧ xw_k x' = (stopWatch k2).2
      | _ => True
      end
  end.
Proof.
  unfold executePod. unfold mbind at 1, M_bind at 1, zoom at 1, wrap_err at 1, call at 1.
  change (view xw_lens x) with (xw_k x).
  destruct (pods_Watch (name_selector p) (kube (xw_k x))) as [[e|[]] w1]; [by intros [= <- <-]|].
  set (k1 := mkKworld _ _ _). change (put xw_lens k1 x) with (mkXworld k1 (xw_sched x)).
  destruct (exec_setup _ p stage opts k1) as [rs k2] eqn:E.
  apply (zoom_eq xw_lens _ (mkXworld k1 (xw_sched x))) in E.
  intros Er. exists rs, k2. split; [done|]. destruct rs as [p'|e|m|]; [| |done..].
  - rewrite (attempt_ok _ _ _ _ _ E) in Er. exact Er.
  - rewrite (attempt_err _ _ _ _ _ E) in Er. revert Er. unfold stopWatch, call.
    unfold zoom, mbind, M_bind. simpl. by intros [= <- <-].
Qed.
End cleanup.

#[export] Hint Resolve keeps_call_cleanups keeps_Log_cleanups addControllerReference_cleanups
  set_controller_cleanups : keeps.
#[export] Hint Extern 4 (is_cleanup _ = false) => reflexivity : keeps.

(** ** Setting the pod up *)

Section setup.
Context {W : Type} `{KubeClient W}.
Implicit Types (k : kworld W).

(** A call that ends with a value or an error. *)
Definition settles {S A} (m : M S A) : Prop :=
  ∀ s, (∃ a, (m s).1 = Ok a) ∨ (∃ e, (m s).1 = Err e).

Lemma settles_call {A} c (f : W → (go_error + A) * W) : settles (call c f).
Proof. intros k. unfold call. destruct (f (kube k)) as [[e|a] w]; simpl; eauto. Qed.

Lemma settles_bind {S A B} (m : M S A) (f : A → M S B) :
  settles m → (∀ a, settles (f a)) → settles (m ≫= f).
Proof.
  intros Hm Hf s. unfold mbind, M_bind. destruct (Hm s) as [[a E]|[e E]];
    destruct (m s) as [r s1]; simpl in E; subst r; [apply Hf|by right; eexists].
Qed.

Lemma settles_ret {S A} (a : A) : settles (mret a : M S A).
Proof. intros s. left. by exists a. Qed.

Lemma settles_throw {S A} e : settles (throw e : M S A).
Proof. intros s. right. by exists e. Qed.

Lemma settles_wrap_err {S A} f (m : M S A) : settles m → settles (wrap_err f m).
Proof.
  intros Hm s. unfold wrap_err. destruct (Hm s) as [[a E]|[e E]];
    destruct (m s) as [r s1]; simpl in E; subst r; eauto.
Qed.

Lemma settles_attempt {S A} (m : M S A) : settles m → settles (attempt m).
Proof.
  intros Hm s. unfold attempt. destruct (Hm s) as [[a E]|[e E]];
    destruct (m s) as [r s1]; simpl in E; subst r; eauto.
Qed.

Lemma settles_modify {S} (f : S → S) : settles (modify f).
Proof. intros s. left. by exists tt. Qed.

Lemma settles_zoom {S T A} (l : lens S T) (m : M T A) : settles m → settles (zoom l m).
Proof.
  intros Hm s. unfold zoom. destruct (Hm (view l s)) as [[a E]|[e E]];
    destruct (m (view l s)) as [r t]; simpl in E; subst r; eauto.
Qed.

Lemma settles_addControllerReference owner uuid :
  settles (addControllerReferenceToCryptoSecret (W:=W) owner uuid).
Proof.
  unfold addControllerReferenceToCryptoSecret. cbv zeta.
  apply settles_bind; [apply settles_wrap_err, settles_call|]. intros s. apply settles_call.
Qed.

Lemma settles_set_controller p stage opts :
  settles (set_controller (W:=W) addControllerReferenceToCryptoSecret p stage opts).
Proof.
  unfold set_controller. destruct stage, opts; try apply settles_ret.
  apply settles_bind; [apply settles_attempt, settles_addControllerReference|].
  intros [err|[]]; [|apply settles_ret].
  apply settles_bind; [apply settles_modify|]. intros []. apply settles_throw.
Qed.

(** Creating the pod and, for a run, naming it the owner of the secret. *)
Lemma exec_setup_cases p stage opts k rs k2 :
  exec_setup addControllerReferenceToCryptoSecret p stage opts k = (rs, k2) →
  cleanups (calls k2) = cleanups (calls k) ∧
  match pods_Create p (kube k) with
  | (inl e, _) => rs = Err (Errorf "pod create: " e)
  | (inr p', w) =>
      rs = Ok p' ∨ (stage = RUN ∧ ∃ e, rs = Err e)
  end.
Proof.
  intros E. split.
  { assert (keeps same_cleanups (exec_setup addControllerReferenceToCryptoSecret p stage opts)) as Hk.
    { unfold exec_setup. keeps_tac. }
    specialize (Hk k). rewrite E in Hk. exact Hk. }
  revert E. unfold exec_setup, mbind, M_bind, wrap_err, call.
  destruct (pods_Create p (kube k)) as [[e|p'] w]; [by intros [= <- _]|].
  set (k1 := mkKworld _ _ _). intros E.
  destruct (settles_set_controller p' stage opts k1) as [[[] E1]|[e E1]];
    destruct (set_controller _ p' stage opts k1) as [r k3] eqn:Esc; simpl in E1; subst r.
  - left. by injection E.
  - right. split; [|by injection E; eauto]. destruct stage; [|done].
    unfold set_controller in Esc. discriminate Esc.
Qed.
End setup.

(** ** What a call of executePod releases *)

Section account.
Context {W : Type} `{LogAccount W}.

Definition opened (k : kworld W) : nat := open_logs (kube k).

Definition same_opened (k k' : kworld W) : Prop := opened k' = opened k.

#[export] Instance same_opened_pre : PreOrder same_opened.
Proof. split; [by intros k|]. unfold same_opened. intros k1 k2 k3. congruence. Qed.

Lemma keeps_call_opened {A} c (f : W → (go_error + A) * W) :
  (∀ w, open_logs (f w).2 = open_logs w) → keeps same_opened (call c f).
Proof. intros Hf k. unfold call, same_opened, opened. specialize (Hf (kube k)). by destruct (f (kube k)). Qed.

Lemma keeps_Log_opened m : keeps same_opened (Log (W:=W) m).
Proof. by intros k. Qed.

Lemma stopWatch_opened : keeps same_opened (stopWatch (W:=W)).
Proof. apply keeps_call_opened. intros w. apply pods_WatchStop_open. Qed.

#[local] Hint Resolve keeps_Log_opened : keeps.
#[local] Hint Extern 1 (keeps same_opened (call _ (pods_Create _))) => apply keeps_call_opened, pods_Create_open : keeps.
#[local] Hint Extern 1 (keeps same_opened (call _ (pods_Delete _))) => apply keeps_call_opened, pods_Delete_open : keeps.
#[local] Hint Extern 1 (keeps same_opened (call _ (secrets_Get _))) => apply keeps_call_opened, secrets_Get_open : keeps.
#[local] Hint Extern 1 (keeps same_opened (call _ (secrets_Update _))) => apply keeps_call_opened, secrets_Update_open : keeps.

Lemma exec_setup_opened p stage opts :
  keeps same_opened (exec_setup addControllerReferenceToCryptoSecret p stage opts).
Proof. unfold exec_setup, set_controller, addControllerReferenceToCryptoSecret. keeps_tac. Qed.

Definition is_closer (d : deferred) : bool := match d with CloseStream _ => true | _ => false end.

(** The deferred closings that are still to be made. *)
Definition to_close (ds : list deferred) : nat := length (filter is_closer ds).

Lemma to_close_cons d ds : to_close (d :: ds) = (if is_closer d then 1 else 0) + to_close ds.
Proof. unfold to_close. rewrite filter_cons. by destruct d. Qed.

Lemma status_step_opened p st (s : exec_state W) :
  opened (es_k (status_step p st s)) + to_close (es_defers s) =
  opened (es_k s) + to_close (es_defers (status_step p st s)).
Proof.
  unfold status_step. destruct (negb _); [done|]. destruct (es_active s !! _); [done|].
  unfold call. pose proof (pods_GetLogs_open (pod_Name p) (log_options st) (kube (es_k s))) as Ho.
  destruct (pods_GetLogs _ _ _) as [[e|[]] w]; cbn [fst snd] in Ho; unfold opened; cbn [set_k send es_k es_defers kube];
    rewrite Ho; [done|].
  rewrite to_close_cons. cbn [is_closer]. lia.
Qed.

Lemma run_deferred_opened d (s : exec_state W) :
  opened (es_k (run_deferred d s)) = opened (es_k s) - to_close [d].
Proof.
  rewrite to_close_cons. change (to_close []) with 0.
  destruct d as [|name|n]; cbn [run_deferred set_k es_k is_closer].
  - rewrite (stopWatch_opened (es_k s)). lia.
  - assert (keeps same_opened (deletePod (W:=W) name)) as Hk by (unfold deletePod; keeps_tac).
    rewrite (Hk (es_k s)). lia.
  - unfold closeStream, mbind, M_bind, attempt, call.
    pose proof (pods_LogClose_open (kube (es_k s))) as Ho.
    destruct (pods_LogClose _) as [[e|[]] w]; cbn [snd] in Ho; unfold opened; simpl; lia.
Qed.

(** Along the loop every stream that was opened has its closing deferred. *)
Lemma reaches_opened defers (k : kworld W) ls s :
  to_close defers = 0 → reaches (exec_init defers k) ls s →
  opened (es_k s) = opened k + to_close (es_defers s).
Proof.
  intros Hz. apply (reaches_invariant (λ s, opened (es_k s) = opened k + to_close (es_defers s))); [change (opened k = opened k + to_close defers); lia|].
  clear s ls. intros s ch s' Hinv Hex.
  destruct Hex as [i _|p st todo _|p _|p _ _|r d ds _ Ed|r _ Ed|n g r _ _ _|n r g g' _ _ _]; try done.
  - by destruct (select_step_frame i s) as (-> & _ & _ & ->).
  - pose proof (status_step_opened p st s). cbn [set_pc es_k es_defers]. lia.
  - set (s0 := mkExec _ _ _ _ _). rewrite run_deferred_opened.
    destruct (run_deferred_frame d s0) as (_ & -> & _). cbn [s0 es_k es_defers]. rewrite Hinv, Ed.
    rewrite !to_close_cons. change (to_close []) with 0. lia.
  - destruct (deliver_frame n r s) as (_ & -> & _). unfold deliver. by destruct (r.1).
Qed.

Lemma exec_loop_opened defers (x : xworld W) r x' :
  to_close defers = 0 → exec_loop defers x = (r, x') → r ≠ Blocked → opened (xw_k x') = opened (xw_k x).
Proof.
  intros Hz (ls & s & Hr & _ & -> & ->)%exec_loop_run Hb.
  pose proof (reaches_opened _ _ _ _ Hz Hr) as Ho. apply reaches_cleanup in Hr as (ran & _ & _ & Hpc).
  unfold exec_result in Hb. destruct (es_pc s); try done. rewrite Ho, Hpc. change (to_close []) with 0. lia.
Qed.

Lemma executePod_opened p stage opts (x : xworld W) r x' :
  executePod addControllerReferenceToCryptoSecret p stage opts x = (r, x') → r ≠ Blocked →
  opened (xw_k x') = opened (xw_k x).
Proof.
  intros E Hb. apply executePod_cases in E.
  pose proof (pods_Watch_open (name_selector p) (kube (xw_k x))) as Hw.
  destruct (pods_Watch (name_selector p) (kube (xw_k x))) as [[e|[]] w1]; cbn [snd] in Hw; [by destruct E as [_ ->]|].
  destruct E as (rs & k2 & Es & E). set (k1 := mkKworld _ _ _) in Es.
  pose proof (exec_setup_opened p stage opts k1) as Hs. rewrite Es in Hs. cbn [snd] in Hs.
  assert (opened k2 = opened (xw_k x)) as <- by (unfold same_opened in Hs; rewrite Hs; exact Hw).
  pose proof (exec_setup_cases p stage opts k1 rs k2 Es) as [_ Hc].
  destruct rs as [p'|e|m|].
  - by apply exec_loop_opened in E; [|destruct stage|].
  - destruct E as [_ ->]. apply stopWatch_opened.
  - exfalso. destruct (pods_Create _ _) as [[?|?] ?]; [done|]. by destruct Hc as [?|(_ & ? & ?)].
  - exfalso. destruct (pods_Create _ _) as [[?|?] ?]; [done|]. by destruct Hc as [?|(_ & ? & ?)].
Qed.
End account.

(** C5: whatever fails and whatever the schedule, a call of executePod that has
    ended has released exactly what it acquired: nothing when the watch was
    refused; the watch, once, when the pod could not be created or a run's
    secret could not be given its owner; otherwise every log stream it had
    opened, once, the last opened first, so that as many are open as before the
    call, then for a build the pod the API server created, once, and the watch,
    once. *)
Theorem executePod_releases {W} `{LogAccount W} p stage opts (x : xworld W) r x' :
  executePod addControllerReferenceToCryptoSecret p stage opts x = (r, x') → r ≠ Blocked →
  open_logs (kube (xw_k x')) = open_logs (kube (xw_k x)) ∧
  let '(rw, w1) := pods_Watch (name_selector p) (kube (xw_k x)) in
  ∃ released, cleanups (calls (xw_k x')) = cleanups (calls (xw_k x)) ++ released ∧
  match rw, (pods_Create p w1).1 with
  | inl _, _ => released = []
  | inr _, inl _ => released = [PodWatchStop]
  | inr _, inr p' =>
      (stage = RUN ∧ released = [PodWatchStop] ∧ ∃ e, r = Err e) ∨
      ∃ n, released = deferred_call <$> (closers n ++ stage_defers stage p')
  end.
Proof.
  intros E Hb. split; [exact (executePod_opened _ _ _ _ _ _ E Hb)|]. apply executePod_cases in E.
  destruct (pods_Watch (name_selector p) (kube (xw_k x))) as [[e|[]] w1].
  { destruct E as [_ ->]. exists []. simpl. split; [|done].
    by rewrite cleanups_app. }
  destruct E as (rs & k2 & Es & E). apply exec_setup_cases in Es as [Hc Hs].
  simpl in Hc. rewrite cleanups_app in Hc. change (cleanups [PodWatch _]) with (@nil kcall) in Hc.
  rewrite app_nil_r in Hc.
  assert (∀ e, rs = Err e → cleanups (calls (xw_k x')) = cleanups (calls (xw_k x)) ++ [PodWatchStop]
    ∧ r = Err e) as Herr.
  { intros e ->. destruct E as [-> ->]. destruct (stopWatch_cleanups k2) as (k' & -> & Hk).
    simpl. by rewrite Hk, Hc. }
  change (kube (mkKworld w1 _ _)) with w1 in Hs. simpl in Hs.
  destruct (pods_Create p w1) as [[e|p'] w2]; cbn [fst].
  - exists [PodWatchStop]. destruct (Herr _ Hs). done.
  - destruct Hs as [->|(-> & e & ->)].
    + apply exec_loop_releases in E as (n & E); [|done]. simpl in E. eexists.
      split; [by rewrite E, Hc|]. right. by exists n.
    + destruct (Herr e eq_refl) as [-> ->]. exists [PodWatchStop]. split; [done|left; eauto].
Qed.

(** ** What the loop keeps of the cluster's side of the world *)

Section loop.
Context {W : Type} `{KubeClient W} (R : relation (kworld W)) `{!PreOrder R}.
Context (Hsend : ∀ o m k, R k (send o m k)) (Hstop : keeps R stopWatch).
Context (Hdelete : ∀ n, keeps R (call (PodDelete n) (pods_Delete n))).
Context (Hlogs : ∀ n o, keeps R (call (PodGetLogs n o) (pods_GetLogs n o))).
Context (Hclose : ∀ n, keeps R (call (PodLogClose n) pods_LogClose)).

Lemma attempt_log_keeps {A} (m : M (kworld W) A) text :
  keeps R m →
  keeps R (r ← attempt m; match r with inl e => Log (text +:+ Error e +:+ NL) | inr _ => mret tt end).
Proof using Hsend PreOrder0.
  intros Hm. apply keeps_bind; [apply _|by apply keeps_attempt|].
  intros [e|a]; [intros k; apply Hsend|apply keeps_ret, _].
Qed.

Lemma status_step_keeps p st (s : exec_state W) : R (es_k s) (es_k (status_step p st s)).
Proof using Hsend Hlogs PreOrder0.
  unfold status_step. destruct (negb _); [done|]. destruct (es_active s !! _); [done|].
  pose proof (Hlogs (pod_Name p) (log_options st) (es_k s)) as Hc.
  destruct (call _ _ (es_k s)) as [r k]. cbn [snd] in Hc. destruct r; [done| |done..].
  etrans; [exact Hc|apply Hsend].
Qed.

Lemma run_deferred_keeps d (s : exec_state W) : R (es_k s) (es_k (run_deferred d s)).
Proof using Hsend Hstop Hdelete Hclose PreOrder0.
  destruct d as [|name|n]; cbn [run_deferred].
  - apply Hstop.
  - exact (attempt_log_keeps _ _ (Hdelete name) (es_k s)).
  - exact (attempt_log_keeps _ "Error closing stream: " (Hclose n) (es_k s)).
Qed.

Lemma reaches_keeps (s0 s : exec_state W) ls : reaches s0 ls s → R (es_k s0) (es_k s).
Proof using Hsend Hstop Hdelete Hlogs Hclose PreOrder0.
  apply (reaches_invariant (λ s, R (es_k s0) (es_k s))); [reflexivity|].
  assert (∀ n r (s : exec_state W), R (es_k s) (es_k (deliver n r s))) as Hdel.
  { intros n [[m|] g] s1; [apply Hsend|reflexivity]. }
  intros s1 ch s2 H1 Hs. etrans; [exact H1|].
  destruct Hs; try reflexivity; [|apply status_step_keeps|exact (run_deferred_keeps d (mkExec _ _ _ _ _))|apply Hdel..].
  by destruct (select_step_frame i s1) as (-> & _).
Qed.

Lemma exec_loop_keeps defers (x : xworld W) r x' :
  exec_loop defers x = (r, x') → R (xw_k x) (xw_k x').
Proof using Hsend Hstop Hdelete Hlogs Hclose PreOrder0.
  intros (ls & s & Hr & _ & -> & _)%exec_loop_run. by apply reaches_keeps in Hr.
Qed.
End loop.

(** ** The secrets along a call *)

Section secrets.
Context {W : Type} `{SecretStore W}.
Implicit Types (k : kworld W).

Definition same_secrets k k' : Prop := ksecrets k' = ksecrets k.

#[export] Instance same_secrets_pre : PreOrder same_secrets.
Proof. split; [by intros k|]. unfold same_secrets. intros k1 k2 k3. congruence. Qed.

Lemma keeps_call_secrets {A} c (f : W → (go_error + A) * W) :
  (∀ w, secrets (f w).2 = secrets w) → keeps same_secrets (call c f).
Proof.
  intros Hf k. unfold call, same_secrets, ksecrets. specialize (Hf (kube k)).
  by destruct (f (kube k)).
Qed.

Lemma stopWatch_secrets : keeps same_secrets stopWatch.
Proof. apply keeps_call_secrets. intros w. apply pods_WatchStop_secrets. Qed.

Lemma exec_loop_secrets defers (x : xworld W) r x' :
  exec_loop defers x = (r, x') → same_secrets (xw_k x) (xw_k x').
Proof.
  apply (exec_loop_keeps same_secrets); [done|apply stopWatch_secrets|..]; intros; apply keeps_call_secrets; intros w.
  - apply pods_Delete_secrets.
  - apply pods_GetLogs_secrets.
  - apply pods_LogClose_secrets.
Qed.

(** Setting up a run changes one secret, and only by giving it the pod the API
    server has answered with as its owner. *)
Definition becomes_owned (name : string) (p' : Pod) (s0 : Secret) k k' : Prop :=
  ∃ s, ksecrets k' = <[name := s]> (ksecrets k) ∧ sec_Data s = sec_StringData s0 ∪ sec_Data s0 ∧
    om_OwnerReferences (sec_Meta s) = [controller_reference (pod_Name p') (pod_UID p')].

Lemma exec_setup_run_secret p uuid k rs k2 s0 :
  exec_setup addControllerReferenceToCryptoSecret p RUN (Some (mkExecuteOptions uuid)) k = (rs, k2) →
  ksecrets k !! secret_name uuid = Some s0 →
  match rs with
  | Ok p' => (pods_Create p (kube k)).1 = inr p' ∧ becomes_owned (secret_name uuid) p' s0 k k2
  | _ => ksecrets k2 = ksecrets k
  end.
Proof.
  unfold exec_setup, mbind at 1, M_bind at 1, wrap_err, call. intros E Hs0. revert E.
  pose proof (pods_Create_secrets p (kube k)) as Hcs.
  destruct (pods_Create p (kube k)) as [[e|p'] w]; cbn [snd] in Hcs; [intros [= <- <-]; exact Hcs|].
  set (k1 := mkKworld _ _ _). assert (ksecrets k1 = ksecrets k) as Hk1 by exact Hcs.
  unfold set_controller, mbind, M_bind, attempt. cbn [UUID_opt].
  destruct (addControllerReferenceToCryptoSecret p' uuid k1) as [r k3] eqn:E.
  destruct (settles_addControllerReference p' uuid k1) as [[[] Ha]|[e Ha]];
    rewrite E in Ha; simpl in Ha; subst r.
  - intros [= <- <-]. split; [done|]. apply addControllerReference_ok in E as (s & s' & Hs & Hk & Ho & Hd).
    rewrite Hk1, Hs0 in Hs. injection Hs as <-. exists s'. by rewrite Hk, Hk1.
  - apply addControllerReference_err in E. unfold Log, modify. intros [= <- <-].
    unfold ksecrets in *. simpl. by rewrite E, Hk1.
Qed.

Lemma executePod_run_secret p uuid (x : xworld W) r x' s0 :
  executePod addControllerReferenceToCryptoSecret p RUN (Some (mkExecuteOptions uuid)) x = (r, x') →
  ksecrets (xw_k x) !! secret_name uuid = Some s0 →
  (r ≠ Ok tt ∧ ksecrets (xw_k x') = ksecrets (xw_k x)) ∨
  ∃ p', (pods_Create p (pods_Watch (name_selector p) (kube (xw_k x))).2).1 = inr p' ∧
    becomes_owned (secret_name uuid) p' s0 (xw_k x) (xw_k x').
Proof.
  intros E Hs0. apply executePod_cases in E.
  pose proof (pods_Watch_secrets (name_selector p) (kube (xw_k x))) as Hw.
  destruct (pods_Watch (name_selector p) (kube (xw_k x))) as [[e|[]] w1]; cbn [snd] in *.
  { destruct E as [-> ->]. left. split; [done|exact Hw]. }
  destruct E as (rs & k2 & Es & E). set (k1 := mkKworld _ _ _) in Es.
  assert (ksecrets k1 = ksecrets (xw_k x)) as Hk1 by exact Hw.
  pose proof (exec_setup_run_secret p uuid k1 rs k2 s0 Es ltac:(by rewrite Hk1)) as Hs.
  pose proof (exec_setup_cases _ _ _ _ _ _ Es) as [_ Hx].
  destruct rs as [p'|e|m|].
  - right. destruct Hs as [Hp (s & Hks & Hd & Ho)]. exists p'. split; [exact Hp|].
    apply exec_loop_secrets in E. unfold same_secrets in E. simpl in E.
    exists s. by rewrite E, Hks, Hk1.
  - left. destruct E as [-> ->]. split; [done|]. pose proof (stopWatch_secrets k2) as Hst.
    unfold same_secrets in Hst. by rewrite Hst, Hs.
  - exfalso. destruct (pods_Create p _) as [[?|?] ?]; [done|]. by destruct Hx as [?|(_ & ? & ?)].
  - exfalso. destruct (pods_Create p _) as [[?|?] ?]; [done|]. by destruct Hx as [?|(_ & ? & ?)].
Qed.
End secrets.

(** ** Run and its secret *)

Section run.
Context {W : Type} `{SecretStore W} `{TarFormat}.

Definition sw_k (w : sworld W) : kworld W := xw_k (sw_x w).

Lemma wrap_err_ok {S A} f (m : M S A) s a s' : wrap_err f m s = (Ok a, s') → m s = (Ok a, s').
Proof. unfold wrap_err. by destruct (m s) as [[] ?]; intros [= <- <-]. Qed.

Lemma wrap_err_not_ok {S A} f (m : M S A) s r s' :
  wrap_err f m s = (r, s') → ∃ r0, m s = (r0, s') ∧ (∀ a, r = Ok a ↔ r0 = Ok a) ∧ (∀ p, r = Panic p → r0 = Panic p).
Proof. unfold wrap_err. destruct (m s) as [[] ?]; intros [= <- <-]; by eexists. Qed.

Lemma zoom_inv {S T A} (l : lens S T) (m : M T A) s r s' :
  zoom l m s = (r, s') → ∃ t, m (view l s) = (r, t) ∧ s' = put l t s.
Proof. unfold zoom. destruct (m (view l s)) as [r' t]. intros [= <- <-]. by exists t. Qed.

(** The cluster when a run makes its pod: the nodes may have been asked for. *)
Definition after_nodes (b : Server) (w : W) : W :=
  if sv_NodeClient b then (nodes_List w).2 else w.

Lemma runPodDefinition_kube b c rmd path uuid pn pu (k k' : kworld W) r :
  runPodDefinition b c rmd path uuid pn pu k = (r, k') →
  ksecrets k' = ksecrets k ∧
  (∀ p, r = Ok p → kube k' = after_nodes b (kube k) ∧ ∃ url z, urlJoin (sv_FSBaseURL b) path = inr url ∧
     p = run_pod b c rmd url uuid pn pu z).
Proof.
  unfold runPodDefinition, url_join, hasZoneLabels, after_nodes.
  destruct (urlJoin (sv_FSBaseURL b) path) as [e|url]; [by intros [= <- <-]|].
  unfold mbind, M_bind, mret, M_ret. destruct (sv_NodeClient b); cbn [negb].
  - unfold attempt, call. pose proof (nodes_List_secrets (kube k)) as Hn.
    destruct (nodes_List (kube k)) as [[e|l] w]; cbn [snd] in Hn; intros [= <- <-]; (split; [exact Hn|]);
      intros p [= <-]; (split; [done|]); by eexists _, _.
  - intros [= <- <-]. split; [done|]. intros p [= <-]. split; [done|]. by eexists _, _.
Qed.

(** What a run makes of its secret: it stays as it is, or the pod of the run has
    become its owner. [k] is the cluster after the secret was made. *)
Definition pod_of_run (b : Server) (req : RunRequest) (rmd : runMetadata) (uuid : string) (p : Pod) : Prop :=
  ∃ c url pn pu z, urlJoin (sv_FSBaseURL b) (rr_ChaincodePath req) = inr url ∧ p = run_pod b c rmd url uuid pn pu z.

Definition given_owner b req rmd uuid s0 (k k' : kworld W) : Prop :=
  ∃ p p', pod_of_run b req rmd uuid p ∧
    (pods_Create p (pods_Watch (name_selector p) (after_nodes b (kube k))).2).1 = inr p' ∧
    becomes_owned (secret_name uuid) p' s0 k k'.

Lemma run_with_secret_secret b req md rmd uuid w r w' s0 :
  run_with_secret b req md rmd uuid w = (r, w') →
  ksecrets (sw_k w) !! secret_name uuid = Some s0 →
  (r ≠ Ok tt ∧ ksecrets (sw_k w') = ksecrets (sw_k w)) ∨ given_owner b req rmd uuid s0 (sw_k w) (sw_k w').
Proof.
  unfold run_with_secret. intros E Hs0.
  assert (∀ A (m : M (sworld W) A) (f : A → M (sworld W) unit) w1,
    (∀ r w2, m w1 = (r, w2) → sw_k w2 = sw_k w1) → (m ≫= f) w1 = (r, w') →
    (∃ a w2, f a w2 = (r, w') ∧ sw_k w2 = sw_k w1) ∨ (r ≠ Ok tt ∧ sw_k w' = sw_k w1)) as Hbind.
  { intros A m f w1 Hm Eb. unfold mbind, M_bind in Eb. destruct (m w1) as [[a|e|x|] w2] eqn:Em;
      specialize (Hm _ _ eq_refl); [left; by exists a, w2|right; injection Eb as <- <-; done..]. }
  assert (∀ A (m : M OS A) (w1 : sworld W) r w2, zoom sw_os_lens m w1 = (r, w2) → sw_k w2 = sw_k w1) as Hos.
  { intros A m w1 r1 w2 (o & _ & ->)%zoom_inv. done. }
  assert (∀ name what (w1 : sworld W) r w2, peer_env name what w1 = (r, w2) → sw_k w2 = sw_k w1) as Henv.
  { intros name what w1 r1 w2. unfold peer_env, zoom, Getenv, gets, mbind, M_bind. simpl. case_bool_decide; by intros [= _ <-]. }
  apply Hbind in E as [(mspid & w1 & E & K1)|[? ->]]; [|by left|by intros; eapply Hos].
  apply Hbind in E as [(c & w2 & E & K2)|[? K]]; [|left; by rewrite K, K1|].
  2: { intros r1 w2. unfold wrap_err, lift. destruct (runContainerDefinition _ _ _ _); by intros [= _ <-]. }
  apply Hbind in E as [(pn & w3 & E & K3)|[? K]]; [|left; by rewrite K, K2, K1|by intros; eapply Henv].
  apply Hbind in E as [(pu & w4 & E & K4)|[? K]]; [|left; by rewrite K, K3, K2, K1|by intros; eapply Henv].
  assert (sw_k w4 = sw_k w) as K by congruence. clear K1 K2 K3 K4.
  unfold mbind, M_bind in E. destruct (zoom sw_k_lens _ w4) as [rp w5] eqn:Ep.
  apply zoom_inv in Ep as (k & Ep & ->). change (view sw_k_lens w4) with (sw_k w4) in Ep. rewrite K in Ep.
  apply runPodDefinition_kube in Ep as [Hk Hp].
  destruct rp as [p|e|m|]; [|left; injection E as <- <-; done..].
  destruct (Hp p eq_refl) as [Hkube (url & z & Hu & ->)].
  set (p := run_pod b c rmd url uuid pn pu z) in *.
  apply wrap_err_not_ok in E as (r0 & E & Hr & _). apply zoom_inv in E as (x' & E & ->).
  change (sw_k (put sw_x_lens x' _)) with (xw_k x').
  apply (executePod_run_secret _ _ _ _ _ s0) in E; [|cbn; by rewrite Hk]. cbn in E.
  destruct E as [[Hn E]|(p' & Hc & s & E & Hdo)].
  - left. split; [by intros ->%Hr|by rewrite E, Hk].
  - right. exists p, p'. split; [by exists c, url, pn, pu, z|]. rewrite <- Hkube. split; [exact Hc|].
    exists s. by rewrite E, Hk.
Qed.

(** The removal leaves a secret alone that has an owner. *)
Lemma deleteCryptoSecret_owned uuid s (k k' : kworld W) r :
  ksecrets k !! secret_name uuid = Some s → om_OwnerReferences (sec_Meta s) ≠ [] →
  deleteCryptoSecret uuid k = (r, k') → r = Ok tt ∧ ksecrets k' = ksecrets k.
Proof.
  intros Hs0 Ho0. destruct (deleteCryptoSecret_cases uuid k)
    as [(e & w & Hg & ->)|[(s1 & w & Hg & _ & ->)|(s1 & w & w' & r' & Hg & Ho & Hd & ->)]];
    intros [= <- <-].
  - split; [done|]. by apply secrets_Get_err in Hg.
  - split; [done|]. by apply secrets_Get_ok in Hg as (_ & _ & ?).
  - apply secrets_Get_ok in Hg as (Hs & _ & _). unfold ksecrets in Hs0. rewrite Hs in Hs0.
    by injection Hs0 as ->.
Qed.

(** Why a secret without an owner may stay: the last request of the call was
    about it, and failed. *)
Definition removal_failed (name : string) (r : outcome unit) (k' : kworld W) : Prop :=
  ∃ k e,
    (calls k' = calls k ++ [SecretGet name] ∧ secrets_Get name (kube k) = (inl e, kube k')) ∨
    (calls k' = calls k ++ [SecretDelete name] ∧ secrets_Delete name (kube k) = (inl e, kube k') ∧
      (r = Err e ∨ ∃ m, r = Panic m)).

(** One without an owner is removed, unless a request fails. *)
Lemma deleteCryptoSecret_unowned uuid s (k k' : kworld W) r :
  ksecrets k !! secret_name uuid = Some s → om_OwnerReferences (sec_Meta s) = [] →
  deleteCryptoSecret uuid k = (r, k') →
  (r = Ok tt ∧ ksecrets k' = delete (secret_name uuid) (ksecrets k)) ∨
  (ksecrets k' = ksecrets k ∧ (∀ r0, r = Ok tt ∨ r = r0 ∨ (∃ m, r0 = Panic m) → removal_failed (secret_name uuid) r0 k')).
Proof.
  intros Hs0 Ho0. destruct (deleteCryptoSecret_cases uuid k)
    as [(e & w & Hg & ->)|[(s1 & w & Hg & Ho & ->)|(s1 & w & w' & r' & Hg & Ho & Hd & ->)]];
    intros [= <- <-].
  - right. split; [by apply secrets_Get_err in Hg|]. intros r0 _. exists k, e. left. done.
  - exfalso. apply secrets_Get_ok in Hg as (Hs & _ & _). unfold ksecrets in Hs0. rewrite Hs in Hs0.
    by injection Hs0 as ->.
  - apply secrets_Get_ok in Hg as (_ & _ & Hw). destruct r' as [e|[]].
    + right. split; [apply secrets_Delete_err in Hd; unfold ksecrets; simpl; by rewrite Hd, Hw|].
      intros r0 Hr0. exists (mkKworld w (calls k ++ [SecretGet (secret_name uuid)]) []), e. right.
      split; [simpl; by rewrite <- app_assoc|]. split; [exact Hd|]. destruct Hr0 as [[=]|[<-|?]]; auto.
    + left. split; [done|]. apply secrets_Delete_ok in Hd. unfold ksecrets. simpl. by rewrite Hd, Hw.
Qed.
End run.

Section run_cases.
Context {W : Type} `{KubeClient W} `{TarFormat}.

Lemma bind_cases {S A B} (m : M S A) (f : A → M S B) s r s' :
  (m ≫= f) s = (r, s') →
  (∃ a s1, m s = (Ok a, s1) ∧ f a s1 = (r, s')) ∨
  (∃ e, m s = (Err e, s') ∧ r = Err e) ∨ (∃ p, m s = (Panic p, s') ∧ r = Panic p) ∨
  (m s = (Blocked, s') ∧ r = Blocked).
Proof.
  unfold mbind, M_bind. destruct (m s) as [[a|e|p|] s1]; intros E; [left; eauto|right..];
    injection E as <- <-; eauto.
Qed.

Lemma zoom_os_x {A} (m : M OS A) (w : sworld W) : sw_x (zoom sw_os_lens m w).2 = sw_x w.
Proof. unfold zoom. by destruct (m _). Qed.

Lemma zoom_rand_x {A} (m : M entropy A) (w : sworld W) : sw_x (zoom sw_rand_lens m w).2 = sw_x w.
Proof. unfold zoom. by destruct (m _). Qed.

Lemma wrap_err_state {S A} f (m : M S A) s : (wrap_err f m s).2 = (m s).2.
Proof. unfold wrap_err. by destruct (m s) as [[] ?]. Qed.

(** Run ends before it has made a request, or it asks for the secret. *)
Lemma Run_cases b req (w : sworld W) r w' :
  Run b req w = (r, w') →
  (sw_x w' = sw_x w ∧
   (r = Ok tt → ∃ md, (extractChaincodeMetadata b (rr_MetadataPath req) (sw_os w)).1 = Ok md ∧
                      md_Type md = "external")) ∨
  ∃ md rmd uuid w1, sw_x w1 = sw_x w ∧ md_Type md ≠ "external" ∧
    (extractChaincodeMetadata b (rr_MetadataPath req) (sw_os w)).1 = Ok md ∧
    (readRunMetadata b (rr_ArtifactsPath req) (extractChaincodeMetadata b (rr_MetadataPath req) (sw_os w)).2).1 = Ok rmd ∧
    (UUID (sw_rand w)).1 = Ok uuid ∧
    (wrap_err (statusf InvalidArgument "unable to create crypto secret: ")
       (zoom sw_k_lens (createCryptoSecret rmd uuid)) ;;
     deferring_err (zoom sw_k_lens (deleteCryptoSecret uuid))
       (run_with_secret b req md rmd uuid)) w1 = (r, w').
Proof.
  unfold Run. intros E.
  assert (∀ A f (m : M OS A) (w : sworld W) r w', wrap_err f (zoom sw_os_lens m) w = (r, w') → sw_x w' = sw_x w) as Hos.
  { intros A f m w0 r0 w0' E0. pose proof (wrap_err_state f (zoom sw_os_lens m) w0) as Hst.
    rewrite E0 in Hst. simpl in Hst. rewrite Hst. apply zoom_os_x. }
  apply bind_cases in E as [(md & w1 & E1 & E)|[(e & E & ->)|[(p & E & ->)|[E ->]]]];
    [|left; split; [by eapply Hos|done]..].
  pose proof (Hos _ _ _ _ _ _ E1) as Hx1.
  apply wrap_err_ok, zoom_inv in E1 as (o & E1 & ->). change (view sw_os_lens w) with (sw_os w) in E1. rewrite E1.
  case_bool_decide as Hext; [injection E as <- <-; left; split; [done|eauto]|].
  apply bind_cases in E as [(rmd & w2 & E2 & E)|[(e & E & ->)|[(p & E & ->)|[E ->]]]];
    [|left; split; [rewrite <- Hx1; by eapply Hos|done]..].
  pose proof (Hos _ _ _ _ _ _ E2) as Hx2.
  apply wrap_err_ok, zoom_inv in E2 as (o2 & E2 & ->).
  change (view sw_os_lens (put sw_os_lens o w)) with o in E2.
  set (w2 := put sw_os_lens o2 _) in *.
  assert (∀ r w', zoom sw_rand_lens UUID w2 = (r, w') → sw_x w' = sw_x w) as Hr.
  { intros r0 w0 E0. rewrite <- Hx1, <- Hx2, <- (zoom_rand_x UUID w2). by rewrite E0. }
  apply bind_cases in E as [(uuid & w3 & E3 & E)|[(e & E & ->)|[(p & E & ->)|[E ->]]]];
    [|left; split; [by eapply Hr|done]..].
  right. exists md, rmd, uuid, w3. split; [by eapply Hr|]. cbn [fst snd]. rewrite E2.
  apply zoom_inv in E3 as (e3 & E3 & _). change (view sw_rand_lens w2) with (sw_rand w) in E3. by rewrite E3.
Qed.
End run_cases.

Section settled.
Context {W : Type} `{SecretStore W} `{TarFormat}.

(** What becomes of the secret of a run, by name and content: it is gone again,
    or the pod of the run owns it, or its removal failed. *)
Definition secret_fate b req rmd uuid (r : outcome unit) (k k' : kworld W) : Prop :=
  (r ≠ Ok tt ∧ ksecrets k' = ksecrets k) ∨
  ∃ s, ksecrets k' = <[secret_name uuid := s]> (ksecrets k) ∧ sec_Data s = toSecretData rmd ∧
    ((∃ p p', pod_of_run b req rmd uuid p ∧
        (pods_Create p (pods_Watch (name_selector p)
          (after_nodes b (secrets_Create (new_secret rmd uuid) (kube k)).2)).2).1 = inr p' ∧
        om_OwnerReferences (sec_Meta s) = [controller_reference (pod_Name p') (pod_UID p')]) ∨
     (r ≠ Ok tt ∧ om_OwnerReferences (sec_Meta s) = [] ∧ removal_failed (secret_name uuid) r k')).

(** The part of Run that has the secret. *)
Lemma run_part_settled b req md rmd uuid (w : sworld W) r w' (k : kworld W) :
  createCryptoSecret rmd uuid k = (Ok tt, sw_k w) →
  deferring_err (zoom sw_k_lens (deleteCryptoSecret uuid)) (run_with_secret b req md rmd uuid) w = (r, w') →
  r ≠ Blocked → secret_fate b req rmd uuid r k (sw_k w').
Proof.
  intros Ec E Hb. pose proof (createCryptoSecret_made rmd uuid k (sw_k w) Ec) as (Hn & Hw & s0 & Hs0 & Ho0 & Hd0 & Hsd0).
  unfold deferring_err in E. destruct (run_with_secret b req md rmd uuid w) as [r0 w0] eqn:E0.
  apply (run_with_secret_secret _ _ _ _ _ _ _ _ s0) in E0; [|by rewrite Hs0, lookup_insert_eq].
  unfold zoom in E. change (view sw_k_lens w0) with (sw_k w0) in E.
  destruct (deleteCryptoSecret uuid (sw_k w0)) as [rd k1] eqn:Ed.
  assert (r0 ≠ Blocked) as Hb0 by (intros ->; by injection E as <- _).
  assert (w' = put sw_k_lens k1 w0 ∧ (r = Ok tt → r0 = Ok tt ∧ rd = Ok tt) ∧ (rd = Ok tt ∨ rd = r ∨ ∃ m, r = Panic m)) as (-> & Hok & Hrd).
  { destruct r0 as [[]| | |]; [..|done]; destruct rd as [[]| | |]; injection E as <- <-; (split; [done|]; split; [try done; intros [=]|eauto]). }
  change (sw_k (put sw_k_lens k1 w0)) with k1. destruct E0 as [[Hne E0]|(p & p' & Hp & Hc & s & E0 & Hd & Ho)].
  - assert (ksecrets (sw_k w0) !! secret_name uuid = Some s0) as Hl by by rewrite E0, Hs0, lookup_insert_eq.
    assert (r ≠ Ok tt) as Hr by by intros [? _]%Hok.
    destruct (deleteCryptoSecret_unowned uuid s0 _ _ _ Hl Ho0 Ed) as [[_ Hk]|[Hk Hf]].
    + left. split; [done|]. by rewrite Hk, E0, Hs0, delete_insert_id.
    + right. exists s0. split; [by rewrite Hk, E0, Hs0|]. split; [exact Hd0|]. right. split; [done|]. split; [done|].
      by apply Hf.
  - right. exists s.
    assert (ksecrets (sw_k w0) !! secret_name uuid = Some s) as Hl by by rewrite E0, lookup_insert_eq.
    destruct (deleteCryptoSecret_owned uuid s _ _ _ Hl ltac:(by rewrite Ho) Ed) as [_ Hk].
    split; [by rewrite Hk, E0, Hs0, insert_insert_eq|]. split; [by rewrite Hd, Hsd0, Hd0, (left_id_L ∅ (∪))|].
    left. exists p, p'. rewrite <- Hw. done.
Qed.
End settled.

(** C2: what Run does to the secrets of the cluster, whatever fails. No secret
    changes, but the one with the identifier drawn for the run, which was not
    there before. That one is gone again when Run has ended, or it holds the
    certificates and the key of the run and has as its only owner the pod with
    which the API server answered the request for this run's pod, so that
    Kubernetes removes it with the pod; a secret without an owner stays only when
    the last request of the call was its Get or its Delete, and failed. After a
    success there is the owned secret, unless the chaincode is external. *)
Theorem Run_secret_settled {W} `{SecretStore W} `{TarFormat} b req (w : sworld W) r w' :
  Run b req w = (r, w') → r ≠ Blocked →
  let metadata := extractChaincodeMetadata b (rr_MetadataPath req) (sw_os w) in
  (ksecrets (sw_k w') = ksecrets (sw_k w) ∧
   (r = Ok tt → ∃ md, metadata.1 = Ok md ∧ md_Type md = "external")) ∨
  ∃ uuid rmd s,
    (UUID (sw_rand w)).1 = Ok uuid ∧ (readRunMetadata b (rr_ArtifactsPath req) metadata.2).1 = Ok rmd ∧
    let name := secret_name uuid in
    ksecrets (sw_k w) !! name = None ∧
    ksecrets (sw_k w') = <[name := s]> (ksecrets (sw_k w)) ∧ sec_Data s = toSecretData rmd ∧
    ((∃ p p', pod_of_run b req rmd uuid p ∧
        (pods_Create p (pods_Watch (name_selector p)
          (after_nodes b (secrets_Create (new_secret rmd uuid) (kube (sw_k w))).2)).2).1 = inr p' ∧
        om_OwnerReferences (sec_Meta s) = [controller_reference (pod_Name p') (pod_UID p')]) ∨
     (r ≠ Ok tt ∧ om_OwnerReferences (sec_Meta s) = [] ∧ removal_failed name r (sw_k w'))).
Proof.
  intros E Hb. cbv zeta. apply Run_cases in E as [[Hx Hok]|(md & rmd & uuid & w1 & Hx & Hne & Hmd & Hrmd & Hu & E)].
  { left. unfold sw_k. rewrite Hx. split; [done|exact Hok]. }
  assert (sw_k w1 = sw_k w) as Hk by (unfold sw_k; by rewrite Hx).
  assert (∀ rc w2, zoom sw_k_lens (createCryptoSecret rmd uuid) w1 = (rc, w2) →
    createCryptoSecret rmd uuid (sw_k w) = (rc, sw_k w2)) as Hcr.
  { intros rc w2 Ec. apply zoom_inv in Ec as (k2 & Ec & ->). by rewrite <- Hk. }
  unfold mbind, M_bind in E. destruct (wrap_err _ _ w1) as [rc w2] eqn:Ec.
  apply wrap_err_not_ok in Ec as (rc0 & Ec & Hrc & Hrp). apply Hcr in Ec.
  destruct rc as [[]|e|m|].
  - assert (rc0 = Ok tt) as -> by by apply Hrc.
    destruct (createCryptoSecret_made _ _ _ _ Ec) as [Hnone _].
    apply (run_part_settled _ _ _ _ _ _ _ _ _ Ec) in E as [[Hr Hs]|(s & Hs & Hd & Ho)]; [left; by split| |done].
    right. exists uuid, rmd, s. done.
  - injection E as <- <-. left. split; [|done]. destruct rc0 as [[]|e0|m0|]; [discriminate (proj2 (Hrc tt) eq_refl)| | |].
    + by apply createCryptoSecret_err in Ec.
    + revert Ec. unfold createCryptoSecret, call. by destruct (secrets_Create _ _) as [[?|?] ?].
    + revert Ec. unfold createCryptoSecret, call. by destruct (secrets_Create _ _) as [[?|?] ?].
  - exfalso. rewrite (Hrp m eq_refl) in Ec. revert Ec. unfold createCryptoSecret, call.
    by destruct (secrets_Create _ _) as [[?|?] ?].
  - by injection E as <- <-.
Qed.

(** ** What a success means *)

Lemma verdict_ok_inv ins :
  verdict ins = Some (Ok tt) →
  ∃ ev p, WatchEvent ev ∈ ins ∧ ev_Pod ev = Some p ∧
    (ev_Type ev = Added ∨ ev_Type ev = Modified) ∧ pst_Phase (pod_Status p) = PodSucceeded.
Proof.
  induction ins as [|i ins IH]; simpl; [done|]. destruct (verdict_input i) as [r|] eqn:E.
  - intros [= ->]. destruct i as [e| |[[] [p|] t]]; simpl in E; try done;
      (eexists _, p; split; [apply list_elem_of_here|]; split; [done|]; split; [by auto|]);
      unfold terminal, pod_result in E; by destruct (pst_Phase (pod_Status p)).
  - intros Hv. destruct (IH Hv) as (ev & p & Hin & H). exists ev, p.
    split; [by apply list_elem_of_further|done].
Qed.

Lemma elem_of_inputs i ls : i ∈ inputs ls → Select i ∈ ls.
Proof. unfold inputs. rewrite list_elem_of_omap. intros ([j| | |] & Hin & [=]); subst. done. Qed.

(** The schedule showed the pod in the phase Succeeded. *)
Definition pod_succeeded (sched : list choice) : Prop :=
  ∃ ev p, Select (WatchEvent ev) ∈ sched ∧ ev_Pod ev = Some p ∧
    (ev_Type ev = Added ∨ ev_Type ev = Modified) ∧ pst_Phase (pod_Status p) = PodSucceeded.

Lemma exec_loop_ok {W} `{KubeClient W} defers (x x' : xworld W) :
  exec_loop defers x = (Ok tt, x') → pod_succeeded (xw_sched x).
Proof.
  intros (ls & s & Hr & Hsub & _ & Hres)%exec_loop_run. apply reaches_verdict in Hr.
  unfold exec_result in Hres. destruct (es_pc s); try done. subst. simpl in Hr.
  apply verdict_ok_inv in Hr as (ev & p & Hin & H1). exists ev, p. split; [|done].
  apply elem_of_inputs in Hin. by eapply elem_of_sublist.
Qed.

Lemma executePod_ok {W} `{KubeClient W} p stage opts (x x' : xworld W) :
  executePod addControllerReferenceToCryptoSecret p stage opts x = (Ok tt, x') →
  pod_succeeded (xw_sched x) ∧ ∃ p' w, pods_Create p (pods_Watch (name_selector p) (kube (xw_k x))).2 = (inr p', w).
Proof.
  intros E. apply executePod_cases in E.
  destruct (pods_Watch (name_selector p) (kube (xw_k x))) as [[e|[]] w1]; [by destruct E|].
  destruct E as (rs & k2 & Es & E).
  apply exec_setup_cases in Es as [_ Hs]. cbn [snd]. change (kube (mkKworld w1 _ _)) with w1 in Hs.
  destruct (pods_Create p w1) as [[e|p'] w2]; [subst rs; by destruct E|].
  destruct Hs as [->|(_ & e & ->)]; [|by destruct E].
  apply exec_loop_ok in E. split; [exact E|by eexists _, _].
Qed.

(** The environment variables of the peer's pod, as a call sees them. *)
Definition env_of (name : string) (o : OS) : string := default "" (os_env o !! name).

Section build.
Context {W : Type} `{KubeClient W} `{TarFormat}.

Lemma peer_env_eq name what (w : sworld W) :
  peer_env name what w =
  (if bool_decide (env_of name (sw_os w) = "")
   then Err (StatusError Unknown ("failed to get peer pod " +:+ what +:+ ", env var not passed"))
   else Ok (env_of name (sw_os w)), w).
Proof.
  unfold peer_env, zoom, Getenv, gets, mbind, M_bind. simpl. fold (env_of name (sw_os w)).
  by case_bool_decide; destruct w.
Qed.

Lemma peer_env_inv name what (w : sworld W) v w' :
  peer_env name what w = (Ok v, w') → w' = w ∧ v = env_of name (sw_os w) ∧ v ≠ "".
Proof. rewrite peer_env_eq. case_bool_decide; [done|]. by intros [= <- <-]. Qed.

Lemma extract_env b p (o : OS) : os_env (extractChaincodeMetadata b p o).2 = os_env o.
Proof. by destruct (extractChaincodeMetadata_same b p o) as [(_ & _ & -> & _) _]. Qed.

(** What Build refuses before it makes a request, and with which status; [r] is
    what there is of the metadata. *)
Definition refusal (b : Server) (o : OS) (r : go_error + chaincodeMetadata) : option go_error :=
  match r with
  | inl e => Some (StatusError InvalidArgument ("failed to read metadata: " +:+ Error e))
  | inr md =>
      match buildContainerDefinition b md with
      | inl e => Some (StatusError InvalidArgument ("unable to generate build container: " +:+ Error e))
      | inr _ =>
          if bool_decide (env_of "PEER_POD_NAME" o = "") then
            Some (StatusError Unknown "failed to get peer pod name, env var not passed")
          else if bool_decide (env_of "PEER_POD_UID" o = "") then
            Some (StatusError Unknown "failed to get peer pod uid, env var not passed")
          else None
      end
  end.

Lemma Build_refused b req (w : sworld W) r e :
  (extractChaincodeMetadata b (br_MetadataPath req) (sw_os w)).1 = of_result r → refusal b (sw_os w) r = Some e →
  ∃ w', Build b req w = (Err e, w') ∧ sw_x w' = sw_x w ∧ same_tree (sw_os w) (sw_os w').
Proof.
  intros Hr He. pose proof (extractChaincodeMetadata_same b (br_MetadataPath req) (sw_os w)) as Hs.
  destruct (extractChaincodeMetadata b (br_MetadataPath req) (sw_os w)) as [r0 o] eqn:Ex. cbn [fst snd] in *. subst r0.
  assert (∀ n, env_of n o = env_of n (sw_os w)) as Henv by (intros n; unfold env_of; by destruct Hs as [(_ & _ & -> & _) _]).
  exists (put sw_os_lens o w). split; [|done]. set (w1 := put sw_os_lens o w).
  apply (zoom_eq sw_os_lens _ w) in Ex. fold w1 in Ex. unfold refusal in He.
  assert (∀ f, wrap_err f (zoom sw_os_lens (extractChaincodeMetadata b (br_MetadataPath req))) w =
    (match r with inl e => Err (f e) | inr md => Ok md end, w1)) as E1 by (intros f; unfold wrap_err; rewrite Ex; by destruct r).
  unfold Build. destruct r as [e0|md]; [injection He as <-; exact (bind_err _ _ _ _ _ (E1 _))|].
  rewrite (bind_ok _ _ _ _ _ (E1 _)).
  assert (∀ f, wrap_err f (lift (buildContainerDefinition b md)) w1 =
    (match buildContainerDefinition b md with inl e => Err (f e) | inr c => Ok c end, w1)) as E2
    by (intros f; unfold wrap_err; rewrite lift_result; by destruct (buildContainerDefinition b md)).
  destruct (buildContainerDefinition b md) as [e0|c]; [injection He as <-; exact (bind_err _ _ _ _ _ (E2 _))|].
  rewrite (bind_ok _ _ _ _ _ (E2 _)).
  pose proof (peer_env_eq "PEER_POD_NAME" "name" w1) as En. pose proof (peer_env_eq "PEER_POD_UID" "uid" w1) as Eu.
  change (sw_os w1) with o in *. rewrite Henv in En, Eu.
  destruct (bool_decide (env_of "PEER_POD_NAME" (sw_os w) = "")); [injection He as <-; exact (bind_err _ _ _ _ _ En)|]. rewrite (bind_ok _ _ _ _ _ En).
  destruct (bool_decide (env_of "PEER_POD_UID" (sw_os w) = "")); [injection He as <-; exact (bind_err _ _ _ _ _ Eu)|done].
Qed.
End build.

(** C20: Build reports success only when the metadata name a supported chaincode
    type, the peer's pod is known, the API server has accepted the build pod,
    and it has shown that pod, in an added or modified event of the watch, in
    the phase Succeeded. *)
Theorem Build_success {W} `{KubeClient W} `{TarFormat} b req (w w' : sworld W) :
  Build b req w = (Ok tt, w') →
  ∃ md c, (extractChaincodeMetadata b (br_MetadataPath req) (sw_os w)).1 = Ok md ∧
    buildContainerDefinition b md = inr c ∧
    env_of "PEER_POD_NAME" (sw_os w) ≠ "" ∧ env_of "PEER_POD_UID" (sw_os w) ≠ "" ∧
    pod_succeeded (xw_sched (sw_x w)) ∧
    ∃ p p' k' uuid, pod_Name p = "chaincode-build-" +:+ uuid ∧
      pods_Create p (pods_Watch (name_selector p) (kube (sw_k w))).2 = (inr p', k').
Proof.
  unfold Build. intros E.
  apply bind_inv_ok in E as (md & w1 & E1 & E). apply bind_inv_ok in E as (c & w2 & E2 & E).
  apply bind_inv_ok in E as (pn & w3 & E3 & E). apply bind_inv_ok in E as (pu & w4 & E4 & E).
  apply bind_inv_ok in E as (p & w5 & E5 & E).
  apply wrap_err_ok, zoom_inv in E1 as (o & E1 & ->). change (view sw_os_lens w) with (sw_os w) in E1.
  pose proof (extract_env b (br_MetadataPath req) (sw_os w)) as Henv. rewrite E1 in Henv. cbn [snd] in Henv.
  apply wrap_err_ok in E2. rewrite lift_result in E2. injection E2 as E2 <-.
  apply peer_env_inv in E3 as (-> & Hpn & Hpn'). apply peer_env_inv in E4 as (-> & Hpu & Hpu').
  unfold env_of in Hpn, Hpu. simpl in Hpn, Hpu. rewrite Henv in Hpn, Hpu.
  apply zoom_inv in E5 as (e & E5 & ->). apply wrap_err_ok, zoom_inv in E as (x & E & _).
  apply executePod_ok in E as (Hs & p' & k' & Hc).
  exists md, c. rewrite E1. split; [done|]. split; [by destruct (buildContainerDefinition b md); simplify_eq/=|].
  split; [unfold env_of; congruence|]. split; [unfold env_of; congruence|]. split; [exact Hs|].
  exists p, p', k'.
  revert E5. unfold buildPodDefinition. intros E5.
  apply bind_inv_ok in E5 as (u1 & ? & _ & E5). apply bind_inv_ok in E5 as (u2 & ? & _ & E5).
  apply bind_inv_ok in E5 as (uuid & ? & _ & E5). exists uuid. split; [by injection E5 as <- _|exact Hc].
Qed.

(** C21: Build refuses early without touching the cluster: when the metadata
    cannot be read or the type is not supported it answers InvalidArgument with
    the reason, when the peer's pod is not known it answers Unknown, and in all
    these cases it has made no request and sent no message. *)
Theorem Build_refuses {W} `{KubeClient W} `{TarFormat} b req (w : sworld W) :
  let '(r, w') := Build b req w in
  match (extractChaincodeMetadata b (br_MetadataPath req) (sw_os w)).1 with
  | Err e => r = Err (StatusError InvalidArgument ("failed to read metadata: " +:+ Error e)) ∧ sw_x w' = sw_x w
  | Ok md =>
      match buildContainerDefinition b md with
      | inl e => r = Err (StatusError InvalidArgument ("unable to generate build container: " +:+ Error e)) ∧
                 sw_x w' = sw_x w
      | inr _ =>
          (env_of "PEER_POD_NAME" (sw_os w) = "" →
           r = Err (StatusError Unknown "failed to get peer pod name, env var not passed") ∧ sw_x w' = sw_x w) ∧
          (env_of "PEER_POD_NAME" (sw_os w) ≠ "" → env_of "PEER_POD_UID" (sw_os w) = "" →
           r = Err (StatusError Unknown "failed to get peer pod uid, env var not passed") ∧ sw_x w' = sw_x w)
      end
  | _ => True
  end.
Proof.
  destruct (Build b req w) as [r w'] eqn:E.
  pose proof (λ md e, Build_refused b req w md e) as Href. rewrite E in Href.
  destruct (extractChaincodeMetadata b (br_MetadataPath req) (sw_os w)) as [[md|e|m|] o]; cbn [fst] in *; [|by edestruct (Href (inl e)) as (? & [= -> <-] & ? & _)|done..].
  specialize (Href (inr md)). cbn [refusal of_result] in Href.
  destruct (buildContainerDefinition b md) as [e|c]; [by edestruct Href as (? & [= -> <-] & ? & _)|]. split.
  - intros Hn. rewrite bool_decide_eq_true_2 in Href by done. by edestruct Href as (? & [= -> <-] & ? & _).
  - intros Hn Hu. rewrite bool_decide_eq_false_2, bool_decide_eq_true_2 in Href by done.
    by edestruct Href as (? & [= -> <-] & ? & _).
Qed.

(** ** External chaincode *)

(** A container cannot be described: the secret made for the run goes again. *)
Lemma run_with_secret_external {W} `{KubeClient W} b req md rmd uuid (w : sworld W) :
  ToLower (md_Type md) = "external" →
  ∃ e, run_with_secret b req md rmd uuid w = (Err e, w) ∧
    e = StatusError InvalidArgument ("unable to generate run container: " +:+
          ("something went wrong, chaincode type: " +:+ md_Type md)).
Proof.
  intros Ht. eexists. split; [|done]. unfold run_with_secret.
  unfold mbind at 1, M_bind at 1, zoom at 1, Getenv, gets. unfold runContainerDefinition. rewrite Ht.
  repeat (rewrite bool_decide_eq_false_2 by done). rewrite bool_decide_eq_true_2 by done.
  apply bind_err. simpl. by destruct w.
Qed.

(** Run answers a package whose type is spelled exactly external at once and
    without a request or randomness; any other spelling that the rest of the
    program also takes for external (External, EXTERNAL, ...) never succeeds:
    Run goes as far as creating a secret before it fails. *)
Theorem Run_external {W} `{KubeClient W} `{TarFormat} b req (w w' : sworld W) r md :
  (extractChaincodeMetadata b (rr_MetadataPath req) (sw_os w)).1 = Ok md →
  Run b req w = (r, w') →
  (md_Type md = "external" → r = Ok tt ∧ sw_x w' = sw_x w ∧ sw_rand w' = sw_rand w) ∧
  (md_Type md ≠ "external" → ToLower (md_Type md) = "external" →
   r ≠ Ok tt ∧
   (sw_x w' = sw_x w ∨ ∃ rmd uuid, SecretCreate (new_secret rmd uuid) ∈ calls (sw_k w'))).
Proof.
  intros Hmd E. split.
  - intros Ht. revert E. unfold Run. unfold mbind at 1, M_bind at 1, wrap_err at 1, zoom at 1.
    change (view sw_os_lens w) with (sw_os w).
    destruct (extractChaincodeMetadata b (rr_MetadataPath req) (sw_os w)) as [r0 o].
    simpl in Hmd. subst r0. rewrite bool_decide_eq_true_2 by done. by intros [= <- <-].
  - intros Hne Ht.
    apply Run_cases in E as [[Hx Hok]|(md' & rmd & uuid & w1 & Hx & Hne' & Hmd' & _ & _ & E)].
    { split; [|by left]. intros Hr. destruct (Hok Hr) as (md0 & Hmd0 & Hext). congruence. }
    assert (md' = md) as -> by congruence.
    apply bind_cases in E as [([] & w2 & Ec & E)|[(e & Ec & ->)|[(m & Ec & ->)|[Ec ->]]]].
    + apply wrap_err_ok, zoom_inv in Ec as (k2 & Ec & ->).
      destruct (run_with_secret_external b req md rmd uuid (put sw_k_lens k2 w1) Ht) as (e & Er & _).
      unfold deferring_err in E. rewrite Er in E. unfold zoom in E.
      change (view sw_k_lens (put sw_k_lens k2 w1)) with k2 in E.
      assert (∃ l, calls (deleteCryptoSecret uuid k2).2 = calls k2 ++ l) as [l Hl].
      { destruct (deleteCryptoSecret_cases uuid k2)
          as [(? & ? & _ & ->)|[(? & ? & _ & _ & ->)|(? & ? & ? & ? & _ & _ & _ & ->)]]; by eexists. }
      destruct (deleteCryptoSecret uuid k2) as [rd k3]. cbn [snd] in Hl.
      assert (w' = put sw_k_lens k3 (put sw_k_lens k2 w1) ∧ r ≠ Ok tt) as [-> Hr].
      { by destruct rd; injection E as <- <-. }
      split; [done|]. right. exists rmd, uuid. change (sw_k (put sw_k_lens k3 _)) with k3.
      rewrite Hl. apply elem_of_app. left. revert Ec. unfold createCryptoSecret, call.
      destruct (secrets_Create _ _) as [r1 w3]. intros [= _ <-]. simpl.
      apply elem_of_app. right. apply list_elem_of_here.
    + split; [done|]. right. exists rmd, uuid.
      unfold wrap_err in Ec. destruct (zoom sw_k_lens (createCryptoSecret rmd uuid) w1) as [r0 w2] eqn:E1.
      assert (w' = w2) as -> by by destruct r0; injection Ec.
      apply zoom_inv in E1 as (k2 & Ec1 & ->). revert Ec1. unfold createCryptoSecret, call.
      destruct (secrets_Create _ _) as [r1 w3]. intros [= _ <-].
      apply elem_of_app. right. apply list_elem_of_here.
    + exfalso. unfold wrap_err in Ec. revert Ec. unfold zoom, createCryptoSecret, call.
      by destruct (secrets_Create _ _) as [[?|?] ?].
    + exfalso. unfold wrap_err in Ec. revert Ec. unfold zoom, createCryptoSecret, call.
      by destruct (secrets_Create _ _) as [[?|?] ?].
Qed.

(** ** Witnesses *)
Module ServerDemo.
Definition env : gmap string string :=
  <["PEER_POD_NAME" := "peer0"]> (<["PEER_POD_UID" := "uid-7"]> {[ "CORE_PEER_LOCALMSPID" := "Org1MSP" ]}).

Definition archive_of (type : string) : string :=
  tar_write [Metadata.Demo.file_entry "metadata.json"
    ("{" +:+ Metadata.Demo.quoted "type" +:+ ":" +:+ Metadata.Demo.quoted type +:+ "}")].

Definition os (type : string) : OS :=
  mkOS (<[["data"; "p.tar"] := File Metadata.Demo.meta0 (archive_of type)]> Metadata.Demo.tree)
    [] 18 env 0 (λ _, None) (λ _, "tmp").

(** The pod ends at once; no container has a log. *)
Definition ended : Pod :=
  mkPod (mkObjectMeta "pod" "" ∅ []) (mkPodSpec RestartPolicyNever [] [] [] [] None)
    (mkPodStatus PodSucceeded [] []).

Definition sched : list choice :=
  Select (WatchEvent (mkWatchEvent Modified (Some ended) "")) :: repeat MainStep 8.

Definition cluster : Sound.cluster := Sound.mkCluster (Mem.mkCluster ∅ ∅ ∅ [] []).

Definition world (type : string) : sworld Sound.cluster :=
  mkSworld (os type) PodSpecFacts.Demo.entropy (mkXworld (mkKworld cluster [] []) sched).

Definition build_request : BuildRequest := mkBuildRequest "s.tar" "p.tar" "o.tar".
Definition run_request : RunRequest := mkRunRequest "o.tar" "p.tar" "chaincode.json".

(** A build whose container has a log, by a client that counts the open ones. *)
Definition pod : Pod := build_pod Metadata.Demo.server zeroContainer "s" "o" "1" "peer0" "uid".

Definition logged : Pod :=
  mkPod (mkObjectMeta "pod" "" ∅ []) (mkPodSpec RestartPolicyNever [] [] [] [] None)
    (mkPodStatus PodSucceeded [] [mkContainerStatus "build" (mkContainerState false (Some "Completed"))]).

Definition logged_sched : list choice :=
  [Select (WatchEvent (mkWatchEvent Modified (Some logged) "")); MainStep; MainStep;
   LogRead 0 (End None); LogStep 0] ++ repeat MainStep 8.

Definition x : xworld (Mem.cluster * nat) :=
  mkXworld (mkKworld (Mem.mkCluster ∅ ∅ {[ "build" := tt ]} [] [], 0) [] []) logged_sched.
Definition executed := executePod addControllerReferenceToCryptoSecret pod BUILD None x.

Definition built := Build Metadata.Demo.server build_request (world "Java").
Definition ran (type : string) := Run Metadata.Demo.server run_request (world type).

End ServerDemo.

Lemma executePod_releases_witness :
  ServerDemo.executed.1 = Ok tt ∧
  cleanups (calls (xw_k ServerDemo.executed.2)) = [PodLogClose 0; PodDelete "chaincode-build-1"; PodWatchStop] ∧
  open_logs (kube (xw_k ServerDemo.executed.2)) = 0.
Proof.
  assert (ServerDemo.executed.1 = Ok tt) as Hr by (vm_compute; reflexivity). split; [exact Hr|].
  split; [vm_compute; reflexivity|].
  exact (proj1 (executePod_releases ServerDemo.pod BUILD None ServerDemo.x ServerDemo.executed.1
    ServerDemo.executed.2 ltac:(apply surjective_pairing) ltac:(rewrite Hr; discriminate))).
Defined.

Lemma Run_secret_settled_witness :
  (ServerDemo.ran "node").1 = Ok tt ∧
  ∃ uuid s, ksecrets (sw_k (ServerDemo.ran "node").2) = {[ secret_name uuid := s ]} ∧
    om_OwnerReferences (sec_Meta s) ≠ [].
Proof.
  assert ((ServerDemo.ran "node").1 = Ok tt) as Hr by (vm_compute; reflexivity). split; [exact Hr|].
  destruct (Run_secret_settled Metadata.Demo.server ServerDemo.run_request (ServerDemo.world "node")
    (ServerDemo.ran "node").1 (ServerDemo.ran "node").2 ltac:(apply surjective_pairing)
    ltac:(rewrite Hr; discriminate)) as [[_ H]|(uuid & rmd & s & _ & _ & _ & Hs & _ & [(p & p' & _ & _ & Ho)|[H _]])].
  - destruct (H Hr) as (md & Hmd & Hext).
    assert ((extractChaincodeMetadata Metadata.Demo.server (rr_MetadataPath ServerDemo.run_request)
      (sw_os (ServerDemo.world "node"))).1 = Ok (mkChaincodeMetadata "" "node")) as E by (vm_compute; reflexivity).
    rewrite E in Hmd. injection Hmd as <-. discriminate Hext.
  - exists uuid, s. split; [exact Hs|]. by rewrite Ho.
  - by destruct (H Hr).
Defined.

Lemma Build_success_witness :
  ServerDemo.built.1 = Ok tt ∧ pod_succeeded ServerDemo.sched.
Proof.
  assert (ServerDemo.built.1 = Ok tt) as Hr by (vm_compute; reflexivity). split; [exact Hr|].
  destruct (Build_success Metadata.Demo.server ServerDemo.build_request (ServerDemo.world "Java")
    ServerDemo.built.2) as (md & c & _ & _ & _ & _ & H & _); [|exact H].
  rewrite <- Hr. apply surjective_pairing.
Defined.

Lemma Run_external_witness :
  (ServerDemo.ran "external").1 = Ok tt ∧ (ServerDemo.ran "External").1 ≠ Ok tt.
Proof.
  split.
  - apply (Run_external Metadata.Demo.server ServerDemo.run_request (ServerDemo.world "external")
      (ServerDemo.ran "external").2 (ServerDemo.ran "external").1 (mkChaincodeMetadata "" "external"));
      [vm_compute; reflexivity|apply surjective_pairing|reflexivity].
  - apply (Run_external Metadata.Demo.server ServerDemo.run_request (ServerDemo.world "External")
      (ServerDemo.ran "External").2 (ServerDemo.ran "External").1 (mkChaincodeMetadata "" "External"));
      [vm_compute; reflexivity|apply surjective_pairing|discriminate|reflexivity].
Defined.
