(* ===== verification/Fs.v ===== *)
(** * Copying and updating files

    pkg/fs: copy_linux.go (CopyFile, CopyDir, copyClose, chtimes), copy.go,
    its twin for other systems, which differs only in reporting an error of
    closing the source, and update.go (UpdateFile). *)
From S2P Require Import Prelude GoStrings GoPath OsModel.

(** chtimes gives a file the access and modification times of an entry. *)
Definition chtimes (target : string) (fi : inode) : M OS unit :=
  Chtimes target (Some (i_atime (i_meta fi))) (i_mtime (i_meta fi)).

(** io.Copy to an open file: the reader yields data, and an error it may end
    with; no data, no write. *)
Definition copy_to (target : fpath) (name : string)
    (reader : M OS (string * option go_error)) : M OS unit :=
  '(data, err) ← reader;
  (if bool_decide (data = "") then mret tt else WriteHandle target name data) ;;
  match err with Some e => throw e | None => mret tt end.

(** copyClose copies what a reader yields to an open file and closes it; an
    error of closing counts when copying had none. *)
Definition copyClose (target : fpath) (name : string)
    (reader : M OS (string * option go_error)) : M OS unit :=
  r ← attempt (copy_to target name reader);
  c ← attempt (CloseHandle target name);
  match r, c with
  | inl e, _ => throw e
  | inr _, inl e => throw e
  | inr _, inr _ => mret tt
  end.

(** A file as a reader. *)
Definition file_reader (h : fpath) (name : string) : M OS (string * option go_error) :=
  data ← ReadHandle h name; mret (data, None).

Definition CopyFile (src dest : string) : M OS unit :=
  let name := Clean src in
  source ← Open name;
  deferring (CloseHandle source name)
    (fi ← Fstat source name;
     target ← OpenTrunc (Clean dest) (i_mode (i_meta fi));
     copyClose target (Clean dest) (file_reader source name) ;;
     chtimes dest fi).

(** The loop over the entries of a directory; [copy_dir] copies a directory
    one level down. *)
Fixpoint copy_entries (copy_dir : string → string → M OS unit) (src dest : string)
    (dirents : list (string * inode)) : M OS unit :=
  match dirents with
  | [] => mret tt
  | (name, de) :: dirents' =>
      let sourcePath := PathJoin [src; name] in
      let destPath := PathJoin [dest; name] in
      (if IsDir de then
         MkdirAll destPath (i_mode (i_meta de)) ;;
         copy_dir sourcePath destPath ;;
         chtimes destPath de
       else CopyFile sourcePath destPath) ;;
      copy_entries copy_dir src dest dirents'
  end.

(** CopyDir, to a depth; a deeper tree makes the call go on. *)
Fixpoint CopyDir (depth : nat) (src dest : string) : M OS unit :=
  match depth with
  | O => λ s, (Blocked, s)
  | S n =>
      dirents ← ReadDir src;
      copy_entries (CopyDir n) src dest dirents
  end.

(** UpdateFile writes what the function makes of the source to dest. An error
    of os.Stat other than not-existing is dropped; the mode is then asked of a
    nil FileInfo. *)
Definition UpdateFile (src dest : string) (updateFunc : string → M OS string) : M OS unit :=
  file ← attempt (Stat src);
  match file with
  | inl e =>
      if IsNotExist e then throw e
      else updateFunc src ;; panic "invalid memory address or nil pointer dereference"
  | inr fi =>
      updated ← updateFunc src;
      WriteFile dest updated (i_mode (i_meta fi))
  end.

(** ** What the operations may change *)

(** Only entries that satisfy P are new or changed. *)
Definition only_in (P : fpath → Prop) (s s' : OS) : Prop :=
  same_process s s' ∧ ∀ p, ¬ P p → os_files s' !! p = os_files s !! p.

#[export] Instance only_in_pre P : PreOrder (only_in P).
Proof.
  split; [by intros s|]. intros s1 s2 s3 [? H1] [? H2]. split; [by etrans|].
  intros p Hp. rewrite H2, H1 by done. done.
Qed.

Lemma same_tree_only_in P s s' : same_tree s s' → only_in P s s'.
Proof. intros [? E]. split; [done|]. intros p _. by rewrite E. Qed.

Lemma only_at_only_in (P : fpath → Prop) h s s' : P h → only_at h s s' → only_in P s s'.
Proof. intros Hh [? H]. split; [done|]. intros p Hp. apply H. by intros ->. Qed.

Lemma keeps_weaken {A} (R Q : relation OS) (m : M OS A) :
  (∀ s s', R s s' → Q s s') → keeps R m → keeps Q m.
Proof. intros H Hm s. apply H, Hm. Qed.

Lemma keeps_same_only_in {A} P (m : M OS A) : keeps same_tree m → keeps (only_in P) m.
Proof. apply keeps_weaken. intros s s'. apply same_tree_only_in. Qed.

Definition names_ok (fs : gmap fpath inode) : Prop :=
  ∀ p i, fs !! p = Some i → Forall name_ok p.

(** What may depend on where a name leads: the directory the process is in
    does not change along a call, so a fixed one describes it. *)
Section at_cwd.
Context (cwd : fpath) (P : fpath → Prop) (Hnames : ∀ p, P p → Forall name_ok p).

Definition at_home (s : OS) : Prop := os_cwd s = cwd ∧ names_ok (os_files s).

Lemma only_in_home s s' : at_home s → only_in P s s' → at_home s'.
Proof using Hnames.
  intros [Hc Hn] [(Hc' & _) Ho]. split; [congruence|]. intros p i Hi.
  apply dec_stable. intros Hbad. apply Hbad, (Hn p i).
  rewrite <- (Ho p); [done|]. by intros ?%Hnames.
Qed.

(** From a state in that directory, m stays within P. *)
Definition within {A} (m : M OS A) : Prop :=
  ∀ s, at_home s → only_in P s (m s).2.

Lemma within_keeps {A} (m : M OS A) : keeps (only_in P) m → within m.
Proof. intros H s _. apply H. Qed.

Lemma within_bind {A B} (m : M OS A) (f : A → M OS B) :
  within m → (∀ a, within (f a)) → within (m ≫= f).
Proof.
  intros Hm Hf s Hs. unfold mbind, M_bind. specialize (Hm s Hs).
  destruct (m s) as [[a|e|p|] s1]; cbn [snd] in *; [|done..].
  etrans; [exact Hm|]. apply Hf. by eapply only_in_home.
Qed.

Lemma within_attempt {A} (m : M OS A) : within m → within (attempt m).
Proof. intros Hm s Hs. unfold attempt. specialize (Hm s Hs). by destruct (m s) as [[] ?]. Qed.

Lemma within_deferring {A} d (m : M OS A) : within d → within m → within (deferring d m).
Proof.
  intros Hd Hm s Hs. unfold deferring. specialize (Hm s Hs).
  destruct (m s) as [r s1]. cbn [snd] in Hm.
  assert (at_home s1) as Hs1 by (by eapply only_in_home).
  specialize (Hd s1 Hs1). destruct (d s1) as [r' s2]. cbn [snd] in Hd.
  destruct r, r'; cbn [snd]; (done || by etrans).
Qed.

Lemma within_ret {A} (a : A) : within (mret a).
Proof. by intros s _. Qed.

Lemma within_throw {A} e : within (throw e : M OS A).
Proof. by intros s _. Qed.

Lemma within_gets {A} (f : OS → A) : within (gets f).
Proof. by intros s _. Qed.

(** A name that leads to an entry of P. *)
Definition leads (p : string) : Prop := P (resolve cwd p).

Lemma within_sys {A} op p (body : M OS A) :
  (∀ s, os_cwd s = cwd → only_in P s (body s).2) → within (sys op p body).
Proof.
  intros Hb s [Hs _]. unfold sys. destruct (os_fault s (os_tick s)) as [[e n]|]; cbn [snd].
  - by apply same_tree_only_in.
  - etrans; [by apply same_tree_only_in, same_tree_tick|]. by apply Hb.
Qed.

Lemma set_files_insert_only_in h i s : P h → only_in P s (set_files <[h := i]> s).
Proof.
  intros Hh. split; [done|]. intros p Hp. simpl. apply lookup_insert_ne. by intros ->.
Qed.

Lemma within_OpenTrunc p perm : leads p → within (OpenTrunc p perm).
Proof.
  intros Hp. apply within_sys. intros s Hs. assert (P (locate p s)) as HP.
  { unfold locate. by rewrite Hs. }
  cbv zeta. case_bool_decide; [reflexivity|]. destruct (parent_ok _ _); [reflexivity|].
  destruct (os_files s !! _) as [[]|]; cbn [snd]; try reflexivity; by apply set_files_insert_only_in.
Qed.

Lemma within_WriteHandle h p data : P h → within (WriteHandle h p data).
Proof.
  intros Hh. apply within_keeps. eapply keeps_weaken; [|apply WriteHandle_only_at].
  intros s s'. by apply only_at_only_in.
Qed.

Lemma within_CloseHandle h p : within (CloseHandle h p).
Proof. apply within_keeps, keeps_same_only_in, keeps_CloseHandle. Qed.

Lemma within_Chtimes p a m : leads p → within (Chtimes p a m).
Proof.
  intros Hp. apply within_sys. intros s Hs. assert (P (locate p s)) as HP.
  { unfold locate. by rewrite Hs. }
  case_match; cbn [snd]; [reflexivity|]. by apply set_files_insert_only_in.
Qed.

Lemma within_chtimes p fi : leads p → within (chtimes p fi).
Proof. apply within_Chtimes. Qed.

Lemma within_copyClose h name reader :
  P h → within reader → within (copyClose h name reader).
Proof.
  intros Hh Hr. unfold copyClose. apply within_bind.
  - apply within_attempt. unfold copy_to. apply within_bind; [done|]. intros [d err].
    apply within_bind; [case_bool_decide; [apply within_ret|by apply within_WriteHandle]|].
    intros _. destruct err; [apply within_throw|apply within_ret].
  - intros r. apply within_bind; [apply within_attempt, within_CloseHandle|].
    intros c. destruct r, c; apply within_ret || apply within_throw.
Qed.

(** A handle OpenTrunc gives is the entry of the name. *)
Lemma OpenTrunc_handle p perm s h s' :
  OpenTrunc p perm s = (Ok h, s') → h = locate p s ∧ os_cwd s' = os_cwd s.
Proof.
  unfold OpenTrunc, sys. destruct (os_fault s (os_tick s)) as [[e n]|]; [done|].
  cbv zeta. case_bool_decide; [done|]. destruct (parent_ok _ _); [done|].
  change (os_files (tick s)) with (os_files s). change (locate p (tick s)) with (locate p s).
  destruct (os_files s !! _) as [[]|]; try done; by intros [= <- <-].
Qed.

Lemma within_bind_OpenTrunc {B} p perm (f : fpath → M OS B) :
  leads p → (∀ h, P h → within (f h)) → within (OpenTrunc p perm ≫= f).
Proof.
  intros Hp Hf s Hs. pose proof (within_OpenTrunc p perm Hp s Hs) as Ho. unfold mbind, M_bind.
  destruct (OpenTrunc p perm s) as [[h|e|m|] s1] eqn:E; cbn [snd] in *; [|done..].
  apply OpenTrunc_handle in E as [-> _]. etrans; [exact Ho|]. apply Hf; [|by eapply only_in_home].
  unfold locate. destruct Hs as [-> _]. exact Hp.
Qed.

Lemma leads_Clean p : leads p → leads (Clean p).
Proof. unfold leads. by rewrite resolve_Clean. Qed.

Lemma within_CopyFile src dest : leads dest → within (CopyFile src dest).
Proof.
  intros Hd. unfold CopyFile. apply within_bind; [apply within_keeps, keeps_same_only_in, keeps_Open|].
  intros h. apply within_deferring; [apply within_CloseHandle|].
  apply within_bind; [apply within_keeps, keeps_same_only_in, keeps_Fstat|]. intros fi.
  apply within_bind_OpenTrunc; [by apply leads_Clean|]. intros t Ht.
  apply within_bind; [apply within_copyClose; [done|]|intros _; by apply within_chtimes].
  apply within_keeps, keeps_same_only_in. unfold file_reader. keeps_tac.
Qed.

Lemma within_WriteFile p data perm : leads p → within (WriteFile p data perm).
Proof.
  intros Hp. unfold WriteFile. apply within_bind_OpenTrunc; [done|]. intros h Hh.
  apply within_bind; [by apply within_attempt, within_WriteHandle|]. intros r.
  apply within_bind; [apply within_attempt, within_CloseHandle|].
  intros c. destruct r, c; apply within_ret || apply within_throw.
Qed.

(** The directories MkdirAll makes are on the way. *)
Lemma within_mkdir h p perm : P h → within (mkdir h p perm).
Proof.
  intros Hh. apply within_sys. intros s _. destruct (parent_ok _ _); [reflexivity|].
  destruct (os_files s !! h); cbn [snd]; [reflexivity|]. by apply set_files_insert_only_in.
Qed.

Lemma within_mkdir_all dir rest p perm :
  (∀ l, l ≠ [] → l `prefix_of` rest → P (dir ++ l)) → within (mkdir_all dir rest p perm).
Proof using Hnames.
  revert dir. induction rest as [|x rest IH]; intros dir HP; cbn [mkdir_all]; [apply within_ret|].
  assert (within (mkdir_all (dir ++ [x]) rest p perm)) as Hrest.
  { apply IH. intros l Hl Hpre. rewrite <- app_assoc. apply HP; [done|]. by apply prefix_cons. }
  apply within_bind; [apply within_gets|]. intros [[]|]; try apply within_throw; [exact Hrest|].
  apply within_bind; [|intros _; exact Hrest]. apply within_mkdir, HP; [done|].
  apply prefix_cons, prefix_nil.
Qed.

Lemma within_MkdirAll p perm :
  (∀ l, l ≠ [] → l `prefix_of` resolve cwd p → P l) → within (MkdirAll p perm).
Proof using Hnames.
  intros HP s Hs. unfold MkdirAll, mbind, M_bind, gets.
  apply (within_mkdir_all [] (locate p s)); [|done]. unfold locate. destruct Hs as [-> _]. exact HP.
Qed.

(** ReadDir lists names of entries. *)
Lemma children_names fs dir : names_ok fs → Forall (λ d, name_ok d.1) (children fs dir).
Proof.
  intros Hn. apply Forall_forall. intros [x i] Hx. unfold children in Hx.
  rewrite merge_sort_Permutation in Hx. apply list_elem_of_omap in Hx as ([k j] & Hk & Hx).
  apply elem_of_map_to_list in Hk. simpl in Hx. unfold child_of in Hx.
  case_bool_decide as Ht; [|done]. destruct (drop (length dir) k) as [|y [|]] eqn:Ed; try done.
  injection Hx as -> ->. simpl. pose proof (Hn _ _ Hk) as Hall.
  rewrite <- (take_drop (length dir) k), Ed in Hall. apply Forall_app in Hall as [_ Hall].
  by inversion Hall.
Qed.

Lemma within_bind_ReadDir {B} p (f : list (string * inode) → M OS B) :
  (∀ l, Forall (λ d, name_ok d.1) l → within (f l)) → within (ReadDir p ≫= f).
Proof using Hnames.
  intros Hf s Hs. pose proof (keeps_ReadDir p s) as Hr. unfold mbind, M_bind.
  destruct (ReadDir p s) as [[l|e|m|] s1] eqn:E; cbn [snd] in *;
    try (by apply same_tree_only_in).
  assert (only_in P s s1) as Ho by by apply same_tree_only_in.
  etrans; [exact Ho|]. apply Hf; [|by eapply only_in_home]. revert E.
  unfold ReadDir, sys. destruct (os_fault s (os_tick s)) as [[e n]|]; [done|].
  destruct (find_inode p (tick s)) as [e|[]]; try done. intros [= <- _].
  apply children_names, Hs.
Qed.
End at_cwd.

(** ** Copying a directory stays below the destination *)

(** Below D, or a directory on the way to D. *)
Definition around (D p : fpath) : Prop :=
  (D `prefix_of` p ∨ p `prefix_of` D) ∧ Forall name_ok p.

Lemma around_prefix D p l : D `prefix_of` p → Forall name_ok p → l `prefix_of` p → around D l.
Proof.
  intros HD Hp Hl. split; [by apply (prefix_weak_total _ _ p)|].
  destruct Hl as [k ->]. by apply Forall_app in Hp as [? _].
Qed.

Section copy_dir.
Context (cwd D : fpath).

#[local] Abbreviation stays := (within cwd (around D)).

Lemma around_names p : around D p → Forall name_ok p.
Proof using. by intros [_ ?]. Qed.

(** A destination below D. *)
Definition below (dest : string) : Prop :=
  dest ≠ "" ∧ D `prefix_of` resolve cwd dest ∧ Forall name_ok (resolve cwd dest).

Lemma below_child dest x : below dest → name_ok x → below (PathJoin [dest; x]).
Proof using.
  intros (Hne & HD & Hn) Hx. split; [by apply PathJoin_not_empty|]. rewrite resolve_child by done.
  split; [by apply prefix_app_r|]. apply Forall_app. split; [done|]. by constructor.
Qed.

Lemma below_leads dest : below dest → leads cwd (around D) dest.
Proof using. intros (_ & HD & Hn). by apply (around_prefix D (resolve cwd dest)). Qed.

Lemma stays_copy_entries copy_dir src dest l :
  below dest → Forall (λ d, name_ok d.1) l →
  (∀ s d, below d → stays (copy_dir s d)) → stays (copy_entries copy_dir src dest l).
Proof using.
  intros Hb Hl Hc. induction Hl as [|[x de] l Hx Hl IH]; cbn [copy_entries]; [apply within_ret|].
  pose proof (below_child dest x Hb Hx) as Hbx.
  apply (within_bind _ _ around_names); [|intros _; exact IH]. destruct (IsDir de).
  - apply (within_bind _ _ around_names).
    + apply (within_MkdirAll _ _ around_names). intros k _ Hk.
      destruct Hbx as (_ & HD & Hn). by apply (around_prefix D (resolve cwd (PathJoin [dest; x]))).
    + intros _. apply (within_bind _ _ around_names); [by apply Hc|]. intros _.
      by apply within_chtimes, below_leads.
  - by apply (within_CopyFile _ _ around_names), below_leads.
Qed.

Lemma stays_CopyDir depth src dest : below dest → stays (CopyDir depth src dest).
Proof using.
  revert src dest. induction depth as [|n IH]; intros src dest Hb; cbn [CopyDir].
  - by intros s _.
  - apply (within_bind_ReadDir _ _ around_names). intros l Hl.
    apply stays_copy_entries; [done|done|]. intros s d. apply IH.
Qed.
End copy_dir.

(** *** Copying a directory returns *)

Lemma returns_chtimes p fi : returns (chtimes p fi).
Proof. unfold chtimes. ends_tac. Qed.

Lemma returns_copyClose h name reader : returns reader → returns (copyClose h name reader).
Proof. intros Hr. unfold copyClose, copy_to. ends_tac. Qed.

Lemma returns_file_reader h name : returns (file_reader h name).
Proof. unfold file_reader. ends_tac. Qed.

#[export] Hint Resolve returns_chtimes returns_copyClose returns_file_reader : ends.

Lemma returns_CopyFile src dest : returns (CopyFile src dest).
Proof. unfold CopyFile. cbv zeta. ends_tac. Qed.

#[export] Hint Resolve returns_CopyFile : ends.

(** The tree below A is not higher than n, and the process stays in cwd. *)
Definition bounded (cwd A : fpath) (n : nat) (s : OS) : Prop :=
  at_home cwd s ∧ ∀ k i, A `prefix_of` k → os_files s !! k = Some i → length k ≤ n.

(** What changes only away from A keeps the bound. *)
Lemma bounded_within {B} cwd A n (P : fpath → Prop) (m : M OS B) :
  (∀ p, P p → Forall name_ok p) → (∀ p, P p → ¬ A `prefix_of` p) →
  within cwd P m → returns m → ends (bounded cwd A n) m.
Proof.
  intros Hn Hd Hm Hr s [Hs Hb]. split; [by apply Hr|]. specialize (Hm s Hs).
  split; [by eapply only_in_home|]. intros k i Hk Hi. destruct Hm as [_ Ho].
  apply (Hb k i Hk). rewrite <- Ho; [done|]. by intros ?%Hd.
Qed.

Lemma bounded_same {B} cwd A n (m : M OS B) :
  keeps same_tree m → returns m → ends (bounded cwd A n) m.
Proof.
  intros Hk Hr. apply (bounded_within _ _ _ (λ _, False)); [done|done| |done].
  by apply within_keeps, keeps_same_only_in.
Qed.

(** ReadDir gives names of entries that are there. *)
Lemma ReadDir_bounded cwd A n p s l s1 :
  bounded cwd A n s → A `prefix_of` resolve cwd p → ReadDir p s = (Ok l, s1) →
  Forall (λ d, name_ok d.1) l ∧ (l ≠ [] → length (resolve cwd p) < n).
Proof.
  intros [Hh Hb] HA. unfold ReadDir, sys. destruct (os_fault s (os_tick s)) as [[e m]|]; [done|].
  destruct (find_inode p (tick s)) as [e|[]]; try done. intros [= <- _].
  assert (locate p s = resolve cwd p) as Hl by (unfold locate; by destruct Hh as [-> _]).
  split; [by apply children_names, Hh|]. intros Hl0.
  destruct (children (os_files (tick s)) (locate p (tick s))) as [|[x i] l'] eqn:E; [done|].
  assert ((x, i) ∈ children (os_files s) (resolve cwd p)) as Hx.
  { rewrite <- Hl. change (os_files s) with (os_files (tick s)).
    change (locate p s) with (locate p (tick s)). rewrite E. apply list_elem_of_here. }
  apply elem_of_children in Hx. assert (A `prefix_of` resolve cwd p ++ [x]) as HA' by by apply prefix_app_r.
  specialize (Hb _ _ HA' Hx). rewrite length_app in Hb. simpl in Hb. lia.
Qed.

Lemma bounded_ReadDir {B} cwd A n p (f : list (string * inode) → M OS B) :
  A `prefix_of` resolve cwd p →
  (∀ l, Forall (λ d, name_ok d.1) l → (l ≠ [] → length (resolve cwd p) < n) → ends (bounded cwd A n) (f l)) →
  ends (bounded cwd A n) (ReadDir p ≫= f).
Proof.
  intros HA Hf s Hs.
  destruct (bounded_same cwd A n _ (keeps_ReadDir p) (returns_ReadDir p) s Hs) as [Hret Hs1].
  unfold mbind, M_bind. destruct (ReadDir p s) as [[l|e|m|] s1] eqn:E; cbn [fst snd] in *; try done.
  destruct (ReadDir_bounded cwd A n p s l s1 Hs HA E). by apply Hf.
Qed.

Section copy_returns.
Context (cwd A D : fpath) (Hdisj : ∀ p, around D p → ¬ A `prefix_of` p).

#[local] Abbreviation finishes n := (ends (bounded cwd A n)).

Lemma finishes_copy_entries n copy_dir src dest l :
  src ≠ "" → A `prefix_of` resolve cwd src → below cwd D dest →
  Forall (λ d, name_ok d.1) l →
  (∀ s d, s ≠ "" → A `prefix_of` resolve cwd s → length (resolve cwd s) = S (length (resolve cwd src)) →
     below cwd D d → finishes n (copy_dir s d)) →
  finishes n (copy_entries copy_dir src dest l).
Proof using Hdisj.
  intros Hs HA Hb Hl Hc. induction Hl as [|[x de] l Hx Hl IH]; cbn [copy_entries]; [apply ends_ret|].
  pose proof (below_child cwd D dest x Hb Hx) as Hbx.
  apply ends_bind; [|intros _; exact IH]. destruct (IsDir de).
  - apply ends_bind; [|intros _; apply ends_bind].
    + apply (bounded_within _ _ _ (around D)); [apply around_names|done| |apply returns_MkdirAll].
      apply (within_MkdirAll _ _ (around_names D)). intros k _ Hk. destruct Hbx as (_ & HD & Hn).
      by apply (around_prefix D (resolve cwd (PathJoin [dest; x]))).
    + apply Hc; [by apply PathJoin_not_empty| | |done]; rewrite resolve_child by done.
      * by apply prefix_app_r.
      * rewrite length_app. simpl. lia.
    + intros _. apply (bounded_within _ _ _ (around D)); [apply around_names|done| |apply returns_chtimes].
      by apply within_chtimes, (below_leads cwd).
  - apply (bounded_within _ _ _ (around D)); [apply around_names|done| |apply returns_CopyFile].
    by apply (within_CopyFile _ _ (around_names D)), (below_leads cwd).
Qed.

Lemma finishes_CopyDir n depth src dest :
  src ≠ "" → A `prefix_of` resolve cwd src → below cwd D dest →
  0 < depth → n < length (resolve cwd src) + depth → finishes n (CopyDir depth src dest).
Proof using Hdisj.
  revert src dest. induction depth as [|m IH]; intros src dest Hs HA Hb Hd Hn; [lia|]. cbn [CopyDir].
  apply bounded_ReadDir; [done|]. intros l Hl Hlen. destruct l as [|y l]; [apply ends_ret|].
  specialize (Hlen ltac:(done)). apply finishes_copy_entries; [done..|].
  intros s d Hs' HA' Hlen' Hb'. apply IH; [done..| |]; lia.
Qed.
End copy_returns.

(** ** Copying one file *)

Lemma resolve_names cwd p : Forall name_ok cwd → Forall name_ok (resolve cwd p).
Proof.
  intros Hc. unfold resolve. apply Forall_reverse.
  pose proof (Split_no_sep slash p) as Hns.
  assert (Forall name_ok (if rooted p then [] else reverse cwd)) as Hst.
  { destruct (rooted p); [constructor|by apply Forall_reverse]. }
  revert Hst. generalize (if rooted p then [] else reverse cwd) as st.
  induction Hns as [|x l Hx Hl IH]; intros st Hst; [done|]. cbn [foldl]. apply IH. unfold kstep.
  case_bool_decide as H1; [done|]. case_bool_decide as H2.
  - destruct st; [done|by inversion Hst].
  - constructor; [|done]. split; [|done]. repeat split; intros ->; tauto.
Qed.

(** The file dest names after a copy of a file with these times and content. *)
Definition copied (mode : Z) (m : meta) (c : string) : inode :=
  File (mkMeta mode (i_atime m) (i_mtime m)) c.

Lemma locate_Clean p s : locate (Clean p) s = locate p s.
Proof. apply resolve_Clean. Qed.

Lemma copyClose_ok k name reader s c s1 m1 :
  reader s = (Ok (c, None), s1) → no_fault s1 → os_files s1 !! k = Some (File m1 "") →
  ∃ s' m2, copyClose k name reader s = (Ok tt, s') ∧ same_process s1 s' ∧
    i_mode m2 = i_mode m1 ∧ os_files s' = <[k := File m2 c]> (os_files s1).
Proof.
  intros Er Hf Hk.
  assert (∃ s2 m2, copy_to k name reader s = (Ok tt, s2) ∧ same_process s1 s2 ∧
    i_mode m2 = i_mode m1 ∧ os_files s2 = <[k := File m2 c]> (os_files s1)) as (s2 & m2 & Ec & Hp & Hm & Hfs).
  { unfold copy_to. rewrite (bind_ok _ _ _ _ _ Er). case_bool_decide as Hc.
    - exists s1, m1. subst c. rewrite insert_id by done. done.
    - rewrite (bind_ok _ _ _ _ _ (WriteHandle_ok k name c s1 m1 "" Hf Hk)).
      by eexists _, (mkMeta _ _ _). }
  unfold copyClose. rewrite (attempt_ok _ _ _ _ _ Ec).
  assert (no_fault s2) as Hf2 by (intros t; destruct Hp as (_ & _ & _ & -> & _); apply Hf).
  rewrite (attempt_ok _ _ _ _ _ (CloseHandle_ok k name s2 Hf2)).
  by exists (tick s2), m2.
Qed.

Lemma CopyFile_run src dest s m c :
  no_fault s → fs_wf (os_files s) → dest ≠ "" →
  os_files s !! locate src s = Some (File m c) → locate dest s ≠ locate src s →
  parent_ok (os_files s) (locate dest s) = inr tt →
  (os_files s !! locate dest s = None ∨ ∃ m c, os_files s !! locate dest s = Some (File m c)) →
  ∃ s', CopyFile src dest s = (Ok tt, s') ∧ same_process s s' ∧
    os_files s' = <[locate dest s :=
      copied (trunc_mode (i_mode m) (os_umask s) (os_files s !! locate dest s)) m c]> (os_files s).
Proof.
  intros Hf Hwf Hd Hs Hne Hpar Hold. unfold CopyFile. cbv zeta.
  erewrite bind_ok.
  2: { apply (Open_found _ _ (File m c)); [done| |done].
       apply find_inode_found; [done|apply Clean_not_empty|]. by rewrite locate_Clean. }
  rewrite locate_Clean. set (k := locate dest s) in *. set (h := locate src s) in *.
  destruct (OpenTrunc_ok (Clean dest) (i_mode m) (tick (tick s)) Hf Hwf (Clean_not_empty _))
    as (m1 & Eo & Hm1 & Hwf1).
  { change (os_files (tick (tick s))) with (os_files s).
    change (locate (Clean dest) (tick (tick s))) with (locate (Clean dest) s). by rewrite locate_Clean. }
  { change (os_files (tick (tick s))) with (os_files s).
    change (locate (Clean dest) (tick (tick s))) with (locate (Clean dest) s). by rewrite locate_Clean. }
  change (locate (Clean dest) (tick (tick s))) with (locate (Clean dest) s) in *.
  rewrite locate_Clean in *. fold k in Eo, Hm1, Hwf1.
  change (os_files (tick (tick s))) with (os_files s) in *. change (os_umask (tick (tick s))) with (os_umask s) in Hm1.
  set (s1 := set_files <[k:=File m1 ""]> (tick (tick (tick s)))) in *.
  assert (no_fault s1) as Hf1 by exact Hf.
  assert (os_files s1 !! h = Some (File m c)) as Hs1 by (simpl; by rewrite lookup_insert_ne).
  assert (os_files s1 !! k = Some (File m1 "")) as Hk1 by apply lookup_insert_eq.
  destruct (copyClose_ok k (Clean dest) (file_reader h (Clean src)) s1 c (tick s1) m1)
    as (s2 & m2 & Ec & Hp2 & Hm2 & Hfs2).
  { unfold file_reader. by erewrite bind_ok by by eapply ReadHandle_ok. } { exact Hf. } { exact Hk1. }
  change (os_files (tick s1)) with (<[k:=File m1 ""]> (os_files s)) in Hfs2.
  rewrite insert_insert_eq in Hfs2.
  assert (same_process s s2) as Hps by exact Hp2.
  assert (no_fault s2) as Hf2 by (intros t; destruct Hps as (_ & _ & _ & -> & _); apply Hf).
  assert (locate dest s2 = k) as Hl2 by by rewrite (locate_same _ _ _ Hps).
  assert (chtimes dest (File m c) s2 =
    (Ok tt, set_files <[k := copied (i_mode m2) m c]> (tick s2))) as Et.
  { unfold chtimes. rewrite (Chtimes_ok dest _ _ s2 (File m2 c)); [by rewrite Hl2|done|].
    apply find_inode_found; [|done|].
    - rewrite Hfs2. destruct Hold as [Hn|(m0 & c0 & Hm0)].
      + by apply fs_wf_new.
      + by eapply fs_wf_replace.
    - rewrite Hl2, Hfs2. apply lookup_insert_eq. }
  erewrite deferring_eq.
  2: { erewrite bind_ok by by eapply Fstat_ok. erewrite bind_ok by exact Eo.
       erewrite bind_ok by exact Ec. exact Et. }
  2: done.
  2: apply CloseHandle_ends.
  eexists. split; [done|]. rewrite CloseHandle_ok by exact Hf2. split; [exact Hps|].
  cbn [snd tick os_files set_files]. simpl. rewrite Hfs2, insert_insert_eq. by rewrite <- Hm1, <- Hm2.
Qed.

(** ** Properties *)

(** Without failures, CopyFile from a regular file to another name in an
    existing directory succeeds and changes nothing but the entry of that name,
    which then has the content and the access and modification times of the
    source; its mode is that of the source less the umask when the file is new,
    and stays when the file was there. *)
Theorem CopyFile_copies src dest s m c :
  no_fault s → fs_wf (os_files s) → dest ≠ "" →
  os_files s !! locate src s = Some (File m c) → locate dest s ≠ locate src s →
  parent_ok (os_files s) (locate dest s) = inr tt →
  (os_files s !! locate dest s = None ∨ ∃ m c, os_files s !! locate dest s = Some (File m c)) →
  ∃ s', CopyFile src dest s = (Ok tt, s') ∧
    os_files s' = <[locate dest s :=
      copied (trunc_mode (i_mode m) (os_umask s) (os_files s !! locate dest s)) m c]> (os_files s).
Proof.
  intros Hf Hwf Hd Hs Hne Hpar Hold.
  destruct (CopyFile_run src dest s m c) as (s' & E & _ & H); [done..|]. by exists s'.
Qed.

(** CopyDir returns whatever fails, with a depth above the height of the
    tree, when neither directory lies in the other. *)
Theorem CopyDir_returns depth src dest s :
  src ≠ "" → dest ≠ "" → Forall name_ok (os_cwd s) → names_ok (os_files s) →
  ¬ locate src s `prefix_of` locate dest s → ¬ locate dest s `prefix_of` locate src s →
  tree_height (os_files s) < depth →
  (CopyDir depth src dest s).1 ≠ Blocked.
Proof.
  intros Hs Hd Hc Hn H1 H2 Hdepth.
  apply (finishes_CopyDir (os_cwd s) (locate src s) (locate dest s)) with (n := tree_height (os_files s)); [|done|done| |lia|unfold locate; lia|].
  - intros p [[Hp|Hp] _] Hsp.
    + by destruct (prefix_weak_total _ _ p Hsp Hp).
    + apply H1. by etrans.
  - split; [done|]. split; [done|]. by apply resolve_names.
  - split; [by split|]. intros k i _. apply tree_height_spec.
Qed.

(** Whatever fails and however deep the tree, CopyDir changes no entry but
    those below the destination, besides making directories on the way to it:
    in particular a source elsewhere stays as it is. *)
Theorem CopyDir_confined depth src dest s :
  dest ≠ "" → Forall name_ok (os_cwd s) → names_ok (os_files s) →
  let s' := (CopyDir depth src dest s).2 in
  same_process s s' ∧
  ∀ p, ¬ locate dest s `prefix_of` p → ¬ p `prefix_of` locate dest s →
    os_files s' !! p = os_files s !! p.
Proof.
  intros Hd Hc Hn. cbv zeta.
  destruct (stays_CopyDir (os_cwd s) (locate dest s) depth src dest) with (s := s) as [Hp Ho].
  - split; [done|]. split; [done|]. by apply resolve_names.
  - by split.
  - split; [exact Hp|]. intros p H1 H2. apply Ho. intros [[?|?] _]; done.
Qed.

(** UpdateFile either writes to dest what the function made of the source,
    with the mode of the source, or it fails before dest is opened; when the
    source does not exist the function is not called, and it panics only when
    os.Stat failed otherwise and the function succeeded all the same. *)
Theorem UpdateFile_cases src dest f s :
  (∀ s, ¬ ∃ m, (f src s).1 = Panic m) →
  match Stat src s with
  | (Ok fi, s1) =>
      match f src s1 with
      | (Ok data, s2) => UpdateFile src dest f s = WriteFile dest data (i_mode (i_meta fi)) s2
      | (Err e, s2) => UpdateFile src dest f s = (Err e, s2)
      | _ => True
      end
  | (Err e, s1) =>
      (IsNotExist e = true → UpdateFile src dest f s = (Err e, s1)) ∧
      ((∃ m, (UpdateFile src dest f s).1 = Panic m) →
       IsNotExist e = false ∧ ∃ data, (f src s1).1 = Ok data)
  | _ => True
  end.
Proof.
  intros Hf. unfold UpdateFile, mbind, M_bind, attempt, throw, panic.
  destruct (Stat src s) as [[fi|e|m|] s1]; [| |done..].
  - by destruct (f src s1) as [[data|e|m|] s2].
  - destruct (IsNotExist e); [split; [done|by intros [m [=]]]|]. split; [done|].
    specialize (Hf s1). destruct (f src s1) as [[data|e'|m|] s2]; simpl.
    + intros _. split; [done|by eexists].
    + by intros [m [=]].
    + intros _. exfalso. apply Hf. by eexists.
    + by intros [m [=]].
Qed.

(** ** Witnesses *)
Module Demo.
Definition meta0 : meta := mkMeta 420 3 4.
Definition dir0 : inode := Directory (mkMeta 493 1 2).
Definition tree : gmap fpath inode :=
  <[["src"; "f"] := File meta0 "data"]> (<[["dst"] := dir0]> (<[["src"] := dir0]> {[ [] := dir0 ]})).
Definition os0 : OS := mkOS tree [] 18 ∅ 0 (λ _, None) (λ _, "tmp").

Lemma fs_tree_wf : fs_wf tree.
Proof.
  apply (fs_wf_insert _ ["src"] "f"); [|by eexists|done].
  apply (fs_wf_insert _ [] "dst"); [|by eexists|done].
  apply (fs_wf_insert _ [] "src"); [|by eexists|done].
  split; [by eexists|]. intros p x i Hi. apply lookup_singleton_Some in Hi as [Hp _]. by destruct p.
Defined.

Lemma fs_tree_names : names_ok tree.
Proof.
  intros p i Hi. unfold tree in Hi.
  repeat (apply lookup_insert_Some in Hi as [[<- _]|[_ Hi]];
    [apply (bool_decide_unpack _); vm_compute; exact I|]).
  apply lookup_singleton_Some in Hi as [<- _]. constructor.
Defined.
End Demo.

Lemma CopyFile_copies_witness :
  ∃ s', CopyFile "/src/f" "/dst/g" Demo.os0 = (Ok tt, s') ∧
    os_files s' !! ["dst"; "g"] = Some (File (mkMeta 420 3 4) "data").
Proof.
  destruct (CopyFile_copies "/src/f" "/dst/g" Demo.os0 Demo.meta0 "data") as (s' & E & H);
    [done|apply Demo.fs_tree_wf|done|reflexivity|done|reflexivity|by left|].
  exists s'. split; [exact E|]. rewrite H. reflexivity.
Defined.

Lemma CopyDir_confined_witness :
  os_files (CopyDir 3 "/src" "/dst" Demo.os0).2 !! ["src"; "f"] = Some (File Demo.meta0 "data") ∧
  os_files (CopyDir 3 "/src" "/dst" Demo.os0).2 !! ["dst"; "f"] = Some (File (mkMeta 420 3 4) "data").
Proof.
  split; [|by vm_compute].
  destruct (CopyDir_confined 3 "/src" "/dst" Demo.os0 ltac:(done) ltac:(constructor) Demo.fs_tree_names)
    as [_ H]. rewrite H; [reflexivity|..]; by intros [? [=]].
Defined.

Lemma UpdateFile_cases_witness :
  UpdateFile "/src/f" "/dst/g" ReadFile Demo.os0 =
  WriteFile "/dst/g" "data" 420 (ReadFile "/src/f" (Stat "/src/f" Demo.os0).2).2.
Proof.
  pose proof (UpdateFile_cases "/src/f" "/dst/g" ReadFile Demo.os0) as H.
  apply H. intros s [m Hm]. unfold ReadFile, mbind, M_bind, Open, ReadHandle, sys in Hm.
  repeat case_match; simplify_eq/=.
Defined.

Lemma CopyDir_returns_witness : (CopyDir 3 "/src" "/dst" Demo.os0).1 ≠ Blocked.
Proof.
  apply CopyDir_returns; [done|done|constructor|apply Demo.fs_tree_names|..].
  - by intros [? [=]].
  - by intros [? [=]].
  - vm_compute. lia.
Defined.
