(* ===== verification/CopyFacts.v ===== *)
(** * Copying a directory

    Without failures CopyDir (Fs.v) makes, in a directory with no entries of the
    same names, the tree of the source: by induction on the depth, with the loop
    over the entries of one directory inside. *)
From S2P Require Import Prelude GoStrings GoPath OsModel Fs.

(** What an entry becomes: the mode less the umask, the times of the source. *)
Definition copy_of (umask : Z) (i : inode) : inode :=
  let m := i_meta i in
  let m' := mkMeta (Z.ldiff (i_mode m) umask) (i_atime m) (i_mtime m) in
  match i with File _ c => File m' c | Directory _ => Directory m' | Special _ => i end.

Section copies.
Context (F : gmap fpath inode) (Hnames : names_ok F).

(** A directory of files and directories, apart from where it is copied to. *)
Record copyable (A B : fpath) (s : OS) : Prop := {
  cp_fault : no_fault s;
  cp_wf : fs_wf (os_files s);
  cp_source rel : os_files s !! (A ++ rel) = F !! (A ++ rel);
  cp_plain rel m : F !! (A ++ rel) ≠ Some (Special m);
  cp_target : ∃ m, os_files s !! B = Some (Directory m);
  cp_apart rel rel' : A ++ rel ≠ B ++ rel' }.

(** One state later, with changes below names in the target only. *)
Definition copied_below (B : fpath) (xs : list string) (s s' : OS) : Prop :=
  same_process s s' ∧ fs_wf (os_files s') ∧
  ∀ p, (∀ x l, x ∈ xs → p ≠ B ++ x :: l) → os_files s' !! p = os_files s !! p.

Lemma copyable_later A B xs s s' : copyable A B s → copied_below B xs s s' → copyable A B s'.
Proof using.
  intros [Hf Hwf Hs Hp [m Hm] Ha] (Hpr & Hwf' & Ho). split; try done.
  - intros t. destruct Hpr as (_ & _ & _ & -> & _). apply Hf.
  - intros rel. rewrite Ho; [apply Hs|]. intros x l _. apply Ha.
  - exists m. rewrite Ho; [done|]. intros x l _ E. apply (f_equal length) in E. rewrite length_app in E. simpl in E. lia.
Qed.

Lemma copied_below_trans B xs ys s1 s2 s3 :
  copied_below B xs s1 s2 → copied_below B ys s2 s3 → copied_below B (xs ++ ys) s1 s3.
Proof using.
  intros (P1 & _ & O1) (P2 & W2 & O2). split; [by etrans|]. split; [exact W2|]. intros p Hp.
  rewrite O2, O1; [done|..]; intros x l Hx; apply Hp, elem_of_app; tauto.
Qed.

(** What a call has copied under a name. *)
Definition copied_name (A B : fpath) (x : string) (umask : Z) (s : OS) : Prop :=
  ∀ l, os_files s !! (B ++ x :: l) = copy_of umask <$> F !! (A ++ x :: l).

Lemma copied_name_later A B x xs umask s s' :
  copied_name A B x umask s → x ∉ xs → copied_below B xs s s' → copied_name A B x umask s'.
Proof using.
  intros Hc Hx (_ & _ & Ho) l. rewrite Ho; [apply Hc|]. intros y l' Hy E. apply (inj _) in E as [= -> _]. done.
Qed.

(** A copy of one entry, by a function that copies directories. *)
Definition copies_entry (src dest : string) (A B : fpath) (x : string) (i : inode) (m : M OS unit) : Prop :=
  ∀ s, copyable A B s → locate src s = A → locate dest s = B →
    F !! (A ++ [x]) = Some i → (∀ l, os_files s !! (B ++ x :: l) = None) →
    ∃ s', m s = (Ok tt, s') ∧ copied_below B [x] s s' ∧ copied_name A B x (os_umask s) s'.

Definition copy_entry (copy_dir : string → string → M OS unit) (src dest name : string) (de : inode) : M OS unit :=
  let sourcePath := PathJoin [src; name] in
  let destPath := PathJoin [dest; name] in
  if IsDir de then MkdirAll destPath (i_mode (i_meta de)) ;; copy_dir sourcePath destPath ;; chtimes destPath de
  else CopyFile sourcePath destPath.

Lemma copy_entries_ok copy_dir src dest A B cs :
  NoDup cs.*1 → Forall (λ xi, copies_entry src dest A B xi.1 xi.2 (copy_entry copy_dir src dest xi.1 xi.2)) cs →
  ∀ s, copyable A B s → locate src s = A → locate dest s = B →
    Forall (λ xi, F !! (A ++ [xi.1]) = Some xi.2 ∧ ∀ l, os_files s !! (B ++ xi.1 :: l) = None) cs →
    ∃ s', copy_entries copy_dir src dest cs s = (Ok tt, s') ∧ copied_below B cs.*1 s s' ∧
      Forall (λ xi, copied_name A B xi.1 (os_umask s) s') cs.
Proof using.
  intros Hnd Hcs. induction cs as [|[x i] cs IH]; intros s Hcp Hs Hd Hpre.
  - exists s. split; [done|]. split; [|done]. split; [done|]. split; [apply (cp_wf _ _ _ Hcp)|done].
  - cbn [fmap list_fmap fst snd] in *. apply NoDup_cons in Hnd as [Hx Hnd].
    apply Forall_cons in Hcs as [Hone Hcs], Hpre as [[Hi Hnew] Hpre]. cbn [fst snd] in *.
    destruct (Hone s Hcp Hs Hd Hi Hnew) as (s1 & E1 & H1 & C1).
    pose proof H1 as (P1 & _ & O1).
    destruct (IH Hnd Hcs s1 (copyable_later _ _ _ _ _ Hcp H1)) as (s2 & E2 & H2 & C2).
    + by rewrite (locate_same _ _ _ P1).
    + by rewrite (locate_same _ _ _ P1).
    + apply Forall_forall. intros [y j] Hy. rewrite Forall_forall in Hpre. destruct (Hpre _ Hy) as [Hj Hny].
      cbn [fst snd] in *. split; [done|]. intros l. rewrite O1; [apply Hny|].
      intros z l' ->%list_elem_of_singleton E. apply (inj _) in E as [= -> _]. apply Hx, list_elem_of_fmap. by exists (x, j).
    + exists s2. assert (os_umask s1 = os_umask s) as Hu by apply P1. split; [|split].
      * cbn [copy_entries]. cbv zeta. unfold copy_entry in E1. cbv zeta in E1. by rewrite (bind_ok _ _ _ _ _ E1).
      * by apply (copied_below_trans B [x]) with s1.
      * rewrite Hu in C2. constructor; [|exact C2]. by eapply copied_name_later.
Qed.
Lemma copy_file_entry src dest A B x m c copy_dir :
  src ≠ "" → dest ≠ "" → copies_entry src dest A B x (File m c) (copy_entry copy_dir src dest x (File m c)).
Proof using Hnames.
  intros Hsrc Hdest s Hcp Hs Hd Hi Hnew. unfold copy_entry. cbv zeta. cbn [IsDir].
  assert (name_ok x) as Hx by (pose proof (Hnames _ _ Hi) as Hn; apply Forall_app in Hn as [_ Hn]; by inversion Hn).
  pose proof (cp_wf _ _ _ Hcp) as Hwf. destruct (cp_target _ _ _ Hcp) as [mt Hmt].
  assert (locate (PathJoin [src; x]) s = A ++ [x]) as Ls by (unfold locate in *; by rewrite resolve_child, Hs).
  assert (locate (PathJoin [dest; x]) s = B ++ [x]) as Ld by (unfold locate in *; by rewrite resolve_child, Hd).
  assert (os_files s !! (A ++ [x]) = Some (File m c)) as Hf by by rewrite (cp_source _ _ _ Hcp).
  destruct (CopyFile_run (PathJoin [src; x]) (PathJoin [dest; x]) s m c) as (s' & E & Hp & Hs').
  - apply Hcp.
  - done.
  - by apply PathJoin_not_empty.
  - by rewrite Ls.
  - rewrite Ls, Ld. apply not_eq_sym, (cp_apart _ _ _ Hcp).
  - rewrite Ld. by eapply parent_ok_dir.
  - left. rewrite Ld. apply Hnew.
  - rewrite Ld, (Hnew []) in Hs'. exists s'. split; [exact E|]. split.
    + split; [exact Hp|]. rewrite Hs'. split; [apply fs_wf_insert; [done|by eexists|apply Hnew]|].
      intros p Hno. apply lookup_insert_ne. intros <-. by apply (Hno x []); [apply list_elem_of_here|].
    + intros [|y l]; rewrite Hs'.
      * rewrite lookup_insert_eq, Hi. done.
      * rewrite lookup_insert_ne, Hnew by (intros [=]%(inj _)).
        destruct (F !! (A ++ x :: y :: l)) as [j|] eqn:Hj; [|done]. exfalso.
        rewrite <- (cp_source _ _ _ Hcp) in Hj. change (x :: y :: l) with ([x] ++ y :: l) in Hj. rewrite app_assoc in Hj.
        destruct (wf_prefix _ _ _ _ Hwf Hj) as [m' Hm']; [done|]. congruence.
Qed.

(** What CopyDir does from a state. *)
Definition copies_dir (n : nat) : Prop :=
  ∀ src dest A B s m,
    copyable A B s → src ≠ "" → dest ≠ "" → locate src s = A → locate dest s = B →
    F !! A = Some (Directory m) → (∀ x l, is_Some (F !! (A ++ [x])) → os_files s !! (B ++ x :: l) = None) →
    tree_height F < length A + n →
    ∃ s', CopyDir n src dest s = (Ok tt, s') ∧ copied_below B (children F A).*1 s s' ∧
      ∀ x, is_Some (F !! (A ++ [x])) → copied_name A B x (os_umask s) s'.

Lemma copyable_child A B x s s1 j m :
  copyable A B s → F !! (A ++ [x]) = Some (Directory m) → os_files s !! (B ++ [x]) = None →
  same_process s s1 → os_files s1 = <[B ++ [x] := Directory j]> (os_files s) → copyable (A ++ [x]) (B ++ [x]) s1.
Proof using.
  intros Hcp Hi Hn Hp Hs1. destruct (cp_target _ _ _ Hcp) as [mt Hmt]. split.
  - intros t. destruct Hp as (_ & _ & _ & -> & _). apply Hcp.
  - rewrite Hs1. apply fs_wf_insert; [apply Hcp|by eexists|done].
  - intros rel. rewrite Hs1, <- app_assoc, lookup_insert_ne; [apply Hcp|]. apply not_eq_sym, (cp_apart _ _ _ Hcp).
  - intros rel m'. rewrite <- app_assoc. apply Hcp.
  - exists j. by rewrite Hs1, lookup_insert_eq.
  - intros rel rel'. rewrite <- !app_assoc. apply Hcp.
Qed.

(** What lies two levels down is copied by the call one level down. *)
Lemma copied_deeper A B x s1 s2 y l :
  copyable (A ++ [x]) (B ++ [x]) s1 → (∀ l, os_files s1 !! (B ++ x :: y :: l) = None) →
  copied_below (B ++ [x]) (children F (A ++ [x])).*1 s1 s2 →
  (∀ y, is_Some (F !! ((A ++ [x]) ++ [y])) → copied_name (A ++ [x]) (B ++ [x]) y (os_umask s1) s2) →
  os_files s2 !! (B ++ x :: y :: l) = copy_of (os_umask s1) <$> F !! (A ++ x :: y :: l).
Proof using.
  intros Hcp Hnew (_ & _ & O2) C2. specialize (Hnew l). change (x :: y :: l) with ([x] ++ y :: l) in *. rewrite !app_assoc in *.
  destruct (F !! ((A ++ [x]) ++ [y])) as [k|] eqn:Hk; [apply (C2 y); by eexists|]. rewrite O2.
  - rewrite Hnew. destruct (F !! ((A ++ [x]) ++ y :: l)) as [k|] eqn:Hj; [|done]. exfalso.
    destruct l as [|z l]; [congruence|]. rewrite <- (cp_source _ _ _ Hcp) in Hj, Hk.
    change (y :: z :: l) with ([y] ++ z :: l) in Hj. rewrite app_assoc in Hj.
    destruct (wf_prefix _ _ _ _ (cp_wf _ _ _ Hcp) Hj) as [m' Hm']; [done|]. congruence.
  - intros z l' Hz E. apply (inj _) in E as [= -> ->]. apply list_elem_of_fmap in Hz as ([w k] & -> & Hz).
    apply elem_of_children in Hz. cbn [fst] in Hk. congruence.
Qed.

Lemma copy_dir_entry n src dest A B x m :
  copies_dir n → tree_height F < length A + S n → src ≠ "" → dest ≠ "" →
  copies_entry src dest A B x (Directory m) (copy_entry (CopyDir n) src dest x (Directory m)).
Proof using Hnames.
  intros IH Hh Hsrc Hdest s Hcp Hs Hd Hi Hnew. unfold copy_entry. cbv zeta. cbn [IsDir].
  assert (name_ok x) as Hx by (pose proof (Hnames _ _ Hi) as Hn; apply Forall_app in Hn as [_ Hn]; by inversion Hn).
  destruct (cp_target _ _ _ Hcp) as [mt Hmt]. pose proof (Hnew []) as Hn.
  assert (locate (PathJoin [src; x]) s = A ++ [x]) as Ls by (unfold locate in *; by rewrite resolve_child, Hs).
  assert (locate (PathJoin [dest; x]) s = B ++ [x]) as Ld by (unfold locate in *; by rewrite resolve_child, Hd).
  set (j := new_meta (i_mode m) (tick s)). set (s1 := set_files <[B ++ [x] := Directory j]> (tick s)).
  assert (MkdirAll (PathJoin [dest; x]) (i_mode m) s = (Ok tt, s1)) as E1.
  { unfold MkdirAll. rewrite (bind_ok _ _ s (locate (PathJoin [dest; x]) s) s) by done. rewrite Ld.
    apply (mkdir_all_last [] B x _ _ s mt); [apply Hcp|apply Hcp|done|done]. }
  cbn [i_meta]. rewrite (bind_ok _ _ _ _ _ E1).
  assert (copyable (A ++ [x]) (B ++ [x]) s1) as Hcp1 by by apply (copyable_child A B x s s1 j m).
  destruct (IH (PathJoin [src; x]) (PathJoin [dest; x]) (A ++ [x]) (B ++ [x]) s1 m Hcp1) as (s2 & E2 & (P2 & W2 & O2) & C2);
    [by apply PathJoin_not_empty|by apply PathJoin_not_empty|done|done|done| |rewrite length_app; simpl; lia|].
  { intros y l _. cbn. rewrite <- app_assoc, lookup_insert_ne by (intros [=]%(inj _)). apply Hnew. }
  rewrite (bind_ok _ _ _ _ _ E2).
  assert (os_files s2 !! (B ++ [x]) = Some (Directory j)) as H2.
  { rewrite O2; [apply (lookup_insert_eq (os_files s))|]. intros y l _ E. apply (f_equal length) in E.
    rewrite !length_app in E. simpl in E. lia. }
  assert (locate (PathJoin [dest; x]) s2 = B ++ [x]) as L2 by (rewrite (locate_same _ _ _ P2); exact Ld).
  assert (no_fault s2) as Hf2 by (intros t; destruct P2 as (_ & _ & _ & -> & _); apply Hcp).
  unfold chtimes. rewrite (Chtimes_ok _ _ _ s2 (Directory j));
    [|done|apply find_inode_found; [done|by apply PathJoin_not_empty|by rewrite L2]].
  rewrite L2. eexists. split; [done|]. cbn [set_times i_meta default i_mode i_atime i_mtime]. split.
  - split; [exact P2|]. cbn [set_files os_files tick]. split; [by eapply fs_wf_update|].
    intros p Hno. rewrite lookup_insert_ne by (intros <-; by apply (Hno x []); [apply list_elem_of_here|]).
    rewrite O2.
    + apply (lookup_insert_ne (os_files s)). intros <-. by apply (Hno x []); [apply list_elem_of_here|].
    + intros y l _ ->. apply (Hno x (y :: l)); [apply list_elem_of_here|]. by rewrite <- app_assoc.
  - intros [|y l]; cbn [set_files os_files tick].
    + by rewrite lookup_insert_eq, Hi.
    + rewrite lookup_insert_ne by (intros [=]%(inj _)). apply (copied_deeper A B x s1 s2 y l Hcp1); [|exact (conj P2 (conj W2 O2))|exact C2].
      intros l'. unfold s1. cbn. rewrite lookup_insert_ne by (intros [=]%(inj _)). apply Hnew.
Qed.

Lemma copies_dir_all n : copies_dir n.
Proof using Hnames.
  induction n as [|n IH]; intros src dest A B s m Hcp Hsrc Hdest Hs Hd Hi Hnew Hh.
  - apply tree_height_spec in Hi. lia.
  - cbn [CopyDir]. assert (find_inode src s = inr (Directory m)) as Hfind.
    { apply find_inode_found; [apply Hcp|done|]. rewrite Hs, <- (app_nil_r A), (cp_source _ _ _ Hcp). by rewrite app_nil_r. }
    rewrite (bind_ok _ _ _ _ _ (ReadDir_ok _ _ _ (cp_fault _ _ _ Hcp) Hfind)), Hs.
    rewrite (children_ext _ F A) by (intros x; apply Hcp).
    destruct (copy_entries_ok (CopyDir n) src dest A B (children F A) (NoDup_children_names F A)) with (s := tick s)
      as (s' & E & Hb & Hc); [| |done|done| |].
    + apply Forall_forall. intros [x i] Hx%elem_of_children. cbn [fst snd]. destruct i as [m' c|m'|m'].
      * by apply copy_file_entry.
      * by apply copy_dir_entry.
      * by destruct (cp_plain _ _ _ Hcp [x] m').
    + by destruct Hcp.
    + apply Forall_forall. intros [x i] Hx%elem_of_children. split; [done|]. intros l. by apply Hnew.
    + exists s'. split; [exact E|]. split; [exact Hb|]. intros x [i Hx].
      rewrite Forall_forall in Hc. apply (Hc (x, i)). by apply elem_of_children.
Qed.
End copies.

(** Copying a file to a new entry of the same name in another directory. *)
Lemma CopyFile_named src dest name s m c md :
  no_fault s → fs_wf (os_files s) → src ≠ "" → dest ≠ "" → name_ok name →
  os_files s !! (locate src s ++ [name]) = Some (File m c) →
  os_files s !! locate dest s = Some (Directory md) → os_files s !! (locate dest s ++ [name]) = None →
  ∃ s' m', CopyFile (PathJoin [src; name]) (PathJoin [dest; name]) s = (Ok tt, s') ∧ same_process s s' ∧
    fs_wf (os_files s') ∧ os_files s' = <[locate dest s ++ [name] := File m' c]> (os_files s).
Proof.
  intros Hf Hwf Hs Hd Hx Hc Hm Hn.
  assert (locate (PathJoin [src; name]) s = locate src s ++ [name]) as Ls by by apply resolve_child.
  assert (locate (PathJoin [dest; name]) s = locate dest s ++ [name]) as Ld by by apply resolve_child.
  destruct (CopyFile_run (PathJoin [src; name]) (PathJoin [dest; name]) s m c) as (s' & E & Hp & Hs');
    [done|done|by apply PathJoin_not_empty|by rewrite Ls|..].
  - rewrite Ls, Ld. congruence.
  - rewrite Ld. by eapply parent_ok_dir.
  - left. by rewrite Ld.
  - rewrite Ld in Hs'. eexists s', _. split; [exact E|]. split; [exact Hp|]. split; [|exact Hs'].
    rewrite Hs'. apply fs_wf_insert; [done|by exists md|done].
Qed.

Lemma apart_not_prefix (A B rel rel' : fpath) :
  ¬ A `prefix_of` B → ¬ B `prefix_of` A → A ++ rel ≠ B ++ rel'.
Proof.
  intros H1 H2 E. destruct (prefix_weak_total A B (A ++ rel)); [by apply prefix_app_r|rewrite E; by apply prefix_app_r|..]; done.
Qed.

(** Taking the umask off a mode leaves it when the two have no bit in common. *)
Lemma ldiff_same a b : Z.ldiff a b = a ↔ Z.land a b = 0%Z.
Proof.
  split; intros E; apply Z.bits_inj'; intros n _; apply (f_equal (λ z, Z.testbit z n)) in E; revert E;
    rewrite Z.ldiff_spec, Z.land_spec, ?Z.bits_0; by destruct (Z.testbit a n), (Z.testbit b n).
Qed.

(** ** Properties *)


(** ** Witnesses *)

