(* ===== verification/CopyOther.v ===== *)
(** * Copying on other systems

    pkg/fs/copy.go, which is compiled in the place of copy_linux.go (Fs.v)
    elsewhere: CopyFile, CopyDir, copyClose and chtimes once more. It prints an
    error of closing the source on standard output, which copy_linux.go drops.
    The two are the same program otherwise: every run of the one is a run of the
    other, with the same result and the same file system. *)
From S2P Require Import Prelude GoStrings GoPath OsModel Fs.

(** The file system, and what was printed on standard output. *)
Record pworld := mkPworld { pw_os : OS; pw_stdout : list string }.

Definition pw_lens : lens pworld OS := Lens pw_os (λ o w, mkPworld o (pw_stdout w)).

#[local] Abbreviation os := (zoom pw_lens).

(** fmt.Printf. *)
Definition print_out (text : string) : M pworld unit :=
  modify (λ w, mkPworld (pw_os w) (pw_stdout w ++ [text])).

Definition chtimes (target : string) (fi : inode) : M pworld unit :=
  os (Chtimes target (Some (i_atime (i_meta fi))) (i_mtime (i_meta fi))).

(** The reader is the source: what it yields goes to the target. *)
Definition copyClose (target : fpath) (name : string) (source : fpath) (source_name : string) : M pworld unit :=
  r ← attempt (data ← os (ReadHandle source source_name);
               if bool_decide (data = "") then mret tt else os (WriteHandle target name data));
  c ← attempt (os (CloseHandle target name));
  match r, c with
  | inl e, _ => throw e
  | inr _, inl e => throw e
  | inr _, inr _ => mret tt
  end.

(** The deferred function. *)
Definition close_source (source : fpath) (name : string) : M pworld unit :=
  r ← attempt (os (CloseHandle source name));
  match r with
  | inl e => print_out ("Error closing file: " +:+ Error e)
  | inr _ => mret tt
  end.

Definition CopyFile (src dest : string) : M pworld unit :=
  let name := Clean src in
  source ← os (Open name);
  deferring (close_source source name)
    (fi ← os (Fstat source name);
     target ← os (OpenTrunc (Clean dest) (i_mode (i_meta fi)));
     copyClose target (Clean dest) source name ;;
     chtimes dest fi).

Fixpoint copy_entries (copy_dir : string → string → M pworld unit) (src dest : string)
    (dirents : list (string * inode)) : M pworld unit :=
  match dirents with
  | [] => mret tt
  | (name, de) :: dirents' =>
      let sourcePath := PathJoin [src; name] in
      let destPath := PathJoin [dest; name] in
      (if IsDir de then
         os (MkdirAll destPath (i_mode (i_meta de))) ;;
         copy_dir sourcePath destPath ;;
         chtimes destPath de
       else CopyFile sourcePath destPath) ;;
      copy_entries copy_dir src dest dirents'
  end.

(** To a depth, like CopyDir of Fs.v. *)
Fixpoint CopyDir (depth : nat) (src dest : string) : M pworld unit :=
  match depth with
  | O => λ w, (Blocked, w)
  | S n =>
      dirents ← os (ReadDir src);
      copy_entries (CopyDir n) src dest dirents
  end.

(** ** The same program *)

(** A message about a file that could not be closed. *)
Definition close_message (t : string) : Prop := ∃ e, t = "Error closing file: " +:+ Error e.

(** m' does to the file system what m does, with the same result; it prints
    such messages only, and none when no system call fails. *)
Definition does {A} (m' : M pworld A) (m : M OS A) : Prop := ∀ w,
  ∃ out, m' w = ((m (pw_os w)).1, mkPworld (m (pw_os w)).2 (pw_stdout w ++ out)) ∧
    Forall close_message out ∧ same_process (pw_os w) (m (pw_os w)).2 ∧ (no_fault (pw_os w) → out = []).

Create HintDb does.

Lemma does_os {A} (m : M OS A) : keeps same_process m → does (os m) m.
Proof.
  intros Hm [s o]. exists []. unfold zoom. cbn. specialize (Hm s). destruct (m s) as [r s']. by rewrite app_nil_r.
Qed.

Lemma does_ret {A} (a : A) : does (mret a) (mret a).
Proof. intros [s o]. exists []. cbn. by rewrite app_nil_r. Qed.

Lemma does_throw {A} e : does (throw e : M pworld A) (throw e).
Proof. intros [s o]. exists []. cbn. by rewrite app_nil_r. Qed.

Lemma does_bind {A B} (m' : M pworld A) m (f' : A → M pworld B) f :
  does m' m → (∀ a, does (f' a) (f a)) → does (m' ≫= f') (m ≫= f).
Proof.
  intros Hm Hf w. destruct (Hm w) as (o1 & E1 & H1 & P1 & N1). unfold mbind, M_bind. rewrite E1. clear E1.
  destruct (m (pw_os w)) as [[a|e|t|] s1]; cbn [fst snd] in *; [|by exists o1..].
  destruct (Hf a (mkPworld s1 (pw_stdout w ++ o1))) as (o2 & E2 & H2 & P2 & N2). cbn [pw_os pw_stdout] in *.
  exists (o1 ++ o2). rewrite E2, app_assoc. split; [done|]. split; [by apply Forall_app|]. split; [by etrans|].
  intros Hn. rewrite N1 by done. apply N2. intros t. destruct P1 as (_ & _ & _ & -> & _). apply Hn.
Qed.

Lemma does_attempt {A} (m' : M pworld A) m : does m' m → does (attempt m') (attempt m).
Proof.
  intros Hm w. destruct (Hm w) as (o1 & E1 & H). exists o1. unfold attempt. rewrite E1.
  by destruct (m (pw_os w)) as [[a|e|t|] s1].
Qed.

(** The one difference: closing the source may print. *)
Lemma does_deferring {A} h name (m' : M pworld A) m :
  does m' m → does (deferring (close_source h name) m') (deferring (CloseHandle h name) m).
Proof.
  intros Hm w. destruct (Hm w) as (o1 & E1 & H1 & P1 & N1). unfold deferring. rewrite E1. clear E1.
  destruct (m (pw_os w)) as [r s1]. cbn [fst snd] in *.
  assert (r = Blocked ∨ r ≠ Blocked) as [->|Hr] by (destruct r; by auto); [by exists o1|].
  set (w1 := mkPworld s1 (pw_stdout w ++ o1)).
  assert (∃ o2, close_source h name w1 = (Ok tt, mkPworld (tick s1) (pw_stdout w ++ o1 ++ o2)) ∧
    Forall close_message o2 ∧ (no_fault s1 → o2 = [])) as (o2 & -> & H2 & N2).
  { unfold close_source, mbind, M_bind, attempt, zoom, CloseHandle, sys, w1. cbn [pw_lens view put pw_os pw_stdout].
    destruct (os_fault s1 (os_tick s1)) as [[e n]|] eqn:Ef; cbn.
    - eexists [_]. rewrite app_assoc. split; [done|]. split; [|by intros Hn; rewrite Hn in Ef].
      apply Forall_singleton. by exists (PathError "close" name e).
    - exists []. by rewrite app_nil_r. }
  exists (o1 ++ o2). destruct (CloseHandle_ends h name s1) as (r2 & Er2 & Hp & Hb).
  assert ((CloseHandle h name s1).2 = tick s1) as Es2 by (unfold CloseHandle, sys; by destruct (os_fault _ _) as [[e n]|]).
  destruct (CloseHandle h name s1) as [r2' s2]. cbn [fst snd] in Er2, Es2. subst r2' s2.
  split; [|split; [by apply Forall_app|split]].
  - destruct r, r2; try done; exfalso; by eapply Hp.
  - assert (same_process (pw_os w) (tick s1)) by exact P1. destruct r, r2; try done.
  - intros Hn. rewrite N1, N2; [done| |done]. intros t. destruct P1 as (_ & _ & _ & -> & _). apply Hn.
Qed.

#[local] Hint Resolve does_os does_ret does_throw does_bind does_attempt does_deferring : does.

(** Both programs side by side. *)
Ltac does_tac :=
  repeat match goal with
  | |- does (deferring _ _) _ => apply does_deferring
  | |- does (_ ≫= _) _ => apply does_bind; [|intro]
  | |- does (attempt _) _ => apply does_attempt
  | |- does (zoom _ _) _ => apply does_os; process_tac
  | |- does (match ?x with _ => _ end) _ => destruct x
  | |- does _ _ => solve [eauto with does]
  end.

Lemma does_chtimes p fi : does (chtimes p fi) (Fs.chtimes p fi).
Proof. apply does_os. process_tac. Qed.

(** The reader of Fs.v is the source as a reader. *)
Lemma copy_to_file h name source sname s :
  Fs.copy_to h name (Fs.file_reader source sname) s =
  (data ← ReadHandle source sname; if bool_decide (data = "") then mret tt else WriteHandle h name data) s.
Proof.
  unfold Fs.copy_to, Fs.file_reader, mbind, M_bind, mret, M_ret. destruct (ReadHandle source sname s) as [[d|e|t|] s1]; try done.
  case_bool_decide; [done|]. by destruct (WriteHandle h name d s1) as [[[]|e|t|] s2].
Qed.

Lemma does_ext {A} (m' : M pworld A) m1 m2 : (∀ s, m1 s = m2 s) → does m' m1 → does m' m2.
Proof. intros E H w. destruct (H w) as (o & Hw). exists o. by rewrite <- E. Qed.

Lemma does_copyClose h name source sname :
  does (copyClose h name source sname) (Fs.copyClose h name (Fs.file_reader source sname)).
Proof.
  unfold copyClose, Fs.copyClose. apply does_bind.
  - apply does_attempt. eapply does_ext; [intros s; symmetry; apply copy_to_file|]. does_tac.
  - intros [e|[]]; does_tac.
Qed.

#[local] Hint Resolve does_chtimes does_copyClose : does.

Lemma does_CopyFile src dest : does (CopyFile src dest) (Fs.CopyFile src dest).
Proof. unfold CopyFile, Fs.CopyFile. cbv zeta. does_tac. Qed.

#[local] Hint Resolve does_CopyFile : does.

Lemma does_copy_entries f' f src dest l :
  (∀ a b, does (f' a b) (f a b)) → does (copy_entries f' src dest l) (Fs.copy_entries f src dest l).
Proof.
  intros Hf. induction l as [|[x i] l IH]; cbn [copy_entries Fs.copy_entries]; cbv zeta; does_tac.
Qed.

Lemma does_CopyDir depth src dest : does (CopyDir depth src dest) (Fs.CopyDir depth src dest).
Proof.
  revert src dest. induction depth as [|n IH]; intros src dest; cbn [CopyDir Fs.CopyDir].
  - intros [s o]. exists []. cbn. by rewrite app_nil_r.
  - apply does_bind; [does_tac|]. intros l. by apply does_copy_entries.
Qed.

(** ** Properties *)

(** C38: copy.go and copy_linux.go are the same program but for what is printed:
    whatever fails, CopyDir and CopyFile of the one end as those of the other,
    with the same file system; standard output gets messages about files that
    could not be closed, and none when no system call fails. *)
Theorem copies_agree depth src dest w :
  let same {A} (m' : M pworld A) (m : M OS A) :=
    let '(r, s) := m (pw_os w) in
    ∃ out, m' w = (r, mkPworld s (pw_stdout w ++ out)) ∧ Forall close_message out ∧
      (no_fault (pw_os w) → out = []) in
  same (CopyFile src dest) (Fs.CopyFile src dest) ∧
  same (CopyDir depth src dest) (Fs.CopyDir depth src dest).
Proof.
  cbv zeta. split.
  - destruct (does_CopyFile src dest w) as (o & E & H & _ & N). destruct (Fs.CopyFile _ _ _) as [r s]. by exists o.
  - destruct (does_CopyDir depth src dest w) as (o & E & H & _ & N). destruct (Fs.CopyDir _ _ _ _) as [r s]. by exists o.
Qed.
