(* ===== verification/Tar.v ===== *)
(** * Writing and extracting archives

    pkg/fs/tar.go: CreateTar walks a directory and writes an archive to an
    open file, ExtractTar makes the files of an archive below a directory.
    The walk is filepath.Walk and the writer is tar.Writer over that file;
    the state of a run of CreateTar is the writer with the file system. *)
From S2P Require Import Prelude GoStrings GoPath OsModel TarFormat Fs.

(** ** filepath.Walk *)

Section walk.
Context {S : Type} (l : lens S OS).
(** The function that is called on every file, with the FileInfo or the
    error; a FileInfo that comes with an error is dropped. *)
Context (fn : string → go_error + inode → M S unit).

Fixpoint walk_names (walk_one : string → inode → M S unit) (path : string)
    (names : list string) : M S unit :=
  match names with
  | [] => mret tt
  | name :: names' =>
      let filename := PathJoin [path; name] in
      r ← attempt (zoom l (Lstat filename));
      match r with
      | inl e => fn filename (inl e)
      | inr fi => walk_one filename fi
      end ;;
      walk_names walk_one path names'
  end.

(** Down to a depth; on a deeper tree the walk goes on. *)
Fixpoint walk_tree (depth : nat) (path : string) (fi : inode) : M S unit :=
  match depth with
  | O => λ s, (Blocked, s)
  | Datatypes.S n =>
      if IsDir fi then
        r ← attempt (zoom l (ReadDir path));
        match r with
        | inl e => fn path (inl e)
        | inr dirents => fn path (inr fi) ;; walk_names (walk_tree n) path (fst <$> dirents)
        end
      else fn path (inr fi)
  end.

Definition Walk (depth : nat) (root : string) : M S unit :=
  r ← attempt (zoom l (Lstat root));
  match r with
  | inl e => fn root (inl e)
  | inr fi => walk_tree depth root fi
  end.
End walk.

(** ** tar.Writer *)

(** The writer on an open file: what the current entry still lacks, the
    padding behind it, and the error that makes the writer useless. *)
Record twriter := mkTwriter {
  tw_os : OS; tw_file : fpath; tw_name : string;
  tw_left : nat; tw_pad : string; tw_err : option go_error }.

Definition tw_lens : lens twriter OS :=
  Lens tw_os (λ o w, mkTwriter o (tw_file w) (tw_name w) (tw_left w) (tw_pad w) (tw_err w)).

Definition set_entry (left : nat) (pad : string) (w : twriter) : twriter :=
  mkTwriter (tw_os w) (tw_file w) (tw_name w) left pad (tw_err w).
Definition set_err (e : go_error) (w : twriter) : twriter :=
  mkTwriter (tw_os w) (tw_file w) (tw_name w) (tw_left w) (tw_pad w) (Some e).

Definition ErrWriteTooLong : go_error := ErrorString "archive/tar: write too long".

Section writer.
Context `{TarFormat}.

(** A write to the file; its error sticks. *)
Definition tw_write (data : string) : M twriter unit :=
  w ← get_state;
  r ← attempt (zoom tw_lens (WriteHandle (tw_file w) (tw_name w) data));
  match r with
  | inl e => modify (set_err e) ;; throw e
  | inr _ => mret tt
  end.

(** No call on a writer whose error is set does anything. *)
Definition unless_err (m : M twriter unit) : M twriter unit :=
  w ← get_state;
  match tw_err w with Some e => throw e | None => m end.

Definition Flush : M twriter unit :=
  unless_err (
    w ← get_state;
    if decide (0 < tw_left w)
    then throw (ErrorString ("archive/tar: missed writing " +:+ pretty (tw_left w) +:+ " bytes"))
    else tw_write (tw_pad w) ;; modify (set_entry 0 "")).

Definition WriteHeader (h : header) : M twriter unit :=
  Flush ;;
  match tar_header_error h with
  | Some e => throw e
  | None => tw_write (tar_header h) ;; modify (set_entry (h_Size h) (tar_padding (h_Size h)))
  end.

Definition tw_Write (data : string) : M twriter unit :=
  unless_err (
    w ← get_state;
    if decide (slen data ≤ tw_left w) then
      tw_write data ;; modify (set_entry (tw_left w - slen data) (tw_pad w))
    else
      tw_write (take_bytes (tw_left w) data) ;; modify (set_entry 0 (tw_pad w)) ;;
      throw ErrWriteTooLong).

Definition tw_Close : M twriter unit := Flush ;; tw_write tar_trailer.

(** ** CreateTar *)

(** %04o of the mode of a device. *)
Fixpoint octal_digits (fuel : nat) (n : Z) : string :=
  match fuel with
  | O => ""
  | S k => octal_digits k (n / 8) +:+ String (ascii_of_nat (48 + Z.to_nat (n mod 8))) ""
  end.
Definition ModeDevice : Z := 2 ^ 26 + 2 ^ 21.
Definition device_mode_text (perm : Z) : string := octal_digits 9 (ModeDevice + perm).

Definition fileInfoHeader (relpath : string) (fi : inode) : header :=
  let m := i_meta fi in
  mkHeader (if IsDir fi then relpath +:+ SLASH else relpath)
    (match fi with File _ _ => TypeReg | Directory _ => TypeDir | Special _ => TypeOther 51 end)
    (i_mode m)
    (match fi with File _ c => slen c | _ => 0 end)
    (i_mtime m) (Some (i_atime m)).

Definition writeFileContents (path : string) : M twriter unit :=
  let name := Clean path in
  file ← zoom tw_lens (Open name);
  deferring (zoom tw_lens (CloseHandle file name))
    (data ← zoom tw_lens (ReadHandle file name);
     if bool_decide (data = "") then mret tt else tw_Write data).

(** The function CreateTar passes to filepath.Walk. *)
Definition visit (sourceDir path : string) (r : go_error + inode) : M twriter unit :=
  fileInfo ← lift r;
  relpath ← lift (Rel sourceDir path);
  if bool_decide (relpath = ".") then mret tt
  else
    WriteHeader (fileInfoHeader relpath fileInfo) ;;
    match fileInfo with
    | File _ _ =>
        wrap_err (Errorf ("failed to write file contents for " +:+ relpath +:+ ": "))
          (writeFileContents path)
    | Directory _ => mret tt
    | Special m =>
        throw (ErrorString ("failed to write header for " +:+ relpath +:+
                            ": unsupported file mode " +:+ device_mode_text (i_mode m)))
    end.

Definition create_tar (depth : nat) (sourceDir : string) : M twriter unit :=
  deferring tw_Close (Walk tw_lens (visit sourceDir) depth sourceDir).

(** CreateTar on a file that is open for writing. *)
Definition CreateTar (depth : nat) (file : fpath) (name sourceDir : string) : M OS unit := λ s,
  let '(r, w) := create_tar depth sourceDir (mkTwriter s file name 0 "" None) in (r, tw_os w).

(** ** ExtractTar *)

(** The archive in an open file; a read that fails after some bytes ends what
    the reader yields. *)
Definition read_archive (file : fpath) (name : string) : M OS archive := λ s,
  match os_fault s (os_tick s), os_files s !! file with
  | Some (e, n), Some (File _ c) =>
      let a := tar_read (take_bytes n c) in
      let err := Some (PathError "read" name e) in
      (Ok (mkArchive ((λ x, mkEntry (e_header x) (e_data x) (match e_err x with None => None | _ => err end))
                        <$> a_entries a) err), tick s)
  | _, _ =>
      match ReadHandle file name s with
      | (Ok c, s') => (Ok (tar_read c), s')
      | (Err e, s') => (Ok (mkArchive [] (Some e)), s')
      | (Panic m, s') => (Panic m, s')
      | (Blocked, s') => (Blocked, s')
      end
  end.
End writer.

Definition extract_target (destDir : string) (h : header) : string :=
  PathJoin [destDir; Clean (h_Name h)].

Definition entry_reader (e : entry) : M OS (string * option go_error) := mret (e_data e, e_err e).

Definition extract_entry (destDir : string) (e : entry) (directoryHeaders : gmap string header)
    : M OS (gmap string header) :=
  let h := e_header e in
  let target := extract_target destDir h in
  match h_Typeflag h with
  | TypeDir =>
      MkdirAll target (h_Mode h) ;;
      mret (<[target := h]> directoryHeaders)
  | TypeReg =>
      file ← OpenTrunc (Clean target) (h_Mode h);
      copyClose file (Clean target) (entry_reader e) ;;
      Chtimes target (Some (h_ModTime h)) (h_ModTime h) ;;
      mret directoryHeaders
  | TypeOther n =>
      throw (ErrorString ("unsupported tar header type flag: " +:+ pretty n))
  end.

Fixpoint extract_entries (destDir : string) (es : list entry) (directoryHeaders : gmap string header)
    : M OS (gmap string header) :=
  match es with
  | [] => mret directoryHeaders
  | e :: es' => d ← extract_entry destDir e directoryHeaders; extract_entries destDir es' d
  end.

(** The times of the directories, last. *)
Fixpoint extract_times (hs : list (string * header)) : M OS unit :=
  match hs with
  | [] => mret tt
  | (target, h) :: hs' => Chtimes target (h_AccessTime h) (h_ModTime h) ;; extract_times hs'
  end.

(** [order] is the order in which Go ranges over the map. *)
Definition ExtractTar (order : gmap string header → list (string * header)) (a : archive)
    (destDir : string) : M OS unit :=
  directoryHeaders ← extract_entries destDir (a_entries a) ∅;
  match a_err a with
  | Some e => throw e
  | None => extract_times (order directoryHeaders)
  end.
