(* ===== verification/TarFacts.v ===== *)
(** * What archives hold, and where they are extracted

    Facts on CreateTar and ExtractTar (Tar.v): extracting stays below the
    destination when the names do, CreateTar returns whatever fails, and
    without failures it writes exactly the entries of the tree, which the
    reader gives back. *)
From S2P Require Import Prelude GoStrings GoPath OsModel TarFormat Fs Tar.

(** ** Extracting stays below the destination *)

Lemma clean_elems_no_dotdot root l : ".." ∉ l → ".." ∉ clean_elems root l.
Proof.
  unfold clean_elems. assert (".." ∉ (@nil string)) as H by by apply not_elem_of_nil.
  revert H. generalize (@nil string) as st. induction l as [|x l IH]; intros st Hst Hl; [done|].
  apply not_elem_of_cons in Hl as [Hx Hl]. cbn [foldl]. apply IH; [|done]. unfold clean_step.
  case_bool_decide; [done|]. rewrite bool_decide_eq_false_2 by congruence.
  by apply not_elem_of_cons.
Qed.

Lemma no_dotdot_Clean p : no_dotdot p → no_dotdot (Clean p).
Proof.
  unfold no_dotdot. intros Hp. rewrite Split_Clean. cbv zeta.
  pose proof (clean_elems_no_dotdot (rooted p) _ Hp) as Hc. rewrite <- elem_of_reverse in Hc.
  destruct (reverse _) as [|x l].
  - destruct (rooted p); by apply (bool_decide_unpack _).
  - destruct (rooted p); [|done]. by apply not_elem_of_cons.
Qed.

(** A name that cannot leave the directory it is joined to: Clean makes sure
    of it when the name is rooted. *)
Definition safe_name (name : string) : Prop := rooted name = true ∨ no_dotdot name.

#[export] Instance safe_name_dec name : Decision (safe_name name).
Proof. unfold safe_name, no_dotdot. apply _. Defined.

Lemma safe_name_target destDir h :
  destDir ≠ "" → safe_name (h_Name h) → ∀ cwd, Forall name_ok cwd →
  below cwd (resolve cwd destDir) (extract_target destDir h).
Proof.
  intros Hd Hs cwd Hc. assert (no_dotdot (Clean (h_Name h))) as Hn.
  { destruct Hs; [by apply Clean_rooted_no_dotdot|by apply no_dotdot_Clean]. }
  split; [by apply PathJoin_not_empty|]. split; [|by apply resolve_names].
  unfold extract_target. rewrite resolve_PathJoin_below by done. by apply prefix_app_r.
Qed.

Section extract.
Context (cwd : fpath) (Hcwd : Forall name_ok cwd) (destDir : string) (Hd : destDir ≠ "").

#[local] Abbreviation D := (resolve cwd destDir).
#[local] Abbreviation stays := (within cwd (around D)).

Definition good_headers (d : gmap string header) : Prop := ∀ t h, d !! t = Some h → below cwd D t.

Lemma stays_extract_times hs : (∀ t h, (t, h) ∈ hs → below cwd D t) → stays (extract_times hs).
Proof using.
  induction hs as [|[t h] hs IH]; intros Hb; cbn [extract_times]; [apply within_ret|].
  apply (within_bind _ _ (around_names D)).
  - apply within_Chtimes, (below_leads cwd), (Hb t h), list_elem_of_here.
  - intros _. apply IH. intros t' h' Hin. apply (Hb t' h'). by apply list_elem_of_further.
Qed.

Lemma stays_extract_file e :
  safe_name (h_Name (e_header e)) → ∀ d : gmap string header,
  stays (file ← OpenTrunc (Clean (extract_target destDir (e_header e))) (h_Mode (e_header e));
         copyClose file (Clean (extract_target destDir (e_header e))) (entry_reader e) ;;
         Chtimes (extract_target destDir (e_header e)) (Some (h_ModTime (e_header e))) (h_ModTime (e_header e)) ;;
         mret d).
Proof using Hcwd Hd.
  intros Hs d. pose proof (safe_name_target destDir _ Hd Hs cwd Hcwd) as Hb.
  apply (below_leads cwd) in Hb. apply (within_bind_OpenTrunc _ _ (around_names D)).
  { by apply (leads_Clean cwd (around D)). }
  intros f Hf. apply (within_bind _ _ (around_names D)).
  - apply (within_copyClose _ _ (around_names D)); [done|]. apply within_ret.
  - intros _. apply (within_bind _ _ (around_names D)); [by apply within_Chtimes|].
    intros _. apply within_ret.
Qed.

(** The headers remembered are of directories below the destination. *)
Lemma stays_extract_entries {B} es (f : gmap string header → M OS B) d :
  Forall (λ e, safe_name (h_Name (e_header e))) es → good_headers d →
  (∀ d, good_headers d → stays (f d)) → stays (d' ← extract_entries destDir es d; f d').
Proof using Hcwd Hd.
  intros Hes. revert d. induction Hes as [|e es He Hes IH]; intros d Hgd Hf; cbn [extract_entries].
  { by apply Hf. }
  assert (stays (d' ← extract_entry destDir e d; (d'' ← extract_entries destDir es d'; f d''))) as H.
  2: { intros s Hs. specialize (H s Hs). revert H. unfold mbind, M_bind.
       by destruct (extract_entry destDir e d s) as [[] ?]. }
  pose proof (safe_name_target destDir _ Hd He cwd Hcwd) as Hb.
  unfold extract_entry. cbv zeta. destruct (h_Typeflag (e_header e)).
  - intros s Hs. pose proof (stays_extract_file e He d s Hs) as H1. unfold mbind at 1, M_bind at 1.
    match goal with |- context [match ?m s with _ => _ end] => set (prog := m) in * end.
    destruct (prog s) as [[d'|x|m|] s1] eqn:E; cbn [snd] in H1; [|exact H1..].
    assert (d' = d) as ->.
    { unfold prog in E. apply bind_inv_ok in E as (? & ? & _ & E). apply bind_inv_ok in E as (? & ? & _ & E).
      apply bind_inv_ok in E as (? & ? & _ & E). by injection E as <- _. }
    etrans; [exact H1|]. apply (IH d Hgd Hf). by eapply (only_in_home _ _ (around_names D)).
  - intros s Hs. assert (stays (MkdirAll (extract_target destDir (e_header e)) (h_Mode (e_header e)))) as Hm.
    { apply (within_MkdirAll _ _ (around_names D)). intros k _ Hk. destruct Hb as (_ & HD & Hn).
      by apply (around_prefix D (resolve cwd (extract_target destDir (e_header e)))). }
    specialize (Hm s Hs). unfold mbind, M_bind, mret, M_ret.
    destruct (MkdirAll _ _ s) as [[[]|x|m|] s1]; cbn [snd] in Hm; [|exact Hm..].
    etrans; [exact Hm|]. apply IH; [|done|by eapply (only_in_home _ _ (around_names D))].
    intros t h [[<- _]|[_ Ht]]%lookup_insert_Some; [done|by eapply Hgd].
  - intros s _. reflexivity.
Qed.
End extract.

(** ** CreateTar returns *)

Section create_returns.
Context `{TarFormat} (cwd : fpath) (n : nat).

(** The process stays in cwd and the tree does not get higher. *)
Definition tw_bounded (w : twriter) : Prop := bounded cwd [] n (tw_os w).

#[local] Abbreviation finishes := (ends tw_bounded).

Lemma finishes_zoom {A} (m : M OS A) : ends (bounded cwd [] n) m → finishes (zoom tw_lens m).
Proof using. apply ends_zoom; by intros. Qed.

(** A write changes the content of an entry. *)
Lemma bounded_set_content h f s : bounded cwd [] n s → bounded cwd [] n (set_content h f s).
Proof using.
  unfold set_content. destruct (os_files s !! h) as [[m c| |]|] eqn:E; try done.
  intros [[Hc Hn] Hb]. split; [split; [done|]|]; simpl.
  - intros p i [[<- _]|[_ Hi]]%lookup_insert_Some; [by eapply Hn|by eapply Hn].
  - intros k i Hk [[<- _]|[_ Hi]]%lookup_insert_Some; by eapply Hb.
Qed.

Lemma bounded_WriteHandle h p d : ends (bounded cwd [] n) (WriteHandle h p d).
Proof using.
  intros s Hs. split; [by apply (returns_WriteHandle h p d s)|].
  unfold WriteHandle. destruct (os_fault s (os_tick s)) as [[e k]|]; by apply bounded_set_content.
Qed.

Lemma finishes_get_state {A} (f : twriter → M twriter A) :
  (∀ w, finishes (f w)) → finishes (w ← get_state; f w).
Proof using. intros Hf w Hw. by apply Hf. Qed.

Lemma finishes_tw_write d : finishes (tw_write d).
Proof using.
  unfold tw_write. apply finishes_get_state. intros w.
  apply ends_bind; [apply ends_attempt, finishes_zoom, bounded_WriteHandle|].
  intros [e|[]]; [|apply ends_ret]. apply ends_bind; [by apply ends_modify|]. intros _. apply ends_throw.
Qed.

Lemma finishes_unless_err m : finishes m → finishes (unless_err m).
Proof using.
  intros Hm. unfold unless_err. apply finishes_get_state. intros w. destruct (tw_err w); [apply ends_throw|done].
Qed.

Lemma finishes_set_entry k p : finishes (modify (set_entry k p)).
Proof using. by apply ends_modify. Qed.

#[local] Hint Resolve finishes_tw_write finishes_set_entry : ends.

Lemma finishes_Flush : finishes Flush.
Proof using. apply finishes_unless_err, finishes_get_state. intros w. ends_tac. Qed.

#[local] Hint Resolve finishes_Flush : ends.

Lemma finishes_WriteHeader h : finishes (WriteHeader h).
Proof using. unfold WriteHeader. ends_tac. Qed.

Lemma finishes_tw_Write d : finishes (tw_Write d).
Proof using. apply finishes_unless_err, finishes_get_state. intros w. ends_tac. Qed.

Lemma finishes_Close : finishes tw_Close.
Proof using. unfold tw_Close. ends_tac. Qed.

#[local] Hint Resolve finishes_WriteHeader finishes_tw_Write finishes_Close : ends.

Lemma finishes_look {A} (m : M OS A) : keeps same_tree m → returns m → finishes (zoom tw_lens m).
Proof using. intros. apply finishes_zoom. by apply bounded_same. Qed.

Lemma finishes_visit sourceDir path r : finishes (visit sourceDir path r).
Proof using.
  unfold visit, writeFileContents. cbv zeta.
  assert (∀ p, finishes (zoom tw_lens (Open p))) by (intros; apply finishes_look; eauto with keeps ends).
  assert (∀ k p, finishes (zoom tw_lens (ReadHandle k p))) by (intros; apply finishes_look; eauto with keeps ends).
  assert (∀ k p, finishes (zoom tw_lens (CloseHandle k p))) by (intros; apply finishes_look; eauto with keeps ends).
  ends_tac.
Qed.

(** The walk, from a directory that is there, to a depth the height exceeds. *)
Lemma finishes_walk_tree sourceDir depth path fi :
  path ≠ "" → 0 < depth → n < length (resolve cwd path) + depth →
  finishes (walk_tree tw_lens (visit sourceDir) depth path fi).
Proof using.
  revert path fi. induction depth as [|m IH]; intros path fi Hp Hd Hn; [lia|]. cbn [walk_tree].
  destruct (IsDir fi); [|apply finishes_visit].
  intros w Hw.
  destruct (bounded_same cwd [] n _ (keeps_ReadDir path) (returns_ReadDir path) (view tw_lens w) Hw) as [Hret Hs1].
  destruct (ReadDir path (view tw_lens w)) as [r s1] eqn:E. apply (zoom_eq tw_lens) in E as Ez.
  destruct r as [l|e|msg|]; cbn [fst snd] in *; [|rewrite (attempt_err _ _ _ _ _ Ez); by apply finishes_visit| |done].
  2: { unfold attempt, mbind, M_bind. by rewrite Ez. }
  rewrite (attempt_ok _ _ _ _ _ Ez).
  destruct (ReadDir_bounded cwd [] n path _ _ _ Hw (prefix_nil _) E) as [Hl Hlen].
  apply ends_bind; [apply finishes_visit| |exact Hs1]. intros _.
  assert (∀ x, x ∈ fst <$> l → length (resolve cwd path) < n) as Hlen'.
  { intros x Hx. apply Hlen. intros ->. by apply not_elem_of_nil in Hx. }
  assert (Forall name_ok (fst <$> l)) as Hl' by by apply Forall_fmap.
  clear Hlen E Hl. revert Hlen' Hl'. induction (fst <$> l) as [|x names IHn]; intros Hlen Hl; cbn [walk_names]; [apply ends_ret|].
  inversion_clear Hl as [|? ? Hx Hl'].
  apply ends_bind; [apply ends_attempt, finishes_look; eauto with keeps ends|]. intros r.
  apply ends_bind.
  - destruct r as [e|fi']; [apply finishes_visit|]. specialize (Hlen x (list_elem_of_here _ _)).
    apply IH; [by apply PathJoin_not_empty|lia|]. rewrite resolve_child, length_app by done. simpl. lia.
  - intros _. apply IHn; [|done]. intros y Hy. apply (Hlen y). by apply list_elem_of_further.
Qed.

Lemma finishes_create_tar sourceDir depth :
  sourceDir ≠ "" → n < depth → finishes (create_tar depth sourceDir).
Proof using.
  intros Hs Hd. apply ends_deferring; [apply finishes_Close|]. unfold Walk.
  apply ends_bind; [apply ends_attempt, finishes_look; eauto with keeps ends|].
  intros [e|fi]; [apply finishes_visit|]. apply finishes_walk_tree; [done|lia|lia].
Qed.
End create_returns.

(** ** What CreateTar writes *)

(** The entry of what a relative path names. *)
Definition entry_of (rel : fpath) (i : inode) : entry :=
  mkEntry (fileInfoHeader (Join rel SLASH) i) (match i with File _ c => c | _ => "" end) None.

(** The entries of a tree below a directory, each directory in front of what
    is in it, and the names of a directory sorted. *)
Fixpoint tree_entries (depth : nat) (fs : gmap fpath inode) (dir rel : fpath) : list entry :=
  match depth with
  | O => []
  | S n =>
      flat_map (λ xi, entry_of (rel ++ [xi.1]) xi.2 ::
                      (if IsDir xi.2 then tree_entries n fs (dir ++ [xi.1]) (rel ++ [xi.1]) else []))
        (children fs dir)
  end.

Lemma elem_of_flat_map {A B} (f : A → list B) l y : y ∈ flat_map f l ↔ ∃ x, x ∈ l ∧ y ∈ f x.
Proof.
  rewrite list_elem_of_In, in_flat_map. by setoid_rewrite list_elem_of_In.
Qed.

(** The entries of a tree as relative paths with what they name. *)
Fixpoint tree_items (depth : nat) (src : gmap fpath inode) (dir rel : fpath) : list (fpath * inode) :=
  match depth with
  | O => []
  | S n =>
      flat_map (λ xi, (rel ++ [xi.1], xi.2) ::
                      (if IsDir xi.2 then tree_items n src (dir ++ [xi.1]) (rel ++ [xi.1]) else []))
        (children src dir)
  end.

Lemma tree_entries_items depth src dir rel :
  tree_entries depth src dir rel = (λ ri, entry_of ri.1 ri.2) <$> tree_items depth src dir rel.
Proof.
  revert dir rel. induction depth as [|n IH]; intros dir rel; cbn [tree_entries tree_items]; [done|].
  induction (children src dir) as [|[x i] cs IHc]; [done|]. cbn [flat_map fst snd].
  rewrite fmap_app, <- IHc. f_equal. cbn [fmap list_fmap fst snd]. f_equal. destruct (IsDir i); [apply IH|done].
Qed.

(** The items are everything below the directory. *)
Lemma elem_of_tree_items depth src dir rel0 q i :
  fs_wf src → tree_height src < length dir + depth →
  (q, i) ∈ tree_items depth src dir rel0 ↔
  ∃ rel, rel ≠ [] ∧ src !! (dir ++ rel) = Some i ∧ q = rel0 ++ rel.
Proof.
  intros Hwf. revert dir rel0. induction depth as [|n IH]; intros dir rel0 Hh; cbn [tree_items].
  - split; [by intros ?%not_elem_of_nil|]. intros (rel & Hne & Hi & _).
    apply tree_height_spec in Hi. rewrite length_app in Hi. destruct rel; simpl in *; [done|lia].
  - rewrite elem_of_flat_map. split.
    + intros ([x j] & Hx & He). apply elem_of_children in Hx. cbn [fst snd] in He.
      apply elem_of_cons in He as [[= -> ->]|He]; [by exists [x]|]. destruct (IsDir j); [|by apply not_elem_of_nil in He].
      apply IH in He as (rel & Hne & Hj & ->); [|rewrite length_app; simpl; lia].
      exists (x :: rel). rewrite <- !app_assoc in *. done.
    + intros (rel & Hne & Hi & ->). destruct rel as [|x [|y rel]]; [done| |].
      * exists (x, i). rewrite elem_of_children. split; [done|]. apply list_elem_of_here.
      * assert (src !! ((dir ++ [x]) ++ y :: rel) = Some i) as Hi' by by rewrite <- app_assoc.
        destruct (wf_prefix src (dir ++ [x]) (y :: rel) i Hwf Hi' ltac:(done)) as [m Hm].
        exists (x, Directory m). rewrite elem_of_children. split; [done|]. apply list_elem_of_further.
        cbn [fst snd IsDir]. apply IH; [rewrite length_app; simpl; lia|].
        exists (y :: rel). by rewrite <- !app_assoc in *.
Qed.

(** The entries are those of everything below the directory, when the depth is enough. *)
Lemma elem_of_tree_entries depth fs dir rel0 e :
  fs_wf fs → tree_height fs < length dir + depth →
  e ∈ tree_entries depth fs dir rel0 ↔
  ∃ rel i, rel ≠ [] ∧ fs !! (dir ++ rel) = Some i ∧ e = entry_of (rel0 ++ rel) i.
Proof.
  intros Hwf Hh. rewrite tree_entries_items, list_elem_of_fmap. split.
  - intros ([q i] & -> & (rel & Hne & Hi & ->)%elem_of_tree_items); [|done..]. by exists rel, i.
  - intros (rel & i & Hne & Hi & ->). exists (rel0 ++ rel, i). split; [done|].
    apply elem_of_tree_items; [done..|]. by exists rel.
Qed.

Lemma Join_names_not_dot rel : rel ≠ [] → Forall name_ok rel → Join rel SLASH ≠ ".".
Proof.
  intros Hne Hn E. assert (Split slash (Join rel SLASH) = rel) as Hs.
  { apply Split_Join; [done|]. eapply Forall_impl; [exact Hn|]. by intros x [_ ?]. }
  rewrite E in Hs. subst rel. inversion Hn as [|? ? [(_ & ? & _) _] _]. done.
Qed.

Section writes.
Context `{TarFormat} (s0 : OS) (Hf : no_fault s0) (Hwf : fs_wf (os_files s0)).
Context (k : fpath) (mk : meta) (Hk : os_files s0 !! k = Some (File mk "")).

(** The writer in the middle of an archive: only the file has changed. *)
Definition at_ (w : twriter) (left : nat) (pad content : string) : Prop :=
  tw_file w = k ∧ tw_left w = left ∧ tw_pad w = pad ∧ tw_err w = None ∧ same_process s0 (tw_os w) ∧
  ∃ m, os_files (tw_os w) = <[k := File m content]> (os_files s0).

Lemma at_no_fault w l p c : at_ w l p c → no_fault (tw_os w).
Proof using Hf. intros (_ & _ & _ & _ & (_ & _ & _ & E & _) & _) t. rewrite E. apply Hf. Qed.

Lemma at_wf w l p c : at_ w l p c → fs_wf (os_files (tw_os w)).
Proof using Hwf Hk. intros (_ & _ & _ & _ & _ & m & ->). by eapply fs_wf_replace. Qed.

Lemma tw_write_ok w l p c d :
  at_ w l p c → ∃ w', tw_write d w = (Ok tt, w') ∧ at_ w' l p (c +:+ d).
Proof using Hf.
  intros Ha. pose proof (at_no_fault _ _ _ _ Ha) as Hf'.
  destruct Ha as (Hfile & Hl & Hp & He & Hs & m & Hm). unfold tw_write.
  rewrite (bind_ok _ _ _ w w) by done.
  assert (os_files (tw_os w) !! tw_file w = Some (File m c)) as Hc by (rewrite Hm, Hfile; apply lookup_insert_eq).
  rewrite (attempt_ok _ _ _ _ _ (zoom_eq _ _ _ _ _ (WriteHandle_ok _ (tw_name w) d _ m c Hf' Hc))).
  eexists. split; [done|]. rewrite Hfile. split; [done|]. split; [done|]. split; [done|]. split; [done|].
  split; [exact Hs|]. eexists. simpl. by rewrite Hm, insert_insert_eq.
Qed.

Lemma at_set_entry w l p c l' p' : at_ w l p c → at_ (set_entry l' p' w) l' p' c.
Proof using. by intros (H1 & _ & _ & H4 & H5). Qed.

Lemma unless_err_ok m w l p c : at_ w l p c → unless_err m w = m w.
Proof using. intros (_ & _ & _ & He & _). unfold unless_err. rewrite (bind_ok _ _ _ w w) by done. by rewrite He. Qed.

Lemma Flush_ok w p c : at_ w 0 p c → ∃ w', Flush w = (Ok tt, w') ∧ at_ w' 0 "" (c +:+ p).
Proof using Hf.
  intros Ha. unfold Flush. rewrite (unless_err_ok _ _ _ _ _ Ha), (bind_ok _ _ _ w w) by done.
  destruct (tw_write_ok w 0 p c p Ha) as (w' & E & Ha'). destruct Ha as (_ & Hl & Hp & _).
  rewrite decide_False by lia. rewrite Hp, (bind_ok _ _ _ _ _ E).
  eexists. split; [done|]. by eapply at_set_entry.
Qed.

Lemma WriteHeader_ok h w p c :
  tar_header_error h = None → at_ w 0 p c →
  ∃ w', WriteHeader h w = (Ok tt, w') ∧ at_ w' (h_Size h) (tar_padding (h_Size h)) ((c +:+ p) +:+ tar_header h).
Proof using Hf.
  intros Hh Ha. unfold WriteHeader. destruct (Flush_ok w p c Ha) as (w1 & E1 & Ha1).
  rewrite (bind_ok _ _ _ _ _ E1), Hh. destruct (tw_write_ok _ _ _ _ (tar_header h) Ha1) as (w2 & E2 & Ha2).
  rewrite (bind_ok _ _ _ _ _ E2). eexists. split; [done|]. by eapply at_set_entry.
Qed.

Lemma tw_Write_ok w d p c :
  at_ w (slen d) p c → ∃ w', tw_Write d w = (Ok tt, w') ∧ at_ w' 0 p (c +:+ d).
Proof using Hf.
  intros Ha. unfold tw_Write. rewrite (unless_err_ok _ _ _ _ _ Ha), (bind_ok _ _ _ w w) by done.
  destruct (tw_write_ok w _ p c d Ha) as (w' & E & Ha'). destruct Ha as (_ & Hl & Hp & _).
  rewrite decide_True by lia. rewrite (bind_ok _ _ _ _ _ E), Hl, Hp, Nat.sub_diag.
  eexists. split; [done|]. by eapply at_set_entry.
Qed.

(** A call that only looks. *)
Lemma at_look {A} (m : M OS A) w l p c r s' :
  at_ w l p c → m (tw_os w) = (r, s') → same_tree (tw_os w) s' →
  ∃ w', zoom tw_lens m w = (r, w') ∧ at_ w' l p c.
Proof using.
  intros (H1 & H2 & H3 & H4 & Hs & m' & Hm) E [Hs' Hf']. eexists. split; [by apply zoom_eq|].
  split; [done|]. split; [done|]. split; [done|]. split; [done|]. split; [exact (transitivity Hs Hs')|].
  exists m'. simpl. congruence.
Qed.

(** *** Walking the tree *)

Context (sourceDir : string) (Hsrc : sourceDir ≠ "").

#[local] Abbreviation F := (os_files s0).
#[local] Abbreviation D := (locate sourceDir s0).

Context (Hnames : names_ok F) (Hout : ¬ D `prefix_of` k).
Context (Hgood : ∀ rel i, rel ≠ [] → F !! (D ++ rel) = Some i →
  (∀ m, i ≠ Special m) ∧ tar_header_error (fileInfoHeader (Join rel SLASH) i) = None).

(** A path the walk builds. *)
Definition path_of (path : string) (rel : fpath) : Prop :=
  path ≠ "" ∧ rooted path = rooted sourceDir ∧
  cleaned_elems path = cleaned_elems sourceDir ++ rel ∧ locate path s0 = D ++ rel.

Lemma path_of_child path rel x : path_of path rel → name_ok x → path_of (PathJoin [path; x]) (rel ++ [x]).
Proof using.
  intros (Hp & Hr & He & Hl) Hx. split; [by apply PathJoin_not_empty|].
  rewrite rooted_child, cleaned_elems_child by done. split; [done|]. rewrite He, app_assoc. split; [done|].
  unfold locate in *. rewrite resolve_child by done. by rewrite Hl, app_assoc.
Qed.

Lemma at_lookup w l p c rel : at_ w l p c → os_files (tw_os w) !! (D ++ rel) = F !! (D ++ rel).
Proof using Hout.
  intros (_ & _ & _ & _ & _ & m & ->). apply lookup_insert_ne. intros E. apply Hout.
  rewrite E. by apply prefix_app_r.
Qed.

Lemma at_find w l p c path rel i :
  at_ w l p c → path_of path rel → F !! (D ++ rel) = Some i → find_inode path (tw_os w) = inr i.
Proof using Hwf Hk Hout.
  intros Ha (Hp & _ & _ & Hl) Hi. apply find_inode_found; [by eapply at_wf|done|].
  assert (locate path (tw_os w) = D ++ rel) as ->.
  { destruct Ha as (_ & _ & _ & _ & Hs & _). by rewrite (locate_same _ _ _ Hs). }
  by rewrite (at_lookup _ _ _ _ _ Ha).
Qed.

(** The entries written so far. *)
Definition written (w : twriter) (es : list entry) : Prop :=
  ∃ p c, at_ w 0 p c ∧ c +:+ p = tar_entries es.

Lemma contents_ok w path rel m c p c0 :
  path_of path rel → F !! (D ++ rel) = Some (File m c) → at_ w (slen c) p c0 →
  ∃ w', writeFileContents path w = (Ok tt, w') ∧ at_ w' 0 p (c0 +:+ c).
Proof using Hf Hwf Hk Hout.
  intros Hpath Hi Ha. unfold writeFileContents. cbv zeta. pose proof (at_no_fault _ _ _ _ Ha) as Hf1.
  pose proof (at_find _ _ _ _ _ _ _ Ha Hpath Hi) as Hfind.
  assert (find_inode (Clean path) (tw_os w) = inr (File m c)) as Hfc.
  { apply find_inode_found; [by eapply at_wf|apply Clean_not_empty|]. rewrite locate_Clean.
    by apply find_inode_inr in Hfind as [_ ?]. }
  destruct (at_look _ _ _ _ _ _ _ Ha (Open_found _ _ _ Hf1 Hfc ltac:(done)) (same_tree_tick _)) as (w1 & E1 & Ha1).
  rewrite (bind_ok _ _ _ _ _ E1). rewrite locate_Clean.
  assert (os_files (tw_os w1) !! locate path (tw_os w) = Some (File m c)) as Hr.
  { destruct Hpath as (_ & _ & _ & Hl). destruct Ha as (_ & _ & _ & _ & Hs & _).
    rewrite (locate_same _ _ _ Hs), Hl, (at_lookup _ _ _ _ _ Ha1). exact Hi. }
  pose proof (at_no_fault _ _ _ _ Ha1) as Hf2.
  destruct (at_look _ _ _ _ _ _ _ Ha1 (ReadHandle_ok _ (Clean path) _ _ _ Hf2 Hr) (same_tree_tick _)) as (w2 & E2 & Ha2).
  assert (∃ w3, (if bool_decide (c = "") then mret tt else tw_Write c) w2 = (Ok tt, w3) ∧ at_ w3 0 p (c0 +:+ c))
    as (w3 & E3 & Ha3).
  { case_bool_decide as Hc; [|by apply tw_Write_ok]. subst c. exists w2. split; [done|]. by rewrite sapp_nil_r. }
  pose proof (at_no_fault _ _ _ _ Ha3) as Hf3.
  destruct (at_look _ _ _ _ _ _ _ Ha3 (CloseHandle_ok (locate path (tw_os w)) (Clean path) _ Hf3) (same_tree_tick _)) as (w4 & E4 & Ha4).
  exists w4. split; [|done]. unfold deferring. rewrite (bind_ok _ _ _ _ _ E2), E3. by rewrite E4.
Qed.

Lemma visit_ok w es path rel i :
  rel ≠ [] → path_of path rel → F !! (D ++ rel) = Some i → written w es →
  ∃ w', visit sourceDir path (inr i) w = (Ok tt, w') ∧ written w' (es ++ [entry_of rel i]).
Proof using Hf Hwf Hk Hout Hgood Hnames.
  intros Hne Hpath Hi (p & c & Ha & Hes). destruct (Hgood rel i Hne Hi) as [Hsp Hh].
  pose proof Hpath as (_ & Hr & He & _). unfold visit.
  rewrite (bind_ok _ _ _ i w) by done. rewrite (bind_ok _ _ _ (Join rel SLASH) w).
  2: { unfold lift. by rewrite (Rel_below _ _ rel). }
  rewrite bool_decide_eq_false_2.
  2: { apply Join_names_not_dot; [done|]. apply Hnames in Hi. by apply Forall_app in Hi as [_ ?]. }
  destruct (WriteHeader_ok _ w p c Hh Ha) as (w1 & E1 & Ha1). rewrite (bind_ok _ _ _ _ _ E1).
  assert (tar_entries (es ++ [entry_of rel i]) =
    ((c +:+ p) +:+ tar_header (fileInfoHeader (Join rel SLASH) i)) +:+ e_data (entry_of rel i) +:+
    tar_padding (slen (e_data (entry_of rel i)))) as Hwr.
  { rewrite tar_entries_app, <- Hes. cbn [tar_entries]. unfold tar_entry. cbn [entry_of e_header].
    by rewrite sapp_nil_r, <- !sapp_assoc. }
  destruct i as [m d|m|m].
  - destruct (contents_ok w1 path rel m d _ _ Hpath Hi Ha1) as (w2 & E2 & Ha2).
    exists w2. split; [unfold wrap_err; by rewrite E2|]. eexists _, _. split; [exact Ha2|].
    rewrite Hwr. by rewrite <- !sapp_assoc.
  - exists w1. split; [done|]. eexists _, _. split; [exact Ha1|]. by rewrite Hwr.
  - by destruct (Hsp m).
Qed.

(** The entries a walk of the file or directory at a path adds. *)
Definition walk_entries (depth : nat) (rel : fpath) (i : inode) : list entry :=
  (if decide (rel = []) then [] else [entry_of rel i]) ++
  (if IsDir i then tree_entries depth F (D ++ rel) rel else []).

Lemma visit_any w es path rel i :
  path_of path rel → (rel = [] → path = sourceDir) → F !! (D ++ rel) = Some i → written w es →
  ∃ w', visit sourceDir path (inr i) w = (Ok tt, w') ∧
    written w' (es ++ (if decide (rel = []) then [] else [entry_of rel i])).
Proof using Hf Hwf Hk Hout Hgood Hnames.
  intros Hp Hs Hi Hw. destruct (decide (rel = [])) as [->|Hne]; [|by eapply visit_ok].
  rewrite Hs, app_nil_r by done. exists w. split; [|done]. unfold visit.
  rewrite (bind_ok _ _ _ i w) by done. rewrite (bind_ok _ _ _ "." w); [done|].
  unfold lift. by rewrite Rel_same.
Qed.

Lemma walk_names_ok n path rel (names : list (string * inode)) :
  path_of path rel → Forall (λ xi, F !! (D ++ rel ++ [xi.1]) = Some xi.2) names →
  (∀ w es path' x i, path_of path' (rel ++ [x]) → F !! (D ++ rel ++ [x]) = Some i → written w es →
     ∃ w', walk_tree tw_lens (visit sourceDir) n path' i w = (Ok tt, w') ∧
       written w' (es ++ walk_entries n (rel ++ [x]) i)) →
  ∀ w es, written w es →
  ∃ w', walk_names tw_lens (visit sourceDir) (walk_tree tw_lens (visit sourceDir) n) path names.*1 w = (Ok tt, w') ∧
    written w' (es ++ flat_map (λ xi, walk_entries n (rel ++ [xi.1]) xi.2) names).
Proof using Hf Hwf Hk Hout Hnames.
  intros Hp Hall Hone. induction Hall as [|[x i] names Hx Hall IH]; intros w es Hw.
  - exists w. cbn [flat_map]. by rewrite app_nil_r.
  - cbn [fmap list_fmap fst walk_names flat_map snd]. cbv zeta. simpl in Hx.
    assert (name_ok x) as Hok.
    { pose proof (Hnames _ _ Hx) as Hn. rewrite app_assoc in Hn. apply Forall_app in Hn as [_ Hn]. by inversion Hn. }
    pose proof (path_of_child _ _ _ Hp Hok) as Hpx. pose proof Hw as (p & c & Ha & Hes).
    pose proof (at_find _ _ _ _ _ _ _ Ha Hpx Hx) as Hfind.
    destruct (at_look _ _ _ _ _ _ _ Ha (stat_as_ok "lstat" _ _ _ (at_no_fault _ _ _ _ Ha) Hfind) (same_tree_tick _))
      as (w1 & E1 & Ha1).
    rewrite (attempt_ok _ _ _ _ _ E1).
    destruct (Hone w1 es _ x i Hpx Hx) as (w2 & E2 & Hw2); [by exists p, c|].
    rewrite (bind_ok _ _ _ _ _ E2). destruct (IH w2 _ Hw2) as (w3 & E3 & Hw3).
    exists w3. split; [exact E3|]. by rewrite app_assoc.
Qed.

Lemma walk_tree_ok depth path rel i w es :
  path_of path rel → (rel = [] → path = sourceDir) → F !! (D ++ rel) = Some i →
  tree_height F < length (D ++ rel) + depth → written w es →
  ∃ w', walk_tree tw_lens (visit sourceDir) depth path i w = (Ok tt, w') ∧
    written w' (es ++ walk_entries depth rel i).
Proof using Hf Hwf Hk Hout Hgood Hnames.
  revert path rel i w es. induction depth as [|n IH]; intros path rel i w es Hp Hs Hi Hh Hw.
  { apply tree_height_spec in Hi. lia. }
  cbn [walk_tree]. unfold walk_entries. destruct (IsDir i) eqn:Hd.
  2: { destruct (visit_any w es path rel i Hp Hs Hi Hw) as (w' & E & Hw'). exists w'. by rewrite app_nil_r. }
  destruct i as [|m|]; try done. pose proof Hw as (p & c & Ha & Hes).
  pose proof (at_find _ _ _ _ _ _ _ Ha Hp Hi) as Hfind.
  destruct (at_look _ _ _ _ _ _ _ Ha (ReadDir_ok _ _ _ (at_no_fault _ _ _ _ Ha) Hfind) (same_tree_tick _))
    as (w1 & E1 & Ha1).
  rewrite (attempt_ok _ _ _ _ _ E1).
  destruct (visit_any w1 es path rel (Directory m) Hp Hs Hi) as (w2 & E2 & Hw2); [by exists p, c|].
  rewrite (bind_ok _ _ _ _ _ E2).
  assert (children (os_files (tw_os w)) (locate path (tw_os w)) = children F (D ++ rel)) as ->.
  { pose proof Ha as (_ & _ & _ & _ & Hsame & _). rewrite (locate_same _ _ _ Hsame).
    destruct Hp as (_ & _ & _ & ->). apply children_ext. intros x.
    rewrite <- app_assoc. by apply (at_lookup _ _ _ _ _ Ha). }
  destruct (walk_names_ok n path rel (children F (D ++ rel)) Hp) with (w := w2) (es := es ++ (if decide (rel = []) then [] else [entry_of rel (Directory m)])) as (w3 & E3 & Hw3).
  - apply Forall_forall. intros [x j] Hx. apply elem_of_children in Hx. by rewrite <- app_assoc in Hx.
  - intros w' es' path' x j Hp' Hj Hw'. apply IH; [done|by destruct rel|done| |done].
    rewrite !length_app in *. simpl. lia.
  - done.
  - exists w3. split; [done|]. rewrite app_assoc. cbn [tree_entries].
    erewrite flat_map_ext; [exact Hw3|]. intros [x j]. unfold walk_entries. cbn [fst snd].
    rewrite decide_False by by destruct rel. by rewrite <- app_assoc.
Qed.

Lemma create_tar_ok depth name m :
  F !! D = Some (Directory m) → tree_height F < depth →
  ∃ s' m', CreateTar depth k name sourceDir s0 = (Ok tt, s') ∧ same_process s0 s' ∧
    os_files s' = <[k := File m' (tar_write (tree_entries depth F D []))]> F.
Proof using Hf Hwf Hk Hout Hgood Hnames Hsrc.
  intros Hm Hh. set (w := mkTwriter s0 k name 0 "" None).
  assert (at_ w 0 "" "") as Ha.
  { split; [done|]. split; [done|]. split; [done|]. split; [done|]. split; [done|].
    exists mk. by rewrite insert_id. }
  assert (path_of sourceDir []) as Hp by (repeat split; rewrite ?app_nil_r; done).
  assert (F !! (D ++ []) = Some (Directory m)) as Hm' by by rewrite app_nil_r.
  pose proof (at_find _ _ _ _ _ _ _ Ha Hp Hm') as Hfind.
  destruct (at_look _ _ _ _ _ _ _ Ha (stat_as_ok "lstat" _ _ _ (at_no_fault _ _ _ _ Ha) Hfind) (same_tree_tick _))
    as (w1 & E1 & Ha1).
  destruct (walk_tree_ok depth sourceDir [] (Directory m) w1 []) as (w2 & E2 & p & c & Ha2 & Hes).
  { done. } { done. } { done. } { rewrite app_nil_r. lia. } { by exists "", "". }
  destruct (Flush_ok w2 p c Ha2) as (w3 & E3 & Ha3).
  destruct (tw_write_ok _ _ _ _ tar_trailer Ha3) as (w4 & E4 & Ha4).
  pose proof Ha4 as (_ & _ & _ & _ & Hs & m' & Hm4).
  exists (tw_os w4), m'. split; [|split; [exact Hs|]].
  - unfold CreateTar, create_tar, Walk, deferring. fold w. rewrite (attempt_ok _ _ _ _ _ E1), E2.
    unfold tw_Close. by rewrite (bind_ok _ _ _ _ _ E3), E4.
  - rewrite Hm4, Hes. cbn [walk_entries IsDir]. unfold walk_entries. cbn [IsDir].
    rewrite decide_True by done. by rewrite app_nil_r.
Qed.
End writes.

(** ** Properties *)

(** C36: whatever fails, and in whatever order the map of directories is
    ranged over, ExtractTar changes only entries below the destination or
    directories on the way to it, when the names in the archive are rooted or
    have no parent elements. *)
Theorem ExtractTar_confined order a destDir s :
  destDir ≠ "" → Forall name_ok (os_cwd s) → names_ok (os_files s) →
  Forall (λ e, safe_name (h_Name (e_header e))) (a_entries a) →
  (∀ m t h, (t, h) ∈ order m → m !! t = Some h) →
  let s' := (ExtractTar order a destDir s).2 in
  same_process s s' ∧
  ∀ p, ¬ locate destDir s `prefix_of` p → ¬ p `prefix_of` locate destDir s →
    os_files s' !! p = os_files s !! p.
Proof.
  intros Hd Hc Hn Hes Ho. cbv zeta.
  destruct (stays_extract_entries (os_cwd s) Hc destDir Hd (a_entries a)
    (λ d, match a_err a with Some e => throw e | None => extract_times (order d) end) ∅) with (s := s) as [Hp Hs].
  - done.
  - intros t h. by rewrite lookup_empty.
  - intros d Hg. destruct (a_err a); [apply within_throw|]. apply stays_extract_times.
    intros t h Hin. by eapply Hg, Ho.
  - by split.
  - split; [exact Hp|]. intros p H1 H2. apply Hs. intros [[?|?] _]; done.
Qed.

(** CreateTar returns, whatever fails, when the depth of the walk exceeds
    the height of the tree. *)
Theorem CreateTar_returns `{TarFormat} depth file name sourceDir s :
  sourceDir ≠ "" → names_ok (os_files s) → tree_height (os_files s) < depth →
  (CreateTar depth file name sourceDir s).1 ≠ Blocked.
Proof.
  intros Hs Hn Hh. unfold CreateTar. set (w := mkTwriter s file name 0 "" None).
  destruct (finishes_create_tar (os_cwd s) (tree_height (os_files s)) sourceDir depth Hs Hh w) as [Hr _].
  - split; [by split|]. intros k i _. apply tree_height_spec.
  - by destruct (create_tar depth sourceDir w).
Qed.

(** Without failures, CreateTar on a new file outside a directory of files
    and directories succeeds and changes nothing but that file, which is then a
    whole archive; reading it gives an entry for each file and directory below
    the source, with its path, kind, mode, times and content, and no other. *)
Theorem CreateTar_archive `{TarFormat} depth k name sourceDir s mk m :
  no_fault s → fs_wf (os_files s) → names_ok (os_files s) → sourceDir ≠ "" →
  let D := locate sourceDir s in
  os_files s !! D = Some (Directory m) → os_files s !! k = Some (File mk "") → ¬ D `prefix_of` k →
  (∀ rel i, rel ≠ [] → os_files s !! (D ++ rel) = Some i →
     (∀ m, i ≠ Special m) ∧ tar_header_error (fileInfoHeader (Join rel SLASH) i) = None) →
  tree_height (os_files s) < depth →
  ∃ s' m' contents es, CreateTar depth k name sourceDir s = (Ok tt, s') ∧
    os_files s' = <[k := File m' contents]> (os_files s) ∧
    tar_read contents = mkArchive es None ∧
    ∀ e, e ∈ es ↔ ∃ rel i, rel ≠ [] ∧ os_files s !! (D ++ rel) = Some i ∧ e = entry_of rel i.
Proof.
  intros Hf Hwf Hn Hs D Hm Hk Hout Hgood Hh.
  destruct (create_tar_ok s Hf Hwf k mk Hk sourceDir Hs Hn Hout Hgood depth name m Hm Hh) as (s' & m' & E & _ & Hs').
  assert (∀ e, e ∈ tree_entries depth (os_files s) D [] ↔
    ∃ rel i, rel ≠ [] ∧ os_files s !! (D ++ rel) = Some i ∧ e = entry_of rel i) as Hel.
  { intros e. by apply (elem_of_tree_entries depth (os_files s) D []); [|lia]. }
  eexists s', m', _, (tree_entries depth (os_files s) D []).
  split; [exact E|]. split; [exact Hs'|]. split; [|exact Hel].
  apply tar_read_archive, Forall_forall. intros e (rel & i & Hne & Hi & ->)%Hel.
  destruct (Hgood rel i Hne Hi) as [Hsp He]. split; [|exact He].
  by destruct i as [| |m0]; [..|destruct (Hsp m0)].
Qed.

(** ** Witnesses *)
Module Demo.
Definition os0 : OS := set_files <[["out.tar"] := File Fs.Demo.meta0 ""]> Fs.Demo.os0.

Lemma os0_wf : fs_wf (os_files os0).
Proof. apply (fs_wf_insert _ [] "out.tar"); [apply Fs.Demo.fs_tree_wf|by eexists|done]. Defined.

Lemma os0_names : names_ok (os_files os0).
Proof.
  intros p i Hi. apply (lookup_insert_Some (os_files Fs.Demo.os0)) in Hi as [[<- _]|[_ Hi]].
  { by apply (bool_decide_unpack _). }
  by eapply Fs.Demo.fs_tree_names.
Defined.

(** An order in which a map may be ranged over. *)
Definition by_key (m : gmap string header) : list (string * header) := map_to_list m.

Definition file_entry (name data : string) : entry :=
  mkEntry (mkHeader name TypeReg 420 (slen data) 7 None) data None.

Definition archive0 : archive := mkArchive [file_entry "/../a/b" "x"; file_entry "c" "y"] None.

(** An archive whose entry leaves the destination. *)
Definition archive1 : archive := mkArchive [file_entry "../evil" "x"] None.
End Demo.

Lemma ExtractTar_confined_witness :
  os_files (ExtractTar Demo.by_key Demo.archive0 "/dst" Demo.os0).2 !! ["src"; "f"] = Some (File Fs.Demo.meta0 "data").
Proof.
  destruct (ExtractTar_confined Demo.by_key Demo.archive0 "/dst" Demo.os0) as [_ H].
  - done.
  - constructor.
  - apply Demo.os0_names.
  - by apply (bool_decide_unpack _).
  - intros m t h. apply elem_of_map_to_list.
  - rewrite H; [reflexivity|..]; by intros [? [=]].
Defined.

(** The condition on the names is needed: an entry with parent elements is
    written outside the destination. *)
Example ExtractTar_escapes :
  (ExtractTar Demo.by_key Demo.archive1 "/dst" Demo.os0).1 = Ok tt ∧
  os_files (ExtractTar Demo.by_key Demo.archive1 "/dst" Demo.os0).2 !! ["evil"] =
  Some (File (mkMeta 420 7 7) "x").
Proof. by vm_compute. Qed.

Lemma CreateTar_returns_witness :
  (@CreateTar Plain.format 3 ["out.tar"] "/out.tar" "/src" Demo.os0).1 ≠ Blocked.
Proof. apply CreateTar_returns; [done|apply Demo.os0_names|vm_compute; lia]. Defined.

Lemma CreateTar_archive_witness :
  ∃ s' m' contents es, @CreateTar Plain.format 3 ["out.tar"] "/out.tar" "/src" Demo.os0 = (Ok tt, s') ∧
    os_files s' = <[["out.tar"] := File m' contents]> (os_files Demo.os0) ∧
    Plain.format.(tar_read) contents = mkArchive es None ∧
    entry_of ["f"] (File Fs.Demo.meta0 "data") ∈ es.
Proof.
  destruct (@CreateTar_archive Plain.format 3 ["out.tar"] "/out.tar" "/src" Demo.os0 Fs.Demo.meta0 (mkMeta 493 1 2))
    as (s' & m' & c & es & H1 & H2 & H3 & H4).
  - done.
  - apply Demo.os0_wf.
  - apply Demo.os0_names.
  - done.
  - reflexivity.
  - reflexivity.
  - by intros [? [=]].
  - intros rel i _ Hi. split; [|done]. intros m ->. revert Hi. simpl.
    change (locate "/src" Demo.os0) with ["src"]. cbn [app].
    unfold Fs.Demo.tree. intros Hi.
    repeat (apply lookup_insert_Some in Hi as [[_ [=]]|[_ Hi]]).
    by apply lookup_singleton_Some in Hi as [_ [=]].
  - vm_compute. lia.
  - exists s', m', c, es. split; [exact H1|]. split; [exact H2|]. split; [exact H3|].
    apply H4. exists ["f"], (File Fs.Demo.meta0 "data").
    split; [discriminate|]. split; [vm_compute; reflexivity|reflexivity].
Defined.
