(* ===== verification/TarRoundTrip.v ===== *)
(** * Extracting what was packed

    ExtractTar (Tar.v) makes, in an empty directory, the tree whose entries the
    archive holds, provided every directory comes before what is in it, as in
    the archives of CreateTar. Together the two copy a tree. *)
From S2P Require Import Prelude GoStrings GoPath OsModel TarFormat Fs Tar TarFacts.

(** ** The order of the entries *)

(** No path comes twice, and the directory of each has come before it. *)
Fixpoint ordered (seen : list fpath) (l : list (fpath * inode)) : Prop :=
  match l with
  | [] => True
  | (rel, _) :: l' =>
      (rel ∉ seen) ∧ (∃ r x, rel = r ++ [x] ∧ (r = [] ∨ r ∈ seen)) ∧ ordered (rel :: seen) l'
  end.

Lemma ordered_app seen l1 l2 :
  ordered seen l1 → ordered (reverse (l1.*1) ++ seen) l2 → ordered seen (l1 ++ l2).
Proof.
  revert seen. induction l1 as [|[rel i] l1 IH]; intros seen; [done|].
  cbn [ordered app fmap list_fmap fst]. intros (Hn & Hp & H1) H2. split; [done|]. split; [done|].
  apply IH; [done|]. rewrite reverse_cons in H2. by rewrite <- app_assoc in H2.
Qed.

Lemma tree_items_below depth src dir rel q i :
  (q, i) ∈ tree_items depth src dir rel → ∃ x l, q = rel ++ x :: l.
Proof.
  revert dir rel. induction depth as [|n IH]; intros dir rel; cbn [tree_items]; [by intros ?%not_elem_of_nil|].
  rewrite elem_of_flat_map. intros ([x j] & _ & Hq). apply elem_of_cons in Hq as [[= -> _]|Hq].
  - by exists x, [].
  - cbn [fst snd] in Hq. destruct (IsDir j); [|by apply not_elem_of_nil in Hq].
    apply IH in Hq as (y & l & ->). exists x, (y :: l). by rewrite <- app_assoc.
Qed.

(** A name apart from x leads to paths apart from those through x. *)
Lemma below_apart (rel : fpath) x y l l' : rel ++ x :: l = rel ++ y :: l' → x = y.
Proof. by intros [= ?]%(inj _). Qed.

Lemma tree_items_ordered depth src dir rel seen :
  rel = [] ∨ rel ∈ seen → (∀ x l, rel ++ x :: l ∉ seen) → ordered seen (tree_items depth src dir rel).
Proof.
  revert dir rel seen. induction depth as [|n IH]; intros dir rel seen Hrel Hnew; cbn [tree_items]; [done|].
  pose proof (NoDup_children_names src dir) as Hnd.
  assert (∀ x, x ∈ (children src dir).*1 → ∀ l, rel ++ x :: l ∉ seen) as Hnew' by by intros; apply Hnew.
  clear Hnew. revert seen Hrel Hnew'. induction (children src dir) as [|[x i] cs IHc]; intros seen Hrel Hnew; [done|].
  cbn [fmap list_fmap fst] in *. apply NoDup_cons in Hnd as [Hx Hnd]. cbn [flat_map fst snd].
  cbn [ordered app]. split; [apply Hnew, list_elem_of_here|]. split; [by exists rel, x|].
  apply ordered_app.
  - destruct (IsDir i); [|done]. apply IH; [right; apply list_elem_of_here|].
    intros y l. rewrite <- app_assoc. cbn [app]. intros Hin. apply elem_of_cons in Hin as [E|Hin].
    + by apply (inj _) in E.
    + by apply (Hnew x (list_elem_of_here _ _) (y :: l)).
  - apply (IHc Hnd).
    { destruct Hrel as [|Hrel]; [by left|right]. apply elem_of_app. right. by apply list_elem_of_further. }
    intros y Hy l Hin.
    assert (x ≠ y) as Hxy by by intros ->.
    apply elem_of_app in Hin as [Hin|[E|Hin]%elem_of_cons].
    + apply elem_of_reverse, list_elem_of_fmap in Hin as ([q j] & E & Hq). cbn [fst] in E. subst q.
      destruct (IsDir i); [|by apply not_elem_of_nil in Hq].
      apply tree_items_below in Hq as (z & l' & E). rewrite <- app_assoc in E. cbn [app] in E.
      by apply below_apart in E as ->.
    + by apply below_apart in E as ->.
    + by apply (Hnew y (list_elem_of_further _ _ _ Hy) l).
Qed.

(** A list of what is below a directory, in such an order. *)
Definition tree_list (src : gmap fpath inode) (dir : fpath) (l : list (fpath * inode)) : Prop :=
  ordered [] l ∧ ∀ rel i, (rel, i) ∈ l ↔ rel ≠ [] ∧ src !! (dir ++ rel) = Some i.

Lemma tree_items_list depth src dir :
  fs_wf src → tree_height src < length dir + depth → tree_list src dir (tree_items depth src dir []).
Proof.
  intros Hwf Hh. split.
  - apply tree_items_ordered; [by left|]. intros x l. by apply not_elem_of_nil.
  - intros rel i. rewrite elem_of_tree_items by done. split; [by intros (r & ? & ? & ->)|].
    intros [? ?]. by exists rel.
Qed.

(** What a tree may hold to be packed. *)
Definition packable `{TarFormat} (src : gmap fpath inode) (dir : fpath) : Prop :=
  ∀ rel i, rel ≠ [] → src !! (dir ++ rel) = Some i →
    (∀ m, i ≠ Special m) ∧ tar_header_error (fileInfoHeader (Join rel SLASH) i) = None.

Definition archive_of (l : list (fpath * inode)) : archive :=
  mkArchive ((λ ri, entry_of ri.1 ri.2) <$> l) None.

Lemma tar_read_items `{TarFormat} src dir l :
  tree_list src dir l → packable src dir → tar_read (tar_write (a_entries (archive_of l))) = archive_of l.
Proof.
  intros [_ Hl] Hgood. apply tar_read_archive, Forall_forall.
  intros e ([rel i] & -> & [Hne Hi]%Hl)%list_elem_of_fmap.
  destruct (Hgood rel i Hne Hi) as [Hsp He]. split; [|exact He].
  by destruct i as [| |m]; [..|destruct (Hsp m)].
Qed.

(** ** Paths *)

(** The name of an entry, and the place it is extracted to. *)
Lemma elems_Join rel : rel ≠ [] → Forall name_ok rel → elems (Join rel SLASH) = rel.
Proof.
  intros Hne Hok. unfold elems. unfold SLASH.
  rewrite Split_Join; [|done|eapply Forall_impl; [exact Hok|by intros x [_ ?]]].
  clear Hne. induction Hok as [|x l [(H1 & H2 & _) _] _ IH]; [done|]. by rewrite filter_cons_True, IH.
Qed.

Lemma no_dotdot_Join rel : rel ≠ [] → Forall name_ok rel → no_dotdot (Join rel SLASH).
Proof.
  intros Hne Hok. unfold no_dotdot, SLASH.
  rewrite Split_Join; [|done|eapply Forall_impl; [exact Hok|by intros x [_ ?]]].
  intros Hin. rewrite Forall_forall in Hok. by destruct (Hok _ Hin) as [(_ & _ & ?) _].
Qed.

Lemma Split_slash_end p : Split slash (p +:+ SLASH) = Split slash p ++ [""].
Proof. unfold SLASH. by rewrite Split_app_any. Qed.

Lemma elems_slash_end p : elems (p +:+ SLASH) = elems p.
Proof. unfold elems. rewrite Split_slash_end, filter_app. cbn. by rewrite app_nil_r. Qed.

Lemma no_dotdot_slash_end p : no_dotdot p → no_dotdot (p +:+ SLASH).
Proof.
  unfold no_dotdot. rewrite Split_slash_end. intros Hp [?|Hin]%elem_of_app; [done|].
  by apply list_elem_of_singleton in Hin.
Qed.

Lemma resolve_target cwd destDir rel i :
  destDir ≠ "" → rel ≠ [] → Forall name_ok rel →
  let t := extract_target destDir (fileInfoHeader (Join rel SLASH) i) in
  t ≠ "" ∧ resolve cwd t = resolve cwd destDir ++ rel.
Proof.
  intros Hd Hne Hok. cbv zeta. unfold extract_target. split; [by apply PathJoin_not_empty|].
  rewrite resolve_PathJoin2 by done.
  assert (∀ name, no_dotdot name → elems name = rel →
    reverse (foldl kstep (reverse (resolve cwd destDir)) (Split slash (Clean name))) = resolve cwd destDir ++ rel) as H.
  { intros name Hn He. rewrite <- (resolve_PathJoin2 cwd destDir (Clean name)) by done.
    rewrite resolve_PathJoin_below by (done || by apply no_dotdot_Clean). f_equal.
    pose proof (resolve_Clean [] name) as E. rewrite !resolve_no_dotdot in E by (done || by apply no_dotdot_Clean).
    rewrite He in E. by destruct (rooted name), (rooted (Clean name)). }
  unfold fileInfoHeader. cbn [h_Name]. destruct (IsDir i).
  - apply H; [by apply no_dotdot_slash_end, no_dotdot_Join|]. by rewrite elems_slash_end, elems_Join.
  - apply H; [by apply no_dotdot_Join|by apply elems_Join].
Qed.

(** ** One entry *)

Lemma extract_file_run destDir h data d s dir x m :
  no_fault s → fs_wf (os_files s) → h_Typeflag h = TypeReg → extract_target destDir h ≠ "" →
  locate (extract_target destDir h) s = dir ++ [x] → os_files s !! dir = Some (Directory m) →
  os_files s !! (dir ++ [x]) = None →
  ∃ s', extract_entry destDir (mkEntry h data None) d s = (Ok d, s') ∧ same_process s s' ∧
    os_files s' = <[dir ++ [x] := File (mkMeta (Z.ldiff (h_Mode h) (os_umask s)) (h_ModTime h) (h_ModTime h)) data]>
                    (os_files s).
Proof.
  intros Hf Hwf Hty Ht Hl Hd Hn. unfold extract_entry. cbn [e_header]. cbv zeta. rewrite Hty.
  set (t := extract_target destDir h) in *. set (k := dir ++ [x]) in *.
  destruct (OpenTrunc_ok (Clean t) (h_Mode h) s Hf Hwf (Clean_not_empty _)) as (m1 & Eo & Hm1 & _).
  { rewrite locate_Clean, Hl. by eapply parent_ok_dir. } { left. by rewrite locate_Clean, Hl. }
  rewrite locate_Clean, Hl in Eo, Hm1. rewrite Hn in Hm1. rewrite (bind_ok _ _ _ _ _ Eo).
  set (s1 := set_files _ _).
  destruct (copyClose_ok k (Clean t) (entry_reader (mkEntry h data None)) s1 data s1 m1)
    as (s2 & m2 & Ec & Hp2 & Hm2 & Hfs2); [done|exact Hf|apply lookup_insert_eq|].
  rewrite (bind_ok _ _ _ _ _ Ec). cbn [s1 set_files tick os_files] in Hfs2. rewrite insert_insert_eq in Hfs2.
  assert (same_process s s2) as Hps by exact Hp2. assert (locate t s2 = k) as Hl2 by by rewrite (locate_same _ _ _ Hps).
  assert (find_inode t s2 = inr (File m2 data)) as Hfi.
  { apply find_inode_found; [|done|by rewrite Hl2, Hfs2, lookup_insert_eq].
    rewrite Hfs2. apply fs_wf_insert; [done|by eexists|done]. }
  assert (no_fault s2) as Hf2 by (intros u; destruct Hps as (_ & _ & _ & -> & _); apply Hf).
  rewrite (bind_ok _ _ _ _ _ (Chtimes_ok t (Some (h_ModTime h)) (h_ModTime h) s2 _ Hf2 Hfi)).
  eexists. split; [done|]. split; [exact Hps|]. cbn [set_files tick os_files].
  rewrite Hl2, Hfs2, insert_insert_eq. cbn [set_times i_meta default]. by rewrite Hm2, Hm1.
Qed.

Lemma extract_dir_run destDir h d s dir x m :
  no_fault s → fs_wf (os_files s) → h_Typeflag h = TypeDir →
  locate (extract_target destDir h) s = dir ++ [x] → os_files s !! dir = Some (Directory m) →
  os_files s !! (dir ++ [x]) = None →
  ∃ s', extract_entry destDir (mkEntry h "" None) d s = (Ok (<[extract_target destDir h := h]> d), s') ∧
    same_process s s' ∧
    os_files s' = <[dir ++ [x] := Directory (new_meta (h_Mode h) (tick s))]> (os_files s).
Proof.
  intros Hf Hwf Hty Hl Hd Hn. unfold extract_entry. cbn [e_header]. cbv zeta. rewrite Hty.
  exists (set_files <[dir ++ [x] := Directory (new_meta (h_Mode h) (tick s))]> (tick s)). split; [|done].
  unfold MkdirAll. erewrite bind_ok; [done|].
  rewrite (bind_ok _ _ s (locate (extract_target destDir h) s) s) by done.
  rewrite Hl. by apply (mkdir_all_last [] dir x _ _ s m).
Qed.

(** ** Extracting the entries in order *)

(** What an entry becomes: the mode less the umask; a file has the
    modification time of the archive as its access time too. *)
Definition extracted (umask : Z) (i : inode) : inode :=
  let m := i_meta i in
  let mode := Z.ldiff (i_mode m) umask in
  match i with
  | File _ c => File (mkMeta mode (i_mtime m) (i_mtime m)) c
  | Directory _ => Directory (mkMeta mode (i_atime m) (i_mtime m))
  | Special _ => i
  end.

(** The same before the times of directories are set. *)
Definition made (umask : Z) (i j : inode) : Prop :=
  match i, j with
  | Directory m, Directory m' => i_mode m' = Z.ldiff (i_mode m) umask
  | Directory _, _ | Special _, _ => False
  | File _ _, _ => j = extracted umask i
  end.

Section extract.
Context (s0 : OS) (Hf : no_fault s0) (Hwf : fs_wf (os_files s0)).
Context (destDir : string) (Hdest : destDir ≠ "").

#[local] Abbreviation E := (locate destDir s0).
#[local] Abbreviation hdr rel i := (fileInfoHeader (Join rel SLASH) i).
#[local] Abbreviation target rel i := (extract_target destDir (hdr rel i)).

Context (mE : meta) (HE : os_files s0 !! E = Some (Directory mE)).

(** The state after the entries in [done]. *)
Record extracting (done : list (fpath * inode)) (d : gmap string header) (s : OS) : Prop := {
  ex_process : same_process s0 s;
  ex_wf : fs_wf (os_files s);
  ex_outside p : (∀ rel, rel ∈ done.*1 → p ≠ E ++ rel) → os_files s !! p = os_files s0 !! p;
  ex_done rel i : (rel, i) ∈ done → ∃ j, os_files s !! (E ++ rel) = Some j ∧ made (os_umask s0) i j;
  ex_names rel i : (rel, i) ∈ done → rel ≠ [] ∧ Forall name_ok rel;
  ex_headers t h : d !! t = Some h → ∃ rel m, (rel, Directory m) ∈ done ∧ t = target rel (Directory m) ∧
    h = hdr rel (Directory m);
  ex_dirs rel m : (rel, Directory m) ∈ done → d !! target rel (Directory m) = Some (hdr rel (Directory m)) }.

Lemma ex_fault done d s : extracting done d s → no_fault s.
Proof using Hf. intros [(_ & _ & _ & H & _) _ _ _ _ _ _] t. rewrite H. apply Hf. Qed.

Lemma ex_parent done d s r :
  extracting done d s → r = [] ∨ (∃ m, (r, Directory m) ∈ done) →
  ∃ m, os_files s !! (E ++ r) = Some (Directory m).
Proof using HE.
  intros Hx [->|[m Hm]].
  - rewrite app_nil_r. exists mE. rewrite (ex_outside _ _ _ Hx); [done|].
    intros rel ([q i] & -> & Hq)%list_elem_of_fmap E'. rewrite <- (app_nil_r E) in E' at 1.
    apply (inj _) in E'. by destruct (ex_names _ _ _ Hx _ _ Hq).
  - destruct (ex_done _ _ _ Hx _ _ Hm) as (j & Hj & Hmade). destruct j; try done. by eexists.
Qed.

Lemma ex_target done d s rel i :
  extracting done d s → rel ≠ [] → Forall name_ok rel →
  target rel i ≠ "" ∧ locate (target rel i) s = E ++ rel.
Proof using Hdest.
  intros Hx Hne Hok. destruct (resolve_target (os_cwd s) destDir rel i Hdest Hne Hok) as [H1 H2].
  split; [done|]. unfold locate at 1. rewrite H2. f_equal.
  apply (locate_same destDir). apply (ex_process _ _ _ Hx).
Qed.

(** One more entry. *)
Lemma ex_insert done d d' s s' rel i j :
  extracting done d s → rel ≠ [] → Forall name_ok rel → rel ∉ done.*1 → same_process s s' →
  os_files s' = <[E ++ rel := j]> (os_files s) → made (os_umask s0) i j →
  fs_wf (<[E ++ rel := j]> (os_files s)) →
  (∀ m, i ≠ Directory m) ∧ d' = d ∨ (∃ m, i = Directory m ∧ d' = <[target rel i := hdr rel i]> d) →
  extracting ((rel, i) :: done) d' s'.
Proof using Hdest.
  intros Hx Hne Hok Hnew Hp Hs' Hmade Hwf' Hd.
  assert (∀ r m, (r, Directory m) ∈ done → target r (Directory m) ≠ target rel i) as Hkeys.
  { intros r m Hin Et. destruct (ex_names _ _ _ Hx _ _ Hin) as [Hr1 Hr2].
    destruct (ex_target _ _ _ r (Directory m) Hx Hr1 Hr2) as [_ L1].
    destruct (ex_target _ _ _ rel i Hx Hne Hok) as [_ L2]. rewrite Et, L2 in L1. apply (inj _) in L1 as ->.
    apply Hnew, list_elem_of_fmap. by exists (r, Directory m). }
  split.
  - etrans; [apply (ex_process _ _ _ Hx)|exact Hp].
  - by rewrite Hs'.
  - intros p Hout. rewrite Hs', lookup_insert_ne.
    + apply (ex_outside _ _ _ Hx). intros r Hr. by apply Hout, list_elem_of_further.
    + apply not_eq_sym, Hout, list_elem_of_here.
  - intros r i' [[= -> ->]|Hin]%elem_of_cons.
    + exists j. by rewrite Hs', lookup_insert_eq.
    + rewrite Hs', lookup_insert_ne; [by apply (ex_done _ _ _ Hx)|].
      intros Er%(inj _). subst r. apply Hnew, list_elem_of_fmap. by exists (rel, i').
  - intros r i' [[= -> ->]|Hin]%elem_of_cons; [done|]. by eapply ex_names.
  - intros t h Ht. destruct Hd as [[_ ->]|(m & -> & ->)].
    + destruct (ex_headers _ _ _ Hx t h Ht) as (r & m & Hin & H'). exists r, m.
      split; [by apply list_elem_of_further|done].
    + apply lookup_insert_Some in Ht as [[<- <-]|[_ Ht]].
      * exists rel, m. split; [apply list_elem_of_here|done].
      * destruct (ex_headers _ _ _ Hx t h Ht) as (r & m' & Hin & H'). exists r, m'.
        split; [by apply list_elem_of_further|done].
  - intros r m [[= -> <-]|Hin]%elem_of_cons.
    + destruct Hd as [[Hd _]|(m' & _ & ->)]; [by destruct (Hd m)|]. apply lookup_insert_eq.
    + destruct Hd as [[_ ->]|(m' & -> & ->)]; [by apply (ex_dirs _ _ _ Hx)|].
      rewrite lookup_insert_ne; [by apply (ex_dirs _ _ _ Hx)|]. apply not_eq_sym. by apply Hkeys.
Qed.

Lemma extract_entry_ok done d s r x i :
  extracting done d s → Forall name_ok (r ++ [x]) → r ++ [x] ∉ done.*1 →
  r = [] ∨ (∃ m, (r, Directory m) ∈ done) → (∀ m, i ≠ Special m) → os_files s0 !! (E ++ r ++ [x]) = None →
  ∃ d' s', extract_entry destDir (entry_of (r ++ [x]) i) d s = (Ok d', s') ∧
    extracting ((r ++ [x], i) :: done) d' s'.
Proof using Hf Hdest HE.
  intros Hx Hok Hnew Hpar Hsp Hfree. assert (r ++ [x] ≠ []) as Hne by by destruct r.
  pose proof (ex_fault _ _ _ Hx) as Hfs. pose proof (ex_wf _ _ _ Hx) as Hws.
  destruct (ex_target _ _ _ (r ++ [x]) i Hx Hne Hok) as [Ht Hl].
  destruct (ex_parent _ _ _ _ Hx Hpar) as [mp Hmp].
  assert (os_files s !! (E ++ r ++ [x]) = None) as Hn
    by (rewrite (ex_outside _ _ _ Hx); [exact Hfree|by intros q Hq <-%(inj _)]).
  assert (os_umask s = os_umask s0) as Hum by apply (ex_process _ _ _ Hx).
  destruct i as [m c|m|m]; [| |by destruct (Hsp m)].
  - destruct (extract_file_run destDir (hdr (r ++ [x]) (File m c)) c d s (E ++ r) x mp)
      as (s' & Er & Hps & Hs'); rewrite <- ?app_assoc; [done..|]. rewrite <- app_assoc, Hum in Hs'.
    exists d, s'. split; [exact Er|].
    apply (ex_insert done d d s s' _ (File m c) _ Hx Hne Hok Hnew Hps Hs'); [done| |by left].
    rewrite app_assoc. apply fs_wf_insert; [done|by eexists|by rewrite <- app_assoc].
  - destruct (extract_dir_run destDir (hdr (r ++ [x]) (Directory m)) d s (E ++ r) x mp)
      as (s' & Er & Hps & Hs'); rewrite <- ?app_assoc; [done..|]. rewrite <- app_assoc in Hs'.
    eexists _, s'. split; [exact Er|].
    apply (ex_insert done d _ s s' _ (Directory m) _ Hx Hne Hok Hnew Hps Hs').
    + simpl. by rewrite Hum.
    + rewrite app_assoc. apply fs_wf_insert; [done|by eexists|by rewrite <- app_assoc].
    + right. by exists m.
Qed.
(** All entries, with a tree the items come from. *)
Context (src : gmap fpath inode) (D : fpath) (Hsrc : fs_wf src).

Definition items_of (l : list (fpath * inode)) : Prop :=
  ∀ rel i, (rel, i) ∈ l → src !! (D ++ rel) = Some i ∧ Forall name_ok rel ∧ ∀ m, i ≠ Special m.

Lemma extract_entries_ok l done d s :
  extracting done d s → items_of done → items_of l → ordered done.*1 l →
  (∀ rel, rel ∈ l.*1 → os_files s0 !! (E ++ rel) = None) →
  ∃ d' s', extract_entries destDir ((λ ri, entry_of ri.1 ri.2) <$> l) d s = (Ok d', s') ∧
    extracting (reverse l ++ done) d' s'.
Proof using Hf Hdest HE Hsrc.
  revert done d s. induction l as [|[rel i] l IH]; intros done d s Hx Hdone Hl Hord Hfree; [by exists d, s|].
  cbn [ordered] in Hord. destruct Hord as (Hnew & (r & x & -> & Hpar) & Hord).
  destruct (Hl _ _ (list_elem_of_here _ _)) as (Hi & Hok & Hsp). cbn [fmap list_fmap fst snd extract_entries].
  destruct (extract_entry_ok done d s r x i Hx Hok Hnew) as (d1 & s1 & E1 & Hx1); [|done|apply Hfree, list_elem_of_here|].
  { destruct Hpar as [|([q j] & -> & Hq)%list_elem_of_fmap]; [by left|right]. cbn [fst] in *.
    destruct (Hdone _ _ Hq) as (Hj & _). rewrite app_assoc in Hi.
    destruct (wf_parent _ Hsrc _ _ _ Hi) as [m Hm]. exists m. congruence. }
  rewrite (bind_ok _ _ _ _ _ E1). destruct (IH _ d1 s1 Hx1) as (d2 & s2 & E2 & Hx2).
  - intros q j [[= -> ->]|Hin]%elem_of_cons; [done|]. by apply Hdone.
  - intros q j Hin. apply Hl. by apply list_elem_of_further.
  - exact Hord.
  - intros q Hq. by apply Hfree, list_elem_of_further.
  - exists d2, s2. split; [exact E2|]. by rewrite reverse_cons, <- app_assoc.
Qed.
End extract.

(** ** The times of the directories *)

Definition with_times (h : header) (m : meta) : inode :=
  Directory (mkMeta (i_mode m) (default (i_atime m) (h_AccessTime h)) (h_ModTime h)).

Lemma extract_times_ok hs s :
  no_fault s → fs_wf (os_files s) → NoDup ((λ th, locate th.1 s) <$> hs) →
  (∀ t h, (t, h) ∈ hs → t ≠ "" ∧ ∃ m, os_files s !! locate t s = Some (Directory m)) →
  ∃ s', extract_times hs s = (Ok tt, s') ∧ same_process s s' ∧
    (∀ p, (∀ t h, (t, h) ∈ hs → locate t s ≠ p) → os_files s' !! p = os_files s !! p) ∧
    (∀ t h m, (t, h) ∈ hs → os_files s !! locate t s = Some (Directory m) →
       os_files s' !! locate t s = Some (with_times h m)).
Proof.
  revert s. induction hs as [|[t h] hs IH]; intros s Hf Hwf Hnd Hdir; cbn [extract_times].
  { exists s. split; [done|]. split; [done|]. split; [done|]. by intros ? ? ? ?%not_elem_of_nil. }
  cbn [fmap list_fmap fst] in Hnd. apply NoDup_cons in Hnd as [Hnew Hnd].
  assert (∀ t' h', (t', h') ∈ hs → locate t s ≠ locate t' s) as Hne.
  { intros t' h' Hin El. apply Hnew, list_elem_of_fmap. by exists (t', h'). }
  destruct (Hdir t h (list_elem_of_here _ _)) as [Ht [m Hm]].
  pose proof (find_inode_found _ _ _ Hwf Ht Hm) as Hfi.
  rewrite (bind_ok _ _ _ _ _ (Chtimes_ok t (h_AccessTime h) (h_ModTime h) s _ Hf Hfi)).
  change (set_times (h_AccessTime h) (h_ModTime h) (Directory m)) with (with_times h m).
  set (s1 := set_files _ _). assert (∀ u, locate u s1 = locate u s) as Hloc by done.
  assert (∀ p, locate t s ≠ p → os_files s1 !! p = os_files s !! p) as Hother
    by (intros; by apply (lookup_insert_ne (os_files s))).
  assert (os_files s1 !! locate t s = Some (with_times h m)) as Hhere by apply (lookup_insert_eq (os_files s)).
  destruct (IH s1) as (s2 & E2 & Hp & Hout & Hin); [exact Hf| |exact Hnd| |].
  { by apply (fs_wf_update (os_files s) _ (Directory m)). }
  { intros t' h' Hin. destruct (Hdir t' h' (list_elem_of_further _ _ _ Hin)) as [Ht' [m' Hm']]. split; [done|].
    exists m'. rewrite Hloc, Hother by by eapply Hne. done. }
  exists s2. split; [exact E2|]. split; [exact Hp|]. split.
  - intros p Hno. rewrite Hout; [by apply Hother, (Hno t h), list_elem_of_here|].
    intros t' h' Hin'. rewrite Hloc. apply (Hno t' h'). by apply list_elem_of_further.
  - intros t' h' m' [[= -> ->]|Hin']%elem_of_cons Hm'.
    + rewrite Hout by (intros t2 h2 Hin2; rewrite Hloc; apply not_eq_sym; by eapply Hne).
      assert (m' = m) as -> by congruence. exact Hhere.
    + rewrite <- Hloc. apply Hin; [done|]. rewrite Hloc, Hother by by eapply Hne. done.
Qed.

(** ** The whole archive *)

Section whole.
Context (s0 : OS) (Hf : no_fault s0) (Hwf : fs_wf (os_files s0)).
Context (destDir : string) (Hdest : destDir ≠ "") (mE : meta).
Context (HE : os_files s0 !! locate destDir s0 = Some (Directory mE)).
Context (order : gmap string header → list (string * header)) (Horder : ∀ m, order m ≡ₚ map_to_list m).

#[local] Abbreviation E := (locate destDir s0).

Lemma extracting_init : extracting s0 destDir [] ∅ s0.
Proof using Hwf.
  split; [done|done|done| | | |].
  - by intros ? ? ?%not_elem_of_nil.
  - by intros ? ? ?%not_elem_of_nil.
  - intros t h. by rewrite lookup_empty.
  - by intros ? ? ?%not_elem_of_nil.
Qed.

(** The headers of the directories name distinct places. *)
Lemma headers_apart done d s :
  extracting s0 destDir done d s → NoDup ((λ th, locate th.1 s) <$> order d).
Proof using Horder Hdest.
  intros Hx. apply NoDup_fmap_2_strong; [|rewrite Horder; apply NoDup_map_to_list].
  intros [t h] [t' h'] H1 H2 El. rewrite Horder, elem_of_map_to_list in H1, H2. cbn [fst] in El.
  destruct (ex_headers _ _ _ _ _ Hx _ _ H1) as (r & m & Hin & -> & ->).
  destruct (ex_headers _ _ _ _ _ Hx _ _ H2) as (r' & m' & Hin' & -> & ->).
  destruct (ex_names _ _ _ _ _ Hx _ _ Hin) as [Hr1 Hr2], (ex_names _ _ _ _ _ Hx _ _ Hin') as [Hr1' Hr2'].
  destruct (ex_target _ _ Hdest _ _ _ r (Directory m) Hx Hr1 Hr2) as [_ L1].
  destruct (ex_target _ _ Hdest _ _ _ r' (Directory m') Hx Hr1' Hr2') as [_ L2].
  rewrite L1, L2 in El. apply (inj _) in El as ->.
  pose proof (ex_dirs _ _ _ _ _ Hx _ _ Hin) as D1. pose proof (ex_dirs _ _ _ _ _ Hx _ _ Hin') as D2.
  change (extract_target destDir (fileInfoHeader (Join r' SLASH) (Directory m')))
    with (extract_target destDir (fileInfoHeader (Join r' SLASH) (Directory m))) in D2 |- *.
  congruence.
Qed.

Lemma ExtractTar_tree src D l :
  fs_wf src → items_of src D l → ordered [] l → (∀ rel, rel ∈ l.*1 → os_files s0 !! (E ++ rel) = None) →
  ∃ s', ExtractTar order (mkArchive ((λ ri, entry_of ri.1 ri.2) <$> l) None) destDir s0 = (Ok tt, s') ∧
    same_process s0 s' ∧
    (∀ p, (∀ rel, rel ∈ l.*1 → p ≠ E ++ rel) → os_files s' !! p = os_files s0 !! p) ∧
    (∀ rel i, (rel, i) ∈ l → os_files s' !! (E ++ rel) = Some (extracted (os_umask s0) i)).
Proof using Hf Hwf Hdest HE Horder.
  intros Hsrc Hl Hord Hfree.
  destruct (extract_entries_ok s0 Hf destDir Hdest mE HE src D Hsrc l [] ∅ s0 extracting_init) as (d & s1 & E1 & Hx);
    [by intros ? ? ?%not_elem_of_nil|done|done|done|]. rewrite app_nil_r in Hx.
  pose proof (ex_process _ _ _ _ _ Hx) as Hp1.
  assert (∀ rel i, (rel, i) ∈ reverse l → rel ≠ [] ∧ Forall name_ok rel) as Hnames by apply (ex_names _ _ _ _ _ Hx).
  assert (∀ t h, (t, h) ∈ order d → ∃ rel m, (rel, Directory m) ∈ l ∧ t ≠ "" ∧ locate t s1 = E ++ rel ∧
    h = fileInfoHeader (Join rel SLASH) (Directory m)) as Hkey.
  { intros t h Hin. rewrite Horder, elem_of_map_to_list in Hin.
    destruct (ex_headers _ _ _ _ _ Hx _ _ Hin) as (rel & m & Hm & -> & ->).
    destruct (Hnames _ _ Hm) as [Hr1 Hr2]. exists rel, m. rewrite elem_of_reverse in Hm.
    destruct (ex_target _ _ Hdest _ _ _ rel (Directory m) Hx Hr1 Hr2) as [H1 H2]. done. }
  destruct (extract_times_ok (order d) s1 (ex_fault _ Hf _ _ _ _ Hx) (ex_wf _ _ _ _ _ Hx) (headers_apart _ _ _ Hx))
    as (s2 & E2 & Hp2 & Hout & Hin).
  { intros t h Ht. destruct (Hkey t h Ht) as (rel & m & Hm & Hne & -> & _). split; [done|].
    apply elem_of_reverse in Hm. destruct (ex_done _ _ _ _ _ Hx _ _ Hm) as (j & -> & Hj). destruct j; try done. by eexists. }
  exists s2. split; [|split; [by etrans|split]].
  - unfold ExtractTar. cbn [a_entries a_err]. by rewrite (bind_ok _ _ _ _ _ E1).
  - intros p Hno. rewrite Hout.
    + apply (ex_outside _ _ _ _ _ Hx). intros rel Hrel. apply Hno. by rewrite fmap_reverse, elem_of_reverse in Hrel.
    + intros t h Ht El. destruct (Hkey t h Ht) as (rel & m & Hm & _ & Hloc & _). apply (Hno rel); [|congruence].
      apply list_elem_of_fmap. by exists (rel, Directory m).
  - intros rel i Hri. pose proof Hri as Hri'. rewrite <- elem_of_reverse in Hri'.
    destruct (ex_done _ _ _ _ _ Hx _ _ Hri') as (j & Hj & Hmade).
    destruct (decide (IsDir i = true)) as [Hd|Hd].
    + destruct i as [|m|]; try done. destruct j as [|m'|]; try done. cbn [made] in Hmade.
      destruct (Hnames _ _ Hri') as [Hr1 Hr2].
      destruct (ex_target _ _ Hdest _ _ _ rel (Directory m) Hx Hr1 Hr2) as [_ Hloc].
      rewrite <- Hloc in Hj |- *. erewrite Hin; [|rewrite Horder, elem_of_map_to_list; by apply (ex_dirs _ _ _ _ _ Hx)|exact Hj].
      unfold with_times. cbn [fileInfoHeader h_AccessTime h_ModTime i_meta default extracted]. by rewrite Hmade.
    + destruct (Hl _ _ Hri) as (_ & _ & Hsp). rewrite Hout.
      * rewrite Hj. destruct i as [m c|m|m]; [by rewrite Hmade|done|by destruct (Hsp m)].
      * intros t h Ht El. destruct (Hkey t h Ht) as (rel' & m & Hm & _ & Hloc & _). rewrite Hloc in El.
        apply (inj _) in El as ->. destruct (Hl _ _ Hri) as (Hi & _), (Hl _ _ Hm) as (Hi' & _).
        rewrite Hi in Hi'. by injection Hi' as ->.
Qed.

(** Into a directory that has other entries, as long as it has none of the archive's. *)
Lemma ExtractTar_adds src D l :
  fs_wf src → names_ok src → tree_list src D l → (∀ rel m, rel ≠ [] → src !! (D ++ rel) ≠ Some (Special m)) →
  (∀ rel, rel ≠ [] → is_Some (src !! (D ++ rel)) → os_files s0 !! (E ++ rel) = None) →
  ∃ s', ExtractTar order (archive_of l) destDir s0 = (Ok tt, s') ∧ same_process s0 s' ∧
    (∀ rel i, rel ≠ [] → src !! (D ++ rel) = Some i → os_files s' !! (E ++ rel) = Some (extracted (os_umask s0) i)) ∧
    (∀ p, (∀ rel, rel ≠ [] → is_Some (src !! (D ++ rel)) → p ≠ E ++ rel) → os_files s' !! p = os_files s0 !! p).
Proof using Hf Hwf Hdest HE Horder.
  intros Hsrc Hnames [Hord Hl] Hsp Hfree.
  assert (∀ rel, rel ∈ l.*1 → rel ≠ [] ∧ is_Some (src !! (D ++ rel))) as Hl1
    by (intros rel ([q i] & -> & [Hq Hi]%Hl)%list_elem_of_fmap; cbn; by rewrite Hi).
  destruct (ExtractTar_tree src D l Hsrc) as (s2 & E2 & Hp & Hout & Hin).
  - intros rel i [Hne Hi]%Hl. split; [exact Hi|]. split; [|intros m ->; by eapply Hsp].
    apply Hnames, Forall_app in Hi. apply Hi.
  - exact Hord.
  - intros rel [Hne Hi]%Hl1. by apply Hfree.
  - exists s2. split; [exact E2|]. split; [exact Hp|]. split; [intros rel i Hne Hi; by apply Hin, Hl|].
    intros p Hno. apply Hout. intros rel [Hne Hi]%Hl1. by apply Hno.
Qed.

Lemma ExtractTar_copies src D l :
  fs_wf src → names_ok src → tree_list src D l → (∀ rel m, rel ≠ [] → src !! (D ++ rel) ≠ Some (Special m)) →
  (∀ rel, rel ≠ [] → os_files s0 !! (E ++ rel) = None) →
  ∃ s', ExtractTar order (archive_of l) destDir s0 = (Ok tt, s') ∧ same_process s0 s' ∧
    (∀ rel, rel ≠ [] → os_files s' !! (E ++ rel) = extracted (os_umask s0) <$> src !! (D ++ rel)) ∧
    (∀ p, ¬ (∃ rel, rel ≠ [] ∧ p = E ++ rel) → os_files s' !! p = os_files s0 !! p).
Proof using Hf Hwf Hdest HE Horder.
  intros Hsrc Hnames Hl Hsp Hempty.
  destruct (ExtractTar_adds src D l Hsrc Hnames Hl Hsp) as (s2 & E2 & Hp & Hin & Hout); [intros rel Hne _; by apply Hempty|].
  exists s2. split; [exact E2|]. split; [exact Hp|]. split.
  - intros rel Hne. destruct (src !! (D ++ rel)) as [i|] eqn:Hi; [by apply Hin|]. rewrite Hout; [by apply Hempty|].
    intros q _ [j Hq] <-%(inj _). congruence.
  - intros p Hno. apply Hout. intros rel Hne _ ->. apply Hno. by exists rel.
Qed.
End whole.

(** Reading a whole archive from a file. *)
Lemma read_archive_ok `{TarFormat} k name s m c :
  no_fault s → os_files s !! k = Some (File m c) → read_archive k name s = (Ok (tar_read c), tick s).
Proof. intros Hf Hk. unfold read_archive. rewrite (Hf (os_tick s)). by rewrite (ReadHandle_ok k name s m c). Qed.

(** ** Properties *)

(** C8: packing a directory of files and directories and unpacking the archive
    into an empty directory, in whatever order the directories' headers are
    ranged over, succeeds without failures and copies the tree: below the
    destination is exactly what is below the source, with the same content and
    modification times, the modes less the umask, and for directories the same
    access times; nothing else changes but the archive file. *)
Theorem tar_round_trip `{TarFormat} depth k name sourceDir destDir order s mk m mE :
  no_fault s → fs_wf (os_files s) → names_ok (os_files s) → sourceDir ≠ "" → destDir ≠ "" →
  let D := locate sourceDir s in
  let E := locate destDir s in
  os_files s !! D = Some (Directory m) → os_files s !! k = Some (File mk "") → ¬ D `prefix_of` k →
  packable (os_files s) D →
  tree_height (os_files s) < depth →
  os_files s !! E = Some (Directory mE) → (∀ rel, rel ≠ [] → os_files s !! (E ++ rel) = None) →
  (∀ d, order d ≡ₚ map_to_list d) →
  ∃ s', (CreateTar depth k name sourceDir ;;
         a ← read_archive k name; ExtractTar order a destDir) s = (Ok tt, s') ∧
    (∀ rel, rel ≠ [] → os_files s' !! (E ++ rel) = extracted (os_umask s) <$> os_files s !! (D ++ rel)) ∧
    (∀ p, ¬ (∃ rel, rel ≠ [] ∧ p = E ++ rel) → p ≠ k → os_files s' !! p = os_files s !! p).
Proof.
  intros Hf Hwf Hn Hs Hd D E Hm Hk Hout Hgood Hh HE Hempty Ho.
  destruct (create_tar_ok s Hf Hwf k mk Hk sourceDir Hs Hn Hout Hgood depth name m Hm Hh) as (s1 & m' & E1 & Hp & Hs1).
  fold D in Hs1. rewrite tree_entries_items in Hs1.
  assert (tree_list (os_files s) D (tree_items depth (os_files s) D [])) as Hl by (apply tree_items_list; [done|lia]).
  set (l := tree_items depth (os_files s) D []) in *.
  assert (∀ p, p ≠ k → os_files s1 !! p = os_files s !! p) as Hs1' by (intros; rewrite Hs1; by apply lookup_insert_ne).
  assert (no_fault s1) as Hf1 by (intros t; destruct Hp as (_ & _ & _ & -> & _); apply Hf).
  assert (locate destDir (tick s1) = E) as HlE by exact (locate_same _ _ _ Hp).
  assert (read_archive k name s1 = (Ok (archive_of l), tick s1)) as Er.
  { rewrite (read_archive_ok _ _ _ m' (tar_write (a_entries (archive_of l)))); [|done|by rewrite Hs1, lookup_insert_eq].
    by rewrite (tar_read_items (os_files s) D). }
  destruct (ExtractTar_copies (tick s1) Hf1 ltac:(cbn; rewrite Hs1; by eapply fs_wf_replace) destDir Hd mE)
    with (order := order) (src := os_files s) (D := D) (l := l) as (s2 & E2 & _ & Hin & Hout2); rewrite ?HlE in *.
  - cbn. rewrite Hs1' by (intros ->; congruence). exact HE.
  - exact Ho.
  - exact Hwf.
  - exact Hn.
  - exact Hl.
  - intros rel m0 Hne Hi. by destruct (Hgood rel _ Hne Hi) as [Hsp _]; destruct (Hsp m0).
  - intros rel Hne. cbn. rewrite Hs1'; [by apply Hempty|]. intros <-. rewrite Hempty in Hk by done. done.
  - exists s2. split; [|split].
    + rewrite (bind_ok _ _ _ _ _ E1), (bind_ok _ _ _ _ _ Er). exact E2.
    + cbn in Hin. by destruct Hp as (_ & <- & _).
    + intros p Hnp Hpk. rewrite Hout2 by done. by apply Hs1'.
Qed.

(** ** Witnesses *)
Lemma tar_round_trip_witness :
  ∃ s', (@CreateTar Plain.format 3 ["out.tar"] "/out.tar" "/src" ;;
         a ← @read_archive Plain.format ["out.tar"] "/out.tar"; ExtractTar Demo.by_key a "/dst") Demo.os0 = (Ok tt, s') ∧
    os_files s' !! ["dst"; "f"] = Some (File (mkMeta 420 4 4) "data").
Proof.
  destruct (@tar_round_trip Plain.format 3 ["out.tar"] "/out.tar" "/src" "/dst" Demo.by_key Demo.os0
    Fs.Demo.meta0 (mkMeta 493 1 2) (mkMeta 493 1 2)) as (s' & H1 & H2 & _).
  - done.
  - apply Demo.os0_wf.
  - apply Demo.os0_names.
  - done.
  - done.
  - reflexivity.
  - reflexivity.
  - by intros [? [=]].
  - intros rel i _ Hi. split; [|done]. intros m ->. revert Hi. simpl.
    change (locate "/src" Demo.os0) with ["src"]. cbn [app]. unfold Fs.Demo.tree. intros Hi.
    repeat (apply lookup_insert_Some in Hi as [[_ [=]]|[_ Hi]]).
    by apply lookup_singleton_Some in Hi as [_ [=]].
  - vm_compute. lia.
  - reflexivity.
  - intros [|x rel] Hne; [done|]. change (locate "/dst" Demo.os0) with ["dst"]. cbn [app].
    simpl. unfold Fs.Demo.tree. repeat (rewrite lookup_insert_ne by (intros [=])).
    by apply lookup_singleton_ne.
  - intros d. reflexivity.
  - exists s'. split; [exact H1|]. change ["dst"; "f"] with (locate "/dst" Demo.os0 ++ ["f"]).
    rewrite H2 by done. reflexivity.
Defined.
