(* ===== verification/Command.v ===== *)
(** * The commands the peer runs

    pkg/command (Detect, Build, Release, Run with their helpers) and the main
    function of cmd/ibp-builder-client, which picks the command by the name it
    was started under. A world is the file system with the process environment
    and what was printed on standard error. The gRPC connection is a record of
    what the side car does with a request: it may change the file system (the
    pods it starts use the shared directory), and it streams responses up to
    the end of the stream or an error. Log messages are not modelled. *)
From S2P Require Import Prelude GoStrings GoPath OsModel Sidecar TarFormat Json JsonMap Fs Tar.

(** ** The world *)

Record cworld := mkCworld { cw_os : OS; cw_stderr : list string }.

Definition cw_lens : lens cworld OS := Lens cw_os (λ o w, mkCworld o (cw_stderr w)).

#[local] Abbreviation os := (zoom cw_lens).

(** fmt.Fprintf(stderr, ...); an error of printing is dropped. *)
Definition print_err (text : string) : M cworld unit :=
  modify (λ w, mkCworld (cw_os w) (cw_stderr w ++ [text])).

(** What the side car makes of a call: the responses, and how the stream ends
    ([None] for io.EOF); the call itself may fail. *)
Record connection := mkConnection {
  call_Build : BuildRequest → M OS (list response * option go_error);
  call_Run : RunRequest → M OS (list response * option go_error) }.

(** args[i]. *)
Definition arg (args : list string) (i : nat) : M cworld string :=
  match args !! i with
  | Some x => mret x
  | None => panic ("index out of range [" +:+ pretty i +:+ "] with length " +:+ pretty (length args))
  end.

(** ** common.go and detect.go *)

Definition unmarshal_type (contents : string) : go_error + string :=
  match unmarshal_struct "command" "ChaincodeMetadata" ["type"] contents with
  | inl e => inl e
  | inr m => inr (field "type" m)
  end.

Definition IsExternalCC (metadataDir : string) : M OS bool :=
  r ← attempt (ReadFile (Clean (PathJoin [metadataDir; "metadata.json"])));
  match r with
  | inl _ => mret false
  | inr contents =>
      type ← lift (unmarshal_type contents);
      mret (bool_decide (ToLower type = "external"))
  end.

(** The types the builder takes. *)
Definition supported_type (type : string) : bool :=
  let t := ToLower type in
  bool_decide (t = "golang") || bool_decide (t = "java") || bool_decide (t = "node") ||
  bool_decide (t = "executable") || bool_decide (t = "external").

Definition Detect_Run (args : list string) : M cworld nat :=
  metadataDir ← arg args 1;
  mdbytes ← os (ReadFile (PathJoin [metadataDir; "metadata.json"]));
  type ← lift (unmarshal_type mdbytes);
  if supported_type type then mret 0
  else print_err ("chaincode type not supported: " +:+ type) ;; mret 1.

(** ** build.go *)

Definition dirExists (path : string) : M OS bool :=
  r ← attempt (Stat path);
  match r with inl _ => mret false | inr fi => mret (IsDir fi) end.

Definition getPeerID : M OS string :=
  peerName ← Getenv "PEER_NAME"; mret (remove_byte " " peerName).

(** <hostname>.<domain>:<port> in its parts. *)
Definition parseAddress (addr : string) : go_error + (string * string * string) :=
  match Split ":" addr with
  | [hostURL; port] =>
      let domain := default "" (last (Split "." hostURL)) in
      inr (TrimSuffix hostURL ("." +:+ domain), domain, port)
  | _ => inl (ErrorString "address not in format <host-url>:<port>")
  end.

(** The address with the peer in it, for a value of injectIdentifier. *)
Definition newAddress (injectIdentifier peerName address hostname domain port : string) : option string :=
  if bool_decide (injectIdentifier = "hostname") then Some (peerName +:+ "-" +:+ address)
  else if bool_decide (injectIdentifier = "domain")
  then Some (hostname +:+ "." +:+ peerName +:+ "-" +:+ domain +:+ ":" +:+ port)
  else None.

Definition injectPeerIdentifier (connectionFile : string) : M OS string :=
  connectionBytes ← wrap_err (Errorf "failed to read connection.json: ")
    (ReadFile (Clean connectionFile));
  connectionJSON ← wrap_err (Errorf "failed to unmarshall connection.json: ")
    (lift (unmarshal_map connectionBytes));
  match as_string (connectionJSON !! "injectIdentifier") with
  | None => mret connectionBytes
  | Some injectIdentifier =>
      match as_string (connectionJSON !! "address") with
      | None => throw (ErrorString "address unable to be parsed as a string")
      | Some address =>
          peerName ← getPeerID;
          if bool_decide (peerName = "")
          then throw (ErrorString "failed to get peer name from PEER_NAME env var")
          else
            '(hostname, domain, port) ←
              wrap_err (Errorf "invalid address provided in connection.json: ")
                (lift (parseAddress address));
            mret (marshal_map
              (match newAddress injectIdentifier peerName address hostname domain port with
               | Some a => <["address" := JString a]> connectionJSON
               | None => connectionJSON
               end))
      end
  end.

(** What depends on the tar format, the connection, and the depth down to
    which trees are followed. *)
Section commands.
Context `{TarFormat} (depth : nat) (conn : connection).

Definition createTar (targetArchive sourceDir : string) : M OS unit :=
  wrap_err (Errorf "tar directory create failed: ") (MkdirAll (Dir targetArchive) 493) ;;
  let name := Clean targetArchive in
  archiveFile ← wrap_err (Errorf "file create failed: ") (OpenTrunc name 438);
  deferring (CloseHandle archiveFile name)
    (wrap_err (Errorf ("failed to create archive " +:+ name +:+ ": "))
       (CreateTar depth archiveFile name sourceDir)).

Definition Build_HandleExternalCC (sourceDir metadataDir outputDir : string) : M OS unit :=
  let connectionSrcFile := PathJoin [sourceDir; "/connection.json"] in
  let connectionDestFile := PathJoin [outputDir; "/connection.json"] in
  r ← attempt (Stat connectionSrcFile);
  match r with
  | inl e => if IsNotExist e
             then throw (Errorf "connection.json not found in source folder: " e) else mret tt
  | inr _ => mret tt
  end ;;
  wrap_err (Errorf "failed to update connection.json and write to output folder: ")
    (UpdateFile connectionSrcFile connectionDestFile injectPeerIdentifier) ;;
  wrap_err (Errorf "failed to copy build metadata folder: ") (CopyDir depth metadataDir outputDir) ;;
  has ← dirExists (PathJoin [sourceDir; "META-INF"]);
  if has : bool then createTar (PathJoin [outputDir; "chaincode-metadata.tar"]) (PathJoin [sourceDir; "META-INF"])
  else mret tt.

(** The loop over the responses. *)
Fixpoint receive (responses : list response) (stream_end : option go_error) : M cworld unit :=
  match responses with
  | [] => match stream_end with Some e => throw e | None => mret tt end
  | StandardOut t :: rs => print_err t ;; receive rs stream_end
  | StandardError t :: rs => print_err t ;; receive rs stream_end
  | NoMessage :: _ => throw (ErrorString "unexpected server response message <nil>")
  end.

(** The archives of a build, in its temporary directory. *)
Definition populate_build (tempDir sourceDir metadataDir : string) : M OS unit :=
  createTar (PathJoin [tempDir; "chaincode-source.tar"]) sourceDir ;;
  has ← dirExists (PathJoin [sourceDir; "META-INF"]);
  (if has : bool then createTar (PathJoin [tempDir; "chaincode-metadata.tar"]) (PathJoin [sourceDir; "META-INF"])
   else mret tt) ;;
  createTar (PathJoin [tempDir; "package-metadata.tar"]) metadataDir.

Definition build_request (buildRoot : string) : BuildRequest :=
  mkBuildRequest (PathJoin [buildRoot; "chaincode-source.tar"])
    (PathJoin [buildRoot; "package-metadata.tar"]) (PathJoin [buildRoot; "chaincode-output.tar"]).

Definition Build_Run (SharedDir : string) (args : list string) : M cworld nat :=
  sourceDir ← arg args 0; metadataDir ← arg args 1; outputDir ← arg args 2;
  isExternal ← os (IsExternalCC metadataDir);
  if isExternal : bool then os (Build_HandleExternalCC sourceDir metadataDir outputDir) ;; mret 0
  else
    tempDir ← wrap_err (Errorf "failed to create temporary directory: ") (os (TempDir SharedDir "build"));
    deferring (os (RemoveAll tempDir))
      (buildRoot ← wrap_err (Errorf "failed to determine build root: ") (lift (Rel SharedDir tempDir));
       os (populate_build tempDir sourceDir metadataDir) ;;
       '(responses, stream_end) ← os (call_Build conn (build_request buildRoot));
       receive responses stream_end ;;
       wrap_err (Errorf "failed to copy build result to peer: ")
         (os (CopyDir depth tempDir outputDir)) ;;
       mret 0).

(** ** release.go *)

Definition Release_HandleExternalCC (builderOutputDir releaseDir : string) : M OS unit :=
  let destinationDir := PathJoin [releaseDir; "chaincode/server"] in
  let connectionSrcFile := PathJoin [builderOutputDir; "connection.json"] in
  let metadataFile := PathJoin [builderOutputDir; "metadata.json"] in
  let connectionDestFile := PathJoin [destinationDir; "connection.json"] in
  let metadataDestFile := PathJoin [destinationDir; "metadata.json"] in
  r ← attempt (Stat (PathJoin [builderOutputDir; "/connection.json"]));
  match r with
  | inl e => if IsNotExist e
             then throw (Errorf "connection.json not found in source folder: " e) else mret tt
  | inr _ => mret tt
  end ;;
  wrap_err (Errorf "failed to create target folder for connection.json: ") (MkdirAll destinationDir 488) ;;
  wrap_err (Errorf "failed to copy connection.json to target folder: ")
    (CopyFile connectionSrcFile connectionDestFile) ;;
  wrap_err (Errorf "failed to copy metadata to target folder: ") (CopyFile metadataFile metadataDestFile).

Definition Release_Run (order : gmap string header → list (string * header)) (args : list string)
    : M cworld nat :=
  builderOutputDir ← arg args 0; releaseDir ← arg args 1;
  isExternal ← os (IsExternalCC builderOutputDir);
  (if isExternal : bool then os (Release_HandleExternalCC builderOutputDir releaseDir) else mret tt) ;;
  let name := Clean (PathJoin [builderOutputDir; "chaincode-metadata.tar"]) in
  r ← attempt (os (Open name));
  match r with
  | inl e => if IsNotExist e then mret 0 else throw e
  | inr tarfile =>
      deferring (os (CloseHandle tarfile name))
        (os (a ← read_archive tarfile name; ExtractTar order a releaseDir) ;; mret 0)
  end.

(** ** run.go *)

(** The files of a run, in its temporary directory. *)
Definition populate_run (tempDir buildOutputDir peerMetadataDir : string) : M OS unit :=
  CopyFile (PathJoin [buildOutputDir; "chaincode-output.tar"]) (PathJoin [tempDir; "chaincode-output.tar"]) ;;
  CopyFile (PathJoin [buildOutputDir; "package-metadata.tar"]) (PathJoin [tempDir; "package-metadata.tar"]) ;;
  CopyFile (PathJoin [peerMetadataDir; "chaincode.json"]) (PathJoin [tempDir; "chaincode.json"]).

Definition run_request (runRoot : string) : RunRequest :=
  mkRunRequest (PathJoin [runRoot; "chaincode-output.tar"])
    (PathJoin [runRoot; "package-metadata.tar"]) (PathJoin [runRoot; "chaincode.json"]).

Definition Run_Run (SharedDir : string) (args : list string) : M cworld nat :=
  buildOutputDir ← arg args 0; peerMetadataDir ← arg args 1;
  isExternal ← os (IsExternalCC buildOutputDir);
  if isExternal : bool then throw (ErrorString "Peer should not call run for external chaincode type")
  else
    tempDir ← wrap_err (Errorf "failed to create temporary directory: ") (os (TempDir SharedDir "run"));
    deferring (os (RemoveAll tempDir))
      (runRoot ← wrap_err (Errorf "failed to determine build root: ") (lift (Rel SharedDir tempDir));
       os (populate_run tempDir buildOutputDir peerMetadataDir) ;;
       '(responses, stream_end) ← os (call_Run conn (run_request runRoot));
       receive responses stream_end ;;
       mret 0).
End commands.

(** ** cmd/ibp-builder-client/main.go

    [dial] is grpc.DialContext to an endpoint. The result is the exit code; a
    panic ends the process otherwise. *)
Definition main `{TarFormat} (depth : nat) (order : gmap string header → list (string * header))
    (dial : string → go_error + connection) (Args : list string) : M cworld nat :=
  sharedDir ← os (Getenv "IBP_BUILDER_SHARED_DIR");
  builderEndpoint ← os (Getenv "IBP_BUILDER_ENDPOINT");
  match dial builderEndpoint with
  | inl e =>
      print_err ("Failed to create connection to " +:+ builderEndpoint +:+ ": " +:+ Error e) ;; mret 10
  | inr conn =>
      name ← arg Args 0;
      let cmd := Base name in
      let args := tail Args in
      let run :=
        if bool_decide (cmd = "detect") then Some (Detect_Run args)
        else if bool_decide (cmd = "build") then Some (Build_Run depth conn sharedDir args)
        else if bool_decide (cmd = "release") then Some (Release_Run order args)
        else if bool_decide (cmd = "run") then Some (Run_Run conn sharedDir args)
        else None in
      match run with
      | None => print_err ("Unexpected command: " +:+ cmd) ;; mret 99
      | Some m =>
          r ← attempt m;
          match r with
          | inl e => print_err ("External builder failed: " +:+ Error e +:+ NL) ;; mret 3
          | inr rc => mret rc
          end
      end
  end.
