(* ===== verification/CommandFacts.v ===== *)
(** * The commands: what reaches the side car, and what is left behind

    Facts on pkg/command (Command.v): where the side car looks for the files of a
    request, that it reads the metadata of the package the peer handed over, that
    removing the temporary directory ends a command, and injectPeerIdentifier by
    cases. *)
From S2P Require Import Prelude GoStrings GoPath OsModel Sidecar TarFormat Json JsonMap JsonRoundTrip Fs Tar TarFacts TarRoundTrip.
From S2P Require Import Containers PodSpec Metadata Command.

(** ** Paths *)


(** Joining a name to a directory, as ioutil.TempDir does. *)
Lemma Split_join_dir d x :
  d ≠ "" → name_ok x →
  ∃ l, Split slash (join_dir d x) = l ++ [x] ∧ (Split slash d = l ∨ Split slash d = l ++ [""]).
Proof.
  intros Hd [_ Hx]. unfold join_dir. destruct (HasSuffix d SLASH) eqn:E.
  - apply HasSuffix_spec in E as [t ->]. exists (Split slash t).
    rewrite <- sapp_assoc. change (SLASH +:+ x) with (String slash x). unfold SLASH.
    rewrite !Split_app_any, (Split_id slash x Hx). split; [done|]. by right.
  - exists (Split slash d). change (d +:+ SLASH +:+ x) with (d +:+ String slash x).
    rewrite Split_app_any, (Split_id slash x Hx). split; [done|]. by left.
Qed.

Lemma rooted_join_dir d x : d ≠ "" → rooted (join_dir d x) = rooted d.
Proof.
  intros Hd. unfold join_dir. destruct d as [|c d]; [done|].
  destruct (HasSuffix _ SLASH); simpl; by rewrite !rooted_String.
Qed.

Lemma resolve_join_dir cwd d x : d ≠ "" → name_ok x → resolve cwd (join_dir d x) = resolve cwd d ++ [x].
Proof.
  intros Hd Hx. unfold resolve. rewrite rooted_join_dir by done.
  destruct (Split_join_dir d x Hd Hx) as (l & -> & Hl). rewrite foldl_app. cbn [foldl].
  rewrite (kstep_name _ x) by apply Hx. rewrite reverse_cons. f_equal. f_equal.
  destruct Hl as [->| ->]; [done|]. by rewrite foldl_app.
Qed.

Lemma cleaned_elems_join_dir d x :
  d ≠ "" → name_ok x → cleaned_elems (join_dir d x) = cleaned_elems d ++ [x].
Proof.
  intros Hd Hx. unfold cleaned_elems, clean_elems. rewrite rooted_join_dir by done.
  destruct (Split_join_dir d x Hd Hx) as (l & -> & Hl). rewrite foldl_app. cbn [foldl].
  rewrite clean_step_normal by apply Hx. rewrite reverse_cons. f_equal. f_equal.
  destruct Hl as [->| ->]; [done|]. by rewrite foldl_app.
Qed.

Lemma join_dir_not_empty d x : d ≠ "" → join_dir d x ≠ "".
Proof. intros Hd. unfold join_dir. destruct d; [done|]. by destruct (HasSuffix _ _). Qed.

(** A path of two names. *)
Lemma Split_name_pair a b : name_ok a → name_ok b → Split slash (PathJoin [a; b]) = [a; b].
Proof.
  intros [Ha Has] [Hb Hbs]. unfold PathJoin. cbn [drop_empty]. rewrite bool_decide_eq_false_2 by apply Ha.
  rewrite Split_Clean. cbv zeta. change (Join [a; b] SLASH) with (a +:+ String slash b).
  rewrite Split_app_any, (Split_id slash a Has), (Split_id slash b Hbs).
  assert (rooted (a +:+ String slash b) = false) as ->.
  { destruct a as [|c a]; [by destruct Ha|]. simpl. rewrite rooted_String. apply bool_decide_eq_false_2.
    intros ->. simpl in Has. done. }
  unfold clean_elems. cbn [app foldl]. by rewrite !clean_step_normal.
Qed.

Lemma name_pair_elems a b :
  name_ok a → name_ok b → no_dotdot (PathJoin [a; b]) ∧ elems (PathJoin [a; b]) = [a; b].
Proof.
  intros Ha Hb. unfold no_dotdot, elems. rewrite Split_name_pair by done.
  destruct Ha as [(Ha1 & Ha2 & Ha3) _], Hb as [(Hb1 & Hb2 & Hb3) _]. split.
  - intros Hin. apply list_elem_of_In in Hin as [?|[?|[]]]; congruence.
  - by rewrite !filter_cons_True, filter_nil.
Qed.

(** The name of a temporary directory. *)
Lemma temp_name_ok prefix r :
  prefix ≠ "" → HasPrefix prefix "." = false → has_byte slash (prefix +:+ r) = false → name_ok (prefix +:+ r).
Proof.
  intros Hp Hd Hs. split; [|done]. destruct prefix as [|c p]; [done|]. simpl in Hd |- *.
  assert (c ≠ "."%char) as Hc by (intros ->; destruct p; done).
  repeat split; congruence.
Qed.

(** ** Requests *)

(** Where a process in [cwd], with the shared directory of the server [b], finds
    a path of a request. *)
Definition seen_at (b : Server) (cwd : fpath) (p : string) : fpath :=
  resolve cwd (Clean (PathJoin [sv_SharedPath b; p])).

Lemma request_path b cwd x f :
  sv_SharedPath b ≠ "" → name_ok x → name_ok f →
  containsDotDot (PathJoin [x; f]) = false ∧
  seen_at b cwd (PathJoin [x; f]) = (resolve cwd (sv_SharedPath b) ++ [x]) ++ [f].
Proof.
  intros Hs Hx Hf. destruct (name_pair_elems x f Hx Hf) as [Hn He]. split; [by apply containsDotDot_spec|].
  unfold seen_at. by rewrite resolve_Clean, resolve_PathJoin_below, He, <- app_assoc.
Qed.

(** ** The settings of the process *)

Lemma process_chtimes p fi : keeps same_process (chtimes p fi).
Proof. unfold chtimes. process_tac. Qed.

Lemma process_copyClose h name reader : keeps same_process reader → keeps same_process (copyClose h name reader).
Proof. intros Hr. unfold copyClose, copy_to. process_tac. Qed.

Lemma process_file_reader h name : keeps same_process (file_reader h name).
Proof. unfold file_reader. process_tac. Qed.

#[local] Hint Resolve process_chtimes process_copyClose process_file_reader : process.

Lemma process_CopyFile src dest : keeps same_process (CopyFile src dest).
Proof. unfold CopyFile. cbv zeta. process_tac. Qed.

#[local] Hint Resolve process_CopyFile : process.

Lemma process_copy_entries f src dest l :
  (∀ a b, keeps same_process (f a b)) → keeps same_process (copy_entries f src dest l).
Proof. intros Hf. induction l as [|[x i] l IH]; cbn [copy_entries]; process_tac. Qed.

Lemma process_CopyDir depth src dest : keeps same_process (CopyDir depth src dest).
Proof.
  revert src dest. induction depth as [|n IH]; intros src dest; cbn [CopyDir]; [done|].
  pose proof (process_copy_entries (CopyDir n)). process_tac.
Qed.

#[local] Hint Resolve process_CopyDir : process.

(** The writer of an archive. *)
Definition tw_process (w w' : twriter) : Prop := same_process (tw_os w) (tw_os w').

#[export] Instance tw_process_pre : PreOrder tw_process.
Proof. split; [by intros w|]. intros w1 w2 w3 H1 H2. unfold tw_process in *. by etrans. Qed.

Lemma tw_zoom {A} (m : M OS A) : keeps same_process m → keeps tw_process (zoom tw_lens m).
Proof. apply keeps_zoom. by intros. Qed.

Section writer.
Context `{TarFormat}.

Ltac writer_tac :=
  keeps_with ltac:(first [solve [eauto with process]|apply tw_zoom; solve [eauto with process]|by apply keeps_modify]).

Lemma tw_process_write d : keeps tw_process (tw_write d).
Proof. unfold tw_write. writer_tac. Qed.
#[local] Hint Resolve tw_process_write : process.

Lemma tw_process_unless_err m : keeps tw_process m → keeps tw_process (unless_err m).
Proof. intros Hm. unfold unless_err. writer_tac. Qed.
#[local] Hint Resolve tw_process_unless_err : process.

Lemma tw_process_Flush : keeps tw_process Flush.
Proof. unfold Flush. apply tw_process_unless_err. writer_tac. Qed.
#[local] Hint Resolve tw_process_Flush : process.

Lemma tw_process_WriteHeader h : keeps tw_process (WriteHeader h).
Proof. unfold WriteHeader. writer_tac. Qed.

Lemma tw_process_Write d : keeps tw_process (tw_Write d).
Proof. unfold tw_Write. apply tw_process_unless_err. writer_tac. Qed.

Lemma tw_process_Close : keeps tw_process tw_Close.
Proof. unfold tw_Close. writer_tac. Qed.
#[local] Hint Resolve tw_process_WriteHeader tw_process_Write tw_process_Close : process.

Lemma tw_process_visit src p r : keeps tw_process (visit src p r).
Proof. unfold visit, writeFileContents. cbv zeta. writer_tac. Qed.
#[local] Hint Resolve tw_process_visit : process.

Lemma tw_process_walk_names src f path names :
  (∀ p i, keeps tw_process (f p i)) → keeps tw_process (walk_names tw_lens (visit src) f path names).
Proof. intros Hf. induction names as [|x names IH]; cbn [walk_names]; cbv zeta; writer_tac. Qed.

Lemma tw_process_walk_tree src depth path fi : keeps tw_process (walk_tree tw_lens (visit src) depth path fi).
Proof.
  revert path fi. induction depth as [|n IH]; intros path fi; cbn [walk_tree]; [by intros w|].
  pose proof (tw_process_walk_names src (walk_tree tw_lens (visit src) n)). writer_tac.
Qed.
#[local] Hint Resolve tw_process_walk_tree : process.

Lemma process_CreateTar depth file name src : keeps same_process (CreateTar depth file name src).
Proof.
  intros s. unfold CreateTar. set (w := mkTwriter s file name 0 "" None).
  assert (keeps tw_process (create_tar depth src)) as H1 by (unfold create_tar, Walk; writer_tac).
  specialize (H1 w). by destruct (create_tar depth src w).
Qed.
#[local] Hint Resolve process_CreateTar : process.

Lemma process_createTar depth target src : keeps same_process (createTar depth target src).
Proof. unfold createTar. cbv zeta. process_tac. Qed.
End writer.

#[local] Hint Resolve process_createTar : process.

Lemma same_dirExists p : keeps same_tree (dirExists p).
Proof. unfold dirExists. keeps_tac. Qed.
#[local] Hint Resolve same_dirExists : keeps.

Lemma dirExists_ok p s :
  no_fault s → fs_wf (os_files s) → p ≠ "" →
  dirExists p s = (Ok (match os_files s !! locate p s with Some i => IsDir i | None => false end), tick s).
Proof.
  intros Hf Hwf Hp. unfold dirExists, Stat, stat_as, attempt, mbind, M_bind, sys. rewrite Hf.
  change (find_inode p (tick s)) with (find_inode p s). destruct (os_files s !! locate p s) as [i|] eqn:Hi.
  - by rewrite (find_inode_found p s i).
  - destruct (walk_missing (os_files s) [] _ Hwf Hi) as [e He]. unfold find_inode.
    by rewrite bool_decide_eq_false_2, He.
Qed.

Lemma process_populate_build `{TarFormat} depth t src md : keeps same_process (populate_build depth t src md).
Proof. unfold populate_build. process_tac. Qed.

Lemma process_populate_run t out md : keeps same_process (populate_run t out md).
Proof. unfold populate_run. process_tac. Qed.

#[local] Hint Resolve process_populate_build process_populate_run : process.

(** ** The temporary directory *)

Definition cw_process (w w' : cworld) : Prop := same_process (cw_os w) (cw_os w').

#[export] Instance cw_process_pre : PreOrder cw_process.
Proof. split; [by intros w|]. intros w1 w2 w3 H1 H2. unfold cw_process in *. by etrans. Qed.

Lemma cw_zoom {A} (m : M OS A) : keeps same_process m → keeps cw_process (zoom cw_lens m).
Proof. apply keeps_zoom. by intros. Qed.

Lemma cw_print t : keeps cw_process (print_err t).
Proof. by apply keeps_modify. Qed.
#[local] Hint Resolve cw_print : process.

Lemma cw_receive rs e : keeps cw_process (receive rs e).
Proof. induction rs as [|[] rs IH]; cbn [receive]; keeps_with ltac:(solve [eauto with process]). Qed.
#[local] Hint Resolve cw_receive : process.

Lemma same_IsExternalCC d : keeps same_tree (IsExternalCC d).
Proof. unfold IsExternalCC. keeps_tac. Qed.

(** What a deferred removal leaves: nothing below the directory, unless the
    system failed that very call, the last one. *)
Definition removed_at_end (dir : string) (k0 : fpath) (s' : OS) : Prop :=
  (∀ k, k0 `prefix_of` k → os_files s' !! k = None) ∨
  ∃ s2 e, RemoveAll dir s2 = (Err e, s').

Lemma removed {A} (m : M cworld A) dir w r w' :
  deferring (zoom cw_lens (RemoveAll dir)) m w = (r, w') →
  keeps cw_process m → r ≠ Blocked → removed_at_end dir (locate dir (cw_os w)) (cw_os w').
Proof.
  intros E Hm Hb. revert E. unfold deferring. specialize (Hm w). destruct (m w) as [r1 w1]. simpl in Hm.
  destruct (RemoveAll dir (cw_os w1)) as [d s'] eqn:Ed.
  rewrite (zoom_eq cw_lens _ w1 d s') by exact Ed. intros E.
  assert (cw_os w' = s') as -> by (destruct r1, d; injection E as <- <-; done).
  unfold RemoveAll, sys in Ed. destruct (os_fault _ _) as [[e n]|] eqn:Hf.
  - right. exists (cw_os w1), (PathError "unlinkat" dir e). unfold RemoveAll, sys. rewrite Hf. by injection Ed as <- <-.
  - left. injection Ed as _ <-. intros k Hk. simpl. apply map_lookup_filter_None. right. intros i _ Hn. apply Hn. simpl.
    change (locate dir (tick (cw_os w1))) with (locate dir (cw_os w1)). by rewrite (locate_same _ _ _ Hm).
Qed.

(** ** Reading the metadata of a package *)

Lemma Join_single x : Join [x] SLASH = x.
Proof. done. Qed.

Lemma Join_names_inj l1 l2 :
  l1 ≠ [] → l2 ≠ [] → Forall name_ok l1 → Forall name_ok l2 → Join l1 SLASH = Join l2 SLASH → l1 = l2.
Proof.
  intros H1 H2 Hn1 Hn2 E. apply (f_equal (Split slash)) in E.
  rewrite !Split_Join in E; try done; (eapply Forall_impl; [eassumption|]); by intros x [_ ?].
Qed.

(** Only the file metadata.json has an entry of that name. *)
Lemma metadata_entry rel i :
  rel ≠ [] → Forall name_ok rel → h_Name (e_header (entry_of rel i)) = "metadata.json" →
  rel = ["metadata.json"].
Proof.
  intros Hne Hn E. apply Join_names_inj; [done|done|done|by repeat constructor|].
  rewrite Join_single, <- E. cbn [entry_of e_header]. unfold fileInfoHeader. cbn [h_Name].
  destruct (IsDir i) eqn:Hd; [|done]. exfalso. cbn [entry_of e_header] in E. unfold fileInfoHeader in E.
  rewrite Hd in E. cbn [h_Name] in E. apply (f_equal (λ s, HasSuffix s SLASH)) in E.
  rewrite (proj2 (HasSuffix_spec _ _)) in E by by eexists. vm_compute in E. congruence.
Qed.

Lemma find_metadata_unique es e :
  e ∈ es → h_Name (e_header e) = "metadata.json" →
  (∀ e', e' ∈ es → h_Name (e_header e') = "metadata.json" → e' = e) → e_err e = None →
  find_metadata es None = inr (e_data e).
Proof.
  intros Hin He Hu Herr. induction es as [|x es IH]; [by apply not_elem_of_nil in Hin|].
  cbn [find_metadata]. case_bool_decide as Hx.
  - rewrite (Hu x (list_elem_of_here _ _) Hx). by rewrite Herr.
  - apply IH.
    + apply elem_of_cons in Hin as [->|?]; done.
    + intros e' He'. apply Hu. by apply list_elem_of_further.
Qed.

Lemma metadata_of_tree `{TarFormat} fs D c m l :
  names_ok fs → fs !! (D ++ ["metadata.json"]) = Some (File m c) → tree_list fs D l → packable fs D →
  metadata_of_archive (tar_write (a_entries (archive_of l))) = unmarshal_chaincodeMetadata c.
Proof.
  intros Hn Hc Hl Hgood. unfold metadata_of_archive. rewrite (tar_read_items fs D) by done.
  destruct Hl as [_ Hl]. unfold archive_of. cbn [a_entries a_err].
  rewrite (find_metadata_unique _ (entry_of ["metadata.json"] (File m c))); [done| |done| |done].
  - apply list_elem_of_fmap. exists (["metadata.json"], File m c). split; [done|]. by apply Hl.
  - intros e' ([rel i] & -> & [Hne Hi]%Hl)%list_elem_of_fmap Hname. cbn [fst snd] in *.
    assert (rel = ["metadata.json"]) as ->; [|by rewrite Hc in Hi; injection Hi as <-].
    apply (metadata_entry rel i); [done| |done]. apply Hn in Hi. by apply Forall_app in Hi as [_ ?].
Qed.

(** Directories that are there are not made. *)
Lemma mkdir_all_exists dir rest p perm s m :
  fs_wf (os_files s) → os_files s !! (dir ++ rest) = Some (Directory m) → mkdir_all dir rest p perm s = (Ok tt, s).
Proof.
  intros Hwf. revert dir. induction rest as [|x rest IH]; intros dir Hd; cbn [mkdir_all]; [done|].
  assert (∃ m', os_files s !! (dir ++ [x]) = Some (Directory m')) as [m' Hm'].
  { destruct rest as [|y rest]; [by exists m|]. apply (wf_prefix _ _ (y :: rest) (Directory m) Hwf); [|done].
    by rewrite <- app_assoc. }
  cbv zeta. rewrite (bind_ok _ _ s (Some (Directory m')) s) by (unfold gets; by rewrite Hm').
  apply IH. by rewrite <- app_assoc.
Qed.

Lemma MkdirAll_exists p perm s m :
  fs_wf (os_files s) → os_files s !! locate p s = Some (Directory m) → MkdirAll p perm s = (Ok tt, s).
Proof. intros Hwf Hd. unfold MkdirAll. rewrite (bind_ok _ _ s (locate p s) s) by done. by eapply mkdir_all_exists. Qed.

(** createTar for a new file in an existing directory. *)
Lemma createTar_items `{TarFormat} depth dir name sourceDir s md m :
  no_fault s → fs_wf (os_files s) → names_ok (os_files s) → Forall name_ok (os_cwd s) →
  dir ≠ "" → name_ok name → sourceDir ≠ "" →
  let k := locate dir s ++ [name] in
  let D := locate sourceDir s in
  os_files s !! locate dir s = Some (Directory md) → os_files s !! k = None →
  os_files s !! D = Some (Directory m) → ¬ D `prefix_of` k → packable (os_files s) D →
  tree_height (os_files s) + length k < depth →
  ∃ s' m' l, createTar depth (PathJoin [dir; name]) sourceDir s = (Ok tt, s') ∧ same_process s s' ∧
    os_files s' = <[k := File m' (tar_write (a_entries (archive_of l)))]> (os_files s) ∧
    tree_list (os_files s) D l.
Proof.
  intros Hf Hwf Hn Hcwd Hdir Hname Hs k D Hmd Hnew Hm Hout Hgood Hh. unfold createTar. cbv zeta.
  assert (locate (PathJoin [dir; name]) s = k) as Hk by by apply resolve_child.
  assert (parent_ok (os_files s) k = inr tt) as Hpar by by eapply parent_ok_dir.
  assert (wrap_err (Errorf "tar directory create failed: ") (MkdirAll (Dir (PathJoin [dir; name])) 493) s = (Ok tt, s)) as E1.
  { unfold wrap_err. rewrite (MkdirAll_exists _ _ _ md); [done|done|].
    unfold locate at 1. by rewrite resolve_Dir_child. }
  rewrite (bind_ok _ _ _ _ _ E1). set (target := PathJoin [dir; name]) in *.
  destruct (OpenTrunc_ok (Clean target) 438 s Hf Hwf (Clean_not_empty _)) as (m1 & Eo & _ & Hwf1).
  { by rewrite locate_Clean, Hk. } { rewrite locate_Clean, Hk. by left. }
  rewrite locate_Clean, Hk in Eo, Hwf1.
  set (s1 := set_files <[k:=File m1 ""]> (tick s)) in *.
  assert (wrap_err (Errorf "file create failed: ") (OpenTrunc (Clean target) 438) s = (Ok k, s1)) as E2
    by (unfold wrap_err; by rewrite Eo).
  rewrite (bind_ok _ _ _ _ _ E2).
  assert (∀ rel, os_files s1 !! (D ++ rel) = os_files s !! (D ++ rel)) as Hsame.
  { intros rel. simpl. apply lookup_insert_ne. intros E. apply Hout. rewrite E. by apply prefix_app_r. }
  assert (names_ok (os_files s1)) as Hn1.
  { intros p i Hi. simpl in Hi. apply lookup_insert_Some in Hi as [[<- _]|[_ Hi]]; [|by eapply Hn].
    rewrite <- Hk. by apply resolve_names. }
  assert (tree_height (os_files s1) < depth) as Hh1.
  { assert (tree_height (os_files s1) ≤ tree_height (os_files s) `max` length k); [|lia].
    apply tree_height_le. intros p i Hi. simpl in Hi.
    apply lookup_insert_Some in Hi as [[<- _]|[_ Hi]]; [lia|]. apply tree_height_spec in Hi. lia. }
  destruct (create_tar_ok s1 Hf Hwf1 k m1 (lookup_insert_eq _ _ _) sourceDir Hs Hn1 Hout) with
    (depth := depth) (name := Clean target) (m := m) as (s' & m' & Ec & Hp & Hs').
  { intros rel i Hne Hi. apply (Hgood rel i Hne). by rewrite <- (Hsame rel). }
  { rewrite <- (app_nil_r (locate sourceDir s1)). change (locate sourceDir s1) with D.
    by rewrite Hsame, app_nil_r. }
  { done. }
  change (locate sourceDir s1) with D in Hs'.
  assert (tree_list (os_files s) D (tree_items depth (os_files s1) D [])) as [Hord Hel].
  { destruct (tree_items_list depth (os_files s1) D Hwf1 ltac:(lia)) as [Hord Hel]. split; [exact Hord|].
    intros rel i. by rewrite Hel, Hsame. }
  assert (no_fault s') as Hf' by (intros t; destruct Hp as (_ & _ & _ & -> & _); apply Hf).
  exists (tick s'), m', (tree_items depth (os_files s1) D []).
  split; [|split; [exact Hp|split; [|by split]]].
  - unfold deferring, wrap_err. rewrite Ec. by rewrite CloseHandle_ok.
  - simpl. rewrite Hs'. simpl. by rewrite insert_insert_eq, tree_entries_items.
Qed.

(** ** Properties *)

(** The side car reads the metadata the peer handed over: when the metadata
    directory has a metadata.json, createTar packs the directory into a new
    archive in which metadata_of_archive finds the content of that file. *)
Theorem package_metadata `{TarFormat} depth dir name metadataDir s md m mj c :
  no_fault s → fs_wf (os_files s) → names_ok (os_files s) → Forall name_ok (os_cwd s) →
  dir ≠ "" → name_ok name → metadataDir ≠ "" →
  let k := locate dir s ++ [name] in
  let D := locate metadataDir s in
  os_files s !! locate dir s = Some (Directory md) → os_files s !! k = None →
  os_files s !! D = Some (Directory m) → ¬ D `prefix_of` k → packable (os_files s) D →
  tree_height (os_files s) + length k < depth →
  os_files s !! (D ++ ["metadata.json"]) = Some (File mj c) →
  ∃ s' m' contents, createTar depth (PathJoin [dir; name]) metadataDir s = (Ok tt, s') ∧
    os_files s' = <[k := File m' contents]> (os_files s) ∧
    metadata_of_archive contents = unmarshal_chaincodeMetadata c.
Proof.
  intros Hf Hwf Hn Hcwd Hd Hname Hmd k D Hdir Hnew Hm Hout Hgood Hh Hc.
  destruct (createTar_items depth dir name metadataDir s md m) as (s' & m' & l & E & _ & Hs' & Hl); [done..|].
  exists s', m', (tar_write (a_entries (archive_of l))). split; [exact E|]. split; [exact Hs'|].
  by eapply metadata_of_tree.
Qed.

(** C24: however a build or a run that has its temporary directory ends (an
    error of any step or system call, an unexpected response, a panic, success),
    the last thing it does is to remove that directory: nothing is left of it,
    unless the system fails that removal, whose error is dropped. *)
Theorem commands_clean_up `{TarFormat} depth conn SharedDir w tempDir s1 r w' sourceDir metadataDir outputDir :
  (∀ req, keeps same_process (call_Build conn req)) → (∀ req, keeps same_process (call_Run conn req)) →
  (∃ s0, IsExternalCC metadataDir (cw_os w) = (Ok false, s0) ∧
     TempDir SharedDir "build" s0 = (Ok tempDir, s1) ∧
     Build_Run depth conn SharedDir [sourceDir; metadataDir; outputDir] w = (r, w')) ∨
  (∃ s0, IsExternalCC outputDir (cw_os w) = (Ok false, s0) ∧
     TempDir SharedDir "run" s0 = (Ok tempDir, s1) ∧
     Run_Run conn SharedDir [outputDir; metadataDir] w = (r, w')) →
  r ≠ Blocked →
  removed_at_end tempDir (locate tempDir s1) (cw_os w').
Proof.
  intros HB HR Hrun Hr.
  pose proof (λ req, cw_zoom _ (HB req)) as HB'. pose proof (λ req, cw_zoom _ (HR req)) as HR'.
  destruct Hrun as [(s0 & Hext & Ht & E)|(s0 & Hext & Ht & E)].
  - unfold Build_Run in E. rewrite (bind_ok _ _ w sourceDir w) in E by done.
    rewrite (bind_ok _ _ w metadataDir w), (bind_ok _ _ w outputDir w) in E by done.
    rewrite (bind_ok _ _ _ _ _ (zoom_eq cw_lens _ w _ _ Hext)) in E.
    set (w0 := put cw_lens s0 w) in *.
    assert (wrap_err (Errorf "failed to create temporary directory: ") (zoom cw_lens (TempDir SharedDir "build")) w0 =
      (Ok tempDir, put cw_lens s1 w0)) as E1 by (unfold wrap_err, zoom; simpl; by rewrite Ht).
    rewrite (bind_ok _ _ _ _ _ E1) in E. apply (removed _ tempDir (put cw_lens s1 w0) r w' E); [|exact Hr].
    keeps_with ltac:(first [solve [eauto with process]|apply cw_zoom; solve [eauto with process]]).
  - unfold Run_Run in E. rewrite (bind_ok _ _ w outputDir w), (bind_ok _ _ w metadataDir w) in E by done.
    rewrite (bind_ok _ _ _ _ _ (zoom_eq cw_lens _ w _ _ Hext)) in E.
    set (w0 := put cw_lens s0 w) in *.
    assert (wrap_err (Errorf "failed to create temporary directory: ") (zoom cw_lens (TempDir SharedDir "run")) w0 =
      (Ok tempDir, put cw_lens s1 w0)) as E1 by (unfold wrap_err, zoom; simpl; by rewrite Ht).
    rewrite (bind_ok _ _ _ _ _ E1) in E. apply (removed _ tempDir (put cw_lens s1 w0) r w' E); [|exact Hr].
    keeps_with ltac:(first [solve [eauto with process]|apply cw_zoom; solve [eauto with process]]).
Qed.

(** The host of an address in its two parts. *)
Definition host_parts (u : string) : string * string :=
  let d := default "" (last (Split "." u)) in (TrimSuffix u ("." +:+ d), d).

Lemma host_parts_dot h d : has_byte "." d = false → host_parts (h +:+ "." +:+ d) = (h, d).
Proof.
  intros Hd. unfold host_parts. change (h +:+ "." +:+ d) with (h +:+ String "." d).
  rewrite Split_app_any, (Split_id "." d Hd), last_snoc. cbn [default].
  change (h +:+ String "." d) with (h +:+ ("." +:+ d)). by rewrite TrimSuffix_app.
Qed.

Lemma host_parts_plain u : has_byte "." u = false → host_parts u = (u, u).
Proof.
  intros Hu. unfold host_parts. rewrite (Split_id "." u Hu). cbn [last default].
  rewrite TrimSuffix_none; [done|]. destruct (HasSuffix u _) eqn:E; [|done].
  apply HasSuffix_spec in E as [t E]. apply (f_equal slen) in E. rewrite !slen_app in E. simpl in E. lia.
Qed.

Lemma parseAddress_one u p :
  has_byte ":" u = false → has_byte ":" p = false →
  parseAddress (u +:+ ":" +:+ p) = inr (host_parts u, p).
Proof.
  intros Hu Hp. unfold parseAddress. change (u +:+ ":" +:+ p) with (u +:+ String ":" p).
  by rewrite Split_app, (Split_id ":" p Hp).
Qed.

Lemma parseAddress_bad a :
  length (Split ":" a) ≠ 2 → parseAddress a = inl (ErrorString "address not in format <host-url>:<port>").
Proof. intros Hl. unfold parseAddress. by destruct (Split ":" a) as [|x [|y [|z l]]]. Qed.

Lemma no_byte_app c s t : has_byte c (s +:+ t) = false → has_byte c s = false ∧ has_byte c t = false.
Proof. rewrite has_byte_app. apply orb_false_elim. Qed.

Lemma newAddress_other id peer a h d p :
  id ≠ "hostname" → id ≠ "domain" → newAddress id peer a h d p = None.
Proof. intros H1 H2. unfold newAddress. by rewrite !bool_decide_eq_false_2. Qed.

(** The name that is put in. *)
Definition peer_of (s : OS) : string := remove_byte " " (default "" (os_env s !! "PEER_NAME")).

(** What injectPeerIdentifier gives for a file that is an object. *)
Lemma injectPeerIdentifier_run file s m c conn :
  no_fault s → fs_wf (os_files s) → file ≠ "" → os_files s !! locate file s = Some (File m c) →
  unmarshal_map c = inr conn →
  let r := (injectPeerIdentifier file s).1 in
  (as_string (conn !! "injectIdentifier") = None → r = Ok c) ∧
  ∀ id, as_string (conn !! "injectIdentifier") = Some id →
  r = match as_string (conn !! "address") with
      | None => Err (ErrorString "address unable to be parsed as a string")
      | Some a =>
          if bool_decide (peer_of s = "") then Err (ErrorString "failed to get peer name from PEER_NAME env var")
          else match parseAddress a with
               | inl e => Err (Errorf "invalid address provided in connection.json: " e)
               | inr (h, d, p) =>
                   Ok (marshal_map (match newAddress id (peer_of s) a h d p with
                                    | Some a' => <["address" := JString a']> conn | None => conn end))
               end
      end.
Proof.
  intros Hf Hwf Hfile Hm Hconn. unfold injectPeerIdentifier.
  pose proof (ReadFile_spec (Clean file) s Hf Hwf (Clean_not_empty file)) as Hr.
  unfold read_outcome in Hr. rewrite locate_Clean, Hm in Hr.
  pose proof (keeps_ReadFile (Clean file) s) as Hs.
  destruct (ReadFile (Clean file) s) as [r s1] eqn:E. simpl in Hr, Hs. subst r.
  assert (wrap_err (Errorf "failed to read connection.json: ") (ReadFile (Clean file)) s = (Ok c, s1)) as E1
    by (unfold wrap_err; by rewrite E).
  rewrite (bind_ok _ _ _ _ _ E1).
  rewrite (bind_ok _ _ _ conn s1) by (unfold wrap_err, lift; by rewrite Hconn).
  split; [by intros ->|]. intros id Hid. rewrite Hid. destruct (as_string (conn !! "address")) as [a|]; [|done].
  assert (getPeerID s1 = (Ok (peer_of s), s1)) as Ep.
  { unfold getPeerID, Getenv, peer_of. destruct Hs as [(_ & _ & <- & _) _]. done. }
  rewrite (bind_ok _ _ _ _ _ Ep). case_bool_decide; [done|].
  destruct (parseAddress a) as [e|[[h d] p]].
  - by rewrite (bind_err _ _ _ (Errorf "invalid address provided in connection.json: " e) s1)
      by done.
  - by rewrite (bind_ok _ _ _ (h, d, p) s1) by done.
Qed.

(** C25: what happens to connection.json, for every one that is an object. When it
    does not ask for the peer's name with a string, it is passed on byte for byte.
    When it does, it is an error if the address is not a string, if the name is
    empty, or if the address has not exactly one colon. Otherwise the members are
    written anew: for "hostname" with the peer's name without blanks and a hyphen
    in front of the address, for "domain" in front of what follows the last dot of
    the host (of a host without a dot, the host comes twice), for any other string
    with the address as it is. An address so made has its three parts when the name
    has neither dots nor colons. What is written is read back as those members,
    with invalid UTF-8 in the new address replaced, when their values are strings,
    booleans, null or lists of these. *)
Theorem injectPeerIdentifier_rewrites file s m c conn :
  no_fault s → fs_wf (os_files s) → file ≠ "" → os_files s !! locate file s = Some (File m c) →
  unmarshal_map c = inr conn →
  let r := (injectPeerIdentifier file s).1 in
  let peer := remove_byte " " (default "" (os_env s !! "PEER_NAME")) in
  let readable := map_Forall (λ _ v, plain v = true) conn in
  let with_address a := r = Ok (marshal_map (<["address" := JString a]> conn)) ∧
    (readable → unmarshal_map (marshal_map (<["address" := JString a]> conn)) = inr (<["address" := JString (utf8_fix a)]> conn)) in
  let three_parts a h d p := has_byte ":" peer = false → has_byte "." peer = false → parseAddress a = inr (h, d, p) in
  (as_string (conn !! "injectIdentifier") = None → r = Ok c) ∧
  ∀ id, as_string (conn !! "injectIdentifier") = Some id →
  (as_string (conn !! "address") = None → r = Err (ErrorString "address unable to be parsed as a string")) ∧
  ∀ a, as_string (conn !! "address") = Some a →
  (peer = "" → r = Err (ErrorString "failed to get peer name from PEER_NAME env var")) ∧
  (peer ≠ "" →
   (length (Split ":" a) ≠ 2 → r = Err (Errorf "invalid address provided in connection.json: "
      (ErrorString "address not in format <host-url>:<port>"))) ∧
   ∀ u p, a = u +:+ ":" +:+ p → has_byte ":" u = false → has_byte ":" p = false →
   (id = "hostname" → with_address (peer +:+ "-" +:+ a)) ∧
   (id = "domain" → has_byte "." u = false → with_address (u +:+ "." +:+ peer +:+ "-" +:+ u +:+ ":" +:+ p)) ∧
   (id ≠ "hostname" → id ≠ "domain" → r = Ok (marshal_map conn) ∧ (readable → unmarshal_map (marshal_map conn) = inr conn)) ∧
   ∀ h d, u = h +:+ "." +:+ d → has_byte "." d = false →
     (id = "hostname" → three_parts (peer +:+ "-" +:+ a) (peer +:+ "-" +:+ h) d p) ∧
     (id = "domain" → let a' := h +:+ "." +:+ peer +:+ "-" +:+ d +:+ ":" +:+ p in
        with_address a' ∧ three_parts a' h (peer +:+ "-" +:+ d) p)).
Proof.
  intros Hf Hwf Hfile Hm Hconn. cbv zeta.
  change (remove_byte " " (default "" (os_env s !! "PEER_NAME"))) with (peer_of s).
  destruct (injectPeerIdentifier_run file s m c conn Hf Hwf Hfile Hm Hconn) as [H1 H2]. split; [exact H1|].
  intros id Hid. specialize (H2 id Hid). destruct (as_string (conn !! "address")) as [a|]; (split; [done|]); [|done].
  intros _ [= <-]. case_bool_decide as Hpeer; (split; [done|]); [done|]. intros _. split.
  { intros Hl. by rewrite parseAddress_bad in H2. }
  intros u p -> Hu Hp. rewrite parseAddress_one in H2 by done.
  pose proof (λ x Hx, unmarshal_changed c conn "address" x Hconn Hx eq_refl) as Hback.
  split; [|split; [|split]].
  - intros ->. split; [exact H2|]. intros Hr. by apply Hback.
  - intros -> Hd. rewrite host_parts_plain in H2 by done. split; [exact H2|]. intros Hr. by apply Hback.
  - intros N1 N2. destruct (host_parts u). rewrite newAddress_other in H2 by done. split; [exact H2|]. intros Hr. by apply (unmarshal_again c).
  - intros h d -> Hd. rewrite host_parts_dot in H2 by done. apply no_byte_app in Hu as [Hh [_ Hud]%no_byte_app].
    split.
    + intros -> Hp1 Hp2. replace (peer_of s +:+ "-" +:+ (h +:+ "." +:+ d) +:+ ":" +:+ p)
        with (((peer_of s +:+ "-" +:+ h) +:+ "." +:+ d) +:+ ":" +:+ p) by by rewrite <- !sapp_assoc.
      rewrite parseAddress_one, host_parts_dot; try done. rewrite !has_byte_app, Hp1, Hh, Hud. done.
    + intros ->. split; [split; [exact H2|intros Hr; by apply Hback]|]. intros Hp1 Hp2.
      replace (h +:+ "." +:+ peer_of s +:+ "-" +:+ d +:+ ":" +:+ p)
        with ((h +:+ "." +:+ (peer_of s +:+ "-" +:+ d)) +:+ ":" +:+ p) by by rewrite <- !sapp_assoc.
      rewrite parseAddress_one, host_parts_dot; try done; rewrite !has_byte_app, ?Hp1, ?Hp2, ?Hh, ?Hud, ?Hd; done.
Qed.

(** ** Witnesses *)
Module Demo.
Import JsonMap.Demo.

Definition server : Server := Metadata.Demo.server.

Definition connection_json : string :=
  "{" +:+ q "address" +:+ ":" +:+ q "cc.ns:9999" +:+ "," +:+ q "dial_timeout" +:+ ":" +:+ q "10s" +:+ "," +:+
  q "injectIdentifier" +:+ ":" +:+ q "domain" +:+ "}".

Definition meta0 : meta := mkMeta 420 3 4.
Definition dir0 : meta := mkMeta 493 1 2.
Definition tree : gmap fpath inode :=
  <[["md"; "metadata.json"] := File meta0 Metadata.Demo.metadata_json]>
  (<[["src"; "connection.json"] := File meta0 connection_json]>
  (<[["out"] := Directory dir0]> (<[["shared"] := Directory dir0]> (<[["md"] := Directory dir0]>
  (<[["src"] := Directory dir0]> {[ [] := Directory dir0 ]}))))).
Definition os0 : OS := mkOS tree [] 18 {[ "PEER_NAME" := "org 1peer" ]} 0 (λ _, None) (λ _, "7").
Definition w0 : cworld := mkCworld os0 [].

Lemma cmd_tree_wf : fs_wf tree.
Proof.
  apply (fs_wf_insert _ ["md"] "metadata.json"); [|by eexists|done].
  apply (fs_wf_insert _ ["src"] "connection.json"); [|by eexists|done].
  apply (fs_wf_insert _ [] "out"); [|by eexists|done].
  apply (fs_wf_insert _ [] "shared"); [|by eexists|done].
  apply (fs_wf_insert _ [] "md"); [|by eexists|done].
  apply (fs_wf_insert _ [] "src"); [|by eexists|done].
  split; [by eexists|]. intros p x i Hi. apply lookup_singleton_Some in Hi as [Hp _]. by destruct p.
Defined.

Lemma cmd_tree_names : names_ok tree.
Proof.
  intros p i Hi. unfold tree in Hi.
  repeat (apply lookup_insert_Some in Hi as [[<- _]|[_ Hi]];
    [apply (bool_decide_unpack _); vm_compute; exact I|]).
  apply lookup_singleton_Some in Hi as [<- _]. constructor.
Defined.

(** What its connection.json says. *)
Lemma demo_connection : ∃ conn, unmarshal_map connection_json = inr conn ∧
  as_string (conn !! "injectIdentifier") = Some "domain" ∧ as_string (conn !! "address") = Some "cc.ns:9999" ∧
  map_Forall (λ _ v, plain v = true) conn.
Proof.
  assert (match unmarshal_map connection_json with
    | inr c => bool_decide (as_string (c !! "injectIdentifier") = Some "domain") &&
               bool_decide (as_string (c !! "address") = Some "cc.ns:9999") && bool_decide (map_Forall (λ _ v, plain v = true) c)
    | inl _ => false end = true) as H by (vm_compute; reflexivity).
  destruct (unmarshal_map connection_json) as [e|conn]; [discriminate H|]. exists conn. split; [done|].
  apply andb_prop in H as [[H1%bool_decide_eq_true H2%bool_decide_eq_true]%andb_prop H3%bool_decide_eq_true]. done.
Qed.

(** A side car that answers a build with two messages. *)
Definition conn : connection :=
  mkConnection (λ _, mret ([StandardOut "a"; StandardError "b"], None)) (λ _, mret ([], None)).
End Demo.

Lemma package_metadata_witness :
  ∃ s' m' contents, @createTar Plain.format 5 "/shared/p.tar" "/md" Demo.os0 = (Ok tt, s') ∧
    os_files s' = <[locate "/shared/p.tar" Demo.os0 := File m' contents]> (os_files Demo.os0) ∧
    @metadata_of_archive Plain.format contents = unmarshal_chaincodeMetadata Metadata.Demo.metadata_json.
Proof.
  apply (@package_metadata Plain.format 5 "/shared" "p.tar" "/md" Demo.os0 Demo.dir0 Demo.dir0 Demo.meta0).
  - done.
  - apply Demo.cmd_tree_wf.
  - apply Demo.cmd_tree_names.
  - constructor.
  - done.
  - by apply (bool_decide_unpack _).
  - done.
  - reflexivity.
  - reflexivity.
  - reflexivity.
  - by intros [? [=]].
  - intros rel i _ Hi. split; [|done]. intros m ->. revert Hi.
    change (locate "/md" Demo.os0) with ["md"]. cbn [app]. change (os_files Demo.os0) with Demo.tree.
    unfold Demo.tree. intros Hi.
    repeat (apply lookup_insert_Some in Hi as [[_ [=]]|[_ Hi]]).
    by apply lookup_singleton_Some in Hi as [_ [=]].
  - vm_compute. lia.
  - reflexivity.
Defined.

Lemma commands_clean_up_witness :
  removed_at_end "/shared/build7" ["shared"; "build7"]
    (cw_os (@Build_Run Plain.format 5 Demo.conn "/shared" ["/src"; "/md"; "/out"] Demo.w0).2).
Proof.
  destruct (@Build_Run Plain.format 5 Demo.conn "/shared" ["/src"; "/md"; "/out"] Demo.w0) as [r w'] eqn:E.
  destruct (IsExternalCC "/md" Demo.os0) as [r0 s0] eqn:E0.
  destruct (TempDir "/shared" "build" s0) as [r1 s1] eqn:E1.
  assert (r0 = Ok false) as Hr0 by (vm_compute in E0; by injection E0 as <- _). subst r0.
  assert (r1 = Ok "/shared/build7") as Hr1.
  { assert (s0 = (IsExternalCC "/md" Demo.os0).2) as Hs0 by by rewrite E0. rewrite Hs0 in E1.
    apply (f_equal fst) in E1. vm_compute in E1. by subst r1. }
  subst r1.
  assert (locate "/shared/build7" s1 = ["shared"; "build7"]) as Hl.
  { assert (s1 = (TempDir "/shared" "build" (IsExternalCC "/md" Demo.os0).2).2) as ->; [|reflexivity].
    rewrite E0. cbn [snd]. by rewrite E1. }
  rewrite <- Hl. cbn [snd].
  apply (@commands_clean_up Plain.format 5 Demo.conn "/shared" Demo.w0 "/shared/build7" s1 r w' "/src" "/md" "/out").
  - by intros req s.
  - by intros req s.
  - left. exists s0. split; [exact E0|]. split; [exact E1|exact E].
  - apply (f_equal fst) in E. vm_compute in E. by subst r.
Defined.

Lemma injectPeerIdentifier_rewrites_witness :
  ∃ conn, unmarshal_map Demo.connection_json = inr conn ∧
    let conn' := <["address" := JString "cc.org1peer-ns:9999"]> conn in
    (injectPeerIdentifier "/src/connection.json" Demo.os0).1 = Ok (marshal_map conn') ∧
    unmarshal_map (marshal_map conn') = inr conn'.
Proof.
  destruct Demo.demo_connection as (conn & E & Hid & Ha & Hp). exists conn. split; [exact E|].
  destruct (injectPeerIdentifier_rewrites "/src/connection.json" Demo.os0 Demo.meta0 Demo.connection_json conn)
    as [_ H]; [done|apply Demo.cmd_tree_wf|done|reflexivity|exact E|].
  destruct (H "domain" Hid) as [_ H1]. destruct (H1 "cc.ns:9999" Ha) as [_ H2].
  destruct (H2 ltac:(done)) as [_ H3]. destruct (H3 "cc.ns" "9999") as (_ & _ & _ & H4); [done..|].
  destruct (H4 "cc" "ns") as [_ H5]; [done|done|]. destruct (H5 eq_refl) as [[H6 H7] _].
  split; [exact H6|]. etrans; [by apply H7|reflexivity].
Defined.
