(* ===== verification/ReleaseFacts.v ===== *)
(** * Detecting and releasing a chaincode

    Facts on the first and the third command of pkg/command (Command.v):
    Detect accepts what the side car can build and run, and Release gives the
    peer the files that Build packed for it. *)
From S2P Require Import Prelude GoStrings GoPath KubeTypes OsModel Sidecar TarFormat Json Fs Tar TarFacts TarRoundTrip.
From S2P Require Import Containers PodSpec Metadata Command CommandFacts.

(** ** The metadata as the command and as the side car read them *)

Lemma find_field_type key :
  find_field ["type"] key =
  if decide (find_field ["path"; "type"] key = Some "type") then Some "type" else None.
Proof.
  unfold find_field. destruct (decide (key = "type")) as [->|Ht]; [done|].
  rewrite (bool_decide_eq_false_2 (key ∈ ["type"])) by (rewrite list_elem_of_singleton; done).
  destruct (decide (key = "path")) as [->|Hp]; [done|].
  rewrite (bool_decide_eq_false_2 (key ∈ ["path"; "type"]))
    by (by intros [?|[?|?%not_elem_of_nil]%elem_of_cons]%elem_of_cons).
  rewrite !filter_cons, !filter_nil.
  destruct (decide (fold_name "path" = fold_name key)) as [E1|E1],
    (decide (fold_name "type" = fold_name key)) as [E2|E2]; try done.
  rewrite <- E1 in E2. by vm_compute in E2.
Qed.

(** No error, and the same type. *)
Definition agree (st1 st2 : gmap string string * option go_error) : Prop :=
  st1.2 = None ∧ st1.1 !! "type" = st2.1 !! "type".

Lemma store_field_error t fields st kv : (store_field t fields st kv).2 = None → st.2 = None.
Proof. unfold store_field. by repeat case_match. Qed.

Lemma store_field_agree t1 t2 st1 st2 kv :
  (store_field t2 ["path"; "type"] st2 kv).2 = None → agree st1 st2 →
  agree (store_field t1 ["type"] st1 kv) (store_field t2 ["path"; "type"] st2 kv).
Proof.
  unfold store_field, agree. rewrite find_field_type. intros He [H1 H2].
  destruct (find_field ["path"; "type"] kv.1) as [f|] eqn:Ef.
  - destruct (decide (Some f = Some "type")) as [[= ->]|Hne].
    + destruct kv.2; try done. cbn [fst snd]. by rewrite !lookup_insert_eq.
    + destruct kv.2; try done. cbn [fst snd]. rewrite lookup_insert_ne; [done|]. congruence.
  - by rewrite decide_False.
Qed.

Lemma fold_agree t1 t2 l st1 st2 :
  (foldl (store_field t2 ["path"; "type"]) st2 l).2 = None → agree st1 st2 →
  agree (foldl (store_field t1 ["type"]) st1 l) (foldl (store_field t2 ["path"; "type"]) st2 l).
Proof.
  revert st1 st2. induction l as [|kv l IH]; intros st1 st2 He Ha; [done|]. cbn [foldl] in *.
  apply IH; [done|]. apply store_field_agree; [|done]. clear -He.
  revert He. generalize (store_field t2 ["path"; "type"] st2 kv) as st.
  induction l as [|x l IH]; intros st; [done|]. cbn [foldl]. intros He%IH. by eapply store_field_error.
Qed.

(** What the side car accepts the command reads in the same way. *)
Lemma unmarshal_type_agrees c md : unmarshal_chaincodeMetadata c = inr md → unmarshal_type c = inr (md_Type md).
Proof.
  unfold unmarshal_chaincodeMetadata, unmarshal_type, unmarshal_struct.
  destruct (parse_json c) as [e|v]; [done|]. destruct v as [| | | | |l]; try done; [by intros [= <-]|].
  destruct (foldl _ _ l) as [m2 [e|]] eqn:E2; [done|]. intros [= <-].
  pose proof (fold_agree "ChaincodeMetadata" "chaincodeMetadata" l (∅, None) (∅, None)) as Ha.
  rewrite E2 in Ha. destruct (Ha eq_refl) as [H1 H2]; [done|]. cbn [fst snd] in H2.
  destruct (foldl (store_field "ChaincodeMetadata" ["type"]) (∅, None) l) as [m1 e1]. cbn [fst snd] in H1, H2. subst e1.
  unfold field. cbn [md_Type]. by rewrite H2.
Qed.

(** ** The types of chaincode *)

(** A type of the list is the one both containers are defined for. *)
Lemma supported_type_containers b env rmd md :
  if supported_type (md_Type md)
  then ToLower (md_Type md) = "external" ∨
       ∃ cb cr, buildContainerDefinition b md = inr cb ∧ runContainerDefinition b env (md_Type md) rmd = inr cr
  else ToLower (md_Type md) ≠ "external" ∧
       let e := ErrorString ("unsupported chaincode type: " +:+ md_Type md) in
       buildContainerDefinition b md = inl e ∧ runContainerDefinition b env (md_Type md) rmd = inl e.
Proof.
  unfold supported_type, buildContainerDefinition, runContainerDefinition. cbv zeta.
  set (t := ToLower (md_Type md)).
  destruct (bool_decide (t = "golang")); [right; by eexists _, _|].
  destruct (bool_decide (t = "java")); [right; by eexists _, _|].
  destruct (bool_decide (t = "node")); [right; by eexists _, _|].
  destruct (bool_decide (t = "executable")); [right; by eexists _, _|]. cbn [orb].
  case_bool_decide; [by left|done].
Qed.

(** ** Releasing *)

(** A builder's output that is not that of an external chaincode. *)
Definition not_external (dir : string) (s : OS) : Prop :=
  let p := locate dir s ++ ["metadata.json"] in
  os_files s !! p = None ∨
  ∃ m c t, os_files s !! p = Some (File m c) ∧ unmarshal_type c = inr t ∧ ToLower t ≠ "external".

Lemma IsExternalCC_false d s :
  no_fault s → fs_wf (os_files s) → d ≠ "" → not_external d s →
  ∃ s', IsExternalCC d s = (Ok false, s') ∧ same_tree s s'.
Proof.
  intros Hf Hwf Hd Hext. unfold not_external in Hext. cbv zeta in Hext.
  assert (locate (PathJoin [d; "metadata.json"]) s = locate d s ++ ["metadata.json"]) as Hl
    by (apply resolve_child; [done|by apply (bool_decide_unpack _)]).
  rewrite <- Hl, <- locate_Clean in Hext.
  unfold IsExternalCC. set (p := Clean _) in *.
  pose proof (ReadFile_spec p s Hf Hwf (Clean_not_empty _)) as Hr. unfold read_outcome in Hr.
  pose proof (keeps_ReadFile p s) as Hk. destruct (ReadFile p s) as [r s1] eqn:E. cbn [fst snd] in Hr, Hk.
  exists s1. split; [|exact Hk]. destruct Hext as [Hn|(m & c & t & Hc & Ht & Hne)].
  - rewrite Hn in Hr. destruct Hr as [e ->]. by rewrite (attempt_err _ _ _ _ _ E).
  - rewrite Hc in Hr. subst r. rewrite (attempt_ok _ _ _ _ _ E).
    rewrite (bind_ok _ _ _ t s1) by (unfold lift; by rewrite Ht). by rewrite bool_decide_eq_false_2.
Qed.

(** What follows the two cases of a release, into a directory that has none of
    the entries of the archive. *)
Lemma Release_Run_archive `{TarFormat} order outputDir releaseDir w ext s0 s1 src D l mt mE :
  IsExternalCC outputDir (cw_os w) = (Ok ext, s0) →
  (if ext then Release_HandleExternalCC outputDir releaseDir else mret tt) s0 = (Ok tt, s1) →
  no_fault s1 → fs_wf (os_files s1) → outputDir ≠ "" → releaseDir ≠ "" → (∀ d, order d ≡ₚ map_to_list d) →
  fs_wf src → names_ok src → tree_list src D l → packable src D →
  let E := locate releaseDir s1 in
  os_files s1 !! (locate outputDir s1 ++ ["chaincode-metadata.tar"]) =
    Some (File mt (tar_write (a_entries (archive_of l)))) →
  os_files s1 !! E = Some (Directory mE) →
  (∀ rel, rel ≠ [] → is_Some (src !! (D ++ rel)) → os_files s1 !! (E ++ rel) = None) →
  ∃ w', Release_Run order [outputDir; releaseDir] w = (Ok 0, w') ∧ cw_stderr w' = cw_stderr w ∧
    (∀ rel i, rel ≠ [] → src !! (D ++ rel) = Some i →
       os_files (cw_os w') !! (E ++ rel) = Some (extracted (os_umask s1) i)) ∧
    (∀ p, (∀ rel, rel ≠ [] → is_Some (src !! (D ++ rel)) → p ≠ E ++ rel) → os_files (cw_os w') !! p = os_files s1 !! p).
Proof.
  intros E0 E1 Hf1 Hwf Ho Hr Hord Hsrc Hnames Hl Hgood E Htar HE Hfree.
  set (name := Clean (PathJoin [outputDir; "chaincode-metadata.tar"])).
  assert (locate name s1 = locate outputDir s1 ++ ["chaincode-metadata.tar"]) as Hk.
  { unfold name. rewrite locate_Clean. apply resolve_child; [done|by apply (bool_decide_unpack _)]. }
  rewrite <- Hk in Htar.
  assert (Open name s1 = (Ok (locate name s1), tick s1)) as E2
    by (by apply (Open_found _ _ _ Hf1 (find_inode_found name s1 _ Hwf (Clean_not_empty _) Htar))).
  destruct (ExtractTar_adds (tick (tick s1)) Hf1 Hwf releaseDir Hr mE)
    with (order := order) (src := src) (D := D) (l := l) as (s3 & E3 & Hp3 & Hin & Hout); try done.
  { intros rel m Hne Hi. by destruct (Hgood rel _ Hne Hi) as [Hsp _]; destruct (Hsp m). }
  assert (no_fault s3) as Hf3 by (intros t; destruct Hp3 as (_ & _ & _ & -> & _); apply Hf1).
  exists (mkCworld (tick s3) (cw_stderr w)). split; [|by split].
  unfold Release_Run, arg. cbn [lookup list_lookup].
  rewrite (bind_ok _ _ w outputDir w), (bind_ok _ _ w releaseDir w) by done.
  rewrite (bind_ok _ _ _ _ _ (zoom_eq cw_lens _ _ _ _ E0)). rewrite (bind_ok _ _ _ tt (put cw_lens s1 w)).
  2: { destruct ext; [by apply (zoom_eq cw_lens _ (put cw_lens s0 w))|by injection E1 as ->]. }
  cbv zeta. fold name. rewrite (attempt_ok _ _ _ _ _ (zoom_eq cw_lens _ (put cw_lens s1 w) _ _ E2)).
  unfold deferring. erewrite bind_ok.
  2: { apply zoom_eq. rewrite (bind_ok _ _ _ _ _ (read_archive_ok (locate name s1) name (tick s1) _ _ Hf1 Htar)).
       rewrite (tar_read_items src D) by done. exact E3. }
  unfold mret, M_ret. by rewrite (zoom_eq cw_lens _ (put cw_lens s3 _) _ _ (CloseHandle_ok (locate name s1) name s3 Hf3)).
Qed.

Lemma Release_Run_ok `{TarFormat} order outputDir releaseDir w src D l mt mE :
  no_fault (cw_os w) → fs_wf (os_files (cw_os w)) → outputDir ≠ "" → releaseDir ≠ "" →
  (∀ d, order d ≡ₚ map_to_list d) → not_external outputDir (cw_os w) →
  fs_wf src → names_ok src → tree_list src D l → packable src D →
  let s := cw_os w in
  let E := locate releaseDir s in
  os_files s !! (locate outputDir s ++ ["chaincode-metadata.tar"]) =
    Some (File mt (tar_write (a_entries (archive_of l)))) →
  os_files s !! E = Some (Directory mE) → (∀ rel, rel ≠ [] → os_files s !! (E ++ rel) = None) →
  ∃ w', Release_Run order [outputDir; releaseDir] w = (Ok 0, w') ∧
    (∀ rel, rel ≠ [] → os_files (cw_os w') !! (E ++ rel) = extracted (os_umask s) <$> src !! (D ++ rel)) ∧
    (∀ p, ¬ (∃ rel, rel ≠ [] ∧ p = E ++ rel) → os_files (cw_os w') !! p = os_files s !! p).
Proof.
  intros Hf Hwf Ho Hr Hord Hext Hsrc Hnames Hl Hgood s E Htar HE Hempty.
  destruct (IsExternalCC_false outputDir s Hf Hwf Ho Hext) as (s1 & E1 & Hp1 & Hs1).
  destruct (Release_Run_archive order outputDir releaseDir w false s1 s1 src D l mt mE) as (w' & E2 & _ & Hin & Hout);
    rewrite ?Hs1, ?(locate_same _ _ _ Hp1) in *; try done; [by eapply no_fault_same|intros; by apply Hempty|].
  destruct Hp1 as (_ & Hum & _). rewrite Hum in Hin. exists w'. split; [exact E2|]. split.
  - intros rel Hne. destruct (src !! (D ++ rel)) as [i|] eqn:Hi; [by apply Hin|]. rewrite Hout; [by apply Hempty|].
    intros q _ [j Hq] <-%(inj _). congruence.
  - intros p Hno. apply Hout. intros rel Hne _ ->. apply Hno. by exists rel.
Qed.

(** ** Properties *)

(** C22: without failures, Detect on a package whose metadata the side car can
    read answers 0 exactly when the type is external or one for which the side
    car has a build and a run container, in any case of the letters; for every
    other type, which the side car refuses with a reason, it answers 1 and says
    so. Nothing on disk changes. *)
Theorem Detect_agrees b env rmd source metadataDir rest w m c md :
  no_fault (cw_os w) → fs_wf (os_files (cw_os w)) → metadataDir ≠ "" →
  os_files (cw_os w) !! (locate metadataDir (cw_os w) ++ ["metadata.json"]) = Some (File m c) →
  unmarshal_chaincodeMetadata c = inr md →
  let '(r, w') := Detect_Run (source :: metadataDir :: rest) w in
  same_tree (cw_os w) (cw_os w') ∧
  (r = Ok 0 ∧ cw_stderr w' = cw_stderr w ∧
     (ToLower (md_Type md) = "external" ∨
      ∃ cb cr, buildContainerDefinition b md = inr cb ∧ runContainerDefinition b env (md_Type md) rmd = inr cr) ∨
   r = Ok 1 ∧ cw_stderr w' = cw_stderr w ++ ["chaincode type not supported: " +:+ md_Type md] ∧
     ToLower (md_Type md) ≠ "external" ∧ (∃ e, buildContainerDefinition b md = inl e) ∧
     (∃ e, runContainerDefinition b env (md_Type md) rmd = inl e)).
Proof.
  intros Hf Hwf Hd Hm Hmd. unfold Detect_Run, arg. cbn [lookup list_lookup].
  assert (locate (PathJoin [metadataDir; "metadata.json"]) (cw_os w) = locate metadataDir (cw_os w) ++ ["metadata.json"]) as Hl
    by (apply resolve_child; [done|by apply (bool_decide_unpack _)]).
  set (p := PathJoin [metadataDir; "metadata.json"]) in *. rewrite (bind_ok _ _ w metadataDir w) by done.
  pose proof (ReadFile_spec p (cw_os w) Hf Hwf (PathJoin_not_empty _ _ Hd)) as Hr. unfold read_outcome in Hr.
  rewrite Hl, Hm in Hr. pose proof (keeps_ReadFile p (cw_os w)) as Hk.
  destruct (ReadFile p (cw_os w)) as [r s1] eqn:E. cbn [fst snd] in Hr, Hk. subst r.
  rewrite (bind_ok _ _ _ _ _ (zoom_eq cw_lens _ _ _ _ E)).
  rewrite (bind_ok _ _ _ (md_Type md) (put cw_lens s1 w)) by (unfold lift; by rewrite (unmarshal_type_agrees c md)).
  pose proof (supported_type_containers b env rmd md) as Hs. destruct (supported_type (md_Type md)).
  - split; [exact Hk|]. by left.
  - split; [exact Hk|]. right. split; [done|]. split; [done|]. destruct Hs as (H1 & H2 & H3).
    split; [done|]. split; by eexists.
Qed.

(** C13: what Build packs for the peer Release unpacks: the META-INF directory
    that createTar writes to chaincode-metadata.tar in the builder's output is,
    after Release of an output that is not of an external chaincode, the content
    of the release directory, and nothing else is changed but the archive. *)
Theorem Release_unpacks `{TarFormat} depth order outputDir metaInf releaseDir w md m mE :
  let s := cw_os w in
  let k := locate outputDir s ++ ["chaincode-metadata.tar"] in
  let D := locate metaInf s in
  let E := locate releaseDir s in
  no_fault s → fs_wf (os_files s) → names_ok (os_files s) → Forall name_ok (os_cwd s) →
  outputDir ≠ "" → metaInf ≠ "" → releaseDir ≠ "" → (∀ d, order d ≡ₚ map_to_list d) →
  os_files s !! locate outputDir s = Some (Directory md) → os_files s !! k = None → not_external outputDir s →
  os_files s !! D = Some (Directory m) → ¬ D `prefix_of` k → packable (os_files s) D →
  tree_height (os_files s) + length k < depth →
  os_files s !! E = Some (Directory mE) → (∀ rel, rel ≠ [] → os_files s !! (E ++ rel) = None) → ¬ E `prefix_of` k →
  ∃ w', (zoom cw_lens (createTar depth (PathJoin [outputDir; "chaincode-metadata.tar"]) metaInf) ;;
         Release_Run order [outputDir; releaseDir]) w = (Ok 0, w') ∧
    (∀ rel, rel ≠ [] → os_files (cw_os w') !! (E ++ rel) = extracted (os_umask s) <$> os_files s !! (D ++ rel)) ∧
    (∀ p, ¬ (∃ rel, rel ≠ [] ∧ p = E ++ rel) → p ≠ k → os_files (cw_os w') !! p = os_files s !! p).
Proof.
  intros s k D E Hf Hwf Hn Hcwd Ho Hmi Hr Hord Hod Hnew Hext Hm Hout Hgood Hh HE Hempty HEk.
  destruct (createTar_items depth outputDir "chaincode-metadata.tar" metaInf s md m)
    as (s1 & m' & l & E1 & Hp & Hs1 & Hl); try done.
  fold k in Hs1. set (w1 := put cw_lens s1 w).
  assert (∀ p, p ≠ k → os_files s1 !! p = os_files s !! p) as Hs1' by (intros; rewrite Hs1; by apply lookup_insert_ne).
  assert (∀ p, locate p s1 = locate p s) as Hloc by (intros; by apply locate_same).
  assert (no_fault s1) as Hf1 by (intros t; destruct Hp as (_ & _ & _ & -> & _); apply Hf).
  destruct (Release_Run_ok order outputDir releaseDir w1 (os_files s) D l m' mE) as (w' & E2 & Hin & Hno);
    cbn [w1 put cw_lens cw_os] in *; rewrite ?Hloc in *; try done.
  - rewrite Hs1. apply fs_wf_insert; [done|by eexists|done].
  - unfold not_external in *. rewrite Hloc. cbv zeta in *. rewrite Hs1'; [exact Hext|].
    intros [=]%(inj _).
  - by rewrite Hs1, lookup_insert_eq.
  - rewrite Hs1'; [exact HE|]. intros <-. by apply HEk.
  - intros rel Hne. rewrite Hs1'; [by apply Hempty|]. intros <-. apply HEk. by apply prefix_app_r.
  - exists w'. split; [|split].
    + rewrite (bind_ok _ _ _ _ _ (zoom_eq cw_lens _ _ _ _ E1)). exact E2.
    + intros rel Hne. rewrite Hin by done. by destruct Hp as (_ & -> & _).
    + intros p Hnp Hpk. rewrite Hno by done. by apply Hs1'.
Qed.

(** ** Witnesses *)
Lemma Detect_agrees_witness :
  (Detect_Run ["/src"; "/md"] CommandFacts.Demo.w0).1 = Ok 0.
Proof.
  assert (∃ md, unmarshal_chaincodeMetadata Metadata.Demo.metadata_json = inr md) as [md Hmd]
    by (eexists; vm_compute; reflexivity).
  pose proof (Detect_agrees CommandFacts.Demo.server "" (mkRunMetadata "" "" "" "" "") "/src" "/md" []
    CommandFacts.Demo.w0 CommandFacts.Demo.meta0 Metadata.Demo.metadata_json md) as H.
  destruct (Detect_Run _ _) as [r w'] eqn:E. cbn [fst].
  destruct H as (_ & [(-> & _)|(Hr & _)]); [done|apply CommandFacts.Demo.cmd_tree_wf|done|reflexivity|exact Hmd|done|].
  assert (r = Ok 0) as E0 by (vm_compute in E; by injection E as <- _). congruence.
Defined.

Lemma Release_unpacks_witness :
  ∃ w', (zoom cw_lens (@createTar Plain.format 5 "/chaincode-metadata.tar" "/src") ;;
         @Release_Run Plain.format TarFacts.Demo.by_key ["/"; "/dst"]) (mkCworld Fs.Demo.os0 []) = (Ok 0, w') ∧
    os_files (cw_os w') !! ["dst"; "f"] = Some (File (mkMeta 420 4 4) "data").
Proof.
  destruct (@Release_unpacks Plain.format 5 TarFacts.Demo.by_key "/" "/src" "/dst" (mkCworld Fs.Demo.os0 [])
    (mkMeta 493 1 2) (mkMeta 493 1 2) (mkMeta 493 1 2)) as (w' & H1 & H2 & _).
  - done.
  - apply Fs.Demo.fs_tree_wf.
  - apply Fs.Demo.fs_tree_names.
  - constructor.
  - done.
  - done.
  - done.
  - intros d. reflexivity.
  - reflexivity.
  - reflexivity.
  - by left.
  - reflexivity.
  - by intros [? [=]].
  - intros rel i _ Hi. split; [|done]. intros m ->. revert Hi. cbn [cw_os].
    change (locate "/src" Fs.Demo.os0) with ["src"]. cbn [app Fs.Demo.os0 os_files]. unfold Fs.Demo.tree. intros Hi.
    repeat (apply lookup_insert_Some in Hi as [[_ [=]]|[_ Hi]]).
    by apply lookup_singleton_Some in Hi as [_ [=]].
  - vm_compute. lia.
  - reflexivity.
  - intros [|x rel] Hne; [done|]. cbn [cw_os]. change (locate "/dst" Fs.Demo.os0) with ["dst"].
    cbn [app Fs.Demo.os0 os_files]. unfold Fs.Demo.tree. repeat (rewrite lookup_insert_ne by (intros [=])).
    by apply lookup_singleton_ne.
  - by intros [? [=]].
  - exists w'. split; [exact H1|]. cbn [cw_os] in H2.
    change ["dst"; "f"] with (locate "/dst" Fs.Demo.os0 ++ ["f"]). rewrite H2 by done. reflexivity.
Defined.
