(* ===== verification/ExternalFacts.v ===== *)
(** * Chaincode that runs elsewhere

    Facts on Build and Release of pkg/command (Command.v) for a package of type
    external: nothing is asked of the side car; the peer finds, in the release
    directory, connection.json with its own name put in, the metadata, and the
    index files of META-INF, where the package has that directory. *)
From S2P Require Import Prelude GoStrings GoPath OsModel Sidecar TarFormat Json JsonMap Fs CopyFacts Tar TarFacts TarRoundTrip.
From S2P Require Import Command CommandFacts ReleaseFacts.

Lemma same_injectPeerIdentifier f : keeps same_tree (injectPeerIdentifier f).
Proof. unfold injectPeerIdentifier, getPeerID. keeps_tac. Qed.

Lemma looks_injectPeerIdentifier f : looks (injectPeerIdentifier f).
Proof. unfold injectPeerIdentifier, getPeerID. looks_tac. Qed.

(** Metadata of an external chaincode. *)
Definition external_metadata (dir : string) (s : OS) : Prop :=
  ∃ m c t, os_files s !! (locate dir s ++ ["metadata.json"]) = Some (File m c) ∧
    unmarshal_type c = inr t ∧ ToLower t = "external".

Lemma ok_name x : bool_decide (name_ok x) = true → name_ok x.
Proof. apply bool_decide_eq_true_1. Qed.

Lemma locate_child d x s : d ≠ "" → bool_decide (name_ok x) = true → locate (PathJoin [d; x]) s = locate d s ++ [x].
Proof. intros Hd Hx. by apply resolve_child, ok_name. Qed.

(** The names the code writes with a slash. *)
Lemma locate_slash_connection d s :
  d ≠ "" → locate (PathJoin [d; "/connection.json"]) s = locate d s ++ ["connection.json"].
Proof.
  intros Hd. unfold locate. rewrite resolve_PathJoin_below; [done|done|]. apply (bool_decide_unpack (_ ∉ _)). by vm_compute.
Qed.

Lemma locate_chaincode_server d s :
  d ≠ "" → locate (PathJoin [d; "chaincode/server"]) s = locate d s ++ ["chaincode"; "server"].
Proof.
  intros Hd. unfold locate. rewrite resolve_PathJoin_below; [done|done|]. apply (bool_decide_unpack (_ ∉ _)). by vm_compute.
Qed.

Lemma IsExternalCC_true d s :
  no_fault s → fs_wf (os_files s) → d ≠ "" → external_metadata d s →
  ∃ s', IsExternalCC d s = (Ok true, s') ∧ same_tree s s'.
Proof.
  intros Hf Hwf Hd (m & c & t & Hc & Ht & Hx). rewrite <- (locate_child d "metadata.json") in Hc by done.
  rewrite <- locate_Clean in Hc. unfold IsExternalCC. set (p := Clean _) in *.
  pose proof (ReadFile_spec p s Hf Hwf (Clean_not_empty _)) as Hr. unfold read_outcome in Hr. rewrite Hc in Hr.
  pose proof (keeps_ReadFile p s) as Hk. destruct (ReadFile p s) as [r s1] eqn:E. cbn [fst snd] in Hr, Hk. subst r.
  exists s1. split; [|exact Hk]. rewrite (attempt_ok _ _ _ _ _ E).
  rewrite (bind_ok _ _ _ t s1) by (unfold lift; by rewrite Ht). by rewrite bool_decide_eq_true_2.
Qed.

(** ** Building *)

#[local] Abbreviation conn := "connection.json".
#[local] Abbreviation tar := "chaincode-metadata.tar".

(** The directory of the index files. *)
Definition index_dir (sourceDir : string) (s : OS) : fpath := locate sourceDir s ++ ["META-INF"].

(** What a build of an external chaincode starts from: connection.json in the
    source, which can be rewritten, metadata and index files that can be copied
    and packed, and an empty output directory away from them. *)
Record external_input `{TarFormat} (sourceDir metadataDir outputDir data : string) (s : OS) : Prop := {
  xi_fault : no_fault s;
  xi_wf : fs_wf (os_files s);
  xi_names : names_ok (os_files s);
  xi_paths : sourceDir ≠ "" ∧ metadataDir ≠ "" ∧ outputDir ≠ "";
  xi_connection : ∃ m c, os_files s !! (locate sourceDir s ++ [conn]) = Some (File m c);
  xi_injected : (injectPeerIdentifier (PathJoin [sourceDir; "/connection.json"]) s).1 = Ok data;
  xi_cwd : Forall name_ok (os_cwd s);
  xi_index : packable (os_files s) (index_dir sourceDir s);
  xi_index_apart : ¬ index_dir sourceDir s `prefix_of` locate outputDir s;
  xi_metadata : external_metadata metadataDir s;
  xi_plain rel m : os_files s !! (locate metadataDir s ++ rel) ≠ Some (Special m);
  xi_no_connection : os_files s !! (locate metadataDir s ++ [conn]) = None;
  xi_no_archive : os_files s !! (locate metadataDir s ++ [tar]) = None;
  xi_output : ∃ m, os_files s !! locate outputDir s = Some (Directory m);
  xi_empty rel : rel ≠ [] → os_files s !! (locate outputDir s ++ rel) = None;
  xi_apart : ¬ locate metadataDir s `prefix_of` locate outputDir s }.

Section external.
Context `{TarFormat} (depth : nat) (sourceDir metadataDir outputDir data : string) (s : OS).
Context (Hin : external_input sourceDir metadataDir outputDir data s) (Hdepth : 4 * tree_height (os_files s) + 4 < depth).

#[local] Abbreviation F := (os_files s).
#[local] Abbreviation A := (locate sourceDir s).
#[local] Abbreviation D := (locate metadataDir s).
#[local] Abbreviation O := (locate outputDir s).
#[local] Abbreviation I := (index_dir sourceDir s).

(** An entry is not below the output directory. *)
Lemma not_below_output p i : F !! p = Some i → O ≠ p → ¬ O `prefix_of` p.
Proof using Hin.
  intros Hp Hne [rel ->]. destruct rel as [|x rel]; [by rewrite app_nil_r in Hne|].
  by rewrite (xi_empty _ _ _ _ _ Hin) in Hp.
Qed.

(** Nor is what is new in another directory. *)
Lemma not_above_output p rel m :
  F !! p = Some (Directory m) → p ≠ O → (∀ q, q ≠ [] → q `prefix_of` rel → F !! (p ++ q) = None) →
  ¬ O `prefix_of` p ++ rel.
Proof using Hin.
  intros Hp Hne Hnew [l El]. destruct (xi_output _ _ _ _ _ Hin) as [mo HO].
  destruct (prefix_weak_total O p (p ++ rel)) as [Hpre|[q Hq]]; [by exists l|by apply prefix_app_r| |].
  - by apply (not_below_output _ _ Hp (not_eq_sym Hne)).
  - destruct q as [|x q]; [rewrite app_nil_r in Hq; by apply Hne|]. rewrite Hq, <- app_assoc in El. apply (inj _) in El as ->.
    rewrite Hq, Hnew in HO; [done|done|by eexists].
Qed.

Lemma metadata_dir : ∃ m, F !! D = Some (Directory m).
Proof using Hin.
  destruct (xi_metadata _ _ _ _ _ Hin) as (m & c & t & Hc & _). by apply (wf_parent _ (xi_wf _ _ _ _ _ Hin)) in Hc.
Qed.

Lemma output_not_above rel rel' : D ++ rel ≠ O ++ rel'.
Proof using Hin.
  apply apart_not_prefix; [apply Hin|]. destruct metadata_dir as [m Hm]. apply (not_below_output _ _ Hm).
  intros E. apply (xi_apart _ _ _ _ _ Hin). by rewrite E.
Qed.

(** UpdateFile puts the rewritten connection.json into the output. *)
Lemma update_connection :
  ∃ s' m m', UpdateFile (PathJoin [sourceDir; "/connection.json"]) (PathJoin [outputDir; "/connection.json"])
      injectPeerIdentifier s = (Ok tt, s') ∧ same_process s s' ∧
    (∃ c, F !! (A ++ [conn]) = Some (File m c)) ∧ i_mode m' = Z.ldiff (i_mode m) (os_umask s) ∧
    os_files s' = <[O ++ [conn] := File m' data]> F.
Proof using Hin.
  destruct Hin as [Hf Hwf Hn (Hs & Hm & Ho) (mc & c & Hc) Hd _ _ _ _ _ _ _ [mo HO] Hempty _].
  pose proof (locate_slash_connection sourceDir s Hs) as Ls. pose proof (locate_slash_connection outputDir s Ho) as Lo.
  set (src := PathJoin [sourceDir; "/connection.json"]) in *. set (dest := PathJoin [outputDir; "/connection.json"]) in *.
  assert (find_inode src s = inr (File mc c)) as Hfind
    by (apply find_inode_found; [done|by apply PathJoin_not_empty|by rewrite Ls]).
  unfold UpdateFile. rewrite (attempt_ok (Stat src) _ _ _ _ (stat_as_ok "stat" src s _ Hf Hfind)).
  pose proof (looks_injectPeerIdentifier src s (tick s) Hf (same_tree_tick s)) as Hi.
  pose proof (same_injectPeerIdentifier src (tick s)) as Hk.
  destruct (injectPeerIdentifier src (tick s)) as [r s1] eqn:E. cbn [fst snd] in Hi, Hk. rewrite Hd in Hi. subst r.
  rewrite (bind_ok _ _ _ _ _ E). destruct Hk as [Hp Hfs]. cbn [tick os_files] in Hfs.
  destruct (WriteFile_new dest data (i_mode (i_meta (File mc c))) O conn s1 mo) as (s2 & m' & E2 & Hp2 & Hm' & Hs2).
  - by apply (no_fault_same (tick s)).
  - by rewrite Hfs.
  - by apply PathJoin_not_empty.
  - rewrite (locate_same _ _ _ Hp). exact Lo.
  - by rewrite Hfs.
  - by rewrite Hfs, Hempty.
  - exists s2, mc, m'. split; [exact E2|]. split; [by etrans; [exact Hp|]|]. split; [by exists c|].
    split; [by rewrite Hm', (proj1 (proj2 Hp))|]. by rewrite Hs2, Hfs.
Qed.

(** Everything else of a package is its metadata directory, and the archive of
    the index files where there is the directory for them. *)
Definition external_output (s' : OS) : Prop :=
  (∃ m m' c, F !! (A ++ [conn]) = Some (File m c) ∧ i_mode m' = Z.ldiff (i_mode m) (os_umask s) ∧
     os_files s' !! (O ++ [conn]) = Some (File m' data)) ∧
  (∀ x l, is_Some (F !! (D ++ [x])) → os_files s' !! (O ++ x :: l) = copy_of (os_umask s) <$> F !! (D ++ x :: l)) ∧
  ((∃ m' l, tree_list F I l ∧ os_files s' !! (O ++ [tar]) = Some (File m' (tar_write (a_entries (archive_of l))))) ∨
   (∀ m, F !! I ≠ Some (Directory m)) ∧ os_files s' !! (O ++ [tar]) = None) ∧
  (∀ p, p ≠ O ++ [conn] → p ≠ O ++ [tar] → (∀ x l, is_Some (F !! (D ++ [x])) → p ≠ O ++ x :: l) →
     os_files s' !! p = F !! p).

Lemma copy_metadata s1 m' :
  same_process s s1 → os_files s1 = <[O ++ [conn] := File m' data]> F →
  ∃ s', CopyDir depth metadataDir outputDir s1 = (Ok tt, s') ∧ same_process s1 s' ∧ fs_wf (os_files s') ∧
    (∀ x l, is_Some (F !! (D ++ [x])) → os_files s' !! (O ++ x :: l) = copy_of (os_umask s) <$> F !! (D ++ x :: l)) ∧
    (∀ p, (∀ x l, is_Some (F !! (D ++ [x])) → p ≠ O ++ x :: l) → os_files s' !! p = os_files s1 !! p).
Proof using Hin Hdepth.
  intros Hp Hs1. pose proof Hin as [Hf Hwf Hn (_ & Hm & Ho) _ _ _ _ _ _ Hplain Hno _ [mo HO] Hempty Hap]. destruct metadata_dir as [md Hmd].
  assert (∀ rel, os_files s1 !! (D ++ rel) = F !! (D ++ rel)) as HD
    by (intros rel; rewrite Hs1; apply lookup_insert_ne, not_eq_sym, output_not_above).
  assert (fs_wf (os_files s1)) as Hwf1 by (rewrite Hs1; apply fs_wf_insert; [done|by eexists|by apply Hempty]).
  destruct (copies_dir_all (os_files s1)) with (n := depth) (src := metadataDir) (dest := outputDir)
    (A := D) (B := O) (s := s1) (m := md) as (s' & E & (P2 & W2 & O2) & Hc); try done.
  - rewrite Hs1. intros p i. rewrite lookup_insert_Some. intros [[<- _]|[_ Hi]]; [|by eapply Hn].
    apply Forall_app. split; [by eapply Hn|by repeat constructor].
  - split; [by eapply no_fault_same|done|done| | |apply output_not_above].
    + intros rel m. rewrite HD. apply Hplain.
    + exists mo. rewrite Hs1, lookup_insert_ne; [done|]. intros E. apply (f_equal length) in E.
      rewrite length_app in E. simpl in E. lia.
  - by apply locate_same.
  - by apply locate_same.
  - pose proof (HD []) as E. rewrite app_nil_r in E. by rewrite E.
  - intros x l [i Hx]. rewrite HD in Hx. rewrite Hs1, lookup_insert_ne; [by apply Hempty|].
    intros [= <- _]%(inj _). congruence.
  - enough (tree_height (os_files s1) ≤ S (tree_height F)) by lia. apply tree_height_le. intros k i. rewrite Hs1.
    rewrite lookup_insert_Some. intros [[<- _]|[_ Hi]].
    + rewrite length_app. apply tree_height_spec in HO. simpl. lia.
    + apply tree_height_spec in Hi. lia.
  - exists s'. split; [exact E|]. split; [exact P2|]. split; [exact W2|]. split.
    + intros x l Hx. destruct Hp as (_ & <- & _). rewrite <- HD. apply Hc. by rewrite HD.
    + intros p Hno'. apply O2. intros x l Hx. apply Hno'. apply list_elem_of_fmap in Hx as ([y i] & -> & Hx).
      apply elem_of_children in Hx. exists i. by rewrite <- HD.
Qed.

(** What is copied has plain names and is not deep. *)
Lemma copied_tree s2 :
  (∀ x l, is_Some (F !! (D ++ [x])) → os_files s2 !! (O ++ x :: l) = copy_of (os_umask s) <$> F !! (D ++ x :: l)) →
  (∀ p, p ≠ O ++ [conn] → (∀ x l, is_Some (F !! (D ++ [x])) → p ≠ O ++ x :: l) → os_files s2 !! p = F !! p) →
  names_ok (os_files s2) ∧ tree_height (os_files s2) ≤ S (2 * tree_height F).
Proof using Hin.
  clear depth Hdepth. intros C2 O2. pose proof Hin as [_ _ Hn _ _ _ _ _ _ _ _ _ _ [mo HO] _ _].
  assert (∀ p i, os_files s2 !! p = Some i → Forall name_ok p ∧ length p ≤ S (2 * tree_height F)) as Hk;
    [|by split; [intros p i Hp; by apply (Hk p i)|apply tree_height_le; intros p i Hp; by apply (Hk p i)]].
  intros p i Hp. pose proof (Hn _ _ HO) as HOn. pose proof (tree_height_spec _ _ _ HO) as HOh.
  destruct (decide (p = O ++ [conn])) as [->|Hc].
  { split; [by apply Forall_app; split; [|repeat constructor]|]. rewrite length_app. simpl. lia. }
  assert (F !! p = Some i → Forall name_ok p ∧ length p ≤ S (2 * tree_height F)) as Hold
    by (intros Hi; split; [by eapply Hn|]; apply tree_height_spec in Hi; lia).
  destruct (decide (O `prefix_of` p)) as [[[|x l] ->]|Hno].
  - rewrite app_nil_r in *. split; [done|lia].
  - destruct (F !! (D ++ [x])) as [j|] eqn:Ex.
    + rewrite C2 in Hp by by eexists. apply fmap_Some in Hp as (k & Hk & _). pose proof (tree_height_spec _ _ _ Hk) as Hkh.
      apply Hn, Forall_app in Hk as [_ Hk]. split; [by apply Forall_app|]. rewrite !length_app in *. lia.
    + apply Hold. rewrite <- Hp. symmetry. apply O2; [done|]. intros x' l' [? ?] [= <- <-]%(inj _). congruence.
  - apply Hold. rewrite <- Hp. symmetry. apply O2; [done|]. intros x l _ ->. apply Hno. by eexists.
Qed.

(** The output is not where the index files are. *)
Lemma index_outside rel : ¬ O `prefix_of` I ++ rel.
Proof using Hin.
  destruct (xi_connection _ _ _ _ _ Hin) as (mc & c & Hc). intros [l E].
  destruct (prefix_weak_total O I (I ++ rel)) as [[l' Hl]|Hp]; [by exists l|by eexists| |by apply (xi_index_apart _ _ _ _ _ Hin)].
  unfold index_dir in Hl. destruct l' as [|y l'] using rev_ind.
  - apply (xi_index_apart _ _ _ _ _ Hin). rewrite app_nil_r in Hl. unfold index_dir. by rewrite Hl.
  - rewrite app_assoc in Hl. apply app_inj_tail in Hl as [Hl _]. rewrite Hl, <- app_assoc in Hc.
    rewrite (xi_empty _ _ _ _ _ Hin) in Hc; [done|by destruct l'].
Qed.

(** The last step packs the index files. *)
Lemma pack_index s2 :
  same_process s s2 → fs_wf (os_files s2) → names_ok (os_files s2) → tree_height (os_files s2) ≤ S (2 * tree_height F) →
  (∀ rel, os_files s2 !! (I ++ rel) = F !! (I ++ rel)) →
  (∃ m, os_files s2 !! O = Some (Directory m)) → os_files s2 !! (O ++ [tar]) = None →
  ∃ s', (has ← dirExists (PathJoin [sourceDir; "META-INF"]);
         if has : bool then createTar depth (PathJoin [outputDir; tar]) (PathJoin [sourceDir; "META-INF"]) else mret tt) s2 = (Ok tt, s') ∧
    same_process s2 s' ∧ fs_wf (os_files s') ∧
    ((∃ m' l, tree_list F I l ∧ os_files s' !! (O ++ [tar]) = Some (File m' (tar_write (a_entries (archive_of l))))) ∨
     (∀ m, F !! I ≠ Some (Directory m)) ∧ os_files s' !! (O ++ [tar]) = None) ∧
    (∀ p, p ≠ O ++ [tar] → os_files s' !! p = os_files s2 !! p).
Proof using Hin Hdepth.
  intros P W N Hh HI [mo HO] Hnew. pose proof Hin as [Hf _ _ (Hs & _ & Ho) _ _ Hcwd Hgood _ _ _ _ _ _ _ _].
  assert (no_fault s2) as Hf2 by by eapply no_fault_same. set (idx := PathJoin [sourceDir; "META-INF"]).
  assert (locate idx s2 = I) as Li by (rewrite (locate_same _ _ _ P); by apply locate_child).
  assert (locate outputDir s2 = O) as Lo by by apply locate_same.
  pose proof (HI []) as HI0. rewrite app_nil_r in HI0.
  pose proof (dirExists_ok idx s2 Hf2 W (PathJoin_not_empty _ _ Hs)) as E. rewrite Li, HI0 in E.
  assert (idx ≠ "") as Hidx by by apply PathJoin_not_empty.
  destruct (F !! I) as [i|] eqn:Ei; [destruct (IsDir i) eqn:Ed|].
  2,3: by (exists (tick s2); rewrite (bind_ok _ _ _ _ _ E); split; [done|]; split; [done|]; split; [done|]; split; [right; split; [intros m [= ->]|]|]).
  destruct i as [|m|]; try done.
  destruct (createTar_items depth outputDir tar idx (tick s2) mo m) as (s3 & m' & l & E3 & P3 & Hs3 & Hl);
    cbn [tick os_files]; rewrite ?(locate_same _ _ _ (same_process_tick s2)), ?Li, ?Lo in *; try done.
  - cbn [tick os_cwd]. by destruct P as (-> & _).
  - intros [l E']. destruct l as [|y l] using rev_ind.
    + rewrite app_nil_r in E'. by apply app_inj_tail in E' as [_ [=]].
    + rewrite app_assoc in E'. apply app_inj_tail in E' as [E' _]. apply (xi_index_apart _ _ _ _ _ Hin). by exists l.
  - intros rel i Hne Hi. rewrite HI in Hi. by apply Hgood.
  - rewrite length_app. apply tree_height_spec in HO. simpl. lia.
  - assert (tree_list F I l) as Hl' by (destruct Hl as [Hord Hl]; split; [exact Hord|]; intros rel i; by rewrite Hl, HI).
    exists s3. rewrite (bind_ok _ _ _ _ _ E). cbn [tick os_files] in Hs3. split; [exact E3|]. split; [exact P3|]. split; [|split].
    + rewrite Hs3. apply fs_wf_insert; [done|by eexists|done].
    + left. exists m', l. by rewrite Hs3, lookup_insert_eq.
    + intros p Hp. by rewrite Hs3, lookup_insert_ne.
Qed.

(** The steps behind the first look at connection.json. *)
Lemma external_steps :
  ∃ s', (wrap_err (Errorf "failed to update connection.json and write to output folder: ")
           (UpdateFile (PathJoin [sourceDir; "/connection.json"]) (PathJoin [outputDir; "/connection.json"]) injectPeerIdentifier) ;;
         wrap_err (Errorf "failed to copy build metadata folder: ") (CopyDir depth metadataDir outputDir) ;;
         has ← dirExists (PathJoin [sourceDir; "META-INF"]);
         if has : bool then createTar depth (PathJoin [outputDir; tar]) (PathJoin [sourceDir; "META-INF"])
         else mret tt) s = (Ok tt, s') ∧
    same_process s s' ∧ fs_wf (os_files s') ∧ external_output s'.
Proof using Hin Hdepth.
  destruct update_connection as (s1 & mc & m' & E1 & P1 & [c Hc] & Hm' & Hs1).
  destruct (copy_metadata s1 m' P1 Hs1) as (s2 & E2 & P2 & W2 & C2 & O2).
  pose proof Hin as [_ _ _ _ _ _ _ _ _ _ _ Hno Hnoa [mo HO] Hempty _].
  assert (same_process s s2) as P by by etrans.
  assert (∀ p, p ≠ O ++ [conn] → (∀ x l, is_Some (F !! (D ++ [x])) → p ≠ O ++ x :: l) → os_files s2 !! p = F !! p) as Helse.
  { intros p H1 H2. rewrite O2 by exact H2. by rewrite Hs1, lookup_insert_ne. }
  assert (∀ y, F !! (D ++ [y]) = None → ∀ x l, is_Some (F !! (D ++ [x])) → O ++ [y] ≠ O ++ x :: l) as Hname
    by (intros y Hy x l [i Hx] [= <- <-]%(inj _); congruence).
  destruct (copied_tree s2 C2 Helse) as [N2 Hh2].
  destruct (pack_index s2 P W2 N2 Hh2) as (s3 & E3 & P3 & W3 & Hpack & O3).
  - intros rel. apply Helse; [|intros x l _]; intros E; apply (index_outside rel); rewrite E; by apply prefix_app_r.
  - exists mo. rewrite Helse; [done|..]; intros; intros E; apply (f_equal length) in E; rewrite length_app in E; simpl in E; lia.
  - rewrite Helse; [by apply Hempty|by intros [=]%(inj _)|by apply Hname].
  - exists s3. split; [|split; [by etrans|split; [exact W3|]]].
    + rewrite (bind_ok _ _ s tt s1) by (unfold wrap_err; by rewrite E1).
      by rewrite (bind_ok _ _ s1 tt s2) by (unfold wrap_err; by rewrite E2).
    + split; [|split; [|split; [exact Hpack|]]].
      * exists mc, m', c. split; [done|]. split; [done|]. rewrite O3 by by intros [=]%(inj _).
        rewrite O2 by by apply Hname. by rewrite Hs1, lookup_insert_eq.
      * intros x l Hx. rewrite O3; [by apply C2|]. by apply not_eq_sym, Hname.
      * intros p H1 H2 H3. rewrite O3 by done. by apply Helse.
Qed.
End external.

Lemma external_input_later `{TarFormat} sourceDir metadataDir outputDir data s s' :
  same_tree s s' → external_input sourceDir metadataDir outputDir data s → external_input sourceDir metadataDir outputDir data s'.
Proof.
  intros Hs Hin. pose proof Hin as [Hf _ _ _ _ Hd _ _ _ _ _ _ _ _ _ _].
  rewrite <- (looks_injectPeerIdentifier _ _ _ Hf Hs) in Hd. destruct Hs as [Hp Hs].
  assert (∀ p, locate p s' = locate p s) as Hl by (intros; by apply locate_same).
  destruct Hin as [? ? ? ? ? _ ? ? ? Hm ? ? ? ? ? ?]. unfold external_metadata, index_dir in *.
  split; unfold external_metadata, index_dir; rewrite ?Hl, ?Hs; try done; [by eapply no_fault_same|].
  by destruct Hp as (-> & _).
Qed.

Lemma Build_HandleExternalCC_ok `{TarFormat} depth sourceDir metadataDir outputDir data s :
  external_input sourceDir metadataDir outputDir data s → 4 * tree_height (os_files s) + 4 < depth →
  ∃ s', Build_HandleExternalCC depth sourceDir metadataDir outputDir s = (Ok tt, s') ∧
    same_process s s' ∧ fs_wf (os_files s') ∧ external_output sourceDir metadataDir outputDir data s s'.
Proof.
  intros Hin Hdepth. pose proof Hin as [Hf Hwf _ (Hs & _) (m & c & Hc) _ _ _ _ _ _ _ _ _ _ _].
  destruct (external_steps depth sourceDir metadataDir outputDir data (tick s)) as (s1 & E & Hs1).
  { by apply (external_input_later _ _ _ _ s); [apply same_tree_tick|]. } { exact Hdepth. }
  exists s1. split; [|exact Hs1]. unfold Build_HandleExternalCC. cbv zeta.
  rewrite <- (locate_slash_connection sourceDir) in Hc by done.
  assert (Stat (PathJoin [sourceDir; "/connection.json"]) s = (Ok (File m c), tick s)) as E1.
  { apply stat_as_ok; [done|]. apply find_inode_found; [done|by apply PathJoin_not_empty|done]. }
  rewrite (attempt_ok _ _ _ _ _ E1). by rewrite (bind_ok _ _ _ tt (tick s)).
Qed.

(** ** Releasing *)

Section release.
Context (outputDir releaseDir : string) (s : OS).

#[local] Abbreviation F := (os_files s).
#[local] Abbreviation O := (locate outputDir s).
#[local] Abbreviation server := (locate releaseDir s ++ ["chaincode"; "server"]).

(** What a release of an external chaincode starts from: the output of a build,
    and a release directory without a chaincode entry. *)
Record external_built (data metadata : string) (mc mm : meta) : Prop := {
  xb_fault : no_fault s;
  xb_wf : fs_wf F;
  xb_paths : outputDir ≠ "" ∧ releaseDir ≠ "";
  xb_connection : F !! (O ++ [conn]) = Some (File mc data);
  xb_metadata : F !! (O ++ ["metadata.json"]) = Some (File mm metadata);
  xb_release : ∃ m, F !! locate releaseDir s = Some (Directory m);
  xb_free : F !! (locate releaseDir s ++ ["chaincode"]) = None }.

(** What the release adds: two directories and two files. *)
Definition external_released (data metadata : string) (s' : OS) : Prop :=
  (∃ m, os_files s' !! (server ++ [conn]) = Some (File m data)) ∧
  (∃ m, os_files s' !! (server ++ ["metadata.json"]) = Some (File m metadata)) ∧
  (∀ p, ¬ (locate releaseDir s ++ ["chaincode"]) `prefix_of` p → os_files s' !! p = F !! p).

(** Copying a file of the output to a new name of the server directory. *)
Lemma copy_to_server name s1 m c md :
  no_fault s1 → fs_wf (os_files s1) → outputDir ≠ "" → releaseDir ≠ "" → bool_decide (name_ok name) = true →
  same_process s s1 → os_files s1 !! (O ++ [name]) = Some (File m c) →
  os_files s1 !! server = Some (Directory md) → os_files s1 !! (server ++ [name]) = None →
  ∃ s' m', CopyFile (PathJoin [outputDir; name]) (PathJoin [PathJoin [releaseDir; "chaincode/server"]; name]) s1 = (Ok tt, s') ∧
    same_process s1 s' ∧ fs_wf (os_files s') ∧ os_files s' = <[server ++ [name] := File m' c]> (os_files s1).
Proof.
  intros Hf Hwf Ho Hr Hname%ok_name Hp Hc Hd Hn.
  assert (locate (PathJoin [releaseDir; "chaincode/server"]) s1 = server) as Ld
    by (rewrite (locate_same _ _ _ Hp); by apply locate_chaincode_server).
  destruct (CopyFile_named outputDir (PathJoin [releaseDir; "chaincode/server"]) name s1 m c md) as (s' & m' & E & P & W & Hs');
    [done|done|done|by apply PathJoin_not_empty|done|by rewrite (locate_same _ _ _ Hp)|by rewrite Ld|by rewrite Ld|].
  rewrite Ld in Hs'. by exists s', m'.
Qed.

Lemma Release_HandleExternalCC_ok data metadata mc mm :
  external_built data metadata mc mm →
  ∃ s', Release_HandleExternalCC outputDir releaseDir s = (Ok tt, s') ∧
    same_process s s' ∧ fs_wf (os_files s') ∧ external_released data metadata s'.
Proof.
  intros [Hf Hwf [Ho Hr] Hc Hm [mr HR] Hfree].
  assert (∀ l, F !! (locate releaseDir s ++ "chaincode" :: l) = None) as Hnew.
  { intros [|x l]; [done|]. destruct (F !! (locate releaseDir s ++ "chaincode" :: x :: l)) as [i|] eqn:Ei; [|done]. exfalso.
    destruct (wf_prefix F (locate releaseDir s ++ ["chaincode"]) (x :: l) i Hwf) as [m ?];
      [by rewrite <- app_assoc|done|]. congruence. }
  unfold Release_HandleExternalCC. cbv zeta. set (dest := PathJoin [releaseDir; "chaincode/server"]).
  assert (Stat (PathJoin [outputDir; "/connection.json"]) s = (Ok (File mc data), tick s)) as E1.
  { apply stat_as_ok; [done|]. apply find_inode_found; [done|by apply PathJoin_not_empty|]. by rewrite locate_slash_connection. }
  rewrite (attempt_ok _ _ _ _ _ E1), (bind_ok _ _ _ tt (tick s)) by done.
  destruct (MkdirAll_two dest 488 (locate releaseDir s) "chaincode" "server" (tick s) mr)
    as (s1 & m1 & m2 & E2 & P1 & Hs1 & Hwf1); [done|done|exact (locate_chaincode_server releaseDir (tick s) Hr)|done|apply Hnew|apply Hnew|].
  cbn [tick os_files] in Hs1. rewrite (bind_ok _ _ _ tt s1) by (unfold wrap_err; by rewrite E2).
  assert (∀ p, ¬ (locate releaseDir s ++ ["chaincode"]) `prefix_of` p → os_files s1 !! p = F !! p) as Ho1.
  { intros p Hp. rewrite Hs1, !lookup_insert_ne; [done|intros <-; by apply Hp|].
    intros <-. apply Hp. exists ["server"]. by rewrite <- app_assoc. }
  assert (∀ x i, F !! (O ++ [x]) = Some i → os_files s1 !! (O ++ [x]) = Some i) as Hout.
  { intros x i Hx. rewrite Ho1; [done|]. intros [l E]. rewrite E, <- app_assoc in Hx. cbn [app] in Hx. by rewrite Hnew in Hx. }
  assert (os_files s1 !! server = Some (Directory m2)) as Hsv by by rewrite Hs1, lookup_insert_eq.
  assert (∀ x, os_files s1 !! (server ++ [x]) = None) as Hsx.
  { intros x. rewrite Hs1, <- app_assoc, !lookup_insert_ne by (by intros [=]%(inj _)). cbn [app]. apply Hnew. }
  assert (same_process s s1) as Ps1 by exact P1. assert (no_fault s1) as Hf1 by by eapply no_fault_same.
  destruct (copy_to_server conn s1 mc data m2) as (s2 & n1 & E3 & P2 & Hwf2 & Hs2); try done; [by apply Hout|].
  assert (∀ p, p ≠ server ++ [conn] → os_files s2 !! p = os_files s1 !! p) as Ho2 by (intros; by rewrite Hs2, lookup_insert_ne).
  destruct (copy_to_server "metadata.json" s2 mm metadata m2) as (s3 & n2 & E4 & P3 & Hwf3 & Hs3); try done.
  { by eapply no_fault_same. }
  { by etrans. }
  { rewrite Ho2; [by apply Hout|]. intros E. pose proof (Hsx conn) as Hno. rewrite <- E, (Hout _ _ Hm) in Hno. done. }
  { rewrite Ho2; [done|]. intros E. apply (f_equal length) in E. rewrite !length_app in E. simpl in E. lia. }
  { rewrite Ho2; [apply Hsx|]. by intros [=]%(inj _). }
  fold dest in E3, E4. exists s3. split; [|split; [by etrans; [exact P1|etrans]|split; [exact Hwf3|]]].
  - rewrite (bind_ok _ _ _ tt s2) by (unfold wrap_err; by rewrite E3). unfold wrap_err. by rewrite E4.
  - split; [|split].
    + exists n1. rewrite Hs3, lookup_insert_ne by (by intros [=]%(inj _)). by rewrite Hs2, lookup_insert_eq.
    + exists n2. by rewrite Hs3, lookup_insert_eq.
    + intros p Hp. rewrite Hs3, lookup_insert_ne, Ho2; [by apply Ho1|..]; intros E; apply Hp;
        [rewrite E|rewrite <- E]; eexists; rewrite <- !app_assoc; done.
Qed.
End release.

Lemma external_built_later outputDir releaseDir s s' data metadata mc mm :
  same_tree s s' → external_built outputDir releaseDir s data metadata mc mm → external_built outputDir releaseDir s' data metadata mc mm.
Proof.
  intros [Hp Hs] [? ? ? ? ? ? ?]. split; rewrite ?Hs, ?(locate_same _ _ _ Hp); try done. by eapply no_fault_same.
Qed.

(** The archive of the index files is not touched. *)
Lemma archive_kept outputDir releaseDir s s' data metadata mc mm :
  external_built outputDir releaseDir s data metadata mc mm → external_released releaseDir s data metadata s' →
  let O := locate outputDir s in
  (∃ m, os_files s' !! O = Some (Directory m)) ∧ os_files s' !! (O ++ [tar]) = os_files s !! (O ++ [tar]).
Proof.
  intros [Hf Hwf [Ho Hr] Hc Hm _ Hfree] (_ & _ & Hout). cbv zeta.
  destruct (wf_parent _ Hwf _ _ _ Hc) as [m Hm'].
  assert (¬ (locate releaseDir s ++ ["chaincode"]) `prefix_of` locate outputDir s) as H1.
  { intros [l E]. destruct l as [|x l]; [rewrite app_nil_r in E; congruence|].
    rewrite E in Hm'. destruct (wf_prefix _ _ _ _ Hwf Hm') as [m' ?]; [done|]. congruence. }
  split; [exists m; by rewrite Hout|]. apply Hout. intros [l E]. destruct l as [|y l] using rev_ind.
  - rewrite app_nil_r in E. by apply app_inj_tail in E as [_ [=]].
  - rewrite app_assoc in E. apply app_inj_tail in E as [E _]. apply H1. by exists l.
Qed.

(** What the index files are unpacked to is apart from chaincode. *)
Lemma index_not_chaincode (src : gmap fpath inode) (I E rel : fpath) :
  fs_wf src → src !! (I ++ ["chaincode"]) = None → is_Some (src !! (I ++ rel)) →
  ¬ (E ++ ["chaincode"]) `prefix_of` E ++ rel.
Proof.
  intros Hwf Hno [i Hi] [l Hl]. rewrite <- app_assoc in Hl. apply (inj _) in Hl as ->.
  destruct l as [|x l]; [cbn in Hi; congruence|]. change (["chaincode"] ++ x :: l) with (["chaincode"] ++ (x :: l)) in Hi.
  rewrite app_assoc in Hi. destruct (wf_prefix _ _ _ _ Hwf Hi) as [m ?]; [done|]. congruence.
Qed.

(** The release directory at the end: the two files below chaincode/server, the
    index files, and what was there. *)
Definition external_end (src : gmap fpath inode) (I E : fpath) (umask : Z) (data metadata : string) (fs fs' : gmap fpath inode) : Prop :=
  (∃ m, fs' !! (E ++ ["chaincode"; "server"; conn]) = Some (File m data)) ∧
  (∃ m, fs' !! (E ++ ["chaincode"; "server"; "metadata.json"]) = Some (File m metadata)) ∧
  (∀ rel i, rel ≠ [] → src !! (I ++ rel) = Some i → fs' !! (E ++ rel) = Some (extracted umask i)) ∧
  (∀ p, ¬ (E ++ ["chaincode"]) `prefix_of` p → (∀ rel, rel ≠ [] → is_Some (src !! (I ++ rel)) → p ≠ E ++ rel) →
     fs' !! p = fs !! p).

Lemma Release_Run_external `{TarFormat} order outputDir releaseDir data metadata mc mm t w src I :
  let s := cw_os w in
  let E := locate releaseDir s in
  let archive := os_files s !! (locate outputDir s ++ [tar]) in
  external_built outputDir releaseDir s data metadata mc mm →
  unmarshal_type metadata = inr t → ToLower t = "external" → (∀ d, order d ≡ₚ map_to_list d) →
  fs_wf src → names_ok src → packable src I → src !! (I ++ ["chaincode"]) = None →
  (∀ rel, rel ≠ [] → is_Some (src !! (I ++ rel)) → os_files s !! (E ++ rel) = None) →
  (∃ m l, tree_list src I l ∧ archive = Some (File m (tar_write (a_entries (archive_of l))))) ∨
    (∀ m, src !! I ≠ Some (Directory m)) ∧ archive = None →
  ∃ w', Release_Run order [outputDir; releaseDir] w = (Ok 0, w') ∧ cw_stderr w' = cw_stderr w ∧
    external_end src I E (os_umask s) data metadata (os_files s) (os_files (cw_os w')).
Proof.
  intros s E archive Hb Ht Hx Hord Hsrc Hnames Hgood Hnoc Hfree Har. pose proof Hb as [Hf Hwf [Ho Hr] Hc Hm [mr HR] Hnew].
  destruct (IsExternalCC_true outputDir s) as (s1 & E1 & H1); [done|done|done|by exists mm, metadata, t|].
  destruct (Release_HandleExternalCC_ok outputDir releaseDir s1 data metadata mc mm) as (s2 & E2 & P2 & Hwf2 & H2).
  { by eapply external_built_later. }
  assert (external_released releaseDir s data metadata s2) as H3.
  { destruct H1 as [P1 F1]. unfold external_released in *. rewrite (locate_same _ _ _ P1), F1 in H2. exact H2. }
  assert (same_process s s2) as P by (etrans; [apply H1|exact P2]).
  destruct (archive_kept outputDir releaseDir s s2 data metadata mc mm Hb H3) as [[mo HO] Htar].
  assert (no_fault s2) as Hf2 by by eapply no_fault_same.
  destruct H3 as ([m3 Hconn] & [m4 Hmeta] & Hout). fold E in Hconn, Hmeta, Hout. rewrite <- app_assoc in Hconn, Hmeta.
  assert (∀ rel, is_Some (src !! (I ++ rel)) → ∀ l, E ++ "chaincode" :: l ≠ E ++ rel) as Hapart.
  { intros rel Hi l Hl. apply (index_not_chaincode src I E rel Hsrc Hnoc Hi). rewrite <- Hl. exists l. by rewrite <- app_assoc. }
  destruct Har as [(m & l & Hl & Ha)|[Hdir Ha]].
  - destruct (Release_Run_archive order outputDir releaseDir w true s1 s2 src I l m mr)
      as (w' & Er & Hst & Hin & Hrest); rewrite ?(locate_same _ _ _ P); try done.
    + by rewrite Htar.
    + rewrite Hout; [done|]. intros [l' E']. rewrite <- app_assoc in E'. rewrite <- (app_nil_r (locate releaseDir s)) in E' at 1.
      by apply (inj _) in E'.
    + intros rel Hne Hi. rewrite Hout; [by apply Hfree|]. by apply (index_not_chaincode src I).
    + rewrite (locate_same _ _ _ P) in Hin, Hrest. destruct P as (_ & Hum & _). rewrite Hum in Hin.
      exists w'. split; [exact Er|]. split; [exact Hst|]. split; [|split; [|split; [exact Hin|]]].
      * exists m3. rewrite Hrest; [exact Hconn|]. intros rel _ Hi. by apply Hapart.
      * exists m4. rewrite Hrest; [exact Hmeta|]. intros rel _ Hi. by apply Hapart.
      * intros p Hp1 Hp2. rewrite Hrest by exact Hp2. by apply Hout.
  - set (name := Clean (PathJoin [outputDir; tar])).
    assert (∃ e, IsNotExist e = true ∧ Open name s2 = (Err e, tick s2)) as (e & He & E3).
    { exists (PathError "open" name ENOENT). split; [done|]. apply Open_missing; [done|].
      apply (find_inode_no_entry name (locate outputDir s) tar s2 mo); [done|apply Clean_not_empty| |done|by rewrite Htar].
      unfold name. rewrite locate_Clean, (locate_same _ _ _ P). by apply locate_child. }
    exists (put cw_lens (tick s2) w). split; [|split; [done|split; [by exists m3|split; [by exists m4|split]]]].
    + unfold Release_Run, arg. cbn [lookup list_lookup].
      rewrite (bind_ok _ _ w outputDir w), (bind_ok _ _ w releaseDir w) by done.
      rewrite (bind_ok _ _ _ _ _ (zoom_eq cw_lens _ w _ _ E1)). cbv iota zeta.
      rewrite (bind_ok _ _ _ _ _ (zoom_eq cw_lens _ (put cw_lens s1 w) _ _ E2)).
      rewrite (attempt_err _ _ _ _ _ (zoom_eq cw_lens _ (put cw_lens s2 (put cw_lens s1 w)) _ _ E3)). by rewrite He.
    + intros rel i Hne Hi. destruct (wf_prefix _ _ _ _ Hsrc Hi) as [m ?]; [done|]. by destruct (Hdir m).
    + intros p Hp _. by apply Hout.
Qed.

Lemma Build_Run_external `{TarFormat} depth conn SharedDir sourceDir metadataDir outputDir data w :
  external_input sourceDir metadataDir outputDir data (cw_os w) → 4 * tree_height (os_files (cw_os w)) + 4 < depth →
  ∃ w', Build_Run depth conn SharedDir [sourceDir; metadataDir; outputDir] w = (Ok 0, w') ∧
    cw_stderr w' = cw_stderr w ∧ same_process (cw_os w) (cw_os w') ∧ fs_wf (os_files (cw_os w')) ∧
    external_output sourceDir metadataDir outputDir data (cw_os w) (cw_os w').
Proof.
  intros Hin Hd. destruct (IsExternalCC_true metadataDir (cw_os w)) as (s1 & E1 & H1); [apply Hin|apply Hin| |apply Hin|].
  { by destruct (xi_paths _ _ _ _ _ Hin) as (_ & ? & _). }
  destruct (Build_HandleExternalCC_ok depth sourceDir metadataDir outputDir data s1) as (s2 & E2 & P2 & Hwf2 & H2).
  { by eapply external_input_later. } { by rewrite (proj2 H1). }
  exists (put cw_lens s2 w). split; [|split; [done|split; [etrans; [apply H1|exact P2]|split; [exact Hwf2|]]]].
  - unfold Build_Run, arg. cbn [lookup list_lookup].
    rewrite (bind_ok _ _ w sourceDir w), (bind_ok _ _ w metadataDir w), (bind_ok _ _ w outputDir w) by done.
    rewrite (bind_ok _ _ _ _ _ (zoom_eq cw_lens _ w _ _ E1)). cbv iota.
    by rewrite (bind_ok _ _ _ _ _ (zoom_eq cw_lens _ (put cw_lens s1 w) _ _ E2)).
  - destruct H1 as [P1 F1]. unfold external_output, index_dir in *. rewrite !(locate_same _ _ _ P1), F1, (proj1 (proj2 P1)) in H2. exact H2.
Qed.

(** ** Properties *)

(** C16: for a package of type external, without failures, Build and then Release
    succeed without asking anything of the side car, whatever it is: the peer's
    release directory then holds, below chaincode/server, what
    injectPeerIdentifier made of connection.json, and the metadata.json of the
    package, and next to it the tree below META-INF, when the package has that
    directory; the release changes nothing else. *)
Theorem external_delivers `{TarFormat} depth conn order SharedDir sourceDir metadataDir outputDir releaseDir data w mr mm metadata :
  let s := cw_os w in
  let E := locate releaseDir s in
  let I := index_dir sourceDir s in
  external_input sourceDir metadataDir outputDir data s → 4 * tree_height (os_files s) + 4 < depth →
  os_files s !! (locate metadataDir s ++ ["metadata.json"]) = Some (File mm metadata) →
  releaseDir ≠ "" → os_files s !! E = Some (Directory mr) → os_files s !! (E ++ ["chaincode"]) = None →
  E ≠ locate outputDir s → (∀ d, order d ≡ₚ map_to_list d) →
  os_files s !! (I ++ ["chaincode"]) = None →
  (∀ rel, rel ≠ [] → is_Some (os_files s !! (I ++ rel)) → os_files s !! (E ++ rel) = None) →
  ∃ w1 w2, Build_Run depth conn SharedDir [sourceDir; metadataDir; outputDir] w = (Ok 0, w1) ∧
    Release_Run order [outputDir; releaseDir] w1 = (Ok 0, w2) ∧ cw_stderr w2 = cw_stderr w ∧
    external_end (os_files s) I E (os_umask s) data metadata (os_files (cw_os w1)) (os_files (cw_os w2)).
Proof.
  intros s E I Hin Hd Hm Hr HE Hfree HEO Hord Hnoc Hapart.
  destruct (Build_Run_external depth conn SharedDir sourceDir metadataDir outputDir data w Hin Hd)
    as (w1 & E1 & Hst1 & P1 & Hwf1 & (mc & m' & c & _ & _ & Hconn) & Hcopied & Har & Helse).
  destruct (xi_metadata _ _ _ _ _ Hin) as (mm' & c' & t & Hm' & Ht & Hx). rewrite Hm in Hm'. injection Hm' as <- <-.
  assert (∀ p, ¬ locate outputDir s `prefix_of` p → os_files (cw_os w1) !! p = os_files s !! p) as Hout
    by (intros p Hp; apply Helse; intros; intros ->; apply Hp; by apply prefix_app_r).
  assert (external_built outputDir releaseDir (cw_os w1) data metadata m' (mkMeta (Z.ldiff (i_mode mm) (os_umask s)) (i_atime mm) (i_mtime mm))) as Hb.
  { split; rewrite ?(locate_same _ _ _ P1); fold s E; try done.
    - eapply no_fault_same; [exact P1|apply Hin].
    - by destruct (xi_paths _ _ _ _ _ Hin) as (_ & _ & ?).
    - rewrite Hcopied by by eexists. fold s. by rewrite Hm.
    - exists mr. rewrite Hout; [done|]. by apply (not_below_output sourceDir metadataDir outputDir data s Hin E _ HE).
    - rewrite Hout; [done|]. apply (not_above_output sourceDir metadataDir outputDir data s Hin E _ mr HE HEO).
      intros q Hq [l Hl]. destruct q as [|x q]; [done|]. injection Hl as <- Hl. symmetry in Hl. by apply app_nil in Hl as [-> _]. }
  destruct (Release_Run_external order outputDir releaseDir data metadata _ _ t w1 (os_files s) I Hb Ht Hx Hord)
    as (w2 & E2 & Hst2 & Hend); rewrite ?(locate_same _ _ _ P1); try apply Hin; try done.
  - intros rel Hne Hi. rewrite Hout; [by apply Hapart|].
    apply (not_above_output sourceDir metadataDir outputDir data s Hin E _ mr HE HEO). intros q Hq [l ->]. apply Hapart; [done|].
    destruct l as [|x l]; [by rewrite app_nil_r in Hi|]. destruct Hi as [i Hi]. rewrite app_assoc in Hi.
    destruct (wf_prefix _ _ _ _ (xi_wf _ _ _ _ _ Hin) Hi) as [m ?]; [done|]. by eexists.
  - rewrite (locate_same _ _ _ P1) in Hend. destruct P1 as (_ & Hum & _). rewrite Hum in Hend.
    exists w1, w2. split; [exact E1|]. split; [exact E2|]. split; [congruence|exact Hend].
Qed.

(** ** Witnesses *)
Module Demo.
Definition metadata_json : string := "{" +:+ JsonMap.Demo.q "type" +:+ ":" +:+ JsonMap.Demo.q "external" +:+ "}".
Definition tree : gmap fpath inode :=
  <[["src"; "META-INF"; "index.json"] := File CommandFacts.Demo.meta0 "{}"]>
  (<[["src"; "META-INF"] := Directory CommandFacts.Demo.dir0]>
  (<[["md"; "metadata.json"] := File CommandFacts.Demo.meta0 metadata_json]>
  (<[["rel"] := Directory CommandFacts.Demo.dir0]> CommandFacts.Demo.tree))).
Definition os0 : OS := mkOS tree [] 18 {[ "PEER_NAME" := "org 1peer" ]} 0 (λ _, None) (λ _, "7").

(** connection.json, and how it is rewritten. *)
Definition connection : gmap string json :=
  match unmarshal_map CommandFacts.Demo.connection_json with inr c => c | inl _ => ∅ end.
Definition data : string := marshal_map (<["address" := JString "cc.org1peer-ns:9999"]> connection).

Lemma ext_tree_wf : fs_wf tree.
Proof.
  apply (fs_wf_insert _ ["src"; "META-INF"] "index.json"); [|by eexists|done].
  apply (fs_wf_insert _ ["src"] "META-INF"); [|by eexists|done].
  apply (fs_wf_update _ _ (File CommandFacts.Demo.meta0 Metadata.Demo.metadata_json)); [|reflexivity|done].
  apply (fs_wf_insert _ [] "rel"); [apply CommandFacts.Demo.cmd_tree_wf|by eexists|done].
Defined.

Lemma ext_tree_names : names_ok tree.
Proof.
  intros p i Hi. unfold tree in Hi.
  repeat (apply lookup_insert_Some in Hi as [[<- _]|[_ Hi]]; [apply (bool_decide_unpack _); vm_compute; exact I|]).
  by eapply CommandFacts.Demo.cmd_tree_names.
Defined.

(** What is in the tree. *)
Lemma ext_tree_entries p i : tree !! p = Some i →
  p ∈ [["src"; "META-INF"; "index.json"]; ["src"; "META-INF"]; ["md"; "metadata.json"]; ["rel"]; ["src"; "connection.json"]; ["out"]; ["shared"]; ["md"]; ["src"]; []] ∧
  ∀ m, i ≠ Special m.
Proof.
  intros Hi. unfold tree, CommandFacts.Demo.tree in Hi.
  repeat (apply lookup_insert_Some in Hi as [[<- <-]|[_ Hi]];
    [split; [by apply (bool_decide_unpack (_ ∈ _)); vm_compute|done]|]).
  apply lookup_singleton_Some in Hi as [<- <-]. split; [by apply (bool_decide_unpack (_ ∈ _)); vm_compute|done].
Defined.
Lemma demo_injected : (injectPeerIdentifier "/src/connection.json" os0).1 = Ok data.
Proof.
  assert (connection !! "injectIdentifier" = Some (JString "domain") ∧ connection !! "address" = Some (JString "cc.ns:9999"))
    as [H1 H2] by (vm_compute; done).
  assert (unmarshal_map CommandFacts.Demo.connection_json = inr connection) as E by (vm_compute; reflexivity).
  destruct (injectPeerIdentifier_run "/src/connection.json" os0 CommandFacts.Demo.meta0 CommandFacts.Demo.connection_json connection)
    as [_ H]; [done|apply ext_tree_wf|done|reflexivity|exact E|].
  etrans; [apply (H "domain"); by rewrite H1|]. rewrite H2. reflexivity.
Defined.
End Demo.

Lemma external_delivers_witness :
  ∃ w1 w2, @Build_Run Plain.format 20 CommandFacts.Demo.conn "/shared" ["/src"; "/md"; "/out"] (mkCworld Demo.os0 []) = (Ok 0, w1) ∧
    @Release_Run Plain.format TarFacts.Demo.by_key ["/out"; "/rel"] w1 = (Ok 0, w2) ∧
    (∃ m, os_files (cw_os w2) !! ["rel"; "chaincode"; "server"; "connection.json"] = Some (File m Demo.data)) ∧
    os_files (cw_os w2) !! ["rel"; "index.json"] = Some (File (mkMeta 420 4 4) "{}").
Proof.
  assert (@external_input Plain.format "/src" "/md" "/out" Demo.data Demo.os0) as Hin.
  { split.
    - done.
    - apply Demo.ext_tree_wf.
    - apply Demo.ext_tree_names.
    - done.
    - by eexists _, _.
    - exact Demo.demo_injected.
    - constructor.
    - intros rel i _ Hi. split; [|done]. by apply (Demo.ext_tree_entries _ _ Hi).
    - by intros [? [=]].
    - by eexists _, _, _.
    - intros rel m [_ Hi]%Demo.ext_tree_entries. by apply (Hi m).
    - done.
    - done.
    - by eexists.
    - intros rel Hne. change (Demo.tree !! ("out" :: rel) = None). destruct (Demo.tree !! ("out" :: rel)) as [i|] eqn:Hi; [|done].
      exfalso. apply Demo.ext_tree_entries in Hi as [Hi _].
      rewrite !elem_of_cons, elem_of_nil in Hi. repeat (destruct Hi as [Hi|Hi]; [by simplify_eq|]). done.
    - by intros [? [=]]. }
  destruct (@external_delivers Plain.format 20 CommandFacts.Demo.conn TarFacts.Demo.by_key "/shared" "/src" "/md" "/out" "/rel"
    Demo.data (mkCworld Demo.os0 []) CommandFacts.Demo.dir0 CommandFacts.Demo.meta0 Demo.metadata_json)
    as (w1 & w2 & E1 & E2 & _ & Hc & _ & Hi & _).
  - exact Hin.
  - apply (bool_decide_unpack _). by vm_compute.
  - reflexivity.
  - done.
  - reflexivity.
  - reflexivity.
  - done.
  - intros d. reflexivity.
  - reflexivity.
  - intros rel Hne _. change (Demo.tree !! ("rel" :: rel) = None). destruct (Demo.tree !! ("rel" :: rel)) as [i|] eqn:Hi; [|done].
    exfalso. apply Demo.ext_tree_entries in Hi as [Hi _].
    rewrite !elem_of_cons, elem_of_nil in Hi. repeat (destruct Hi as [Hi|Hi]; [by simplify_eq|]). done.
  - exists w1, w2. split; [exact E1|]. split; [exact E2|]. split; [exact Hc|].
    by apply (Hi ["index.json"] (File CommandFacts.Demo.meta0 "{}")).
Defined.
