(* ===== verification/BuildFacts.v ===== *)
(** * A build, from the peer's package to the peer's output

    Build.Run of pkg/command (Command.v) as a whole, for a package that the side
    car builds: the archives it prepares hold the package, what the side car
    leaves in the temporary directory reaches the output directory, and the
    messages reach standard error. *)
From S2P Require Import Prelude GoStrings GoPath OsModel Sidecar TarFormat Json Fs CopyFacts Tar TarFacts TarRoundTrip.
From S2P Require Import Url Metadata Command CommandFacts ReleaseFacts.

(** ** Preparing the archives *)

Section packing.
Context `{TarFormat} (F : gmap fpath inode) (T : fpath).

(** A state in which the tree is F but for files in the directory T. *)
Record packing (s : OS) : Prop := {
  pk_fault : no_fault s;
  pk_wf : fs_wf (os_files s);
  pk_names : names_ok (os_files s);
  pk_cwd : Forall name_ok (os_cwd s);
  pk_dir : ∃ m, os_files s !! T = Some (Directory m);
  pk_same p : ¬ T `prefix_of` p → os_files s !! p = F !! p;
  pk_flat rel i : os_files s !! (T ++ rel) = Some i → length rel ≤ 1;
  pk_plain rel m : os_files s !! (T ++ rel) ≠ Some (Special m) }.

(** The directory of a package can be packed. *)
Record to_pack (dir : string) (s : OS) (D : fpath) : Prop := {
  tp_path : dir ≠ "";
  tp_locate : locate dir s = D;
  tp_dir : ∃ m, F !! D = Some (Directory m);
  tp_below : ¬ T `prefix_of` D;
  tp_above : ¬ D `prefix_of` T;
  tp_good : packable F D }.

Context (depth : nat) (HT : length T ≤ S (tree_height F)) (Hdepth : 2 * tree_height F + 4 < depth).

Lemma packing_height s : packing s → tree_height (os_files s) ≤ tree_height F + 2.
Proof using HT Hdepth.
  intros [_ _ _ _ _ Hsame Hflat _]. apply tree_height_le. intros k i Hi.
  destruct (decide (T `prefix_of` k)) as [[rel ->]|Hk].
  - apply Hflat in Hi. rewrite length_app. lia.
  - rewrite Hsame in Hi by done. apply tree_height_spec in Hi. lia.
Qed.

(** One archive. *)
Lemma pack_one tempDir name dir D s :
  packing s → tempDir ≠ "" → locate tempDir s = T → name_ok name → os_files s !! (T ++ [name]) = None →
  to_pack dir s D →
  ∃ s' m' l, createTar depth (PathJoin [tempDir; name]) dir s = (Ok tt, s') ∧ same_process s s' ∧ packing s' ∧
    os_files s' = <[T ++ [name] := File m' (tar_write (a_entries (archive_of l)))]> (os_files s) ∧ tree_list F D l.
Proof using HT Hdepth.
  intros Hs Htd HlT Hname Hnew [Hd HD [m Hm] Hbelow Habove Hgood].
  pose proof (packing_height s Hs) as Hh. pose proof Hs as [Hf Hwf Hn Hcwd [mT HmT] Hsame Hflat Hplain].
  assert (∀ rel, os_files s !! (D ++ rel) = F !! (D ++ rel)) as HDs.
  { intros rel. apply Hsame. intros [rel' E]. by apply (apart_not_prefix D T rel rel' Habove Hbelow). }
  destruct (createTar_items depth tempDir name dir s mT m) as (s' & m' & l & E & Hp & Hs' & Hl); rewrite ?HlT, ?HD in *; try done.
  - pose proof (HDs []) as E. rewrite app_nil_r in E. by rewrite E.
  - intros [l El]. destruct l as [|x l].
    + rewrite app_nil_r in El. apply Hbelow. rewrite <- El. by apply prefix_app_r.
    + destruct (exists_last (l := x :: l) ltac:(done)) as (l' & z & Ez). rewrite Ez, app_assoc in El.
      apply app_inj_tail in El as [El _]. apply Habove. by exists l'.
  - intros rel i Hne. rewrite HDs. by apply Hgood.
  - rewrite length_app. simpl. lia.
  - exists s', m', l. split; [exact E|]. split; [exact Hp|]. split; [|split; [exact Hs'|]].
    + split; rewrite ?Hs'.
      * by eapply no_fault_same.
      * apply fs_wf_insert; [done|by eexists|done].
      * intros p i. rewrite lookup_insert_Some. intros [[<- _]|[_ Hi]]; [|by eapply Hn].
        apply Forall_app. split; [by eapply Hn|by constructor].
      * destruct Hp as (-> & _). done.
      * exists mT. rewrite lookup_insert_ne; [done|]. intros El. apply (f_equal length) in El.
        rewrite length_app in El. simpl in El. lia.
      * intros p Hp'. rewrite lookup_insert_ne; [by apply Hsame|]. intros <-. apply Hp'. by apply prefix_app_r.
      * intros rel i. rewrite lookup_insert_Some. intros [[El _]|[_ Hi]]; [|by eapply Hflat].
        apply (inj _) in El as <-. done.
      * intros rel m0. rewrite lookup_insert_Some. intros [[_ [=]]|[_ Hi]]. by eapply Hplain.
    + destruct Hl as [Hord Hel]. split; [exact Hord|]. intros rel i. by rewrite Hel, HDs.
Qed.

Lemma to_pack_later dir s s' D : same_process s s' → to_pack dir s D → to_pack dir s' D.
Proof using. intros Hp [? Hl ? ? ? ?]. split; try done. by rewrite (locate_same _ _ _ Hp). Qed.

(** A file of a tree is the archive of a directory. *)
Definition holds_archive (fs : gmap fpath inode) (k D : fpath) : Prop :=
  ∃ m l, fs !! k = Some (File m (tar_write (a_entries (archive_of l)))) ∧ tree_list F D l.

(** An archive stays when others are made. *)
Lemma holds_archive_insert fs k k' i D : k ≠ k' → holds_archive fs k D → holds_archive (<[k' := i]> fs) k D.
Proof using. intros Hk (m & l & Hi & Hl). exists m, l. by rewrite lookup_insert_ne. Qed.

Lemma pack_next tempDir name dir D s :
  packing s → tempDir ≠ "" → locate tempDir s = T → bool_decide (name_ok name) = true → os_files s !! (T ++ [name]) = None →
  to_pack dir s D →
  ∃ s', createTar depth (PathJoin [tempDir; name]) dir s = (Ok tt, s') ∧ same_process s s' ∧ packing s' ∧
    holds_archive (os_files s') (T ++ [name]) D ∧
    (∀ x D', x ≠ name → holds_archive (os_files s) (T ++ [x]) D' → holds_archive (os_files s') (T ++ [x]) D') ∧
    (∀ x, x ≠ name → os_files s' !! (T ++ [x]) = os_files s !! (T ++ [x])).
Proof using HT Hdepth.
  intros Hs Htd HlT Hname%bool_decide_eq_true_1 Hnew Hd.
  destruct (pack_one tempDir name dir D s Hs Htd HlT Hname Hnew Hd) as (s' & m' & l & E & Hp & Hpk & Hs' & Hl).
  assert (∀ x, x ≠ name → T ++ [x] ≠ T ++ [name]) as Hne by (intros x Hx [=]%(inj _); done).
  exists s'. split; [exact E|]. split; [exact Hp|]. split; [exact Hpk|]. rewrite Hs'. split; [|split].
  - exists m', l. by rewrite lookup_insert_eq.
  - intros x D' Hx. by apply holds_archive_insert, Hne.
  - intros x Hx. apply lookup_insert_ne, not_eq_sym. by apply Hne.
Qed.

Definition index_dir (A : fpath) : bool :=
  match F !! (A ++ ["META-INF"]) with Some i => IsDir i | None => false end.

(** What a build hands to the side car: the archives of the source, of the
    metadata and of the index files, if there are any, and nothing else. *)
Record archived (fs : gmap fpath inode) (A D : fpath) : Prop := {
  ar_source : holds_archive fs (T ++ ["chaincode-source.tar"]) A;
  ar_metadata : holds_archive fs (T ++ ["package-metadata.tar"]) D;
  ar_index : if index_dir A then holds_archive fs (T ++ ["chaincode-metadata.tar"]) (A ++ ["META-INF"])
             else fs !! (T ++ ["chaincode-metadata.tar"]) = None;
  ar_only y : y ∉ ["chaincode-source.tar"; "package-metadata.tar"; "chaincode-metadata.tar"] → fs !! (T ++ [y]) = None }.

Lemma populate_ok tempDir sourceDir metadataDir A D s :
  packing s → tempDir ≠ "" → locate tempDir s = T → (∀ x, os_files s !! (T ++ [x]) = None) →
  to_pack sourceDir s A → to_pack metadataDir s D → (index_dir A = true → packable F (A ++ ["META-INF"])) →
  ∃ s', populate_build depth tempDir sourceDir metadataDir s = (Ok tt, s') ∧ same_process s s' ∧ packing s' ∧
    archived (os_files s') A D.
Proof using HT Hdepth.
  intros Hs Htd HlT Hnew HA HD Hidx. unfold populate_build.
  destruct (pack_next tempDir "chaincode-source.tar" sourceDir A s) as (s1 & E1 & P1 & K1 & A1 & O1 & N1); try done.
  rewrite (bind_ok _ _ _ _ _ E1). set (idx := PathJoin [sourceDir; "META-INF"]).
  pose proof (to_pack_later _ _ _ _ P1 HA) as [HAp HAl [mA HmA] HAb HAa _].
  assert (locate idx s1 = A ++ ["META-INF"]) as Hli by (unfold locate, idx in *; rewrite resolve_child, HAl; [done|done|by apply (bool_decide_unpack _)]).
  assert (idx ≠ "") as Hi by by apply PathJoin_not_empty.
  assert (¬ T `prefix_of` A ++ ["META-INF"]) as HTi.
  { intros [l El]. destruct l as [|x l] using rev_ind.
    - rewrite app_nil_r in El. apply HAa. rewrite <- El. by apply prefix_app_r.
    - rewrite app_assoc in El. apply app_inj_tail in El as [El _]. apply HAb. by exists l. }
  assert (dirExists idx s1 = (Ok (index_dir A), tick s1)) as Ed.
  { rewrite dirExists_ok, Hli; [|apply K1|apply K1|done]. unfold index_dir. by rewrite (pk_same _ K1). }
  rewrite (bind_ok _ _ _ _ _ Ed).
  assert (packing (tick s1)) as K1' by (destruct K1; by split).
  assert (∃ s2, (if index_dir A then createTar depth (PathJoin [tempDir; "chaincode-metadata.tar"]) idx else mret tt) (tick s1) = (Ok tt, s2) ∧
    same_process s1 s2 ∧ packing s2 ∧ holds_archive (os_files s2) (T ++ ["chaincode-source.tar"]) A ∧
    os_files s2 !! (T ++ ["package-metadata.tar"]) = None ∧
    (if index_dir A then holds_archive (os_files s2) (T ++ ["chaincode-metadata.tar"]) (A ++ ["META-INF"])
     else os_files s2 !! (T ++ ["chaincode-metadata.tar"]) = None) ∧
    (∀ y, y ≠ "chaincode-source.tar" → y ≠ "chaincode-metadata.tar" → os_files s2 !! (T ++ [y]) = None))
    as (s2 & E2 & P2 & K2 & A2 & N2 & I2 & Y2).
  { destruct (index_dir A) eqn:Hx.
    - destruct (pack_next tempDir "chaincode-metadata.tar" idx (A ++ ["META-INF"]) (tick s1)) as (s2 & E2 & P2 & K2 & I2 & O2 & N2); try done.
      + by rewrite <- HlT; apply locate_same.
      + cbn. by rewrite N1, Hnew.
      + split; [done|exact Hli| |done| |by apply Hidx].
        * unfold index_dir in Hx. destruct (F !! (A ++ ["META-INF"])) as [[|m|]|]; try done. by exists m.
        * intros Hpre. apply HAa. etrans; [|exact Hpre]. by apply prefix_app_r.
      + exists s2. split; [exact E2|]. split; [exact P2|]. split; [exact K2|]. split; [by apply O2|]. split; [|split; [exact I2|]].
        { rewrite N2 by done. cbn. by rewrite N1, Hnew. } intros y H1 H2. rewrite N2 by done. cbn. by rewrite N1, Hnew.
    - exists (tick s1). split; [done|]. split; [done|]. split; [exact K1'|]. split; [exact A1|]. cbn.
      split; [by rewrite N1, Hnew|]. split; [by rewrite N1, Hnew|]. intros y H1 _. by rewrite N1, Hnew. }
  rewrite (bind_ok _ _ _ _ _ E2). assert (same_process s s2) as P by by etrans.
  destruct (pack_next tempDir "package-metadata.tar" metadataDir D s2) as (s3 & E3 & P3 & K3 & I3 & O3 & N3); try done.
  { by rewrite <- HlT; apply locate_same. } { by eapply to_pack_later. }
  exists s3. split; [exact E3|]. split; [by etrans|]. split; [exact K3|]. split; [by apply O3|exact I3| |].
  { destruct (index_dir A); [by apply O3|by rewrite N3]. }
  intros y Hy. rewrite !not_elem_of_cons in Hy. destruct Hy as (H1 & H2 & H3 & _). rewrite N3 by done. by apply Y2.
Qed.
End packing.

(** ** The temporary directory, and the stream *)

Lemma is_digit_alnum a : is_digit a = true → is_alnum a = true.
Proof. unfold is_alnum. intros ->. by rewrite orb_true_r. Qed.

Lemma alnum_name_ok x : x ≠ "" → all_bytes is_alnum x = true → name_ok x.
Proof.
  intros Hx Ha. pose proof (all_bytes_not slash is_alnum x eq_refl Ha) as Hs. split; [|done].
  repeat split; [done|by intros ->..].
Qed.

Lemma TempDir_new dir prefix s m :
  let x := prefix +:+ os_tmp s (os_tick s) in
  no_fault s → fs_wf (os_files s) → dir ≠ "" → name_ok x →
  os_files s !! locate dir s = Some (Directory m) → os_files s !! (locate dir s ++ [x]) = None →
  TempDir dir prefix s =
    (Ok (join_dir dir x), set_files <[locate dir s ++ [x] := Directory (new_meta 448 (tick s))]> (tick s)).
Proof.
  intros x Hf Hwf Hd Hx Hm Hn. unfold TempDir. rewrite bool_decide_eq_false_2 by done.
  rewrite (bind_ok _ _ s dir s) by done. generalize (Z.to_nat 9999). intros n.
  assert (locate (join_dir dir x) s = locate dir s ++ [x]) as Hl by by apply resolve_join_dir.
  assert (mkdir (locate (join_dir dir x) s) (join_dir dir x) 448 s =
    (Ok tt, set_files <[locate dir s ++ [x] := Directory (new_meta 448 (tick s))]> (tick s))) as E.
  { rewrite Hl. apply mkdir_ok; [done|by eapply parent_ok_dir|done]. }
  destruct n as [|n]; cbn [temp_try]; rewrite (bind_ok _ _ s (join_dir dir x) s) by done;
    rewrite (bind_ok _ _ s (locate (join_dir dir x) s) s) by done; by rewrite (attempt_ok _ _ _ _ _ E).
Qed.

(** The temporary directory of a command has a new name, made of the prefix
    and a decimal number. *)
Record has_temp (SharedDir prefix : string) (s : OS) : Prop := {
  ht_path : SharedDir ≠ "";
  ht_prefix : prefix ≠ "" ∧ all_bytes is_alnum prefix = true;
  ht_shared : ∃ m, os_files s !! locate SharedDir s = Some (Directory m);
  ht_random t : all_bytes is_digit (os_tmp s t) = true;
  ht_free t : os_files s !! (locate SharedDir s ++ [prefix +:+ os_tmp s t]) = None }.

Lemma temp_dir SharedDir prefix s s0 :
  no_fault s → fs_wf (os_files s) → has_temp SharedDir prefix s → same_tree s s0 →
  ∃ x s1 m, TempDir SharedDir prefix s0 = (Ok (join_dir SharedDir x), s1) ∧ name_ok x ∧ all_bytes is_alnum x = true ∧
    let T := locate SharedDir s ++ [x] in
    os_files s !! T = None ∧ same_process s s1 ∧ os_files s1 = <[T := Directory m]> (os_files s) ∧
    locate (join_dir SharedDir x) s = T ∧ Rel SharedDir (join_dir SharedDir x) = inr x.
Proof.
  intros Hf Hwf [Hd (Hp1 & Hp2) [m Hm] Hr Hfree] [Hp Hs].
  set (x := prefix +:+ os_tmp s (os_tick s0)).
  assert (all_bytes is_alnum x = true) as Ha.
  { unfold x. rewrite all_bytes_app, Hp2. exact (all_bytes_impl is_digit is_alnum _ is_digit_alnum (Hr _)). }
  assert (name_ok x) as Hx by (apply alnum_name_ok; [unfold x; by destruct prefix|done]).
  pose proof (TempDir_new SharedDir prefix s0 m) as E. cbv zeta in E.
  assert (os_tmp s0 = os_tmp s) as Ht by apply Hp. rewrite Ht in E. fold x in E.
  rewrite Hs, (locate_same _ _ _ Hp) in E.
  exists x. do 2 eexists. split; [apply E; try done; [by eapply no_fault_same|apply Hfree]|]. split; [exact Hx|]. split; [exact Ha|]. cbv zeta.
  split; [apply Hfree|]. split; [exact Hp|]. split; [cbn; by rewrite Hs|]. split; [by apply resolve_join_dir|].
  rewrite (Rel_below SharedDir (join_dir SharedDir x) [x]); [done|by apply rooted_join_dir|by apply cleaned_elems_join_dir|done].
Qed.

Definition texts (rs : list response) : list string :=
  omap (λ r, match r with StandardOut t | StandardError t => Some t | NoMessage => None end) rs.

(** What a call gives at the end of its stream. *)
Definition stream_result {A} (a : A) (e : option go_error) : outcome A :=
  match e with Some e => Err e | None => Ok a end.

Lemma receive_ok rs e w :
  NoMessage ∉ rs → receive rs e w = (stream_result tt e, mkCworld (cw_os w) (cw_stderr w ++ texts rs)).
Proof.
  revert w. induction rs as [|r rs IH]; intros w Hn; cbn [receive].
  - rewrite app_nil_r. destruct w. by destruct e.
  - apply not_elem_of_cons in Hn as [Hr Hn]. destruct r as [t|t|]; [| |done];
      (unfold mbind at 1, M_bind at 1; cbn; rewrite IH by done; cbn; rewrite <- app_assoc; done).
Qed.

(** ** The side car *)

(** A state in which T is a directory of files and directories. *)
Record tidy (T : fpath) (s : OS) : Prop := {
  td_fault : no_fault s;
  td_wf : fs_wf (os_files s);
  td_names : names_ok (os_files s);
  td_dir : ∃ m, os_files s !! T = Some (Directory m);
  td_plain rel m : os_files s !! (T ++ rel) ≠ Some (Special m) }.

(** A side car that builds: when the directory of a request is as [given] says,
    it answers with messages and the end of the stream, and changes nothing but
    what is below that directory, which it leaves in order, and as [leaves]
    says. *)
Definition builds (conn : connection) (SharedDir : string) (depth : nat) (given : fpath → OS → Prop)
    (leaves : fpath → OS → OS → Prop) : Prop :=
  ∀ x s, let T := locate SharedDir s ++ [x] in
    all_bytes is_alnum x = true → given T s → tidy T s → S (tree_height (os_files s)) < depth →
    ∃ rs s', call_Build conn (build_request x) s = (Ok (rs, None), s') ∧ (NoMessage ∉ rs) ∧
      same_process s s' ∧ tidy T s' ∧ tree_height (os_files s') < depth ∧
      (∀ p, ¬ T `prefix_of` p → os_files s' !! p = os_files s !! p) ∧ leaves T s s'.

(** The side car adds the output it was asked for, and nothing else. *)
Definition writes_output (output : string) (T : fpath) (s s' : OS) : Prop :=
  let k := T ++ ["chaincode-output.tar"] in
  os_files s !! k = None → ∃ m, os_files s' = <[k := File m output]> (os_files s).

(** A new file in the directory of a request. *)
Lemma tidy_output T y m c s s' :
  tidy T s → name_ok y → os_files s !! (T ++ [y]) = None → same_process s s' →
  os_files s' = <[T ++ [y] := File m c]> (os_files s) →
  tidy T s' ∧ tree_height (os_files s') ≤ S (tree_height (os_files s)) ∧
  (∀ p, ¬ T `prefix_of` p → os_files s' !! p = os_files s !! p).
Proof.
  intros [Hf Hwf Hn [mT HmT] Hplain] Hy Hnew Hp Hs'. rewrite Hs'. split; [|split].
  - split; rewrite ?Hs'; [by eapply no_fault_same|apply fs_wf_insert; [done|by eexists|done]| | |].
    + intros p j. rewrite lookup_insert_Some. intros [[<- _]|[_ Hj]]; [|by eapply Hn].
      apply Forall_app. split; [by eapply Hn|by constructor].
    + exists mT. rewrite lookup_insert_ne; [done|]. intros E. apply (f_equal length) in E.
      rewrite length_app in E. simpl in E. lia.
    + intros rel m'. rewrite lookup_insert_Some. intros [[_ [=]]|[_ Hj]]. by eapply Hplain.
  - apply tree_height_le. intros k j. apply tree_height_spec in HmT. rewrite lookup_insert_Some.
    intros [[<- _]|[_ Hj]]; [rewrite length_app; simpl; lia|]. apply tree_height_spec in Hj. lia.
  - intros p Hp'. apply lookup_insert_ne. intros <-. apply Hp'. by apply prefix_app_r.
Qed.

(** Copying the result. *)
Lemma copy_out depth tempDir outputDir T O s :
  tidy T s → tempDir ≠ "" → outputDir ≠ "" → locate tempDir s = T → locate outputDir s = O →
  (∃ m, os_files s !! O = Some (Directory m)) → ¬ T `prefix_of` O → ¬ O `prefix_of` T →
  (∀ rel, rel ≠ [] → os_files s !! (O ++ rel) = None) → tree_height (os_files s) < depth →
  ∃ s', CopyDir depth tempDir outputDir s = (Ok tt, s') ∧ same_process s s' ∧ fs_wf (os_files s') ∧
    (∀ y l, is_Some (os_files s !! (T ++ [y])) →
       os_files s' !! (O ++ y :: l) = copy_of (os_umask s) <$> os_files s !! (T ++ y :: l)) ∧
    (∀ p, (∀ y l, is_Some (os_files s !! (T ++ [y])) → p ≠ O ++ y :: l) → os_files s' !! p = os_files s !! p).
Proof.
  intros [Hf Hwf Hn [m Hm] Hplain] Ht Ho HlT HlO HO H1 H2 Hempty Hd.
  destruct (copies_dir_all (os_files s) Hn depth tempDir outputDir T O s m) as (s' & E & (Hp & Hwf' & Hout) & Hc); try done.
  - split; try done. intros rel rel'. by apply apart_not_prefix.
  - intros y l _. by apply Hempty.
  - lia.
  - exists s'. split; [exact E|]. split; [exact Hp|]. split; [exact Hwf'|]. split; [intros y l Hy; by apply Hc|].
    intros p Hno. apply Hout. intros y l Hy. apply Hno. apply list_elem_of_fmap in Hy as ([z i] & -> & Hz).
    apply elem_of_children in Hz. by exists i.
Qed.

Lemma RemoveAll_ok p s :
  no_fault s → RemoveAll p s = (Ok tt, set_files (filter (λ ki, ¬ locate p s `prefix_of` ki.1)) (tick s)).
Proof. intros Hf. unfold RemoveAll, sys. by rewrite Hf. Qed.

Lemma fs_wf_remove fs k : k ≠ [] → fs_wf fs → fs_wf (filter (λ ki, ¬ k `prefix_of` ki.1) fs).
Proof.
  intros Hk [[m Hm] Hp]. split.
  - exists m. apply map_lookup_filter_Some. split; [done|]. intros [l El]. by destruct k.
  - intros p x i [Hi Hn]%map_lookup_filter_Some. destruct (Hp p x i Hi) as [m' Hm']. exists m'.
    apply map_lookup_filter_Some. split; [done|]. intros Hpre. apply Hn. cbn in *. by apply prefix_app_r.
Qed.

(** With what is below T, which was not there before, everything is back. *)
Lemma lookup_removed (F fs : gmap fpath inode) T p :
  fs_wf F → F !! T = None → (¬ T `prefix_of` p → fs !! p = F !! p) →
  filter (λ ki, ¬ T `prefix_of` ki.1) fs !! p = F !! p.
Proof.
  intros Hwf HT Hp. rewrite map_lookup_filter. destruct (decide (T `prefix_of` p)) as [Hpre|Hpre].
  - transitivity (None : option inode).
    + destruct (fs !! p) as [i|]; [|done]. cbn. by rewrite option_guard_False by (intros Hnp; by apply Hnp).
    + destruct Hpre as [[|y l] ->]; [by rewrite app_nil_r|]. destruct (F !! (T ++ y :: l)) as [i|] eqn:Hi; [|done].
      destruct (wf_prefix _ _ _ _ Hwf Hi) as [m' ?]; [done|]. congruence.
  - rewrite Hp by done. destruct (F !! p) as [i|]; [|done]. cbn. by rewrite option_guard_True.
Qed.

(** ** A whole build *)

(** What a build starts from. *)
Record build_input `{TarFormat} (SharedDir sourceDir metadataDir outputDir : string) (s : OS) : Prop := {
  bi_fault : no_fault s;
  bi_wf : fs_wf (os_files s);
  bi_names : names_ok (os_files s);
  bi_cwd : Forall name_ok (os_cwd s);
  bi_paths : sourceDir ≠ "" ∧ metadataDir ≠ "" ∧ outputDir ≠ "";
  bi_temp : has_temp SharedDir "build" s;
  bi_source : ∃ m, os_files s !! locate sourceDir s = Some (Directory m);
  bi_metadata : ∃ m, os_files s !! locate metadataDir s = Some (Directory m);
  bi_output : ∃ m, os_files s !! locate outputDir s = Some (Directory m);
  bi_empty rel : rel ≠ [] → os_files s !! (locate outputDir s ++ rel) = None;
  bi_apart d : d ∈ [sourceDir; metadataDir; outputDir] → ¬ locate d s `prefix_of` locate SharedDir s;
  bi_good : packable (os_files s) (locate sourceDir s) ∧ packable (os_files s) (locate metadataDir s);
  bi_index : index_dir (os_files s) (locate sourceDir s) = true →
    packable (os_files s) (locate sourceDir s ++ ["META-INF"]);
  bi_kind : not_external metadataDir s }.

Section build.
Context `{TarFormat} (depth : nat) (conn : connection) (SharedDir sourceDir metadataDir outputDir : string) (s : OS).
Context (Hin : build_input SharedDir sourceDir metadataDir outputDir s) (Hdepth : 2 * tree_height (os_files s) + 4 < depth).

#[local] Abbreviation F := (os_files s).

Lemma apart_temp d x mode :
  d ∈ [sourceDir; metadataDir; outputDir] → F !! locate d s = Some (Directory mode) → F !! (locate SharedDir s ++ [x]) = None →
  ¬ (locate SharedDir s ++ [x]) `prefix_of` locate d s ∧ ¬ locate d s `prefix_of` locate SharedDir s ++ [x].
Proof using Hin.
  intros Hd Hm Hx. pose proof (bi_apart _ _ _ _ _ Hin d Hd) as Hap.
  assert (¬ (locate SharedDir s ++ [x]) `prefix_of` locate d s) as H1.
  { intros [l El]. destruct l as [|y l]; [rewrite app_nil_r in El; congruence|]. rewrite El in Hm.
    destruct (wf_prefix _ _ _ _ (bi_wf _ _ _ _ _ Hin) Hm) as [m ?]; [done|]. congruence. }
  split; [exact H1|]. intros [l El]. destruct l as [|y l] using rev_ind.
  - rewrite app_nil_r in El. apply H1. by rewrite El.
  - rewrite app_assoc in El. apply app_inj_tail in El as [El _]. apply Hap. by exists l.
Qed.

Lemma packing_temp x s1 m :
  name_ok x → F !! (locate SharedDir s ++ [x]) = None → same_process s s1 →
  os_files s1 = <[locate SharedDir s ++ [x] := Directory m]> F →
  packing F (locate SharedDir s ++ [x]) s1 ∧ ∀ y, os_files s1 !! ((locate SharedDir s ++ [x]) ++ [y]) = None.
Proof using Hin Hdepth.
  intros Hx Hn Hp Hs1. pose proof Hin as [Hf Hwf Hnames Hcwd _ [_ _ [ms Hms] _ _] _ _ _ _ _ _ _ _].
  set (T := locate SharedDir s ++ [x]) in *.
  assert (∀ rel, rel ≠ [] → os_files s1 !! (T ++ rel) = None) as Hnew.
  { intros rel Hne. rewrite Hs1, lookup_insert_ne.
    - destruct (F !! (T ++ rel)) as [i|] eqn:Hi; [|done]. destruct (wf_prefix _ _ _ _ Hwf Hi Hne) as [m' ?]. congruence.
    - intros E. apply (f_equal length) in E. rewrite length_app in E. destruct rel; simpl in E; [done|lia]. }
  split; [|intros y; by apply Hnew]. split.
  - by eapply no_fault_same.
  - rewrite Hs1. apply fs_wf_insert; [done|by eexists|done].
  - rewrite Hs1. intros p i. rewrite lookup_insert_Some. intros [[<- _]|[_ Hi]]; [|by eapply Hnames].
    apply Forall_app. split; [by eapply Hnames|by constructor].
  - destruct Hp as (-> & _). done.
  - exists m. by rewrite Hs1, lookup_insert_eq.
  - intros p Hnp. rewrite Hs1. apply lookup_insert_ne. by intros <-.
  - intros rel i Hi. destruct rel as [|y rel]; [simpl; lia|]. by rewrite Hnew in Hi.
  - intros rel m' Hi. destruct rel as [|y rel]; [|by rewrite Hnew in Hi].
    rewrite app_nil_r, Hs1, lookup_insert_eq in Hi. done.
Qed.

(** The archives are ready when the side car is called. *)
Lemma prepared x s1 m :
  let T := locate SharedDir s ++ [x] in
  name_ok x → F !! T = None → same_process s s1 → os_files s1 = <[T := Directory m]> F →
  locate (join_dir SharedDir x) s = T →
  ∃ s2, populate_build depth (join_dir SharedDir x) sourceDir metadataDir s1 = (Ok tt, s2) ∧ same_process s s2 ∧
    packing F T s2 ∧ length T ≤ S (tree_height F) ∧
    archived F T (os_files s2) (locate sourceDir s) (locate metadataDir s).
Proof using Hin Hdepth.
  intros T Hx Hn Hp Hs1 HlT. destruct (packing_temp x s1 m Hx Hn Hp Hs1) as [Hpk Hnew]. fold T in Hpk, Hnew.
  pose proof Hin as [_ _ _ _ (Hd2 & Hd3 & _) [Hd1 _ [ms Hms] _ _] [mA HA] [mD HD] _ _ _ [Hg1 Hg2] Hidx _].
  assert (length T ≤ S (tree_height F)) as HT by (unfold T; rewrite length_app; apply tree_height_spec in Hms; simpl; lia).
  destruct (apart_temp sourceDir x mA) as [A1 A2]; [apply list_elem_of_here|done|done|].
  destruct (apart_temp metadataDir x mD) as [D1 D2]; [by apply list_elem_of_further, list_elem_of_here|done|done|].
  destruct (populate_ok F T depth HT Hdepth (join_dir SharedDir x) sourceDir metadataDir (locate sourceDir s) (locate metadataDir s) s1)
    as (s2 & E & P2 & K2 & Har); try done.
  - by apply join_dir_not_empty.
  - by rewrite (locate_same _ _ _ Hp).
  - split; [done|by apply locate_same|by exists mA|done|done|done].
  - split; [done|by apply locate_same|by exists mD|done|done|done].
  - exists s2. split; [exact E|]. split; [by etrans|]. split; [exact K2|]. split; [exact HT|]. done.
Qed.

(** The entries of T in s3 reach the directory O; the rest of s stays. *)
Definition handed_over (T O : fpath) (s3 s' : OS) : Prop :=
  (∀ y l, is_Some (os_files s3 !! (T ++ [y])) →
     os_files s' !! (O ++ y :: l) = copy_of (os_umask s) <$> os_files s3 !! (T ++ y :: l)) ∧
  (∀ p, (∀ y l, is_Some (os_files s3 !! (T ++ [y])) → p ≠ O ++ y :: l) → os_files s' !! p = F !! p).

(** What the side car needs is what the command prepares. *)
Definition hands_over (given : fpath → OS → Prop) : Prop :=
  ∀ x s2, let T := locate SharedDir s ++ [x] in
    same_process s s2 → archived F T (os_files s2) (locate sourceDir s) (locate metadataDir s) → given T s2.

(** The body of a build, in its temporary directory. *)
Definition build_body (x : string) : M cworld nat :=
  let tempDir := join_dir SharedDir x in
  zoom cw_lens (populate_build depth tempDir sourceDir metadataDir) ;;
  '(responses, stream_end) ← zoom cw_lens (call_Build conn (build_request x));
  receive responses stream_end ;;
  wrap_err (Errorf "failed to copy build result to peer: ") (zoom cw_lens (CopyDir depth tempDir outputDir)) ;;
  mret 0.

(** The tree without what is below the temporary directory. *)
Definition cleared (T : fpath) (s4 : OS) : OS := set_files (filter (λ ki, ¬ T `prefix_of` ki.1)) (tick s4).

(** Around the body, the temporary directory is made and removed. *)
Lemma build_temp w :
  cw_os w = s →
  ∃ x s1 m, let T := locate SharedDir s ++ [x] in
    name_ok x ∧ all_bytes is_alnum x = true ∧ F !! T = None ∧ same_process s s1 ∧ os_files s1 = <[T := Directory m]> F ∧
    locate (join_dir SharedDir x) s = T ∧
    ∀ r s4 st, build_body x (put cw_lens s1 w) = (r, mkCworld s4 st) → r ≠ Blocked → same_process s s4 →
      Build_Run depth conn SharedDir [sourceDir; metadataDir; outputDir] w = (r, mkCworld (cleared T s4) st).
Proof using Hin.
  intros Hw. pose proof Hin as [Hf Hwf _ _ (_ & Hd3 & _) Htemp _ _ _ _ _ _ _ Hkind].
  destruct (IsExternalCC_false metadataDir s Hf Hwf Hd3 Hkind) as (s0 & E0 & H0).
  destruct (temp_dir SharedDir "build" s s0 Hf Hwf Htemp H0) as (x & s1 & m & E1 & Hx & Ha & Hn & P1 & Hs1 & HlT & Hrel).
  exists x, s1, m. cbv zeta. repeat (split; [done|]). intros r s4 st E Hr P4.
  assert (no_fault s4) as Hf4 by by eapply no_fault_same. set (w1 := put cw_lens s1 w) in *.
  rewrite <- Hw in E0. unfold Build_Run, arg. cbn [lookup list_lookup].
  rewrite (bind_ok _ _ w sourceDir w), (bind_ok _ _ w metadataDir w), (bind_ok _ _ w outputDir w) by done.
  rewrite (bind_ok _ _ _ _ _ (zoom_eq cw_lens _ w _ _ E0)). cbv iota.
  rewrite (bind_ok _ _ _ (join_dir SharedDir x) w1) by (unfold wrap_err; by erewrite zoom_eq by exact E1).
  unfold deferring. rewrite (bind_ok _ _ w1 x w1) by (unfold wrap_err, lift; by rewrite Hrel).
  unfold build_body in E. cbv zeta in E. rewrite E.
  erewrite zoom_eq; [|apply (RemoveAll_ok (join_dir SharedDir x) s4 Hf4)].
  rewrite (locate_same _ _ _ P4), HlT. by destruct r.
Qed.

Lemma build_steps given leaves x s1 m w :
  let T := locate SharedDir s ++ [x] in
  let tempDir := join_dir SharedDir x in
  builds conn SharedDir depth given leaves → hands_over given → cw_os w = s1 →
  name_ok x → all_bytes is_alnum x = true → F !! T = None → same_process s s1 → os_files s1 = <[T := Directory m]> F → locate tempDir s = T →
  ∃ rs s2 s3 s4,
    build_body x w = (Ok 0, mkCworld s4 (cw_stderr w ++ texts rs)) ∧
    call_Build conn (build_request x) s2 = (Ok (rs, None), s3) ∧ same_process s s4 ∧ fs_wf (os_files s4) ∧
    archived F T (os_files s2) (locate sourceDir s) (locate metadataDir s) ∧ leaves T s2 s3 ∧
    (∀ y l, is_Some (os_files s3 !! (T ++ [y])) →
       os_files s4 !! (locate outputDir s ++ y :: l) = copy_of (os_umask s) <$> os_files s3 !! (T ++ y :: l)) ∧
    (∀ p, ¬ T `prefix_of` p → (∀ y l, is_Some (os_files s3 !! (T ++ [y])) → p ≠ locate outputDir s ++ y :: l) →
       os_files s4 !! p = F !! p).
Proof using Hin Hdepth.
  intros T tempDir Hconn Hgiven Hw Hx Ha Hn Hp Hs1 HlT.
  destruct (prepared x s1 m Hx Hn Hp Hs1 HlT) as (s2 & E2 & P2 & K2 & HT & Har). fold T tempDir in E2, K2, HT, Har.
  pose proof Hin as [Hf Hwf _ _ (_ & _ & Hd4) [Hd1 _ _ _ _] _ _ [mo HO] Hempty _ _ _ _].
  destruct (Hconn x s2 Ha) as (rs & s3 & E3 & Hrs & P3 & K3 & Hh3 & Ho3 & Hl3).
  { rewrite (locate_same _ _ _ P2). by apply Hgiven. }
  { rewrite (locate_same _ _ _ P2). destruct K2. by split. }
  { pose proof (packing_height F T depth HT Hdepth s2 K2). lia. }
  rewrite (locate_same _ _ _ P2) in K3, Ho3, Hl3. fold T in K3, Ho3, Hl3.
  assert (same_process s s3) as P13 by by etrans.
  assert (∀ p, ¬ T `prefix_of` p → os_files s3 !! p = F !! p) as Hsame
    by (intros p Hnp; rewrite Ho3 by done; by apply (pk_same _ _ _ K2)).
  destruct (apart_temp outputDir x mo) as [A1 A2]; [by apply list_elem_of_further, list_elem_of_further, list_elem_of_here|done|done|].
  fold T in A1, A2.
  assert (∀ rel, ¬ T `prefix_of` locate outputDir s ++ rel) as Hapart.
  { intros rel [l El]. by apply (apart_not_prefix T (locate outputDir s) l rel A1 A2). }
  destruct (copy_out depth tempDir outputDir T (locate outputDir s) s3) as (s4 & E4 & P4 & W4 & Hc4 & Ho4); try done.
  { by apply join_dir_not_empty. } { by rewrite (locate_same _ _ _ P13). } { by apply locate_same. }
  { exists mo. by rewrite Hsame. } { intros rel Hne. rewrite Hsame by done. by apply Hempty. }
  exists rs, s2, s3, s4. split; [|split; [exact E3|split; [by etrans|split; [exact W4|split; [exact Har|split; [exact Hl3|split]]]]]].
  - rewrite <- Hw in E2. unfold build_body. cbv zeta. rewrite (bind_ok _ _ _ _ _ (zoom_eq cw_lens _ w _ _ E2)).
    rewrite (bind_ok _ _ _ _ _ (zoom_eq cw_lens _ (put cw_lens s2 w) _ _ E3)).
    rewrite (bind_ok _ _ _ _ _ (receive_ok rs None _ Hrs)). cbn [put cw_lens cw_os cw_stderr].
    erewrite bind_ok; [done|]. unfold wrap_err. by erewrite zoom_eq by exact E4.
  - intros y l Hy. rewrite Hc4 by done. by destruct P13 as (_ & -> & _).
  - intros p Hnp Hno. rewrite Ho4 by done. by apply Hsame.
Qed.

(** A whole build. *)
Lemma Build_Run_ok given leaves w :
  builds conn SharedDir depth given leaves → hands_over given → cw_os w = s →
  ∃ x rs s2 s3 w', let T := locate SharedDir s ++ [x] in
    F !! T = None ∧ call_Build conn (build_request x) s2 = (Ok (rs, None), s3) ∧
    archived F T (os_files s2) (locate sourceDir s) (locate metadataDir s) ∧ leaves T s2 s3 ∧
    Build_Run depth conn SharedDir [sourceDir; metadataDir; outputDir] w = (Ok 0, w') ∧
    cw_stderr w' = cw_stderr w ++ texts rs ∧
    same_process s (cw_os w') ∧ fs_wf (os_files (cw_os w')) ∧ handed_over T (locate outputDir s) s3 (cw_os w').
Proof using Hin Hdepth.
  intros Hconn Hgiven Hw. pose proof Hin as [Hf Hwf _ _ _ _ _ _ [mo HO] _ _ _ _ _].
  destruct (build_temp w Hw) as (x & s1 & m & Hx & Ha & Hn & P1 & Hs1 & HlT & Hrun).
  destruct (build_steps given leaves x s1 m (put cw_lens s1 w))
    as (rs & s2 & s3 & s4 & E & Ecall & P4 & W4 & Har & Hl & Hc & Ho); [done..|].
  specialize (Hrun _ _ _ E ltac:(done) P4). set (T := locate SharedDir s ++ [x]) in *.
  exists x, rs, s2, s3, (mkCworld (cleared T s4) (cw_stderr w ++ texts rs)). cbv zeta. fold T.
  destruct (apart_temp outputDir x mo) as [A1 A2];
    [by apply list_elem_of_further, list_elem_of_further, list_elem_of_here|done|done|]. fold T in A1, A2.
  split; [exact Hn|]. split; [exact Ecall|]. split; [exact Har|]. split; [exact Hl|]. split; [exact Hrun|].
  split; [done|]. split; [exact P4|]. split; [|split].
  - apply fs_wf_remove; [|exact W4]. unfold T. by destruct (locate SharedDir s).
  - intros y l Hy. cbn. rewrite map_lookup_filter, Hc by done.
    destruct (copy_of (os_umask s) <$> os_files s3 !! (T ++ y :: l)) as [i|]; [|done]. cbn.
    rewrite option_guard_True; [done|]. intros [l' El]. by apply (apart_not_prefix T (locate outputDir s) l' (y :: l) A1 A2).
  - intros p Hno. cbn. apply lookup_removed; [done|done|]. intros Hp. by apply Ho.
Qed.

(** A side car that refuses what it is given: messages, then an error; below the
    directory of the request it may do what it likes. *)
Definition refuses (given : fpath → OS → Prop) (e : go_error) (rs : list response) : Prop :=
  (NoMessage ∉ rs) ∧ ∀ x s2, let T := locate SharedDir s2 ++ [x] in
    all_bytes is_alnum x = true → given T s2 → tidy T s2 →
    ∃ s3, call_Build conn (build_request x) s2 = (Ok (rs, Some e), s3) ∧ same_process s2 s3 ∧
      (∀ p, ¬ T `prefix_of` p → os_files s3 !! p = os_files s2 !! p).

(** Then so does the command, and everything is as it was. *)
Lemma Build_Run_refused given e rs w :
  refuses given e rs → hands_over given → cw_os w = s →
  ∃ w', Build_Run depth conn SharedDir [sourceDir; metadataDir; outputDir] w = (Err e, w') ∧
    cw_stderr w' = cw_stderr w ++ texts rs ∧ os_files (cw_os w') = F.
Proof using Hin Hdepth.
  intros [Hrs Hconn] Hgiven Hw. pose proof Hin as [Hf Hwf _ _ _ _ _ _ _ _ _ _ _ _].
  destruct (build_temp w Hw) as (x & s1 & m & Hx & Ha & Hn & P1 & Hs1 & HlT & Hrun).
  destruct (prepared x s1 m Hx Hn P1 Hs1 HlT) as (s2 & E2 & P2 & K2 & _ & Har).
  assert (given (locate SharedDir s ++ [x]) s2) as Hg by by apply Hgiven.
  destruct (Hconn x s2 Ha) as (s3 & E3 & P3 & Ho3);
    [by rewrite (locate_same _ _ _ P2)|rewrite (locate_same _ _ _ P2); destruct K2; by split|].
  rewrite (locate_same _ _ _ P2) in Ho3. assert (same_process s s3) as P13 by by etrans.
  assert (build_body x (put cw_lens s1 w) = (Err e, mkCworld s3 (cw_stderr w ++ texts rs))) as E.
  { unfold build_body. rewrite (bind_ok _ _ _ _ _ (zoom_eq cw_lens _ (put cw_lens s1 w) _ _ E2)).
    rewrite (bind_ok _ _ _ _ _ (zoom_eq cw_lens _ (put cw_lens s2 w) _ _ E3)).
    exact (bind_err _ _ _ _ _ (receive_ok rs (Some e) _ Hrs)). }
  exists (mkCworld (cleared (locate SharedDir s ++ [x]) s3) (cw_stderr w ++ texts rs)). split; [by apply Hrun|]. split; [done|].
  apply map_eq. intros p. apply lookup_removed; [done|done|]. intros Hp. rewrite Ho3 by done. by apply (pk_same _ _ _ K2).
Qed.
End build.

(** ** Properties *)

(** C14: a build without failures, with a side car that builds when it is given
    what the command prepares: the side car is
    called when the temporary directory holds the archives of the source, of the
    metadata and, if there is one, of META-INF; Build prints its messages in
    order on standard error and succeeds; the output directory then holds what
    the side car left in the temporary directory, with its content and times,
    and nothing else in the tree has changed. *)
Theorem Build_delivers `{TarFormat} depth conn SharedDir sourceDir metadataDir outputDir given leaves w :
  let s := cw_os w in
  build_input SharedDir sourceDir metadataDir outputDir s → 2 * tree_height (os_files s) + 4 < depth →
  builds conn SharedDir depth given leaves → hands_over SharedDir sourceDir metadataDir s given →
  ∃ x rs s2 s3 w', let T := locate SharedDir s ++ [x] in
    call_Build conn (build_request x) s2 = (Ok (rs, None), s3) ∧
    archived (os_files s) T (os_files s2) (locate sourceDir s) (locate metadataDir s) ∧ leaves T s2 s3 ∧
    Build_Run depth conn SharedDir [sourceDir; metadataDir; outputDir] w = (Ok 0, w') ∧
    cw_stderr w' = cw_stderr w ++ texts rs ∧ handed_over s T (locate outputDir s) s3 (cw_os w').
Proof.
  intros s Hin Hdepth Hconn Hgiven.
  destruct (Build_Run_ok depth conn SharedDir sourceDir metadataDir outputDir s Hin Hdepth given leaves w Hconn Hgiven eq_refl)
    as (x & rs & s2 & s3 & w' & _ & E1 & H1 & H2 & E2 & H3 & _ & _ & H4).
  by exists x, rs, s2, s3, w'.
Qed.

(** ** Witnesses *)
Module Demo.
(** A side car that builds: it writes the output a request names. *)
Definition build (req : BuildRequest) : M OS (list response * option go_error) := λ s,
  let k := locate (PathJoin ["/shared"; br_OutputPath req]) s in
  (Ok ([StandardOut "a"; StandardError "b"], None),
   match os_files s !! k with
   | Some _ => s
   | None => set_files <[k := File (mkMeta 420 7 8) "output"]> s
   end).

Definition conn : connection := mkConnection build (λ _, mret ([], None)).

Lemma demo_builds depth : builds conn "/shared" depth (λ _ _, True) (writes_output "output").
Proof.
  intros x s T _ _ Htidy Hh. pose proof Htidy as [Hf Hwf Hn [m Hm] Hplain].
  assert (Forall name_ok T) as HT by by eapply Hn.
  assert (name_ok x) as Hx by (apply Forall_app in HT as [_ HT]; by inversion HT).
  assert (name_ok "chaincode-output.tar") as Ho by by apply (bool_decide_unpack _).
  assert (locate (PathJoin ["/shared"; br_OutputPath (build_request x)]) s = T ++ ["chaincode-output.tar"]) as Hk.
  { destruct (name_pair_elems x "chaincode-output.tar" Hx Ho) as [Hnd He]. unfold locate, T. cbn [build_request br_OutputPath].
    rewrite resolve_PathJoin_below, He, <- app_assoc by done. done. }
  clearbody T. exists [StandardOut "a"; StandardError "b"]. cbn [conn call_Build]. unfold build. rewrite Hk.
  destruct (os_files s !! (T ++ ["chaincode-output.tar"])) as [i|] eqn:Hi; eexists; (split; [done|]);
    (split; [by intros [[=]|[[=]|[]%not_elem_of_nil]%elem_of_cons]%elem_of_cons|]); (split; [done|]).
  - split; [done|]. split; [lia|]. split; [done|]. unfold writes_output. by rewrite Hi.
  - destruct (tidy_output T "chaincode-output.tar" (mkMeta 420 7 8) "output" s
      (set_files <[T ++ ["chaincode-output.tar"] := File (mkMeta 420 7 8) "output"]> s)) as (H1 & H2 & H3); [done..|].
    split; [exact H1|]. split; [by eapply Nat.le_lt_trans|]. split; [exact H3|by eexists].
Qed.

(** The files of the commands, and the peer's. *)
Definition tree : gmap fpath inode :=
  <[["peer"; "chaincode.json"] := File CommandFacts.Demo.meta0 "{}"]>
  (<[["peer"] := Directory CommandFacts.Demo.dir0]> CommandFacts.Demo.tree).
Definition os0 : OS := mkOS tree [] 18 {[ "IBP_BUILDER_SHARED_DIR" := "/shared" ]} 0 (λ _, None) (λ _, "7").
Definition w0 : cworld := mkCworld os0 [].

Lemma build_tree_wf : fs_wf tree.
Proof.
  apply (fs_wf_insert _ ["peer"] "chaincode.json"); [|by eexists|done].
  apply (fs_wf_insert _ [] "peer"); [apply CommandFacts.Demo.cmd_tree_wf|by eexists|done].
Defined.

Lemma build_tree_entries p i :
  tree !! p = Some i → Forall name_ok p ∧ (∀ m, i ≠ Special m) ∧ (∀ rel, rel ≠ [] → p ≠ ["out"] ++ rel).
Proof.
  intros Hi. unfold tree, CommandFacts.Demo.tree in Hi.
  repeat (apply lookup_insert_Some in Hi as [[<- <-]|[_ Hi]];
    [split; [by apply (bool_decide_unpack _); vm_compute|split; [done|by intros [|x rel] Hne]]|]).
  apply lookup_singleton_Some in Hi as [<- <-]. split; [constructor|]. done.
Defined.

Lemma demo_input : @build_input Plain.format "/shared" "/src" "/md" "/out" os0.
Proof.
  assert (∀ D, @packable Plain.format tree D) as Hgood.
  { intros D rel i _ Hi. split; [|done]. by apply (build_tree_entries _ _ Hi). }
  split.
  - done.
  - apply build_tree_wf.
  - intros p i Hi. by apply (build_tree_entries _ _ Hi).
  - constructor.
  - done.
  - split; [done|done|by eexists|done|done].
  - by eexists.
  - by eexists.
  - by eexists.
  - intros rel Hne. change (tree !! (["out"] ++ rel) = None). destruct (tree !! (["out"] ++ rel)) as [i|] eqn:Hi; [|done].
    destruct (build_tree_entries _ _ Hi) as (_ & _ & H). by destruct (H rel Hne).
  - intros d Hd. rewrite !elem_of_cons, elem_of_nil in Hd.
    destruct Hd as [->|[->|[->|[]]]]; by intros [l [=]].
  - split; apply Hgood.
  - intros _. apply Hgood.
  - right. exists CommandFacts.Demo.meta0, Metadata.Demo.metadata_json.
    destruct (unmarshal_type Metadata.Demo.metadata_json) as [e|t] eqn:E; [by vm_compute in E|].
    exists t. split; [reflexivity|]. split; [done|]. vm_compute in E. by injection E as <-.
Qed.
End Demo.

Lemma Build_delivers_witness :
  ∃ w', @Build_Run Plain.format 9 Demo.conn "/shared" ["/src"; "/md"; "/out"] Demo.w0 = (Ok 0, w') ∧
    cw_stderr w' = ["a"; "b"].
Proof.
  destruct (@Build_delivers Plain.format 9 Demo.conn "/shared" "/src" "/md" "/out" (λ _ _, True) (writes_output "output") Demo.w0)
    as (x & rs & s2 & s3 & w' & Ec & _ & _ & E & Hst & _).
  - exact Demo.demo_input.
  - apply (bool_decide_unpack _). by vm_compute.
  - apply Demo.demo_builds.
  - done.
  - exists w'. split; [exact E|]. rewrite Hst. cbn [Demo.conn call_Build Demo.build] in Ec. by injection Ec as <- _.
Defined.
