(* ===== verification/RunFacts.v ===== *)
(** * A run, from the output of a build to the request

    Run.Run of pkg/command (Command.v) as a whole, without failures: the files a
    request names hold the output of the build, the package's metadata and the
    peer's chaincode.json; the messages reach standard error, and the result is
    what the stream ended with. After a build the same archives arrive. For a
    build and for a run, the side car finds the files of a request where the
    command put them. *)
From S2P Require Import Prelude GoStrings GoPath OsModel Sidecar TarFormat Json Fs CopyFacts Tar TarFacts TarRoundTrip.
From S2P Require Import Containers PodSpec Url Metadata Command CommandFacts ReleaseFacts BuildFacts.

(** What a run starts from: the files of a build's output and of the peer. *)
Record run_input (SharedDir buildOutputDir peerMetadataDir : string) (output metadata artifacts : string) (s : OS) : Prop := {
  ri_fault : no_fault s;
  ri_wf : fs_wf (os_files s);
  ri_paths : buildOutputDir ≠ "" ∧ peerMetadataDir ≠ "";
  ri_temp : has_temp SharedDir "run" s;
  ri_kind : not_external buildOutputDir s;
  ri_output : ∃ m, os_files s !! (locate buildOutputDir s ++ ["chaincode-output.tar"]) = Some (File m output);
  ri_metadata : ∃ m, os_files s !! (locate buildOutputDir s ++ ["package-metadata.tar"]) = Some (File m metadata);
  ri_artifacts : ∃ m, os_files s !! (locate peerMetadataDir s ++ ["chaincode.json"]) = Some (File m artifacts) }.

(** What a run hands to the side car. *)
Definition run_files_ready (T : fpath) (output metadata artifacts : string) (s : OS) : Prop :=
  (∃ m, os_files s !! (T ++ ["chaincode-output.tar"]) = Some (File m output)) ∧
  (∃ m, os_files s !! (T ++ ["package-metadata.tar"]) = Some (File m metadata)) ∧
  (∃ m, os_files s !! (T ++ ["chaincode.json"]) = Some (File m artifacts)).

(** A side car that runs: it changes nothing but what is below the directory of
    the request; the stream ends as it may. *)
Definition runs (conn : connection) (SharedDir : string) : Prop :=
  ∀ x s, let T := locate SharedDir s ++ [x] in
    name_ok x → all_bytes is_alnum x = true → no_fault s → fs_wf (os_files s) → (∃ m, os_files s !! T = Some (Directory m)) →
    ∃ rs e s', call_Run conn (run_request x) s = (Ok (rs, e), s') ∧ (NoMessage ∉ rs) ∧ same_process s s' ∧
      (∀ p, ¬ T `prefix_of` p → os_files s' !! p = os_files s !! p).

Section run.
Context (conn : connection) (SharedDir buildOutputDir peerMetadataDir output metadata artifacts : string) (s : OS).
Context (Hin : run_input SharedDir buildOutputDir peerMetadataDir output metadata artifacts s).

#[local] Abbreviation F := (os_files s).

(** A state in which the tree is F but for the directory T. *)
Definition beside (T : fpath) (s1 : OS) : Prop :=
  same_process s s1 ∧ fs_wf (os_files s1) ∧ (∃ m, os_files s1 !! T = Some (Directory m)) ∧
  (∀ p, ¬ T `prefix_of` p → os_files s1 !! p = F !! p).

(** One of the files. *)
Lemma copy_in tempDir T dir name c m s1 :
  beside T s1 → no_fault s → F !! T = None → tempDir ≠ "" → dir ≠ "" → name_ok name → locate tempDir s = T →
  F !! (locate dir s ++ [name]) = Some (File m c) → os_files s1 !! (T ++ [name]) = None →
  ∃ s2 m', CopyFile (PathJoin [dir; name]) (PathJoin [tempDir; name]) s1 = (Ok tt, s2) ∧ beside T s2 ∧
    os_files s2 = <[T ++ [name] := File m' c]> (os_files s1).
Proof using Hin.
  intros (Hp & Hwf & [md Hmd] & Hsame) Hf HT Htd Hd Hx HlT Hc Hn.
  destruct (CopyFile_named dir tempDir name s1 m c md) as (s2 & m' & E & P & W & Hs2); rewrite ?(locate_same _ _ _ Hp), ?HlT in *; try done.
  - by eapply no_fault_same.
  - rewrite Hsame; [done|]. intros [l El]. rewrite El in Hc. destruct l as [|y l].
    + rewrite app_nil_r in Hc. congruence.
    + destruct (wf_prefix _ _ _ _ (ri_wf _ _ _ _ _ _ _ Hin) Hc) as [m0 ?]; [done|]. congruence.
  - exists s2, m'. split; [exact E|]. split; [|exact Hs2]. split; [by etrans|]. split; [exact W|]. rewrite Hs2. split.
    + exists md. rewrite lookup_insert_ne; [done|]. intros El. apply (f_equal length) in El. rewrite length_app in El. simpl in El. lia.
    + intros p Hnp. rewrite lookup_insert_ne; [by apply Hsame|]. intros <-. apply Hnp. by apply prefix_app_r.
Qed.

Lemma populate_run_ok x s1 m :
  let T := locate SharedDir s ++ [x] in
  name_ok x → F !! T = None → same_process s s1 → os_files s1 = <[T := Directory m]> F →
  locate (join_dir SharedDir x) s = T →
  ∃ s2, populate_run (join_dir SharedDir x) buildOutputDir peerMetadataDir s1 = (Ok tt, s2) ∧ beside T s2 ∧
    run_files_ready T output metadata artifacts s2.
Proof using Hin.
  intros T Hx HT Hp Hs1 HlT. pose proof Hin as [Hf Hwf [Hb Hpm] [Hsd _ [ms Hms] _ _] _ [m1 H1] [m2 H2] [m3 H3]].
  assert (join_dir SharedDir x ≠ "") as Htd by by apply join_dir_not_empty.
  assert (beside T s1) as B1.
  { split; [exact Hp|]. rewrite Hs1. split; [apply fs_wf_insert; [done|by eexists|done]|].
    split; [exists m; by rewrite lookup_insert_eq|]. intros p Hnp. apply lookup_insert_ne. by intros <-. }
  assert (∀ y, os_files s1 !! (T ++ [y]) = None) as Hnew.
  { intros y. rewrite Hs1, lookup_insert_ne.
    - destruct (F !! (T ++ [y])) as [i|] eqn:Hi; [|done]. destruct (wf_parent _ Hwf _ _ _ Hi). congruence.
    - intros E. apply (f_equal length) in E. rewrite length_app in E. simpl in E. lia. }
  assert (∀ y z, y ≠ z → T ++ [y] ≠ T ++ [z]) as Hne by (intros y z Hyz [=]%(inj _); done).
  destruct (copy_in (join_dir SharedDir x) T buildOutputDir "chaincode-output.tar" output m1 s1) as (s2 & n1 & E2 & B2 & S2); try done.
  destruct (copy_in (join_dir SharedDir x) T buildOutputDir "package-metadata.tar" metadata m2 s2) as (s3 & n2 & E3 & B3 & S3); try done.
  { rewrite S2, lookup_insert_ne; [apply Hnew|by apply Hne]. }
  destruct (copy_in (join_dir SharedDir x) T peerMetadataDir "chaincode.json" artifacts m3 s3) as (s4 & n3 & E4 & B4 & S4); try done.
  { rewrite S3, lookup_insert_ne, S2, lookup_insert_ne; [apply Hnew|by apply Hne|by apply Hne]. }
  exists s4. split; [|split; [exact B4|split; [|split]]].
  - unfold populate_run. rewrite (bind_ok _ _ _ _ _ E2), (bind_ok _ _ _ _ _ E3). exact E4.
  - exists n1. rewrite S4, lookup_insert_ne, S3, lookup_insert_ne, S2 by (by apply Hne). by rewrite lookup_insert_eq.
  - exists n2. rewrite S4, lookup_insert_ne, S3 by (by apply Hne). by rewrite lookup_insert_eq.
  - exists n3. by rewrite S4, lookup_insert_eq.
Qed.

(** A whole run. *)
Lemma Run_Run_ok w :
  runs conn SharedDir → cw_os w = s →
  ∃ x rs e s2 s3 w', let T := locate SharedDir s ++ [x] in
    name_ok x ∧ all_bytes is_alnum x = true ∧ same_process s s2 ∧ fs_wf (os_files s2) ∧
    call_Run conn (run_request x) s2 = (Ok (rs, e), s3) ∧ run_files_ready T output metadata artifacts s2 ∧
    Run_Run conn SharedDir [buildOutputDir; peerMetadataDir] w = (stream_result 0 e, w') ∧
    cw_stderr w' = cw_stderr w ++ texts rs ∧ os_files (cw_os w') = F.
Proof using Hin.
  intros Hconn Hw. pose proof Hin as [Hf Hwf [Hb _] Htemp Hkind _ _ _].
  destruct (IsExternalCC_false buildOutputDir s Hf Hwf Hb Hkind) as (s0 & E0 & H0).
  destruct (temp_dir SharedDir "run" s s0 Hf Hwf Htemp H0) as (x & s1 & m & E1 & Hx & Ha & HT & P1 & Hs1 & HlT & Hrel).
  set (T := locate SharedDir s ++ [x]) in *. set (tempDir := join_dir SharedDir x) in *.
  destruct (populate_run_ok x s1 m Hx HT P1 Hs1 HlT) as (s2 & E2 & (P2 & W2 & D2 & O2) & Hready). fold T tempDir in E2, D2, O2, Hready.
  destruct (Hconn x s2 Hx Ha) as (rs & e & s3 & E3 & Hrs & P3 & O3); [by eapply no_fault_same|done|by rewrite (locate_same _ _ _ P2)|].
  rewrite (locate_same _ _ _ P2) in O3. fold T in O3. assert (same_process s s3) as P by by etrans.
  set (w1 := put cw_lens s1 (put cw_lens s0 w)).
  set (s4 := set_files (filter (λ ki, ¬ T `prefix_of` ki.1)) (tick s3)).
  exists x, rs, e, s2, s3, (mkCworld s4 (cw_stderr w ++ texts rs)). cbv zeta. fold T.
  split; [exact Hx|]. split; [exact Ha|]. split; [exact P2|]. split; [exact W2|]. split; [exact E3|]. split; [exact Hready|]. split; [|split; [done|]].
  - rewrite <- Hw in E0. unfold Run_Run, arg. cbn [lookup list_lookup].
    rewrite (bind_ok _ _ w buildOutputDir w), (bind_ok _ _ w peerMetadataDir w) by done.
    rewrite (bind_ok _ _ _ _ _ (zoom_eq cw_lens _ w _ _ E0)). cbv iota.
    rewrite (bind_ok _ _ _ tempDir w1) by (unfold wrap_err; by erewrite zoom_eq by exact E1).
    unfold deferring. rewrite (bind_ok _ _ w1 x w1) by (unfold wrap_err, lift; by rewrite Hrel).
    rewrite (bind_ok _ _ _ _ _ (zoom_eq cw_lens _ w1 _ _ E2)).
    rewrite (bind_ok _ _ _ _ _ (zoom_eq cw_lens _ (put cw_lens s2 w1) _ _ E3)).
    unfold mbind, M_bind. rewrite (receive_ok rs e _ Hrs).
    destruct e as [e|]; cbn [stream_result mret M_ret put cw_lens cw_os cw_stderr];
      (erewrite zoom_eq; [|apply (RemoveAll_ok tempDir s3); by eapply no_fault_same]); by rewrite (locate_same _ _ _ P), HlT.
  - apply map_eq. intros p. apply lookup_removed; [done|done|]. intros Hp. by rewrite O3, O2.
Qed.
End run.

Lemma has_temp_later SharedDir prefix s s' :
  same_process s s' → has_temp SharedDir prefix s →
  os_files s' !! locate SharedDir s = os_files s !! locate SharedDir s →
  (∀ x, os_files s !! (locate SharedDir s ++ [x]) = None → os_files s' !! (locate SharedDir s ++ [x]) = None) →
  has_temp SharedDir prefix s'.
Proof.
  intros Hp [Hd Hpre [m Hm] Hr Hfree] H1 H2. assert (os_tmp s' = os_tmp s) as Ht by apply Hp.
  split; rewrite ?(locate_same _ _ _ Hp), ?Ht; try done; [by rewrite H1; exists m|]. intros t. by apply H2.
Qed.

(** A run can start from what a build has handed over. *)
Lemma run_input_built `{TarFormat} SharedDir sourceDir metadataDir outputDir peerMetadataDir T s s3 s1 output metadata artifacts mo mm ma :
  build_input SharedDir sourceDir metadataDir outputDir s → handed_over s T (locate outputDir s) s3 s1 →
  same_process s s1 → fs_wf (os_files s1) →
  os_files s3 !! (T ++ ["chaincode-output.tar"]) = Some (File mo output) →
  os_files s3 !! (T ++ ["package-metadata.tar"]) = Some (File mm metadata) → os_files s3 !! (T ++ ["metadata.json"]) = None →
  has_temp SharedDir "run" s → peerMetadataDir ≠ "" →
  os_files s !! (locate peerMetadataDir s ++ ["chaincode.json"]) = Some (File ma artifacts) →
  run_input SharedDir outputDir peerMetadataDir output metadata artifacts s1.
Proof.
  intros Hin [Hc1 Ho1] P1 W1 Hout Hmd Hno Htemp Hpd Ha.
  pose proof Hin as [Hf Hwf Hn _ (_ & _ & Hod) _ _ _ [mo' HO] Hempty Hapart _ _ _].
  set (O := locate outputDir s) in *.
  assert (∀ p, ¬ O `prefix_of` p → os_files s1 !! p = os_files s !! p) as Haway
    by (intros p Hp; apply Ho1; intros y l' _ ->; apply Hp; by apply prefix_app_r).
  assert (¬ O `prefix_of` locate SharedDir s) as HOS
    by (apply (Hapart outputDir); by apply list_elem_of_further, list_elem_of_further, list_elem_of_here).
  split; rewrite ?(locate_same _ _ _ P1); fold O.
  - by eapply no_fault_same.
  - exact W1.
  - done.
  - apply (has_temp_later _ _ _ _ P1 Htemp); [by apply Haway|]. intros z Hz. rewrite Haway; [done|].
    intros [l' El]. destruct l' as [|y l'] using rev_ind.
    + rewrite app_nil_r in El. rewrite El in Hz. congruence.
    + rewrite app_assoc in El. apply app_inj_tail in El as [El _]. apply HOS. by exists l'.
  - left. rewrite (locate_same _ _ _ P1). fold O. rewrite Ho1; [by apply Hempty|].
    intros y l' [i Hi] [= <- _]%(inj _). congruence.
  - rewrite Hc1, Hout by by rewrite Hout. by eexists.
  - rewrite Hc1, Hmd by by rewrite Hmd. by eexists.
  - exists ma. rewrite Haway; [done|]. intros [l' El]. rewrite El in Ha. destruct l' as [|y l'].
    + rewrite app_nil_r in Ha. congruence.
    + by rewrite Hempty in Ha.
Qed.

(** ** Properties *)

(** C15: what a build leaves for the peer a run hands back: after a build without
    failures, by a side car that writes its output, the request of a run names,
    below the shared directory, that output, an archive in which the side car
    finds the metadata of the package, and the peer's chaincode.json; the run
    prints its messages, ends as its stream ends, and leaves the tree as the
    build left it. *)
Theorem run_gets_build `{TarFormat} depth bconn rconn SharedDir sourceDir metadataDir outputDir peerMetadataDir output artifacts w mj c :
  let s := cw_os w in
  build_input SharedDir sourceDir metadataDir outputDir s → 2 * tree_height (os_files s) + 4 < depth →
  builds bconn SharedDir depth (λ _ _, True) (writes_output output) → runs rconn SharedDir → has_temp SharedDir "run" s →
  peerMetadataDir ≠ "" → (∃ m, os_files s !! (locate peerMetadataDir s ++ ["chaincode.json"]) = Some (File m artifacts)) →
  os_files s !! (locate metadataDir s ++ ["metadata.json"]) = Some (File mj c) →
  ∃ w1 w2 x rs e s2 s3 metadata,
    Build_Run depth bconn SharedDir [sourceDir; metadataDir; outputDir] w = (Ok 0, w1) ∧
    call_Run rconn (run_request x) s2 = (Ok (rs, e), s3) ∧
    run_files_ready (locate SharedDir s ++ [x]) output metadata artifacts s2 ∧
    metadata_of_archive metadata = unmarshal_chaincodeMetadata c ∧
    Run_Run rconn SharedDir [outputDir; peerMetadataDir] w1 = (stream_result 0 e, w2) ∧
    cw_stderr w2 = cw_stderr w1 ++ texts rs ∧ os_files (cw_os w2) = os_files (cw_os w1).
Proof.
  intros s Hin Hdepth Hb Hr Htemp Hpd [ma Ha] Hc.
  destruct (Build_Run_ok depth bconn SharedDir sourceDir metadataDir outputDir s Hin Hdepth _ _ w Hb ltac:(done) eq_refl)
    as (x & rs & s2 & s3 & w1 & HT & _ & [_ (mm & l & Hmd & Hl) _ Honly] & Hout & E1 & _ & P1 & W1 & Hcopied).
  set (T := locate SharedDir s ++ [x]) in *. set (metadata := tar_write (a_entries (archive_of l))) in *.
  destruct Hout as [mo Hs3]; [by apply Honly, (bool_decide_unpack _)|].
  assert (∀ y, y ≠ "chaincode-output.tar" → os_files s3 !! (T ++ [y]) = os_files s2 !! (T ++ [y])) as H3.
  { intros y Hy. rewrite Hs3. apply lookup_insert_ne. intros [=]%(inj _). done. }
  assert (run_input SharedDir outputDir peerMetadataDir output metadata artifacts (cw_os w1)) as Hrun.
  { eapply (run_input_built SharedDir sourceDir metadataDir outputDir peerMetadataDir T s s3); try done.
    - by rewrite Hs3, lookup_insert_eq.
    - by rewrite H3.
    - rewrite H3, Honly; [done|by apply (bool_decide_unpack _)|done]. }
  destruct (Run_Run_ok rconn SharedDir outputDir peerMetadataDir output metadata artifacts (cw_os w1) Hrun w1 Hr eq_refl)
    as (x' & rs' & e & s2' & s3' & w2 & _ & _ & _ & _ & E3 & Hready & E2 & Hst & Hfs).
  rewrite (locate_same _ _ _ P1) in Hready.
  exists w1, w2, x', rs', e, s2', s3', metadata. split; [exact E1|]. split; [exact E3|]. split; [exact Hready|].
  pose proof Hin as [_ _ Hn _ _ _ _ _ _ _ _ [_ Hgood] _ _]. split; [by eapply metadata_of_tree|]. by split.
Qed.

(** C23: what a command asks the side car for is what it prepared. The names in a
    request are those of the files that populate_build and populate_run have made
    in the temporary directory: in a process whose shared directory is the
    command's, every path of a build request passes the check for parent
    elements, the source path is the archive of the source directory, the metadata
    path the archive of the metadata directory, the output path is free, in a
    directory; the paths of a run request are the output of the build, the
    metadata of the package and the peer's chaincode.json. *)
Theorem request_reaches `{TarFormat} depth b cwd SharedDir sourceDir metadataDir outputDir peerMetadataDir output metadata artifacts s :
  sv_SharedPath b ≠ "" → resolve cwd (sv_SharedPath b) = locate SharedDir s →
  (build_input SharedDir sourceDir metadataDir outputDir s → 2 * tree_height (os_files s) + 4 < depth →
   ∃ tempDir root s1 s2, TempDir SharedDir "build" s = (Ok tempDir, s1) ∧ Rel SharedDir tempDir = inr root ∧
     populate_build depth tempDir sourceDir metadataDir s1 = (Ok tt, s2) ∧
     let req := build_request root in
     Forall (λ p, containsDotDot p = false) [br_SourcePath req; br_MetadataPath req; br_OutputPath req] ∧
     holds_archive (os_files s) (os_files s2) (seen_at b cwd (br_SourcePath req)) (locate sourceDir s) ∧
     holds_archive (os_files s) (os_files s2) (seen_at b cwd (br_MetadataPath req)) (locate metadataDir s) ∧
     os_files s2 !! seen_at b cwd (br_OutputPath req) = None ∧
     ∃ d y m, seen_at b cwd (br_OutputPath req) = d ++ [y] ∧ os_files s2 !! d = Some (Directory m)) ∧
  (run_input SharedDir outputDir peerMetadataDir output metadata artifacts s →
   ∃ tempDir root s1 s2, TempDir SharedDir "run" s = (Ok tempDir, s1) ∧ Rel SharedDir tempDir = inr root ∧
     populate_run tempDir outputDir peerMetadataDir s1 = (Ok tt, s2) ∧
     let req := run_request root in
     let holds p c := containsDotDot p = false ∧ ∃ m, os_files s2 !! seen_at b cwd p = Some (File m c) in
     holds (rr_ChaincodePath req) output ∧ holds (rr_MetadataPath req) metadata ∧ holds (rr_ArtifactsPath req) artifacts).
Proof.
  intros Hb Hcwd. assert (∀ f, bool_decide (name_ok f) = true → name_ok f) as Hok by (intros f; apply bool_decide_eq_true_1).
  split.
  - intros Hin Hdepth. pose proof Hin as [Hf Hwf _ _ _ Htemp _ _ _ _ _ _ _ _].
    destruct (temp_dir SharedDir "build" s s Hf Hwf Htemp ltac:(done)) as (x & s1 & m & E1 & Hx & _ & HT & P1 & Hs1 & HlT & Hrel).
    destruct (prepared depth SharedDir sourceDir metadataDir outputDir s Hin Hdepth x s1 m Hx HT P1 Hs1 HlT)
      as (s2 & E2 & _ & K2 & _ & [A1 A2 _ A4]).
    exists (join_dir SharedDir x), x, s1, s2. do 3 (split; [done|]). cbn [build_request br_SourcePath br_MetadataPath br_OutputPath].
    pose proof (λ f Hf, request_path b cwd x f Hb Hx (Hok f Hf)) as Hp. rewrite Hcwd in Hp.
    destruct (Hp "chaincode-source.tar" eq_refl) as [D1 ->], (Hp "package-metadata.tar" eq_refl) as [D2 ->],
      (Hp "chaincode-output.tar" eq_refl) as [D3 ->].
    split; [by repeat constructor|]. do 2 (split; [done|]). split; [by apply A4, (bool_decide_unpack _)|].
    destruct (pk_dir _ _ _ K2) as [mT HmT]. by exists (locate SharedDir s ++ [x]), "chaincode-output.tar", mT.
  - intros Hin. pose proof Hin as [Hf Hwf _ Htemp _ _ _ _].
    destruct (temp_dir SharedDir "run" s s Hf Hwf Htemp ltac:(done)) as (x & s1 & m & E1 & Hx & _ & HT & P1 & Hs1 & HlT & Hrel).
    destruct (populate_run_ok SharedDir outputDir peerMetadataDir output metadata artifacts s Hin x s1 m Hx HT P1 Hs1 HlT)
      as (s2 & E2 & _ & R1 & R2 & R3).
    exists (join_dir SharedDir x), x, s1, s2. do 3 (split; [done|]). cbv zeta.
    cbn [run_request rr_ChaincodePath rr_MetadataPath rr_ArtifactsPath].
    pose proof (λ f Hf, request_path b cwd x f Hb Hx (Hok f Hf)) as Hp. rewrite Hcwd in Hp.
    destruct (Hp "chaincode-output.tar" eq_refl) as [D1 ->], (Hp "package-metadata.tar" eq_refl) as [D2 ->],
      (Hp "chaincode.json" eq_refl) as [D3 ->]. done.
Qed.

(** ** Witnesses *)
Module Demo.
Definition conn : connection := mkConnection BuildFacts.Demo.build (λ _, mret ([StandardOut "up"], None)).

Lemma demo_runs : runs conn "/shared".
Proof.
  intros x s T _ _ _ _ _. exists [StandardOut "up"], None, s. split; [done|]. split; [|done].
  by intros [[=]|[]%not_elem_of_nil]%elem_of_cons.
Qed.

Lemma demo_temp : has_temp "/shared" "run" BuildFacts.Demo.os0.
Proof. split; [done|done|by eexists|done|done]. Defined.

(** A server that has the shared directory where the command has it. *)
Definition server : Server :=
  mkServer false "/shared" "https://127.0.0.1:22222/" "ft" "builder" "go" "java" "node" [] "peer0"
    (mkBasicAuth "user" "pass") "cert".

(** The same files with the output of a build. *)
Definition ran : gmap fpath inode :=
  <[["out"; "chaincode-output.tar"] := File CommandFacts.Demo.meta0 "output"]>
  (<[["out"; "package-metadata.tar"] := File CommandFacts.Demo.meta0 "metadata"]> BuildFacts.Demo.tree).
Definition os1 : OS := mkOS ran [] 18 ∅ 0 (λ _, None) (λ _, "7").

Lemma demo_run_input : run_input "/shared" "/out" "/peer" "output" "metadata" "{}" os1.
Proof.
  split.
  - done.
  - apply (fs_wf_insert _ ["out"] "chaincode-output.tar"); [|by eexists|done].
    apply (fs_wf_insert _ ["out"] "package-metadata.tar"); [apply BuildFacts.Demo.build_tree_wf|by eexists|done].
  - done.
  - split; [done|done|by eexists|done|done].
  - by left.
  - by eexists.
  - by eexists.
  - by eexists.
Qed.
End Demo.

Lemma run_gets_build_witness :
  ∃ w1 w2 x rs e s2 s3 metadata,
    @Build_Run Plain.format 9 BuildFacts.Demo.conn "/shared" ["/src"; "/md"; "/out"] BuildFacts.Demo.w0 = (Ok 0, w1) ∧
    call_Run Demo.conn (run_request x) s2 = (Ok (rs, e), s3) ∧
    run_files_ready ["shared"; x] "output" metadata "{}" s2 ∧
    Run_Run Demo.conn "/shared" ["/out"; "/peer"] w1 = (stream_result 0 e, w2).
Proof.
  destruct (@run_gets_build Plain.format 9 BuildFacts.Demo.conn Demo.conn "/shared" "/src" "/md" "/out" "/peer" "output" "{}"
    BuildFacts.Demo.w0 CommandFacts.Demo.meta0 Metadata.Demo.metadata_json)
    as (w1 & w2 & x & rs & e & s2 & s3 & metadata & E1 & E2 & Hready & _ & E3 & _).
  - exact BuildFacts.Demo.demo_input.
  - apply (bool_decide_unpack _). by vm_compute.
  - apply BuildFacts.Demo.demo_builds.
  - exact Demo.demo_runs.
  - exact Demo.demo_temp.
  - done.
  - by eexists.
  - reflexivity.
  - exists w1, w2, x, rs, e, s2, s3, metadata. split; [exact E1|]. split; [exact E2|]. split; [exact Hready|exact E3].
Defined.

Lemma request_reaches_witness :
  (∃ tempDir root s1 s2, TempDir "/shared" "build" BuildFacts.Demo.os0 = (Ok tempDir, s1) ∧ Rel "/shared" tempDir = inr root ∧
    @populate_build Plain.format 9 tempDir "/src" "/md" s1 = (Ok tt, s2) ∧
    @holds_archive Plain.format BuildFacts.Demo.tree (os_files s2)
      (seen_at Demo.server [] (br_MetadataPath (build_request root))) ["md"]) ∧
  (∃ tempDir root s1 s2 m, TempDir "/shared" "run" Demo.os1 = (Ok tempDir, s1) ∧ Rel "/shared" tempDir = inr root ∧
    populate_run tempDir "/out" "/peer" s1 = (Ok tt, s2) ∧
    os_files s2 !! seen_at Demo.server [] (rr_ArtifactsPath (run_request root)) = Some (File m "{}")).
Proof.
  split.
  - destruct (@request_reaches Plain.format 9 Demo.server [] "/shared" "/src" "/md" "/out" "/peer" "" "" "" BuildFacts.Demo.os0)
      as [(tempDir & root & s1 & s2 & E1 & E2 & E3 & _ & _ & Hm & _) _]; [done|reflexivity|..].
    + exact BuildFacts.Demo.demo_input.
    + apply (bool_decide_unpack _). by vm_compute.
    + exists tempDir, root, s1, s2. split; [exact E1|]. split; [exact E2|]. split; [exact E3|exact Hm].
  - destruct (@request_reaches Plain.format 9 Demo.server [] "/shared" "/src" "/md" "/out" "/peer" "output" "metadata" "{}" Demo.os1)
      as [_ (tempDir & root & s1 & s2 & E1 & E2 & E3 & _ & _ & _ & m & Hm)]; [done|reflexivity|exact Demo.demo_run_input|].
    exists tempDir, root, s1, s2, m. split; [exact E1|]. split; [exact E2|]. split; [exact E3|exact Hm].
Defined.
