(* ===== verification/PodHandler.v ===== *)
(** * Clearing away completed pods

    pkg/pod/handler.go: at its start the builder lists the pods of its peer,
    picks those whose first container has terminated as Completed, and deletes
    them one after the other. *)
From S2P Require Import Prelude GoStrings KubeTypes KubeApi.

(** The test on a pod of the list: a pod without containers is skipped, and of
    the containers the first counts. *)
Definition completed (pod : Pod) : bool :=
  match pst_ContainerStatuses (pod_Status pod) with
  | [] => false
  | runContainerStatus :: _ =>
      match cs_Terminated (cst_State runContainerStatus) with
      | Some reason => bool_decide (reason = "Completed")
      | None => false
      end
  end.

(** The loop, with the pods picked so far. *)
Fixpoint pick_completed (completedPods pods : list Pod) : list Pod :=
  match pods with
  | [] => completedPods
  | pod :: pods' =>
      pick_completed (if completed pod then completedPods ++ [pod] else completedPods) pods'
  end.

Section handler.
Context {W : Type} `{KubeClient W}.

Definition ListCompletedExecutionPodsForPeer (peerID : string) : M (kworld W) (list Pod) :=
  let selector := "peer-id=" +:+ peerID in
  pods ← wrap_err (Errorf "failed to get pods: ") (call (PodList selector) (pods_List selector));
  mret (pick_completed [] pods).

Definition DeletePod (name : string) : M (kworld W) unit :=
  call (PodDelete name) (pods_Delete name).

Fixpoint DeletePods (pods : list Pod) : M (kworld W) unit :=
  match pods with
  | [] => mret tt
  | pod :: pods' =>
      wrap_err (Errorf ("failed to delete pod '" +:+ pod_Name pod +:+ "': ")) (DeletePod (pod_Name pod)) ;;
      DeletePods pods'
  end.
End handler.

(** ** Facts *)

Lemma pick_completed_filter acc pods : pick_completed acc pods = acc ++ filter completed pods.
Proof.
  revert acc. induction pods as [|p pods IH]; intros acc; cbn [pick_completed]; [by rewrite app_nil_r|].
  rewrite IH, filter_cons. destruct (completed p) eqn:E.
  - rewrite decide_True by done. by rewrite <- app_assoc.
  - by rewrite decide_False by naive_solver.
Qed.

Section facts.
Context {W : Type} `{KubeClient W}.

(** All deletions, as long as they succeed. *)
Fixpoint all_deleted (pods : list Pod) (w : W) : option W :=
  match pods with
  | [] => Some w
  | p :: pods' =>
      match pods_Delete (pod_Name p) w with
      | (inr _, w') => all_deleted pods' w'
      | (inl _, _) => None
      end
  end.

(** The deletions asked for are those of a first part of the list, in order: all
    of it when no deletion fails, and otherwise up to the first that fails. *)
Lemma DeletePods_calls pods k r k' :
  DeletePods pods k = (r, k') →
  ∃ deleted rest, pods = deleted ++ rest ∧
    calls k' = calls k ++ ((λ p, PodDelete (pod_Name p)) <$> deleted) ∧
    (r = Ok tt ∧ rest = [] ∧ all_deleted deleted (kube k) = Some (kube k') ∨
     ∃ front p w e, deleted = front ++ [p] ∧ all_deleted front (kube k) = Some w ∧
       pods_Delete (pod_Name p) w = (inl e, kube k') ∧
       r = Err (Errorf ("failed to delete pod '" +:+ pod_Name p +:+ "': ") e)).
Proof.
  revert k. induction pods as [|p pods IH]; intros k; cbn [DeletePods].
  - intros [= <- <-]. exists [], []. split; [done|]. split; [by rewrite app_nil_r|by left].
  - unfold DeletePod, call. destruct (pods_Delete (pod_Name p) (kube k)) as [[e|[]] w] eqn:E.
    + unfold wrap_err, mbind, M_bind. rewrite E. intros [= <- <-]. exists [p], pods.
      split; [done|]. split; [done|]. right. by exists [], p, (kube k), e.
    + unfold wrap_err, mbind at 1, M_bind at 1. rewrite E. intros Hr. apply IH in Hr as (d & rest & -> & Hc & Hr).
      exists (p :: d), rest. split; [done|]. split; [rewrite Hc; simpl; by rewrite <- app_assoc|].
      cbn [all_deleted]. rewrite E. destruct Hr as [Hr|(front & q & w1 & e & -> & Hr)]; [by left|right].
      exists (p :: front), q, w1, e. cbn [all_deleted]. by rewrite E.
Qed.
End facts.

(** ** Properties *)

(** C40: clearing asks for the deletion of exactly the pods of the answer that
    completed, each once and in the order of the answer. It succeeds when all
    the deletions do; at the first that fails it stops, with that deletion's
    error and the name of its pod. When the list cannot be had nothing is
    deleted. *)
Theorem completed_pods_deleted {W} `{KubeClient W} peerID k :
  let selector := "peer-id=" +:+ peerID in
  let '(r, k') := (pods ← ListCompletedExecutionPodsForPeer peerID; DeletePods pods) k in
  match pods_List selector (kube k) with
  | (inl e, _) => r = Err (Errorf "failed to get pods: " e) ∧ calls k' = calls k ++ [PodList selector]
  | (inr pods, w0) =>
      ∃ deleted rest, filter completed pods = deleted ++ rest ∧
        calls k' = calls k ++ PodList selector :: ((λ p, PodDelete (pod_Name p)) <$> deleted) ∧
        (r = Ok tt ∧ rest = [] ∧ all_deleted deleted w0 = Some (kube k') ∨
         ∃ front p w e, deleted = front ++ [p] ∧ all_deleted front w0 = Some w ∧
           pods_Delete (pod_Name p) w = (inl e, kube k') ∧
           r = Err (Errorf ("failed to delete pod '" +:+ pod_Name p +:+ "': ") e))
  end.
Proof.
  cbv zeta. match goal with |- let '(_, _) := ?p in _ => destruct p as [r k'] eqn:E end. revert E.
  unfold ListCompletedExecutionPodsForPeer, wrap_err, call. cbv zeta.
  destruct (pods_List _ (kube k)) as [[e|pods] w] eqn:El; unfold mbind, M_bind, mret, M_ret; rewrite El.
  - by intros [= <- <-].
  - intros E. apply DeletePods_calls in E as (d & rest & Hd & Hc & Hr).
    rewrite pick_completed_filter in Hd. exists d, rest. split; [exact Hd|]. split; [|exact Hr].
    rewrite Hc. simpl. by rewrite <- app_assoc.
Qed.
