(* ===== verification/Tls.v ===== *)
(** * Randomness and certificates

    pkg/tls/tls.go (PrivateKey, SelfSignedCert, Cert, publicKey, ConfigTLS)
    and the random strings of cmd/ibp-builder/main.go. Randomness is a stream
    of bytes that may dry up. Keys and signatures are the class [Crypto]: the
    program only passes them on. net.ParseIP and pem.EncodeToMemory are
    written out. *)
From S2P Require Import Prelude GoStrings Base64 Url.

(** ** crypto/rand *)

Record rng := mkRng { rng_byte : nat → option Z; rng_pos : nat }.

Definition ErrRandom : go_error := ErrorString "unexpected EOF".

Definition read_byte : M rng Z := λ r,
  match rng_byte r (rng_pos r) with
  | Some b => (Ok b, mkRng (rng_byte r) (S (rng_pos r)))
  | None => (Err ErrRandom, r)
  end.

(** n bytes as a big-endian number; [mask] cuts the first of them. *)
Fixpoint read_number (n : nat) (mask acc : Z) : M rng Z :=
  match n with
  | O => mret acc
  | S n => b ← read_byte; read_number n 255 (acc * 256 + Z.land b mask)%Z
  end.

(** The bits a number has. *)
Definition bit_len (n : Z) : Z := if bool_decide (n ≤ 0)%Z then 0%Z else (Z.log2 n + 1)%Z.

(** rand.Int: numbers of as many bits as max - 1 has, until one is below max. *)
Fixpoint rand_Int (fuel : nat) (max : Z) : M rng Z :=
  match fuel with
  | O => λ s, (Blocked, s)
  | S k =>
      let bits := bit_len (max - 1) in
      if bool_decide (bits = 0)%Z then mret 0%Z
      else
        let bytes := ((bits + 7) / 8)%Z in
        let b := (if bool_decide (bits mod 8 = 0) then 8 else bits mod 8)%Z in
        n ← read_number (Z.to_nat bytes) (2 ^ b - 1)%Z 0%Z;
        if bool_decide (n < max)%Z then mret n else rand_Int k max
  end.

(** ** net.ParseIP: whether a text is an address *)

Fixpoint decimal (acc : nat) (s : string) : nat :=
  match s with
  | EmptyString => acc
  | String a s' => decimal (10 * acc + (nat_of_ascii a - 48)) s'
  end.

(** One field of an IPv4 address: no sign, no leading zero, at most 255. *)
Definition ipv4_field (s : string) : bool :=
  negb (bool_decide (s = "")) && all_bytes is_digit s &&
  (bool_decide (slen s = 1) || negb (HasPrefix s "0")) && (slen s <=? 3) && (decimal 0 s <=? 255).

Definition is_ipv4 (s : string) : bool :=
  let fields := Split "."%char s in
  bool_decide (length fields = 4) && forallb ipv4_field fields.

(** The digits of one group, and what follows; more than four are refused. *)
Fixpoint hex_group (fuel : nat) (s : string) : nat * string :=
  match fuel, s with
  | S k, String a s' =>
      match unhex_digit a with
      | Some _ => let '(n, r) := hex_group k s' in (S n, r)
      | None => (0, s)
      end
  | _, _ => (0, s)
  end.

(** The groups of an IPv6 address from byte i of the sixteen on; [ellipsis]:
    a "::" has been seen. *)
Fixpoint ipv6_groups (fuel : nat) (i : nat) (ellipsis : bool) (s : string) : bool :=
  match fuel with
  | O => false
  | S k =>
      if 16 <=? i then bool_decide (s = "") && negb ellipsis
      else
        let '(n, r) := hex_group 5 s in
        if (n =? 0) || (4 <? n) then false
        else if HasPrefix r "." then
          (ellipsis || (i =? 12)) && (i + 4 <=? 16) && is_ipv4 s &&
          (if i + 4 <? 16 then ellipsis else negb ellipsis)
        else
          let i := i + 2 in
          match r with
          | EmptyString => if i <? 16 then ellipsis else negb ellipsis
          | String c r1 =>
              if negb (bool_decide (c = ":"%char)) || bool_decide (r1 = "") then false
              else match r1 with
              | String ":" r2 =>
                  if ellipsis then false
                  else if bool_decide (r2 = "") then (i <? 16)
                  else ipv6_groups k i true r2
              | _ => ipv6_groups k i ellipsis r1
              end
          end
  end.

Definition is_ipv6 (s : string) : bool :=
  match s with
  | String ":" (String ":" s') => bool_decide (s' = "") || ipv6_groups 9 0 true s'
  | _ => ipv6_groups 9 0 false s
  end.

(** The first of the bytes . : and % decides what the text is read as. *)
Fixpoint ip_kind (s : string) : option ascii :=
  match s with
  | EmptyString => None
  | String a s' =>
      if bool_decide (a = "."%char) || bool_decide (a = ":"%char) || bool_decide (a = "%"%char)
      then Some a else ip_kind s'
  end.

Definition ParseIP (s : string) : bool :=
  match ip_kind s with
  | Some "."%char => is_ipv4 s
  | Some ":"%char => negb (has_byte "%"%char s) && is_ipv6 s
  | _ => false
  end.

(** ** pem.EncodeToMemory, for a block without headers *)

(** Lines of 64 characters. *)
Fixpoint break_lines (fuel : nat) (s : string) : string :=
  match fuel with
  | O => ""
  | S k => if bool_decide (s = "") then "" else take_bytes 64 s +:+ NL +:+ break_lines k (drop_bytes 64 s)
  end.

Definition EncodeToMemory (type bytes : string) : string :=
  let text := EncodeToString bytes in
  "-----BEGIN " +:+ type +:+ "-----" +:+ NL +:+ break_lines (slen text) text +:+
  "-----END " +:+ type +:+ "-----" +:+ NL.

(** ** Keys and certificates *)

(** The fields of x509.Certificate the program sets; times are seconds. *)
Record Certificate := mkCertificate {
  ct_SerialNumber : Z;
  ct_Organization : list string;
  ct_NotBefore : Z;
  ct_NotAfter : Z;
  ct_KeyUsage : list string;
  ct_ExtKeyUsage : list string;
  ct_BasicConstraintsValid : bool;
  ct_IPAddresses : list string;
  ct_DNSNames : list string }.

Class Crypto := {
  ec_key : Type;
  rsa_key : Type;
  public_key : Type;
  keypair : Type;
  GenerateKey : M rng ec_key;
  MarshalECPrivateKey : ec_key → go_error + string;
  ec_public : ec_key → public_key;
  rsa_public : rsa_key → public_key;
  (** the private key signs *)
  CreateCertificate : Certificate → Certificate → option public_key → ec_key + rsa_key + unit → M rng string;
  X509KeyPair : string → string → go_error + keypair }.

Section tls.
Context `{Crypto}.

(** [interface{}]: a key of one of the two kinds, or anything else. *)
Definition any_key : Type := ec_key + rsa_key + unit.

Definition publicKey (priv : any_key) : option public_key :=
  match priv with
  | inl (inl k) => Some (ec_public k)
  | inl (inr k) => Some (rsa_public k)
  | inr _ => None
  end.

Record Config := mkConfig { MinVersion : string; Certificates : list keypair }.

Definition ConfigTLS (certFile keyFile : string) : go_error + Config :=
  match X509KeyPair certFile keyFile with
  | inl e => inl e
  | inr sCert => inr (mkConfig "TLS12" [sCert])
  end.

Definition PrivateKey : M rng (ec_key * string) :=
  priv ← wrap_err (Errorf "failed to generate private key: ") GenerateKey;
  bytes ← wrap_err (Errorf "failed to generate private key bytes: ") (lift (MarshalECPrivateKey priv));
  mret (priv, EncodeToMemory "PRIVATE KEY" bytes).

(** One host goes to the addresses or to the names. *)
Definition add_host (cert : Certificate) (h : string) : Certificate :=
  let c := cert in
  if ParseIP h then
    mkCertificate (ct_SerialNumber c) (ct_Organization c) (ct_NotBefore c) (ct_NotAfter c) (ct_KeyUsage c)
      (ct_ExtKeyUsage c) (ct_BasicConstraintsValid c) (ct_IPAddresses c ++ [h]) (ct_DNSNames c)
  else
    mkCertificate (ct_SerialNumber c) (ct_Organization c) (ct_NotBefore c) (ct_NotAfter c) (ct_KeyUsage c)
      (ct_ExtKeyUsage c) (ct_BasicConstraintsValid c) (ct_IPAddresses c) (ct_DNSNames c ++ [h]).

Definition Cert (cert parent : Certificate) (privKey : any_key) (hosts : list string) : M rng string :=
  let cert := foldl add_host cert hosts in
  bytes ← wrap_err (Errorf "failed to create certificate: ")
    (CreateCertificate cert parent (publicKey privKey) privKey);
  mret (EncodeToMemory "CERTIFICATE" bytes).

Record Param := mkParam { Hosts : list string; NotAfter : Z }.

Definition template (serialNumber now : Z) (params : Param) : Certificate :=
  mkCertificate serialNumber ["IBP"] (now - 5)%Z (NotAfter params)
    ["KeyEncipherment"; "DigitalSignature"] ["ServerAuth"] true [] [].

Definition SelfSignedCert (fuel : nat) (now : Z) (params : Param) (privKey : any_key) : M rng string :=
  serialNumber ← wrap_err (Errorf "failed to generate serial number: ")
    (rand_Int fuel (Z.shiftl 1 128));
  let t := template serialNumber now params in
  Cert t t privKey (Hosts params).
End tls.

(** ** GenerateRandomString *)

Definition charset : string :=
  "abcdefghijklmnopqrstuvwxyz" +:+ "ABCDEFGHIJKLMNOPQRSTUVWXYZ0123456789".

(** The error of rand.Int is dropped; the number is then nil. *)
Definition random_char (fuel : nat) : M rng ascii :=
  r ← attempt (rand_Int fuel (Z.of_nat (slen charset)));
  match r with
  | inl _ => panic "invalid memory address or nil pointer dereference"
  | inr num => mret (default "a"%char (String.get (Z.to_nat num) charset))
  end.

Fixpoint GenerateRandomString (fuel length : nat) : M rng string :=
  match length with
  | O => mret ""
  | S n => c ← random_char fuel; s ← GenerateRandomString fuel n; mret (String c s)
  end.

(** ** Examples *)
Example ParseIP_examples :
  ParseIP <$> ["127.0.0.1"; "01.2.3.4"; "1.2.3"; "256.1.1.1"; "peer"; ""; "::"; "::1"; "2001:db8::7"; "1:2:3:4:5:6:7:8";
               "1:2:3:4:5:6:7::"; "1::2::3"; "::ffff:10.0.0.1"; "1:2:3:4:5:6:7"; "fe80::1%eth0"; "1:2:3:4:5:6:7:8::"; "12345::"; "::1:"; ":1:2"]
  = [true; false; false; false; false; false; true; true; true; true; true; false; true; false; false; false; false; false; false].
Proof. by vm_compute. Qed.

Example EncodeToMemory_example :
  EncodeToMemory "CERTIFICATE" "abc" = "-----BEGIN CERTIFICATE-----" +:+ NL +:+ "YWJj" +:+ NL +:+ "-----END CERTIFICATE-----" +:+ NL.
Proof. by vm_compute. Qed.
