(* ===== verification/Main.v ===== *)
(** * The builder's main function

    cmd/ibp-builder/main.go and pkg/logger: the settings from flags, the
    environment and files, the credentials and the certificate, the completed
    pods cleared away, and the servers that are then started. [main] gives an
    exit code, or the configuration of the side car and of the file server.
    The connection to the cluster and the listeners are parameters. *)
From S2P Require Import Prelude GoStrings GoPath Url KubeTypes Containers KubeApi PodSpec OsModel PodHandler Tls.
From S2P Require FileTransfer.

(** ** pkg/logger *)

Inductive Level := DebugLevel | InfoLevel | WarnLevel | ErrorLevel.

Definition GetLogLevel (level : string) : Level :=
  let l := ToLower level in
  if bool_decide (l = "debug") then DebugLevel
  else if bool_decide (l = "warn") then WarnLevel
  else if bool_decide (l = "error") then ErrorLevel
  else InfoLevel.

(** ** Flags and state *)

Record flags := mkFlags {
  kubeconfigPath : string; kubeNamespace : string; clientTimeout : Z; peerID : string;
  sharedVolumePath : string; fileServerListenAddress : string; fileServerBaseURL : string;
  sidecarListenAddress : string }.

Definition default_flags : flags :=
  mkFlags "" "" 300 "unknown-peer" "." ":22222" "" "127.0.0.1:11111".

Record mworld (W : Type) := mkMworld {
  mw_os : OS; mw_rng : rng; mw_k : kworld W; mw_stderr : list string }.
Arguments mkMworld {W} _ _ _ _.
Arguments mw_os {W} _.
Arguments mw_rng {W} _.
Arguments mw_k {W} _.
Arguments mw_stderr {W} _.

Section lenses.
Context {W : Type}.

Definition mw_os_lens : lens (mworld W) OS :=
  Lens mw_os (λ o w, mkMworld o (mw_rng w) (mw_k w) (mw_stderr w)).
Definition mw_rng_lens : lens (mworld W) rng :=
  Lens mw_rng (λ r w, mkMworld (mw_os w) r (mw_k w) (mw_stderr w)).
Definition mw_k_lens : lens (mworld W) (kworld W) :=
  Lens mw_k (λ k w, mkMworld (mw_os w) (mw_rng w) k (mw_stderr w)).

Definition eprint (text : string) : M (mworld W) unit :=
  modify (λ w, mkMworld (mw_os w) (mw_rng w) (mw_k w) (mw_stderr w ++ [text])).

(** A part of main that may end the process with an exit code. *)
Definition ebind {A B} (m : M (mworld W) (nat + A)) (f : A → M (mworld W) (nat + B))
    : M (mworld W) (nat + B) :=
  r ← m; match r with inl code => mret (inl code) | inr a => f a end.

(** [if err != nil { fmt.Fprintf(os.Stderr, text, err); os.Exit(code) }]. *)
Definition or_exit {A} (text : string) (code : nat) (m : M (mworld W) A) : M (mworld W) (nat + A) :=
  r ← attempt m;
  match r with
  | inl e => eprint (text +:+ Error e) ;; mret (inl code)
  | inr a => mret (inr a)
  end.

(** [if err != nil { fmt.Fprintf(os.Stderr, text, err); return err }]. *)
Definition or_print {A} (text : string) (m : M (mworld W) A) : M (mworld W) A :=
  r ← attempt m;
  match r with
  | inl e => eprint (text +:+ Error e) ;; throw e
  | inr a => mret a
  end.
End lenses.

(** ** Settings *)

(** os.UserHomeDir. *)
Definition UserHomeDir : M OS string :=
  home ← Getenv "HOME";
  if bool_decide (home = "") then throw (ErrorString "$HOME is not defined") else mret home.

Definition k8sConfigPath (f : flags) : M OS string :=
  if negb (bool_decide (kubeconfigPath f = "")) then mret (kubeconfigPath f)
  else
    kubeconfig ← gets (λ s, os_env s !! "KUBECONFIG");
    match kubeconfig with
    | Some path => mret path
    | None =>
        home ← attempt UserHomeDir;
        match home with
        | inl _ => mret ""
        | inr home =>
            let config := PathJoin [home; ".kube"; "config"] in
            r ← attempt (Stat config);
            match r with inl _ => mret "" | inr _ => mret config end
        end
    end.

Definition namespace_file : string := "/var/run/secrets/kubernetes.io/serviceaccount/namespace".

Definition k8sNamespace (f : flags) : M OS string :=
  if negb (bool_decide (kubeNamespace f = "")) then mret (kubeNamespace f)
  else
    ns ← attempt (ReadFile namespace_file);
    match ns with inl _ => mret "default" | inr ns => mret ns end.

Definition fsBaseURL (f : flags) : string :=
  if negb (bool_decide (fileServerBaseURL f = "")) then fileServerBaseURL f
  else "https://" +:+ fileServerListenAddress f +:+ "/".

Definition parseListEnv (text : string) : list string := Split " "%char text.

(** Newlines written as a backslash and an n. *)
Definition escape_newlines (s : string) : string := Join (Split nl s) (String (ascii_of_nat 92) "n").

Section main.
Context {W : Type} `{KubeClient W} `{Crypto} (fuel : nat).

Definition getEnvVar (name : string) : M (mworld W) (nat + string) :=
  value ← zoom mw_os_lens (Getenv name);
  if bool_decide (value = "") then eprint ("no " +:+ name +:+ " specified") ;; mret (inl 1)
  else mret (inr value).

(** A year of 8766 hours, from now on. *)
Definition GenerateTLSCrypto (now : Z) (fileServerBaseURL sharedDir : string)
    : M (mworld W) (Config * string * string) :=
  u ← lift (match Parse fileServerBaseURL with
            | inl e => inl (ErrorString ("parse " +:+ DQ +:+ fileServerBaseURL +:+ DQ +:+ ": " +:+ e))
            | inr u => inr u
            end);
  let params := mkParam [Hostname u] (now + 8766 * 3600)%Z in
  '(tlsKey, tlsKeyBytes) ← or_print "failed to generate tlskey: " (zoom mw_rng_lens PrivateKey);
  tlsCertBytes ← or_print "failed to generate tlscert: "
    (zoom mw_rng_lens (SelfSignedCert fuel now params (inl (inl tlsKey))));
  tlsConfig ← or_print "failed to parse TLS configuration: " (lift (ConfigTLS tlsCertBytes tlsKeyBytes));
  or_print "failed to create certs dir : " (zoom mw_os_lens (MkdirAll (sharedDir +:+ "/certs") 488)) ;;
  or_print "failed to save cert : "
    (zoom mw_os_lens (WriteFile (sharedDir +:+ "/certs/cert.pem") tlsCertBytes 384)) ;;
  or_print "failed to save key : "
    (zoom mw_os_lens (WriteFile (sharedDir +:+ "/certs/key.pem") tlsKeyBytes 384)) ;;
  mret (tlsConfig, tlsKeyBytes, tlsCertBytes).

(** Errors of clearing away are printed and otherwise dropped. *)
Definition clear_completed (peerID : string) : M (mworld W) unit :=
  r ← attempt (zoom mw_k_lens (ListCompletedExecutionPodsForPeer peerID));
  pods ← match r with
         | inl e => eprint ("unable get completed pods for peer '" +:+ peerID +:+ "': " +:+ Error e) ;; mret []
         | inr pods => mret pods
         end;
  r ← attempt (zoom mw_k_lens (DeletePods pods));
  match r with
  | inl e => eprint ("unable get delete completed pods for peer '" +:+ peerID +:+ "': " +:+ Error e)
  | inr _ => mret tt
  end.

(** The side car's server; the NodeClient is not set. *)
Definition build_server (f : flags) (username password tlsCert : string) : M (mworld W) (nat + Server) :=
  ebind (getEnvVar "FILETRANSFERIMAGE") (λ fileTransferImage,
  ebind (getEnvVar "BUILDERIMAGE") (λ builderImage,
  ebind (getEnvVar "GOENVIMAGE") (λ goEnvImage,
  ebind (getEnvVar "JAVAENVIMAGE") (λ javaEnvImage,
  ebind (getEnvVar "NODEENVIMAGE") (λ nodeEnvImage,
  ebind (getEnvVar "IMAGEPULLSECRETS") (λ imagePullSecrets,
  mret (inr (mkServer false (sharedVolumePath f) (fsBaseURL f) fileTransferImage builderImage goEnvImage
    javaEnvImage nodeEnvImage (parseListEnv imagePullSecrets) (peerID f)
    (mkBasicAuth username password) (escape_newlines tlsCert))))))))).

Record running := mkRunning {
  rn_namespace : string;
  rn_server : Server;
  rn_handler : FileTransfer.Handler;
  rn_sidecar_address : string;
  rn_file_address : string;
  rn_tls : Config;
  rn_cert_files : string * string }.

(** [rest_config] is restClientConfig with BuildConfigFromFlags for a path and
    InClusterConfig for none, [new_client] kubernetes.NewForConfig with the
    timeout, [listen] is net.Listen on a TCP address. *)
Definition main {config : Type} (rest_config : string → go_error + config)
    (new_client : config → Z → go_error + unit) (listen : string → go_error + unit)
    (now : Z) (f : flags) : M (mworld W) (nat + running) :=
  username ← zoom mw_rng_lens (GenerateRandomString fuel 16);
  password ← zoom mw_rng_lens (GenerateRandomString fuel 16);
  kubeconfig ← zoom mw_os_lens (k8sConfigPath f);
  ebind (or_exit "unable to establish connection to kubernetes: " 10 (lift (rest_config kubeconfig)))
    (λ clientConfig,
  ebind (or_exit "unable to create client set: " 11 (lift (new_client clientConfig (clientTimeout f))))
    (λ _,
  ns ← zoom mw_os_lens (k8sNamespace f);
  clear_completed (peerID f) ;;
  ebind (or_exit "failed to generate tls crypto: " 21
           (GenerateTLSCrypto now (fileServerBaseURL f) (sharedVolumePath f)))
    (λ '(tlsConfig, _, tlsCertBytes),
  zoom mw_os_lens (k8sNamespace f) ;;
  zoom mw_os_lens (k8sNamespace f) ;;
  ebind (build_server f username password tlsCertBytes) (λ buildServer,
  ebind (or_exit "failed to listen on sidecar listen address: " 12 (lift (listen (sidecarListenAddress f))))
    (λ _,
  ebind (or_exit "failed to listen on file server listen address: " 13 (lift (listen (fileServerListenAddress f))))
    (λ _,
  let dir := sharedVolumePath f +:+ "/certs/" in
  mret (inr (mkRunning ns buildServer
    (FileTransfer.mkHandler (sharedVolumePath f) username password)
    (sidecarListenAddress f) (fileServerListenAddress f) tlsConfig
    (dir +:+ "cert.pem", dir +:+ "key.pem"))))))))).
End main.
