(* ===== verification/MainFacts.v ===== *)
(** * What the builder is started with

    Facts on main (Main.v, Tls.v): random strings are of the characters asked
    for, the certificate's hosts are sorted into addresses and names, and the
    two servers are set up to work with each other. *)
From S2P Require Import Prelude GoStrings GoPath Url Base64 KubeTypes Containers KubeApi PodSpec OsModel.
From S2P Require Import PodHandler Tls Main FileTransfer FileTransferFacts.

(** ** Random strings *)

Lemma get_all_bytes f s i a : all_bytes f s = true → String.get i s = Some a → f a = true.
Proof.
  revert i. induction s as [|b s IH]; intros i; [by destruct i|]. simpl.
  intros [Hb Hs]%andb_true_iff. destruct i as [|i]; [by intros [= <-]|by apply IH].
Qed.

Lemma random_char_alnum fuel r c r' : random_char fuel r = (Ok c, r') → is_alnum c = true.
Proof.
  unfold random_char, mbind, M_bind. destruct (attempt _ r) as [[[e|n]|e|m|] r1]; try done.
  unfold mret, M_ret. pose proof (get_all_bytes is_alnum charset (Z.to_nat n)) as Hg. revert Hg.
  generalize (String.get (Z.to_nat n) charset). intros o Hg [= <- _].
  destruct o as [a|]; [by apply Hg|reflexivity].
Qed.

Lemma GenerateRandomString_ok fuel n r s r' :
  GenerateRandomString fuel n r = (Ok s, r') → slen s = n ∧ all_bytes is_alnum s = true.
Proof.
  revert r s r'. induction n as [|n IH]; intros r s r'; cbn [GenerateRandomString]; [by intros [= <- _]|].
  intros (c & r1 & Hc & E)%bind_inv_ok. apply bind_inv_ok in E as (t & r2 & Ht & E).
  injection E as <- _. apply IH in Ht as [Hl Ha]. apply random_char_alnum in Hc. simpl. by rewrite Hl, Hc.
Qed.

(** Enough fuel: among any [fuel] bytes to come one is accepted. *)
Lemma rand_Int_charset fuel r :
  (∃ i b, i < fuel ∧ rng_byte r (rng_pos r + i) = Some b ∧ (Z.land b 63 < 62)%Z) →
  (∃ n r', rand_Int fuel 62 r = (Ok n, r') ∧ rng_byte r' = rng_byte r ∧ (n < 62)%Z) ∨
  ∃ e r', rand_Int fuel 62 r = (Err e, r').
Proof.
  revert r. induction fuel as [|k IH]; intros r (i & b & Hi & Hb & Hlt); [lia|].
  cbn [rand_Int]. change (bool_decide (bit_len (62 - 1) = 0%Z)) with false. cbv iota.
  change (Z.to_nat ((bit_len (62 - 1) + 7) / 8)) with 1.
  change (2 ^ (if bool_decide (bit_len (62 - 1) mod 8 = 0) then 8 else bit_len (62 - 1) mod 8) - 1)%Z with 63%Z.
  cbn [read_number]. unfold mbind, M_bind, read_byte. destruct (rng_byte r (rng_pos r)) as [c|] eqn:Ec.
  2: { right. by eexists _, _. }
  cbn [mret M_ret]. rewrite Z.mul_0_l, Z.add_0_l. case_bool_decide as Hc.
  - left. by eexists _, _.
  - destruct i as [|i]; [rewrite Nat.add_0_r in Hb; congruence|].
    destruct (IH (mkRng (rng_byte r) (S (rng_pos r)))) as [(n & r' & H1 & H2 & H3)|(e & r' & H1)].
    + exists i, b. split; [lia|]. split; [|done]. simpl. by rewrite <- Nat.add_succ_r.
    + left. by exists n, r'.
    + right. by exists e, r'.
Qed.

(** ** Hosts of a certificate *)

Lemma add_hosts_spec cert hosts :
  let c := foldl add_host cert hosts in
  ct_IPAddresses c = ct_IPAddresses cert ++ filter (λ h, ParseIP h = true) hosts ∧
  ct_DNSNames c = ct_DNSNames cert ++ filter (λ h, ParseIP h = false) hosts ∧
  ct_NotAfter c = ct_NotAfter cert ∧ ct_ExtKeyUsage c = ct_ExtKeyUsage cert.
Proof.
  cbv zeta. revert cert. induction hosts as [|h hosts IH]; intros cert; cbn [foldl]; [by rewrite !app_nil_r|].
  destruct (IH (add_host cert h)) as (H1 & H2 & H3 & H4). rewrite H1, H2, H3, H4, !filter_cons.
  unfold add_host. destruct (ParseIP h) eqn:E; cbn [ct_IPAddresses ct_DNSNames ct_NotAfter ct_ExtKeyUsage].
  - rewrite decide_True, decide_False by done. by rewrite <- app_assoc.
  - rewrite decide_False, decide_True by done. by rewrite <- app_assoc.
Qed.

(** ** The parts of main *)

Section inversion.
Context {W : Type} `{KubeClient W}.

Lemma ebind_inv {A B} (m : M (mworld W) (nat + A)) (f : A → M (mworld W) (nat + B)) w b w' :
  ebind m f w = (Ok (inr b), w') → ∃ a w1, m w = (Ok (inr a), w1) ∧ f a w1 = (Ok (inr b), w').
Proof.
  unfold ebind. intros ([code|a] & w1 & Hm & E)%bind_inv_ok; [done|]. eauto.
Qed.

Lemma getEnvVar_ok name (w w' : mworld W) v :
  getEnvVar name w = (Ok (inr v), w') → v ≠ "" ∧ os_env (mw_os w) !! name = Some v ∧ w' = w.
Proof.
  unfold getEnvVar, Getenv. intros E. unfold mbind, M_bind, zoom, gets in E. simpl in E.
  destruct (bool_decide _) eqn:Hb; [done|]. apply bool_decide_eq_false_1 in Hb. injection E as <- <-.
  split; [done|]. split; [|by destruct w]. by destruct (os_env (mw_os w) !! name).
Qed.
End inversion.

Section parts.
Context {W : Type} `{KubeClient W} `{Crypto}.

Lemma build_server_ok f u p cert (w w' : mworld W) b :
  build_server f u p cert w = (Ok (inr b), w') →
  sv_Auth b = mkBasicAuth u p ∧ sv_SharedPath b = sharedVolumePath f ∧ sv_FSBaseURL b = fsBaseURL f ∧
  sv_PeerID b = peerID f ∧ sv_NodeClient b = false ∧ sv_TLSCertString b = escape_newlines cert ∧
  Forall (λ x, x ≠ "") [sv_FileTransferImage b; sv_BuilderImage b; sv_GoEnvImage b; sv_JavaEnvImage b;
                        sv_NodeEnvImage b].
Proof.
  unfold build_server. intros E.
  do 6 (apply ebind_inv in E as (? & ? & Hv & E); apply getEnvVar_ok in Hv as (? & _ & ->)).
  injection E as <- _. repeat (split; [done|]). by repeat constructor.
Qed.
End parts.

(** No line of the certificate's text is broken. *)
Lemma escape_newlines_no_nl s : has_byte nl (escape_newlines s) = false.
Proof.
  unfold escape_newlines. pose proof (Split_no_sep nl s) as Hs. induction Hs as [|x l Hx Hl IH]; [done|].
  destruct l as [|y l]; [exact Hx|]. rewrite Join_cons by done. by rewrite !has_byte_app, Hx, IH.
Qed.

(** The two servers main starts, and the credentials they share. *)
Lemma main_servers {W config} `{KubeClient W} `{Crypto} fuel rest_config new_client listen now f
    (w w' : mworld W) run :
  main (config := config) fuel rest_config new_client listen now f w = (Ok (inr run), w') →
  ∃ u p cert (w1 w2 : mworld W), build_server f u p cert w1 = (Ok (inr (rn_server run)), w2) ∧
    rn_handler run = mkHandler (sharedVolumePath f) u p ∧
    (slen u = 16 ∧ all_bytes is_alnum u = true) ∧ slen p = 16 ∧ all_bytes is_alnum p = true.
Proof.
  unfold main. intros (u & w1 & Hu & E)%bind_inv_ok. apply bind_inv_ok in E as (p & w2 & Hp & E).
  apply bind_inv_ok in E as (kc & w3 & _ & E). do 2 apply ebind_inv in E as (? & ? & _ & E).
  apply bind_inv_ok in E as (ns & w4 & _ & E). apply bind_inv_ok in E as ([] & w5 & _ & E).
  apply ebind_inv in E as ([[cfg key] cert] & w6 & _ & E). do 2 apply bind_inv_ok in E as (? & ? & _ & E).
  apply ebind_inv in E as (b & w7 & Hb & E). do 2 apply ebind_inv in E as (? & ? & _ & E).
  injection E as <- _.
  assert (∀ s (v v' : mworld W), zoom mw_rng_lens (GenerateRandomString fuel 16) v = (Ok s, v') →
    slen s = 16 ∧ all_bytes is_alnum s = true) as Hrnd.
  { intros s v v'. unfold zoom. destruct (GenerateRandomString fuel 16 _) as [r r'] eqn:E.
    intros [= -> _]. by apply GenerateRandomString_ok in E. }
  apply Hrnd in Hu, Hp. by eexists u, p, cert, _, _.
Qed.

(** ** Properties *)

(** When the builder starts, its two servers fit together: they share one
    directory and one pair of credentials of 16 letters and digits each, the
    pods' requests with the side car's credentials are authorised by the file
    server, every image is named, the certificate is passed on in one line,
    and the zone of a node is never asked for. *)
Theorem main_consistent {W config} `{KubeClient W} `{Crypto} fuel rest_config new_client listen now f
    (w w' : mworld W) run :
  main (config := config) fuel rest_config new_client listen now f w = (Ok (inr run), w') →
  let b := rn_server run in
  let h := rn_handler run in
  h_Root h = sv_SharedPath b ∧ h_Username h = ba_Username (sv_Auth b) ∧
  h_Password h = ba_Password (sv_Auth b) ∧
  Forall (λ s, slen s = 16 ∧ all_bytes is_alnum s = true) [h_Username h; h_Password h] ∧
  (∀ rq, rq_Authorization rq =
      Some (basic_credentials (ba_Username (sv_Auth b)) (ba_Password (sv_Auth b))) → authorised h rq) ∧
  Forall (λ x, x ≠ "") [sv_FileTransferImage b; sv_BuilderImage b; sv_GoEnvImage b; sv_JavaEnvImage b;
                        sv_NodeEnvImage b] ∧
  has_byte nl (sv_TLSCertString b) = false ∧ sv_NodeClient b = false.
Proof.
  intros (u & p & cert & w1 & w2 & Hb & -> & Hu & Hp)%main_servers. cbv zeta. cbn [h_Root h_Username h_Password].
  apply build_server_ok in Hb as (-> & -> & _ & _ & -> & -> & Himg). cbn [ba_Username ba_Password].
  split; [done|]. split; [done|]. split; [done|].
  split; [constructor; [exact Hu|constructor; [exact Hp|constructor]]|].
  split; [|split; [exact Himg|split; [apply escape_newlines_no_nl|done]]].
  intros rq Hrq. exists u, p. split; [|by left]. apply BasicAuth_credentials; [|done].
  apply (all_bytes_not _ is_alnum); [reflexivity|apply Hu].
Qed.

(** ** Witnesses *)
Module Demo.
(** Keys without content, signed by nobody. *)
#[local] Instance crypto : Crypto := {
  ec_key := unit; rsa_key := unit; public_key := unit; keypair := string * string;
  GenerateKey := mret tt; MarshalECPrivateKey _ := inr "key";
  ec_public _ := tt; rsa_public _ := tt;
  CreateCertificate c _ _ _ := mret ("cert for " +:+ Join (ct_DNSNames c) " ");
  X509KeyPair c k := inr (c, k) }.

Definition dir0 : meta := mkMeta 493 1 2.
Definition env : gmap string string :=
  list_to_map [("FILETRANSFERIMAGE", "ft"); ("BUILDERIMAGE", "builder"); ("GOENVIMAGE", "go");
               ("JAVAENVIMAGE", "java"); ("NODEENVIMAGE", "node"); ("IMAGEPULLSECRETS", "s1 s2")].
Definition os0 : OS :=
  mkOS (<[["data"] := Directory dir0]> {[ [] := Directory dir0 ]}) [] 18 env 0 (λ _, None) (λ _, "7").
Definition w0 : mworld Sound.cluster :=
  mkMworld os0 (mkRng (λ n, Some (Z.of_nat n)) 0) (mkKworld (Sound.mkCluster (Mem.mkCluster ∅ ∅ ∅ [] [])) [] []) [].
Definition settings : flags :=
  mkFlags "" "" 300 "peer0" "/data" ":22222" "https://builder:22222/" "127.0.0.1:11111".
Definition start : M (mworld Sound.cluster) (nat + running) :=
  main 5 (λ _, inr tt) (λ _ _, inr tt) (λ _, inr tt) 1000 settings.
End Demo.

Lemma main_consistent_witness :
  ∃ run, (Demo.start Demo.w0).1 = Ok (inr run) ∧
    ba_Username (sv_Auth (rn_server run)) = "abcdefghijklmnop" ∧
    h_Password (rn_handler run) = ba_Password (sv_Auth (rn_server run)).
Proof.
  assert (Hu : match (Demo.start Demo.w0).1 with
          | Ok (inr run) => Some (ba_Username (sv_Auth (rn_server run)))
          | _ => None
          end = Some "abcdefghijklmnop") by (vm_compute; reflexivity).
  destruct (Demo.start Demo.w0) as [r w'] eqn:E. cbn [fst] in *. destruct r as [[code|run]| | |]; [done| |done..].
  destruct (main_consistent _ _ _ _ _ _ _ _ _ E) as (_ & _ & H & _).
  exists run. split; [reflexivity|]. split; [|exact H]. by injection Hu.
Defined.
