(* ===== verification/System.v ===== *)
(** * The side car behind the peer's commands

    The end of main of cmd/ibp-builder: the gRPC server that answers the peer's
    commands with the methods of [Server], and the HTTP server that answers the
    pods with the handler of [FileTransfer], side by side in one process on the
    shared volume. A pod is known by what its containers ask of the file server
    (the programs in the containers are not part of the repository). A method
    touches the volume only before it creates its pod, so what the pods do to
    the volume is put after what the method does. Both servers start a goroutine
    per call: the calls of several peers and the requests of their pods take
    turns in any order. *)
From S2P Require Import Prelude GoStrings GoPath OsModel FileTransfer Sidecar KubeTypes Containers KubeApi.
From S2P Require Import LogStream ExecutePod Uuid CryptoSecret Url PodSpec TarFormat Metadata Server Command.

(** ** Clients of the file server *)

(** What a client asks, and what it asks next once it has the answer. *)
Inductive client :=
  | Finished
  | Ask (rq : FileTransfer.request) (next : FileTransfer.response → client).

Definition exchange : Type := FileTransfer.request * FileTransfer.response.

(** A client's requests, one after the other. *)
Fixpoint serve (h : Handler) (c : client) (o : OS) : list exchange * OS :=
  match c with
  | Finished => ([], o)
  | Ask rq next =>
      let st := (ServeHTTP h rq (mkHttp o no_response [])).2 in
      let '(l, o') := serve h (next (hs_w st)) (hs_os st) in ((rq, hs_w st) :: l, o')
  end.

Fixpoint serve_all (h : Handler) (cs : list client) (o : OS) : list exchange * OS :=
  match cs with
  | [] => ([], o)
  | c :: cs =>
      let '(l1, o1) := serve h c o in
      let '(l2, o2) := serve_all h cs o1 in (l1 ++ l2, o2)
  end.

(** ** The side car *)

(** The pods that were asked for. *)
Definition created (cs : list kcall) : list Pod :=
  omap (λ c, match c with PodCreate p => Some p | _ => None end) cs.

(** The process: [sc_proc] is its directory, its umask and its environment,
    [sc_pods w p] what the pod p asks of the file server as the cluster has come
    to the state w, [sc_lost] how a client of gRPC sees a server that has gone. *)
Record side_car (W : Type) := mkSideCar {
  sc_server : Server;
  sc_handler : Handler;
  sc_proc : OS;
  sc_rand : entropy;
  sc_kube : W;
  sc_sched : list choice;
  sc_pods : W → Pod → client;
  sc_lost : go_error }.
Arguments mkSideCar {W} _ _ _ _ _ _ _ _.
Arguments sc_server {W} _.
Arguments sc_handler {W} _.
Arguments sc_proc {W} _.
Arguments sc_rand {W} _.
Arguments sc_kube {W} _.
Arguments sc_sched {W} _.
Arguments sc_pods {W} _.
Arguments sc_lost {W} _.

(** The files are shared, the process is the side car's own. *)
Definition on_volume {W} (sc : side_car W) (o : OS) : OS := set_files (λ _, os_files o) (sc_proc sc).

(** The world as a method finds it. *)
Definition sc_x {W} (sc : side_car W) : xworld W := mkXworld (mkKworld (sc_kube sc) [] []) (sc_sched sc).
Definition sc_world {W} (sc : side_car W) (o : OS) : sworld W :=
  mkSworld (on_volume sc o) (sc_rand sc) (sc_x sc).

(** Log wraps each text in the StandardError of a response. *)
Definition messages (sent : list (origin * string)) : list response :=
  (λ m, StandardError m.2) <$> sent.

(** What the pods of a call did, once the method has ended in w. *)
Definition traffic {W} (sc : side_car W) (w : sworld W) : list exchange * OS :=
  let k := xw_k (sw_x w) in
  serve_all (sc_handler sc) (sc_pods sc (kube k) <$> created (calls k)) (sw_os w).

(** A call of gRPC: the messages in order, then the status. *)
Definition answer {W} (sc : side_car W) (method : M (sworld W) unit)
    : M OS (list response * option go_error) := λ o,
  let '(r, w) := method (sc_world sc o) in
  let rs := messages (sent (xw_k (sw_x w))) in
  (match r with
   | Ok _ => Ok (rs, None)
   | Err e => Ok (rs, Some e)
   | Panic _ => Ok (rs, Some (sc_lost sc))
   | Blocked => Blocked
   end, set_files (λ _, os_files (traffic sc w).2) o).

Definition connect {W} `{KubeClient W} `{TarFormat} (sc : side_car W) : connection :=
  mkConnection (λ req, answer sc (Build (sc_server sc) req)) (λ req, answer sc (Run (sc_server sc) req)).

(** ** Calls at one time *)

(** A call that has come in, or one whose method has begun: how the method
    ends, and what its pods still ask. *)
Inductive thread (W : Type) :=
  | Called (sc : side_car W) (method : M (sworld W) unit)
  | Running (r : outcome unit) (cs : list client).
Arguments Called {W} _ _.
Arguments Running {W} _ _.

(** The next request of a call's pods. *)
Fixpoint serve_next (h : Handler) (cs : list client) (o : OS) : option (list client * OS) :=
  match cs with
  | [] => None
  | Finished :: cs' => serve_next h cs' o
  | Ask rq next :: cs' =>
      let st := (ServeHTTP h rq (mkHttp o no_response [])).2 in Some (next (hs_w st) :: cs', hs_os st)
  end.

(** A turn of a call: what its method does to the volume, or one request. *)
Definition take_turn {W} (h : Handler) (t : thread W) (o : OS) : option (thread W * OS) :=
  match t with
  | Called sc method =>
      let '(r, w) := method (sc_world sc o) in
      let k := xw_k (sw_x w) in
      Some (Running r (sc_pods sc (kube k) <$> created (calls k)), sw_os w)
  | Running r cs =>
      match serve_next h cs o with Some (cs', o') => Some (Running r cs', o') | None => None end
  end.

(** The calls in the order in which they get turns; a call that has nothing to
    do is passed over. *)
Fixpoint take_turns {W} (h : Handler) (turns : list nat) (ts : list (thread W)) (o : OS)
    : list (thread W) * OS :=
  match turns with
  | [] => (ts, o)
  | i :: turns' =>
      match ts !! i ≫= λ t, take_turn h t o with
      | Some (t', o') => take_turns h turns' (<[i := t']> ts) o'
      | None => take_turns h turns' ts o
      end
  end.

(** ** The pods, as curl and the shell are documented *)

Definition path_of (url : string) : string :=
  match Parse url with inr u => u_Path u | inl _ => "" end.

(** curl -u with the credentials of the environment. *)
Definition curl (method : string) (b : Server) (url body : string) : FileTransfer.request :=
  mkRequest method (path_of url)
    (Some (basic_credentials (ba_Username (sv_Auth b)) (ba_Password (sv_Auth b)))) body None.

(** What a download gives the next command of the pipeline, if it is an archive. *)
Definition downloaded (r : FileTransfer.response) : option string :=
  match rs_status r, rs_body r with
  | Some 200%Z, [Text c] => Some c
  | _, _ => None
  end.

(** A build pod: it downloads the source, makes the output of it, uploads it. *)
Definition build_client (b : Server) (compile : string → string) (sourceURL outputURL : string) : client :=
  Ask (curl "GET" b sourceURL "") (λ r,
    match downloaded r with
    | Some c => Ask (curl "PUT" b outputURL (compile c)) (λ _, Finished)
    | None => Finished
    end).

(** A run pod: it downloads the output. *)
Definition run_client (b : Server) (chaincodeURL : string) : client :=
  Ask (curl "GET" b chaincodeURL "") (λ _, Finished).
