(* ===== verification/SystemFacts.v ===== *)
(** * A build from the peer to the pod and back

    The connection of [System] meets what the peer's commands ask of a side car
    (the predicate [builds] of BuildFacts.v), so that a build can be followed
    from the package the peer has to the output the peer gets. *)
From S2P Require Import Prelude GoStrings GoPath OsModel FileTransfer FileTransferFacts Sidecar KubeTypes Containers KubeApi.
From S2P Require Import LogStream ExecutePod ExecutePodFacts Uuid CryptoSecret Url PodSpec TarFormat Json Metadata Server ServerFacts.
From S2P Require Import Fs CopyFacts Tar TarFacts TarRoundTrip Command CommandFacts BuildFacts RunFacts Tls Main MainFacts System.

(** ** Requests of the pods *)

Lemma Contains_skip c s t p : has_byte c s = false → Contains (s +:+ t) (String c p) = Contains t (String c p).
Proof.
  induction s as [|a s IH]; [done|]. cbn [has_byte]. intros [Ha Hs]%orb_false_iff.
  cbn [String.append Contains HasPrefix]. rewrite Ha. by apply IH.
Qed.

Lemma Contains_no_byte c s p : has_byte c s = false → Contains s (String c p) = false.
Proof. intros Hs. rewrite <- (sapp_nil_r s). by rewrite Contains_skip. Qed.

Lemma drop_bytes_past s t n : drop_bytes (slen s + n) (s +:+ t) = drop_bytes n t.
Proof. by induction s. Qed.

Lemma HasSuffix_long s t y : slen y ≤ slen t → HasSuffix (s +:+ t) y = HasSuffix t y.
Proof.
  intros Hl. unfold HasSuffix. rewrite slen_app.
  rewrite (proj2 (Nat.leb_le (slen y) (slen t)) Hl), (proj2 (Nat.leb_le (slen y) (slen s + slen t))) by lia.
  replace (slen s + slen t - slen y) with (slen s + (slen t - slen y)) by lia. by rewrite drop_bytes_past.
Qed.

(** The path of a file of a request on the file server. *)
Definition served_path (x f : string) : string := SLASH +:+ x +:+ SLASH +:+ f.

Lemma served_path_clean x f :
  name_ok x → name_ok f →
  Clean (served_path x f) = served_path x f ∧ PathJoin [SLASH; PathJoin [x; f]] = served_path x f ∧
  elems (served_path x f) = [x; f].
Proof.
  intros Hx Hf. pose proof Hx as [Hx1 Hx2]. pose proof Hf as [Hf1 Hf2].
  assert (Split slash (x +:+ SLASH +:+ f) = [x; f]) as Hs.
  { change (x +:+ SLASH +:+ f) with (x +:+ String slash f).
    by rewrite Split_app_any, (Split_id slash x Hx2), (Split_id slash f Hf2). }
  assert (clean_elems true ["" ; x; f] = [f; x]) as Hc
    by (change (clean_elems true ["" ; x; f]) with (clean_step true (clean_step true [] x) f); by rewrite !clean_step_normal).
  assert (∀ p, Split slash p = [x; f] → Clean (SLASH +:+ p) = served_path x f) as HC.
  { intros p Hp. unfold Clean. rewrite rooted_SLASH. change (SLASH +:+ p) with (String slash p).
    change (Split slash (String slash p)) with ("" :: Split slash p). rewrite Hp, Hc. done. }
  split; [by apply HC|]. split.
  - unfold PathJoin at 1. cbn [drop_empty]. rewrite bool_decide_eq_false_2 by done.
    change (Join [SLASH; ?p] SLASH) with (SLASH +:+ (SLASH +:+ p)).
    unfold Clean. rewrite rooted_SLASH. change (SLASH +:+ (SLASH +:+ ?p)) with (String slash (String slash p)).
    change (Split slash (String slash (String slash ?p))) with ("" :: "" :: Split slash p).
    assert (Split slash (PathJoin [x; f]) = [x; f]) as -> by by apply Split_name_pair.
    assert (clean_elems true ["" ; ""; x; f] = [f; x]) as ->
      by (change (clean_elems true ["" ; ""; x; f]) with (clean_elems true ["" ; x; f]); exact Hc). done.
  - unfold served_path, elems. change (SLASH +:+ ?p) with (String slash p) at 1.
    change (Split slash (String slash ?p)) with ("" :: Split slash p). rewrite Hs.
    rewrite filter_cons_False by (intros [? _]; done).
    destruct Hx1 as (Hx1 & Hx3 & _), Hf1 as (Hf1 & Hf3 & _). by rewrite !filter_cons_True, filter_nil.
Qed.

(** The names a request may have: that of a temporary directory, and a file's. *)
Definition transferable (f : string) : Prop :=
  name_ok f ∧ Contains f ".." = false ∧ has_byte (ascii_of_nat 0) f = false ∧
  slen "/index.html" ≤ slen f ∧ HasSuffix f "/index.html" = false.

Lemma served_path_ok x f :
  all_bytes is_alnum x = true → transferable f →
  Contains (served_path x f) ".." = false ∧
  Contains (served_path x f) (String (ascii_of_nat 0) "") = false ∧
  HasSuffix (served_path x f) "/index.html" = false.
Proof.
  intros Hx (_ & Hd & H0 & Hl & Hi). unfold served_path. split; [|split].
  - rewrite !sapp_assoc. rewrite Contains_skip; [exact Hd|].
    rewrite !has_byte_app, (all_bytes_not "."%char is_alnum x) by done. done.
  - apply Contains_no_byte. rewrite !has_byte_app, H0, (all_bytes_not (ascii_of_nat 0) is_alnum x) by done. done.
  - rewrite !sapp_assoc. by rewrite HasSuffix_long.
Qed.

(** ** The two servers of one side car *)

(** The file server serves the directory of the gRPC server, with the
    credentials the pods get, at the URL the pods get. *)
Record configured (b : Server) (h : Handler) (hp : string) : Prop := {
  cf_shared : sv_SharedPath b ≠ "";
  cf_root : h_Root h = sv_SharedPath b;
  cf_user : h_Username h = ba_Username (sv_Auth b);
  cf_password : h_Password h = ba_Password (sv_Auth b);
  cf_plain : all_bytes is_alnum (h_Username h) = true ∧ all_bytes is_alnum (h_Password h) = true;
  cf_url : sv_FSBaseURL b = "https://" +:+ hp +:+ SLASH;
  cf_host : plain_authority hp = true }.

Section requests.
Context (b : Server) (h : Handler) (hp : string) (Hcf : configured b h hp).
Context (x f : string) (Hx : name_ok x) (Ha : all_bytes is_alnum x = true) (Hf : transferable f).

(** The URL of a file, as a pod reads it. *)
Lemma request_url :
  ∃ url, urlJoin (sv_FSBaseURL b) (PathJoin [x; f]) = inr url ∧ path_of url = served_path x f ∧
    has_byte quote url = false.
Proof using Hcf Hx Ha Hf.
  destruct (served_path_clean x f Hx (proj1 Hf)) as (_ & Hj & _). pose proof Hcf as [_ _ _ _ _ -> Hhp].
  assert (url_path SLASH) as HP by (split; [by right|reflexivity]).
  exists ("https://" +:+ hp +:+ joined_path SLASH (PathJoin [x; f])). split; [|split].
  - apply urlJoin_https; [done|done|done|]. rewrite Hj. by intros [=].
  - unfold path_of. rewrite Parse_joined by done. cbn [u_Path]. rewrite Hj.
    unfold slashed, served_path. by rewrite rooted_SLASH, orb_true_r.
  - change ("https://" +:+ ?t) with ("https:" +:+ ("//" +:+ t)). rewrite has_byte_app.
    rewrite (https_no_byte hp) by (done || apply joined_path_url_path). done.
Qed.

Lemma request_authorised rq :
  rq_Authorization rq = Some (basic_credentials (ba_Username (sv_Auth b)) (ba_Password (sv_Auth b))) →
  authorised h rq.
Proof using Hcf.
  intros Hrq. pose proof Hcf as [_ _ HU HPw [Hu _] _ _]. exists (h_Username h), (h_Password h). split; [|by left].
  apply BasicAuth_credentials; [by apply (all_bytes_not _ is_alnum)|]. by rewrite HU, HPw.
Qed.

Lemma request_get url :
  path_of url = served_path x f → get_request h (curl "GET" b url "").
Proof using Hcf Hx Ha Hf.
  intros Hu. destruct (served_path_clean x f Hx (proj1 Hf)) as (Hc & _ & He).
  destruct (served_path_ok x f Ha Hf) as (H1 & H2 & H3).
  unfold get_request, is_healthz. cbn [curl rq_Path rq_Method]. rewrite Hu, Hc.
  split; [intros E; by rewrite E in He|]. split; [by apply request_authorised|]. done.
Qed.

Lemma request_put url body :
  path_of url = served_path x f → put_request h (curl "PUT" b url body).
Proof using Hcf Hx Ha Hf.
  intros Hu. destruct (served_path_clean x f Hx (proj1 Hf)) as (Hc & _ & He).
  destruct (served_path_ok x f Ha Hf) as (H1 & H2 & _).
  unfold put_request, is_healthz. cbn [curl rq_Path rq_Method rq_BodyErr]. rewrite Hu, Hc.
  split; [intros E; by rewrite E in He|]. split; [by apply request_authorised|]. done.
Qed.

(** Where the file is, for the file server. *)
Lemma request_place method url body st :
  path_of url = served_path x f →
  place h (curl method b url body) st = resolve (os_cwd (hs_os st)) (sv_SharedPath b) ++ [x; f].
Proof using Hcf Hx Hf.
  intros Hu. destruct (served_path_clean x f Hx (proj1 Hf)) as (Hc & _ & He).
  unfold place. cbn [curl rq_Path]. by rewrite Hu, Hc, He, (cf_root _ _ _ Hcf).
Qed.
End requests.

(** ** The pods a method creates *)

Definition same_created {W} (k k' : kworld W) : Prop := created (calls k') = created (calls k).

#[export] Instance same_created_pre W : PreOrder (@same_created W).
Proof. split; [by intros k|]. unfold same_created. intros k1 k2 k3. congruence. Qed.

Lemma created_app l1 l2 : created (l1 ++ l2) = created l1 ++ created l2.
Proof. apply omap_app. Qed.

Section created.
Context {W : Type} `{KubeClient W}.

Lemma call_created {A} c (f : W → (go_error + A) * W) k :
  created (calls (call c f k).2) = created (calls k) ++ created [c].
Proof. unfold call. destruct (f (kube k)). cbn. by rewrite created_app. Qed.

Lemma keeps_call_created {A} c (f : W → (go_error + A) * W) : created [c] = [] → keeps same_created (call c f).
Proof. intros Hc k. unfold same_created. by rewrite call_created, Hc, app_nil_r. Qed.

#[local] Hint Resolve keeps_call_created : keeps.
#[local] Hint Extern 4 (created _ = []) => reflexivity : keeps.

Lemma stopWatch_created : keeps (same_created (W:=W)) stopWatch.
Proof. by apply keeps_call_created. Qed.

Lemma exec_loop_created defers (x : xworld W) r x' :
  exec_loop defers x = (r, x') → same_created (xw_k x) (xw_k x').
Proof.
  apply (exec_loop_keeps same_created); [done|apply stopWatch_created|..]; intros; by apply keeps_call_created.
Qed.

Lemma set_controller_created p stage opts :
  keeps same_created (set_controller (W:=W) addControllerReferenceToCryptoSecret p stage opts).
Proof.
  assert (∀ m, keeps same_created (Log (W:=W) m)) by (intros m k; done).
  unfold set_controller, addControllerReferenceToCryptoSecret. keeps_tac.
Qed.

(** A call of executePod asks for its pod and for no other. *)
Lemma exec_setup_created p stage opts k rs k2 :
  exec_setup addControllerReferenceToCryptoSecret p stage opts k = (rs, k2) →
  created (calls k2) = created (calls k) ++ [p].
Proof.
  unfold exec_setup, mbind at 1, M_bind at 1, wrap_err.
  pose proof (call_created (PodCreate p) (pods_Create p) k) as Hc.
  destruct (call (PodCreate p) (pods_Create p) k) as [[p'|e|m|] k1]; [|by intros [= <- <-]..].
  unfold mbind, M_bind. pose proof (set_controller_created p' stage opts k1) as Hs.
  unfold same_created in Hs. cbn [snd] in Hc. rewrite Hc in Hs.
  destruct (set_controller _ p' stage opts k1) as [[[]|e|m|] k3]; intros [= <- <-]; exact Hs.
Qed.

Lemma executePod_created p stage opts (x x' : xworld W) r :
  executePod addControllerReferenceToCryptoSecret p stage opts x = (r, x') →
  created (calls (xw_k x')) = created (calls (xw_k x)) ∧ r ≠ Ok tt ∨
  created (calls (xw_k x')) = created (calls (xw_k x)) ++ [p].
Proof.
  intros E. apply executePod_cases in E.
  destruct (pods_Watch (name_selector p) (kube (xw_k x))) as [[e|[]] w1].
  { left. destruct E as [-> ->]. cbn. by rewrite created_app, app_nil_r. }
  right. destruct E as (rs & k2 & Es & E). pose proof Es as Es'. apply exec_setup_created in Es. cbn [calls] in Es.
  rewrite created_app in Es. change (created [PodWatch _]) with (@nil Pod) in Es. rewrite app_nil_r in Es.
  assert (∀ e, rs = Err e → created (calls (xw_k x')) = created (calls (xw_k x)) ++ [p]) as Herr.
  { intros e ->. destruct E as [_ ->]. pose proof (stopWatch_created k2) as Hs. unfold same_created in Hs. by rewrite Hs. }
  apply exec_setup_cases in Es' as [_ Hs]. change (kube (mkKworld w1 _ _)) with w1 in Hs.
  destruct (pods_Create p w1) as [[e|p'] w2]; [by eapply Herr|]. destruct Hs as [->|(_ & e & ->)]; [|by eapply Herr].
  apply exec_loop_created in E. unfold same_created in E. by rewrite E.
Qed.
End created.

(** ** Build, when nothing is in the way *)

Lemma Build_ok {W} `{KubeClient W} `{TarFormat} b req (w : sworld W) o md c su ou uuid e x' :
  let p := build_pod b c su ou uuid (env_of "PEER_POD_NAME" (sw_os w)) (env_of "PEER_POD_UID" (sw_os w)) in
  extractChaincodeMetadata b (br_MetadataPath req) (sw_os w) = (Ok md, o) →
  buildContainerDefinition b md = inr c →
  env_of "PEER_POD_NAME" (sw_os w) ≠ "" → env_of "PEER_POD_UID" (sw_os w) ≠ "" →
  urlJoin (sv_FSBaseURL b) (br_SourcePath req) = inr su →
  urlJoin (sv_FSBaseURL b) (br_OutputPath req) = inr ou →
  UUID (sw_rand w) = (Ok uuid, e) →
  executePod addControllerReferenceToCryptoSecret p BUILD None (sw_x w) = (Ok tt, x') →
  Build b req w = (Ok tt, mkSworld o e x').
Proof.
  intros p Hmd Hc Hn Hu Hsu Hou Hid Hp.
  pose proof (extract_env b (br_MetadataPath req) (sw_os w)) as Henv. rewrite Hmd in Henv. cbn [snd] in Henv.
  assert (∀ n, env_of n o = env_of n (sw_os w)) as He by (intros n; unfold env_of; by rewrite Henv).
  unfold Build. set (w1 := put sw_os_lens o w).
  rewrite (bind_ok _ _ _ md w1) by (unfold wrap_err; by rewrite (zoom_eq sw_os_lens _ w _ _ Hmd)).
  rewrite (bind_ok _ _ _ c w1) by (unfold wrap_err; by rewrite lift_result, Hc).
  do 2 (erewrite bind_ok; [|rewrite peer_env_eq; change (sw_os w1) with o; rewrite He, bool_decide_eq_false_2 by done; reflexivity]).
  rewrite (bind_ok _ _ _ p (put sw_rand_lens e w1)).
  - unfold wrap_err. by rewrite (zoom_eq sw_x_lens _ (put sw_rand_lens e w1) _ _ Hp).
  - apply (zoom_eq sw_rand_lens). unfold buildPodDefinition, url_join. rewrite Hsu, Hou.
    change (view sw_rand_lens w1) with (sw_rand w). unfold mbind, M_bind, mret, M_ret. by rewrite Hid.
Qed.

(** ** What the pods do to the volume *)

(** An upload to a free name of a directory. *)
Lemma upload_free h rq st p y m :
  h_Root h ≠ "" → put_request h rq → hs_w st = no_response → no_fault (hs_os st) → fs_wf (os_files (hs_os st)) →
  place h rq st = p ++ [y] → os_files (hs_os st) !! p = Some (Directory m) → os_files (hs_os st) !! (p ++ [y]) = None →
  same_process (hs_os st) (hs_os (ServeHTTP h rq st).2) ∧ rs_status (hs_w (ServeHTTP h rq st).2) = Some 201%Z ∧
  ∃ m', os_files (hs_os (ServeHTTP h rq st).2) = <[p ++ [y] := File m' (rq_Body rq)]> (os_files (hs_os st)).
Proof.
  intros HR (Hz & Ha & Hm & Hb & Hd & H0) Hw Hf Hwf Hk Hp Hn. rewrite ServeHTTP_put by done.
  pose proof (serve_put_status rq (PathJoin [h_Root h; Clean (rq_Path rq)]) st Hf ltac:(by rewrite Hw) Hb) as Hs.
  pose proof (serve_put_spec rq (PathJoin [h_Root h; Clean (rq_Path rq)]) st) as Hspec. cbv zeta in Hspec.
  rewrite (proj1 (location_place h rq st HR Hd)), Hk in Hs, Hspec.
  assert (put_status (os_files (hs_os st)) (p ++ [y]) = 201%Z) as H201
    by (unfold put_status; by rewrite (parent_ok_dir _ _ _ _ Hwf Hp), Hn).
  rewrite H201 in Hs. split; [apply Hspec|]. split; [exact Hs|].
  destruct Hspec as [_ [[_ H]|(_ & _ & H)]]; [by destruct (H ltac:(by rewrite Hw) Hs)|].
  by apply H; rewrite ?Hw.
Qed.

Lemma source_transferable : transferable "chaincode-source.tar".
Proof. repeat split; try done; vm_compute; lia. Qed.

Lemma output_transferable : transferable "chaincode-output.tar".
Proof. repeat split; try done; vm_compute; lia. Qed.

Section traffic.
Context (b : Server) (h : Handler) (hp : string) (Hcf : configured b h hp).
Context (x : string) (Hx : name_ok x) (Ha : all_bytes is_alnum x = true) (o : OS) (T : fpath).
Context (Hf : no_fault o) (Hwf : fs_wf (os_files o)) (HT : resolve (os_cwd o) (sv_SharedPath b) ++ [x] = T).

(** A download changes nothing and gives the file. *)
Lemma download_file f url m c :
  transferable f → path_of url = served_path x f → os_files o !! (T ++ [f]) = Some (File m c) →
  let st := (ServeHTTP h (curl "GET" b url "") (mkHttp o no_response [])).2 in
  same_tree o (hs_os st) ∧ downloaded (hs_w st) = Some c.
Proof using Hcf Hx Ha Hf Hwf HT.
  intros Hff Hu Hc. set (rq := curl "GET" b url ""). set (st0 := mkHttp o no_response []).
  assert (h_Root h ≠ "") as HR by (rewrite (cf_root _ _ _ Hcf); apply Hcf).
  pose proof (request_get b h hp Hcf x f Hx Ha Hff url Hu) as Hg. cbv zeta. split.
  - apply (ServeHTTP_quiet h rq). do 4 right. by intros [=].
  - assert (place h rq st0 = T ++ [f]) as Hpl.
    { unfold rq. rewrite (request_place b h hp Hcf x f Hx Hff _ _ _ _ Hu). cbn [hs_os st0].
      by rewrite (app_assoc _ [x] [f]), HT. }
    by rewrite (ServeHTTP_get_regular h rq st0 m c) by (done || by rewrite Hpl).
Qed.

Lemma serve_build compile su ou m c mT :
  path_of su = served_path x "chaincode-source.tar" → path_of ou = served_path x "chaincode-output.tar" →
  os_files o !! T = Some (Directory mT) → os_files o !! (T ++ ["chaincode-source.tar"]) = Some (File m c) →
  os_files o !! (T ++ ["chaincode-output.tar"]) = None →
  ∃ m', os_files (serve h (build_client b compile su ou) o).2 =
    <[T ++ ["chaincode-output.tar"] := File m' (compile c)]> (os_files o).
Proof using Hcf Hx Ha Hf Hwf HT.
  intros Hsu Hou HmT Hc Hn. cbn [build_client serve].
  destruct (download_file _ su m c source_transferable Hsu Hc) as [[Hp1 Hs1] ->].
  set (st1 := (ServeHTTP h _ _).2) in *. cbn [serve].
  set (rq := curl "PUT" b ou (compile c)). set (st2 := mkHttp (hs_os st1) no_response []).
  destruct (upload_free h rq st2 T "chaincode-output.tar" mT) as (_ & _ & m' & Hm').
  - rewrite (cf_root _ _ _ Hcf). apply Hcf.
  - by apply (request_put b h hp Hcf x _ Hx Ha output_transferable).
  - done.
  - by eapply no_fault_same.
  - cbn. by rewrite Hs1.
  - unfold rq. rewrite (request_place b h hp Hcf x _ Hx output_transferable _ _ _ _ Hou). cbn [hs_os st2].
    destruct Hp1 as (-> & _). by rewrite (app_assoc _ [x] ["chaincode-output.tar"]), HT.
  - cbn. by rewrite Hs1.
  - cbn. by rewrite Hs1.
  - exists m'. cbn [snd]. rewrite Hm'. cbn. by rewrite Hs1.
Qed.
End traffic.

(** ** The side car builds *)

Section sidecar.
Context {W : Type} `{KubeClient W} `{TarFormat}.

(** A side car that is up: it knows the peer's pod, has randomness, and no
    failures of the system. *)
Record up (sc : side_car W) : Prop := {
  up_fault : no_fault (sc_proc sc);
  up_name : env_of "PEER_POD_NAME" (sc_proc sc) ≠ "";
  up_uid : env_of "PEER_POD_UID" (sc_proc sc) ≠ "";
  up_random : ∃ uuid e, UUID (sc_rand sc) = (Ok uuid, e) }.

(** The directory of the volume, for the side car. *)
Definition volume (sc : side_car W) : fpath := resolve (os_cwd (sc_proc sc)) (sv_SharedPath (sc_server sc)).

(** A cluster that brings build pods to their end: executePod returns without
    an error, and the pod has asked the file server what its containers ask,
    the build container making [compile c] of what it gets. *)
Definition runs_builds (sc : side_car W) (compile : Container → string → string) : Prop :=
  ∀ c su ou uuid pn pu, has_byte quote su = false → has_byte quote ou = false →
    let p := build_pod (sc_server sc) c su ou uuid pn pu in
    ∃ x', executePod addControllerReferenceToCryptoSecret p BUILD None (sc_x sc) = (Ok tt, x') ∧
      sc_pods sc (kube (xw_k x')) p = build_client (sc_server sc) (compile c) su ou.

(** What Build needs in the directory of a request: the archives, metadata with
    a container for their type, and no output. *)
Definition to_build (sc : side_car W) (ctr : Container) (T : fpath) (o : OS) : Prop :=
  (∃ x, T = volume sc ++ [x]) ∧
  (∃ m c, os_files o !! (T ++ ["chaincode-source.tar"]) = Some (File m c)) ∧
  (∃ m c md, os_files o !! (T ++ ["package-metadata.tar"]) = Some (File m c) ∧
     metadata_of_archive c = inr md ∧ buildContainerDefinition (sc_server sc) md = inr ctr) ∧
  os_files o !! (T ++ ["chaincode-output.tar"]) = None.

(** What it leaves: the output of the source. *)
Definition built (compile : string → string) (T : fpath) (o o' : OS) : Prop :=
  ∀ m c, os_files o !! (T ++ ["chaincode-source.tar"]) = Some (File m c) →
    ∃ m', os_files o' = <[T ++ ["chaincode-output.tar"] := File m' (compile c)]> (os_files o).

(** The metadata, as the side car reads them. *)
Lemma request_archive (sc : side_car W) hp x o m c :
  configured (sc_server sc) (sc_handler sc) hp → no_fault (sc_proc sc) → name_ok x → fs_wf (os_files o) →
  os_files o !! ((volume sc ++ [x]) ++ ["package-metadata.tar"]) = Some (File m c) →
  (extractChaincodeMetadata (sc_server sc) (PathJoin [x; "package-metadata.tar"]) (on_volume sc o)).1 =
    of_result (metadata_of_archive c).
Proof.
  intros Hcf Hf Hx Hwf Hc. set (b := sc_server sc) in *. set (p := PathJoin [x; "package-metadata.tar"]).
  assert (name_ok "package-metadata.tar") as Hn by by apply (bool_decide_unpack _).
  destruct (name_pair_elems x _ Hx Hn) as [Hd He].
  pose proof (extract_below b p (on_volume sc o) (cf_shared _ _ _ Hcf)) as E.
  rewrite containsDotDot_spec in E. specialize (E Hd Hf Hwf). cbv zeta in E.
  assert (shared_entry b p (on_volume sc o) = (volume sc ++ [x]) ++ ["package-metadata.tar"]) as Hp
    by (unfold shared_entry, p; rewrite He; by rewrite (app_assoc _ [x] ["package-metadata.tar"])).
  rewrite Hp in E. change (os_files (on_volume sc o)) with (os_files o) in E. by rewrite Hc in E.
Qed.

Lemma request_metadata (sc : side_car W) hp x o m c md :
  configured (sc_server sc) (sc_handler sc) hp → no_fault (sc_proc sc) → name_ok x → fs_wf (os_files o) →
  os_files o !! ((volume sc ++ [x]) ++ ["package-metadata.tar"]) = Some (File m c) → metadata_of_archive c = inr md →
  ∃ o', extractChaincodeMetadata (sc_server sc) (PathJoin [x; "package-metadata.tar"]) (on_volume sc o) = (Ok md, o') ∧
    same_tree (on_volume sc o) o'.
Proof.
  intros Hcf Hf Hx Hwf Hc Hmd. pose proof (request_archive sc hp x o m c Hcf Hf Hx Hwf Hc) as E. rewrite Hmd in E.
  pose proof (extractChaincodeMetadata_same (sc_server sc) (PathJoin [x; "package-metadata.tar"]) (on_volume sc o)) as Hs.
  destruct (extractChaincodeMetadata _ _ (on_volume sc o)) as [r o']. cbn [fst snd] in *. subst r. by exists o'.
Qed.

(** The method makes one pod, which gets the URLs of the request, and leaves the
    volume alone. *)
Lemma Build_creates (sc : side_car W) hp compile ctr x o :
  configured (sc_server sc) (sc_handler sc) hp → up sc → runs_builds sc compile → name_ok x → all_bytes is_alnum x = true →
  fs_wf (os_files o) → to_build sc ctr (volume sc ++ [x]) o →
  ∃ w su ou, Build (sc_server sc) (build_request x) (sc_world sc o) = (Ok tt, w) ∧ same_tree (on_volume sc o) (sw_os w) ∧
    path_of su = served_path x "chaincode-source.tar" ∧ path_of ou = served_path x "chaincode-output.tar" ∧
    let k := xw_k (sw_x w) in
    sc_pods sc (kube k) <$> created (calls k) = [build_client (sc_server sc) (compile ctr) su ou].
Proof.
  intros Hcf Hup Hruns Hx Ha Hwf (_ & _ & (mm & cm & md & Hcm & Hmd & Hctr) & _).
  pose proof Hup as [Hf Hpn Hpu (uuid & e & Hid)].
  destruct (request_metadata sc hp x o mm cm md Hcf Hf Hx Hwf Hcm Hmd) as (o1 & Emd & Hs1).
  destruct (request_url _ _ hp Hcf x _ Hx Ha source_transferable) as (su & Hsu & Psu & Qsu).
  destruct (request_url _ _ hp Hcf x _ Hx Ha output_transferable) as (ou & Hou & Pou & Qou).
  destruct (Hruns ctr su ou uuid (env_of "PEER_POD_NAME" (sc_proc sc)) (env_of "PEER_POD_UID" (sc_proc sc)) Qsu Qou) as (x' & Ex & Hcl).
  pose proof (Build_ok (sc_server sc) (build_request x) (sc_world sc o) o1 md ctr su ou uuid e x' Emd Hctr Hpn Hpu Hsu Hou Hid Ex) as E.
  apply executePod_created in Ex as [[_ []]|Ex]; [done|]. cbn in Ex.
  eexists _, su, ou. split; [exact E|]. split; [exact Hs1|]. split; [done|]. split; [done|].
  cbn [sw_x]. rewrite Ex. cbn [fmap list_fmap]. by rewrite Hcl.
Qed.

(** A call of Build over the connection. *)
Lemma answer_Build (sc : side_car W) hp compile ctr x o :
  configured (sc_server sc) (sc_handler sc) hp → up sc → runs_builds sc compile → name_ok x → all_bytes is_alnum x = true → fs_wf (os_files o) →
  let T := volume sc ++ [x] in
  (∃ m, os_files o !! T = Some (Directory m)) → to_build sc ctr T o →
  ∃ rs o', call_Build (connect sc) (build_request x) o = (Ok (rs, None), o') ∧ (NoMessage ∉ rs) ∧
    same_process o o' ∧ built (compile ctr) T o o'.
Proof.
  intros Hcf Hup Hruns Hx Ha Hwf T [mT HmT] Hgiven.
  destruct (Build_creates sc hp compile ctr x o Hcf Hup Hruns Hx Ha Hwf Hgiven) as (w & su & ou & E & [Hp1 Hs1] & Psu & Pou & Hcl).
  destruct Hgiven as (_ & (m & c & Hc) & _ & Hn).
  destruct (serve_build (sc_server sc) (sc_handler sc) hp Hcf x Hx Ha (sw_os w) T) with
    (compile := compile ctr) (su := su) (ou := ou) (m := m) (c := c) (mT := mT)
    as [m' Hm']; rewrite ?Hs1; try done.
  { eapply no_fault_same; [exact Hp1|apply Hup]. } { by destruct Hp1 as (-> & _). }
  eexists (messages (sent (xw_k (sw_x w)))), _. cbn [connect call_Build]. unfold answer. rewrite E. split; [done|].
  split; [by intros ([o0 t] & [=] & _)%list_elem_of_fmap|]. split; [done|].
  intros m0 c0 Hc0. assert (c0 = c) as -> by congruence. exists m'. cbn [set_files os_files].
  unfold traffic. cbv zeta in Hcl |- *. rewrite Hcl, Hs1 in *. cbn [serve_all].
  destruct (serve _ _ (sw_os w)) as [l o2]. cbn [snd] in *. exact Hm'.
Qed.

(** The side car is what the command expects of a connection. *)
Lemma connect_builds (sc : side_car W) hp compile ctr SharedDir depth :
  configured (sc_server sc) (sc_handler sc) hp → up sc → runs_builds sc compile →
  builds (connect sc) SharedDir depth (to_build sc ctr) (built (compile ctr)).
Proof.
  intros Hcf Hup Hruns x s T Ha Hgiven Htidy Hh. pose proof Htidy as [_ Hwf Hn [mT HmT] _].
  assert (name_ok x) as Hx.
  { pose proof (Hn _ _ HmT) as HT. apply Forall_app in HT as [_ HT]. by inversion HT. }
  pose proof Hgiven as [[x' Hx'] _]. apply app_inj_tail in Hx' as [HV <-]. unfold T in *. rewrite HV in *.
  destruct (answer_Build sc hp compile ctr x s Hcf Hup Hruns Hx Ha Hwf) as (rs & s' & E & Hrs & Hp & Hb); [by eexists|done|].
  exists rs, s'. split; [exact E|]. split; [exact Hrs|]. split; [exact Hp|].
  pose proof Hgiven as (_ & (m & c & Hc) & _ & _). destruct (Hb m c Hc) as [m' Hs'].
  destruct (tidy_output _ "chaincode-output.tar" m' (compile ctr c) s s' Htidy) as (H1 & H2 & H3);
    [by apply (bool_decide_unpack _)|apply Hgiven|done|done|].
  split; [exact H1|]. split; [by eapply Nat.le_lt_trans|]. by split.
Qed.

(** What Build refuses in the directory of a request. *)
Definition to_refuse (sc : side_car W) (e : go_error) (T : fpath) (o : OS) : Prop :=
  (∃ x, T = volume sc ++ [x]) ∧
  ∃ m c, os_files o !! (T ++ ["package-metadata.tar"]) = Some (File m c) ∧
    refusal (sc_server sc) (sc_proc sc) (metadata_of_archive c) = Some e.

(** The side car refuses it without a pod, whatever the cluster. *)
Lemma connect_refuses (sc : side_car W) hp e SharedDir :
  configured (sc_server sc) (sc_handler sc) hp → no_fault (sc_proc sc) →
  refuses (connect sc) SharedDir (to_refuse sc e) e [].
Proof.
  intros Hcf Hf. split; [apply not_elem_of_nil|]. intros x o T Ha Hgiven [_ Hwf Hn [mT HmT] _].
  assert (name_ok x) as Hx.
  { pose proof (Hn _ _ HmT) as HT. apply Forall_app in HT as [_ HT]. by inversion HT. }
  destruct Hgiven as [[x' Hx'] (m & c & Hc & He)]. apply app_inj_tail in Hx' as [HV <-]. unfold T in *. rewrite HV in *.
  destruct (Build_refused (sc_server sc) (build_request x) (sc_world sc o) (metadata_of_archive c) e) as (w & E & Hw & Hfs);
    [by apply (request_archive sc hp x o m c)|exact He|].
  eexists. cbn [connect call_Build]. unfold answer, traffic. rewrite E, Hw. split; [done|].
  split; [done|]. intros p _. cbn. destruct Hfs as [_ ->]. done.
Qed.
End sidecar.

(** What the builder starts is configured. *)
Lemma main_configured {W config} `{KubeClient W} `{Crypto} fuel rest_config new_client listen now f
    (w w' : mworld W) run hp :
  main (config := config) fuel rest_config new_client listen now f w = (Ok (inr run), w') →
  sharedVolumePath f ≠ "" → fsBaseURL f = "https://" +:+ hp +:+ SLASH → plain_authority hp = true →
  configured (rn_server run) (rn_handler run) hp.
Proof.
  intros E Hd Hu Hhp. apply main_servers in E as (u & p & cert & w1 & w2 & Hb & Hh & [_ HU] & _ & HP).
  destruct (build_server_ok _ _ _ _ _ _ _ Hb) as (Ha & Hs & Hfs & _). rewrite Hh.
  split; cbn [h_Root h_Username h_Password]; rewrite ?Ha, ?Hs, ?Hfs; done.
Qed.

(** What the command prepares is what Build needs. *)
Lemma build_handed_over {W} `{TarFormat} (sc : side_car W) SharedDir sourceDir metadataDir s mj c md ctr :
  volume sc = locate SharedDir s → names_ok (os_files s) → packable (os_files s) (locate metadataDir s) →
  os_files s !! (locate metadataDir s ++ ["metadata.json"]) = Some (File mj c) →
  unmarshal_chaincodeMetadata c = inr md → buildContainerDefinition (sc_server sc) md = inr ctr →
  hands_over SharedDir sourceDir metadataDir s (to_build sc ctr).
Proof.
  intros HV Hn Hgood Hc Hmd Hctr x s2 T _ [(m1 & l1 & H1 & _) (m2 & l2 & H2 & Hl2) _ Honly].
  split; [exists x; unfold T; by rewrite HV|]. split; [by eexists m1, _|]. split.
  - eexists m2, _, md. split; [exact H2|]. split; [|done].
    by rewrite (metadata_of_tree (os_files s) (locate metadataDir s) c mj l2).
  - by apply Honly, (bool_decide_unpack _).
Qed.

(** A whole build, with what the temporary directory T held at its end. *)
Lemma build_whole {W} `{KubeClient W} `{TarFormat} (sc : side_car W) hp compile depth
    SharedDir sourceDir metadataDir outputDir w mj c md ctr :
  configured (sc_server sc) (sc_handler sc) hp → up sc → runs_builds sc compile →
  let s := cw_os w in
  build_input SharedDir sourceDir metadataDir outputDir s → 2 * tree_height (os_files s) + 4 < depth →
  volume sc = locate SharedDir s →
  os_files s !! (locate metadataDir s ++ ["metadata.json"]) = Some (File mj c) →
  unmarshal_chaincodeMetadata c = inr md → buildContainerDefinition (sc_server sc) md = inr ctr →
  ∃ T s3 w' ls lm m1 m2 m3,
    let source := tar_write (a_entries (archive_of ls)) in
    Build_Run depth (connect sc) SharedDir [sourceDir; metadataDir; outputDir] w = (Ok 0, w') ∧
    tree_list (os_files s) (locate sourceDir s) ls ∧ tree_list (os_files s) (locate metadataDir s) lm ∧
    os_files s3 !! (T ++ ["chaincode-source.tar"]) = Some (File m1 source) ∧
    os_files s3 !! (T ++ ["package-metadata.tar"]) = Some (File m2 (tar_write (a_entries (archive_of lm)))) ∧
    os_files s3 !! (T ++ ["chaincode-output.tar"]) = Some (File m3 (compile ctr source)) ∧
    os_files s3 !! (T ++ ["metadata.json"]) = None ∧
    handed_over s T (locate outputDir s) s3 (cw_os w') ∧ same_process s (cw_os w') ∧ fs_wf (os_files (cw_os w')).
Proof.
  intros Hcf Hup Hruns s Hin Hdepth HV Hc Hmd Hctr.
  pose proof (build_handed_over sc SharedDir sourceDir metadataDir s mj c md ctr HV (bi_names _ _ _ _ _ Hin)
    (proj2 (bi_good _ _ _ _ _ Hin)) Hc Hmd Hctr) as Hgiven.
  destruct (Build_Run_ok depth (connect sc) SharedDir sourceDir metadataDir outputDir s Hin Hdepth (to_build sc ctr) (built (compile ctr)) w)
    as (x & rs & s2 & s3 & w' & _ & _ & [(m1 & ls & Hs1 & Hl1) (m2 & lm & Hs2 & Hl2) _ Honly] & Hout & Erun & _ & P & Wf & Hh);
    [by apply (connect_builds sc hp)|done|done|].
  destruct (Hout _ _ Hs1) as [m3 Hs3]. set (T := locate SharedDir s ++ [x]) in *.
  assert (∀ y, y ≠ "chaincode-output.tar" → os_files s3 !! (T ++ [y]) = os_files s2 !! (T ++ [y])) as Hsame.
  { intros y Hy. rewrite Hs3. apply lookup_insert_ne. by intros [=]%(inj _). }
  exists T, s3, w', ls, lm, m1, m2, m3. cbv zeta.
  rewrite (Hsame "chaincode-source.tar"), (Hsame "package-metadata.tar"), (Hsame "metadata.json") by done.
  rewrite (Honly "metadata.json") by by apply (bool_decide_unpack _).
  rewrite Hs3 at 1. by rewrite lookup_insert_eq.
Qed.

(** ** The peer's process *)

(** How the commands find the side car. *)
Definition invoked (dial : string → go_error + connection) (conn : connection) (SharedDir : string) (s : OS) : Prop :=
  env_of "IBP_BUILDER_SHARED_DIR" s = SharedDir ∧ dial (env_of "IBP_BUILDER_ENDPOINT" s) = inr conn.

Lemma invoked_same dial conn SharedDir s s' :
  same_process s s' → invoked dial conn SharedDir s → invoked dial conn SharedDir s'.
Proof. unfold invoked, env_of. by intros (_ & _ & <- & _). Qed.

(** What the process makes of the end of a command. *)
Definition client_exit (r : outcome nat * cworld) : outcome nat * cworld :=
  match r with
  | (Err e, w) => (Ok 3, mkCworld (cw_os w) (cw_stderr w ++ ["External builder failed: " +:+ Error e +:+ NL]))
  | r => r
  end.

Lemma client_env n w : zoom cw_lens (Getenv n) w = (Ok (env_of n (cw_os w)), w).
Proof. by destruct w. Qed.

Section client.
Context `{TarFormat} (depth : nat) (order : gmap string header → list (string * header)).
Context (dial : string → go_error + connection) (conn : connection) (SharedDir path : string) (args : list string).

(** The command is picked by the name of the executable. *)
Lemma client_build w : invoked dial conn SharedDir (cw_os w) → Base path = "build" →
  Command.main depth order dial (path :: args) w = client_exit (Build_Run depth conn SharedDir args w).
Proof.
  intros [Hs Hd] Hp. unfold Command.main. do 2 rewrite (bind_ok _ _ _ _ _ (client_env _ w)). rewrite Hd, Hs.
  rewrite (bind_ok _ _ _ path w) by done. cbv zeta. rewrite Hp. repeat (rewrite bool_decide_eq_false_2 by done). rewrite bool_decide_eq_true_2 by done. cbn [tail].
  unfold mbind, M_bind, attempt. destruct (Build_Run _ _ _ _ w) as [[] w']; reflexivity.
Qed.

Lemma client_run w : invoked dial conn SharedDir (cw_os w) → Base path = "run" →
  Command.main depth order dial (path :: args) w = client_exit (Run_Run conn SharedDir args w).
Proof.
  intros [Hs Hd] Hp. unfold Command.main. do 2 rewrite (bind_ok _ _ _ _ _ (client_env _ w)). rewrite Hd, Hs.
  rewrite (bind_ok _ _ _ path w) by done. cbv zeta. rewrite Hp. repeat (rewrite bool_decide_eq_false_2 by done). rewrite bool_decide_eq_true_2 by done. cbn [tail].
  unfold mbind, M_bind, attempt. destruct (Run_Run _ _ _ w) as [[] w']; reflexivity.
Qed.
End client.

(** ** Properties *)

(** C10: a build as a whole, from the package the peer has to the output the peer
    gets. Both servers of the side car are those main starts; the peer's process
    talks to its gRPC server, the pod it makes to its file server; nothing
    fails, and the cluster brings the build pod to its end. Then the process
    ends with 0, and in the output directory chaincode-output.tar is what the build
    container for the type and path in the package's metadata.json makes of the
    archive of the source directory, next to that archive and the archive of
    the metadata; nothing else has changed. *)
Theorem build_end_to_end {W config} `{KubeClient W} `{TarFormat} `{Crypto} fuel rest_config new_client listen now f
    (mw mw' : mworld W) run hp (sc : side_car W) compile depth order dial path
    SharedDir sourceDir metadataDir outputDir w mj c md ctr :
  main (config := config) fuel rest_config new_client listen now f mw = (Ok (inr run), mw') →
  sharedVolumePath f ≠ "" → fsBaseURL f = "https://" +:+ hp +:+ SLASH → plain_authority hp = true →
  sc_server sc = rn_server run → sc_handler sc = rn_handler run → up sc → runs_builds sc compile →
  let s := cw_os w in
  let O := locate outputDir s in
  invoked dial (connect sc) SharedDir s → Base path = "build" →
  build_input SharedDir sourceDir metadataDir outputDir s → 2 * tree_height (os_files s) + 4 < depth →
  volume sc = locate SharedDir s →
  os_files s !! (locate metadataDir s ++ ["metadata.json"]) = Some (File mj c) →
  unmarshal_chaincodeMetadata c = inr md → buildContainerDefinition (sc_server sc) md = inr ctr →
  ∃ w' l m, Command.main depth order dial [path; sourceDir; metadataDir; outputDir] w = (Ok 0, w') ∧
    let source := tar_write (a_entries (archive_of l)) in
    let fs := os_files (cw_os w') in
    tree_list (os_files s) (locate sourceDir s) l ∧
    fs !! (O ++ ["chaincode-output.tar"]) = Some (File m (compile ctr source)) ∧
    (∃ m, fs !! (O ++ ["chaincode-source.tar"]) = Some (File m source)) ∧
    holds_archive (os_files s) fs (O ++ ["package-metadata.tar"]) (locate metadataDir s) ∧
    (∀ p, ¬ O `prefix_of` p → fs !! p = os_files s !! p).
Proof.
  intros E Hd Hu Hhp Hb Hh Hup Hruns s O Hinv Hpath Hin Hdepth HV Hc Hmd Hctr.
  assert (configured (sc_server sc) (sc_handler sc) hp) as Hcf by (rewrite Hb, Hh; by eapply main_configured).
  destruct (build_whole sc hp compile depth SharedDir sourceDir metadataDir outputDir w mj c md ctr)
    as (T & s3 & w' & ls & lm & m1 & m2 & m3 & Erun & Hl1 & Hl2 & Hs1 & Hs2 & Hs3 & _ & [Hcopied Hother] & _); [done..|].
  assert (∀ y m0 c0, os_files s3 !! (T ++ [y]) = Some (File m0 c0) →
    ∃ m0', os_files (cw_os w') !! (O ++ [y]) = Some (File m0' c0)) as Hcopy.
  { intros y m0 c0 Hy. unfold O, s. rewrite (Hcopied y []) by (rewrite Hy; by eexists). rewrite Hy. by eexists. }
  destruct (Hcopy _ _ _ Hs3) as [m Hm], (Hcopy _ _ _ Hs2) as [m' Hm'].
  exists w', ls, m. split; [by rewrite (client_build _ _ _ _ _ _ _ _ Hinv Hpath), Erun|].
  split; [exact Hl1|]. split; [exact Hm|]. split; [by apply (Hcopy _ _ _ Hs1)|].
  split; [by exists m', lm|].
  intros p Hp. apply Hother. intros y l' _ ->. apply Hp. by apply prefix_app_r.
Qed.

(** C11: a package the side car cannot build: its metadata.json cannot be read, or
    names a type without a build container, or the side car does not know the
    peer's pod. Whatever the cluster, its schedule and its pods, the peer's
    process then ends with 3, prints the status in which Build gives the reason
    and nothing else, and leaves every file as it was. *)
Theorem build_refused_end_to_end {W config} `{KubeClient W} `{TarFormat} `{Crypto} fuel rest_config new_client listen now f
    (mw mw' : mworld W) run hp (sc : side_car W) depth order dial path SharedDir sourceDir metadataDir outputDir w mj c e :
  main (config := config) fuel rest_config new_client listen now f mw = (Ok (inr run), mw') →
  sharedVolumePath f ≠ "" → fsBaseURL f = "https://" +:+ hp +:+ SLASH → plain_authority hp = true →
  sc_server sc = rn_server run → sc_handler sc = rn_handler run → no_fault (sc_proc sc) →
  let s := cw_os w in
  invoked dial (connect sc) SharedDir s → Base path = "build" →
  build_input SharedDir sourceDir metadataDir outputDir s → 2 * tree_height (os_files s) + 4 < depth →
  volume sc = locate SharedDir s →
  os_files s !! (locate metadataDir s ++ ["metadata.json"]) = Some (File mj c) →
  refusal (sc_server sc) (sc_proc sc) (unmarshal_chaincodeMetadata c) = Some e →
  ∃ w', Command.main depth order dial [path; sourceDir; metadataDir; outputDir] w = (Ok 3, w') ∧
    cw_stderr w' = cw_stderr w ++ ["External builder failed: " +:+ Error e +:+ NL] ∧ os_files (cw_os w') = os_files s.
Proof.
  intros E Hd Hu Hhp Hb Hh Hf s Hinv Hpath Hin Hdepth HV Hc He.
  assert (configured (sc_server sc) (sc_handler sc) hp) as Hcf by (rewrite Hb, Hh; by eapply main_configured).
  destruct (Build_Run_refused depth (connect sc) SharedDir sourceDir metadataDir outputDir s Hin Hdepth (to_refuse sc e) e [] w)
    as (w' & Ew & Hst & Hfs); [by apply (connect_refuses sc hp)| |done|].
  - intros x s2 T _ [_ (m & l & Hmd & Hl) _ _]. split; [exists x; unfold T; by rewrite HV|].
    eexists m, _. split; [exact Hmd|].
    rewrite (metadata_of_tree (os_files s) (locate metadataDir s) c mj l); [done|apply Hin|done|done|apply Hin].
  - eexists. rewrite (client_build _ _ _ _ _ _ _ _ Hinv Hpath), Ew.
    cbn [client_exit]. split; [done|]. cbn [cw_stderr cw_os]. by rewrite Hst, app_nil_r.
Qed.

(** ** Witnesses *)
Module Demo.
#[local] Existing Instances MainFacts.Demo.crypto Plain.format.

(** A cluster that takes what it is given. *)
#[export] Instance calm : KubeClient (list Pod) := {
  pods_Watch _ w := (inr tt, w);
  pods_WatchStop w := w;
  pods_Create p w := (inr p, p :: w);
  pods_Delete _ w := (inr tt, w);
  pods_GetLogs _ _ w := (inr tt, w);
  pods_LogClose w := (inr tt, w);
  pods_List _ w := (inr w, w);
  secrets_Create _ w := (inr tt, w);
  secrets_Get n w := (inr (mkSecret (mkObjectMeta n "" ∅ []) ∅ ∅), w);
  secrets_Update _ w := (inr tt, w);
  secrets_Delete _ w := (inr tt, w);
  nodes_List w := (inr [], w) }.

(** What stands between the first two quotes of a container's command. *)
Definition quoted_word (c : Container) : string := nth 1 (Split quote (nth 1 (c_Args c) "")) "".

(** The output names the container that made it. *)
Definition compile (c : Container) (source : string) : string := c_Name c +:+ " of " +:+ source.

(** The pods, read off their containers. *)
Definition pods (b : Server) (_ : list Pod) (p : Pod) : client :=
  match ps_InitContainers (pod_Spec p), ps_Containers (pod_Spec p) with
  | [_; download; c], [upload] => build_client b (compile c) (quoted_word download) (quoted_word upload)
  | [download], [_] => run_client b (quoted_word download)
  | _, _ => Finished
  end.

Definition os0 : OS :=
  mkOS (<[["shared"] := Directory MainFacts.Demo.dir0]> {[ [] := Directory MainFacts.Demo.dir0 ]}) [] 18
    MainFacts.Demo.env 0 (λ _, None) (λ _, "7").
Definition mw0 : mworld (list Pod) := mkMworld os0 (mkRng (λ n, Some (Z.of_nat n)) 0) (mkKworld [] [] []) [].
Definition settings : flags :=
  mkFlags "" "" 300 "peer0" "/shared" ":22222" "https://builder:22222/" "127.0.0.1:11111".
Definition start : M (mworld (list Pod)) (nat + running) :=
  main 5 (λ _, inr tt) (λ _ _, inr tt) (λ _, inr tt) 1000 settings.

Definition sc (run : running) : side_car (list Pod) :=
  mkSideCar (rn_server run) (rn_handler run) (mkOS ∅ [] 18 ServerDemo.env 0 (λ _, None) (λ _, "7"))
    PodSpecFacts.Demo.entropy [] ServerDemo.sched (pods (rn_server run)) (ErrorString "transport is closing").

(** A side car that has not been told its peer. *)
Definition stray (run : running) : side_car (list Pod) :=
  mkSideCar (rn_server run) (rn_handler run) (mkOS ∅ [] 18 ∅ 0 (λ _, None) (λ _, "7"))
    PodSpecFacts.Demo.entropy [] [] (λ _ _, Finished) (ErrorString "transport is closing").

(** The peer's process, started as path. *)
Definition client (path : string) (sc : side_car (list Pod)) (args : list string) : M cworld nat :=
  Command.main 9 map_to_list (λ _, inr (connect sc)) (path :: args).

Lemma started : ∃ run mw', start mw0 = (Ok (inr run), mw') ∧ sv_BuilderImage (rn_server run) = "builder".
Proof.
  assert (match (start mw0).1 with Ok (inr run) => Some (sv_BuilderImage (rn_server run)) | _ => None end = Some "builder") as H
    by (vm_compute; reflexivity).
  destruct (start mw0) as [r mw']. cbn [fst] in H. destruct r as [[code|run]| | |]; try discriminate H.
  exists run, mw'. by injection H.
Defined.

Definition md : chaincodeMetadata := mkChaincodeMetadata "example.com/cc" "golang".

Lemma metadata_read : unmarshal_chaincodeMetadata Metadata.Demo.metadata_json = inr md.
Proof.
  destruct (unmarshal_chaincodeMetadata Metadata.Demo.metadata_json) as [e|md'] eqn:E; vm_compute in E; [discriminate E|].
  by injection E as <-.
Defined.

Lemma started_shared mw' run : start mw0 = (Ok (inr run), mw') → sv_SharedPath (rn_server run) = "/shared".
Proof.
  intros (u & p & cert & w1 & w2 & Hs & _)%main_servers. by apply build_server_ok in Hs as (_ & -> & _).
Qed.

Lemma quoted_word_spec name image pull cmd a u r env dir mounts sec :
  has_byte quote a = false → has_byte quote u = false →
  quoted_word (mkContainer name image pull cmd ["-c"; a +:+ SQ +:+ u +:+ SQ +:+ r] env dir mounts sec) = u.
Proof.
  intros Ha Hu. unfold quoted_word. cbn [c_Args nth].
  change (a +:+ SQ +:+ u +:+ SQ +:+ r) with (a +:+ String quote (u +:+ String quote r)).
  by rewrite !Split_app_any, (Split_id quote a Ha), (Split_id quote u Hu).
Qed.

Lemma demo_runs_builds run : runs_builds (sc run) compile.
Proof.
  intros c su ou uuid pn pu Hsu Hou p. eexists. split; [vm_compute; reflexivity|].
  unfold sc, pods, p. cbn [sc_pods build_pod pod_Spec ps_InitContainers ps_Containers sc_server].
  unfold download_source, upload_output. 
  rewrite (quoted_word_spec _ _ _ _ _ su) by done.
  change (?a +:+ SQ +:+ ou +:+ SQ) with (a +:+ SQ +:+ ou +:+ SQ +:+ "").
  by rewrite (quoted_word_spec _ _ _ _ _ ou).
Qed.
End Demo.

Lemma build_end_to_end_witness :
  ∃ run w' m l, (Demo.start Demo.mw0).1 = Ok (inr run) ∧
    Demo.client "/opt/bin/build" (Demo.sc run) ["/src"; "/md"; "/out"] BuildFacts.Demo.w0 = (Ok 0, w') ∧
    os_files (cw_os w') !! ["out"; "chaincode-output.tar"] =
      Some (File m ("build-golang-chaincode of " +:+ @tar_write Plain.format (a_entries (archive_of l)))).
Proof.
  destruct Demo.started as (run & mw' & E & Hb).
  destruct (@build_end_to_end (list Pod) unit Demo.calm Plain.format MainFacts.Demo.crypto 5 (λ _, inr tt) (λ _ _, inr tt) (λ _, inr tt) 1000
    Demo.settings Demo.mw0 mw' run "builder:22222" (Demo.sc run) Demo.compile 9 map_to_list
    (λ _, inr (@connect _ Demo.calm Plain.format (Demo.sc run))) "/opt/bin/build" "/shared" "/src" "/md" "/out" BuildFacts.Demo.w0
    CommandFacts.Demo.meta0 Metadata.Demo.metadata_json Demo.md
    (golangBuildContainer "example.com/cc" "builder"))
    as (w' & l & m & E1 & _ & E2 & _).
  - exact E.
  - done.
  - done.
  - reflexivity.
  - done.
  - done.
  - split; [by intros t|done|done|by eexists _, _].
  - apply Demo.demo_runs_builds.
  - split; reflexivity.
  - reflexivity.
  - exact BuildFacts.Demo.demo_input.
  - apply (bool_decide_unpack _). by vm_compute.
  - unfold volume, Demo.sc. cbn [sc_server sc_proc]. by rewrite (Demo.started_shared _ _ E).
  - reflexivity.
  - exact Demo.metadata_read.
  - unfold buildContainerDefinition, Demo.sc. cbn [sc_server]. by rewrite Hb.
  - exists run, w', m, l. split; [by rewrite E|]. split; [exact E1|]. exact E2.
Defined.

Lemma build_refused_end_to_end_witness :
  ∃ run w', (Demo.start Demo.mw0).1 = Ok (inr run) ∧
    Demo.client "/opt/bin/build" (Demo.stray run) ["/src"; "/md"; "/out"] BuildFacts.Demo.w0 = (Ok 3, w') ∧
    cw_stderr w' = ["External builder failed: rpc error: code = Unknown desc = failed to get peer pod name, env var not passed" +:+ NL] ∧
    os_files (cw_os w') = BuildFacts.Demo.tree.
Proof.
  destruct Demo.started as (run & mw' & E & Hb).
  destruct (@build_refused_end_to_end (list Pod) unit Demo.calm Plain.format MainFacts.Demo.crypto 5 (λ _, inr tt) (λ _ _, inr tt) (λ _, inr tt) 1000
    Demo.settings Demo.mw0 mw' run "builder:22222" (Demo.stray run) 9 map_to_list
    (λ _, inr (@connect _ Demo.calm Plain.format (Demo.stray run))) "/opt/bin/build" "/shared" "/src" "/md" "/out" BuildFacts.Demo.w0
    CommandFacts.Demo.meta0 Metadata.Demo.metadata_json
    (StatusError Unknown "failed to get peer pod name, env var not passed")) as (w' & E1 & E2 & E3).
  - exact E.
  - done.
  - done.
  - reflexivity.
  - done.
  - done.
  - by intros t.
  - split; reflexivity.
  - reflexivity.
  - exact BuildFacts.Demo.demo_input.
  - apply (bool_decide_unpack _). by vm_compute.
  - unfold volume, Demo.stray. cbn [sc_server sc_proc]. by rewrite (Demo.started_shared _ _ E).
  - reflexivity.
  - rewrite Demo.metadata_read. unfold refusal, buildContainerDefinition, Demo.stray. cbn [sc_server]. by rewrite Hb.
  - exists run, w'. split; [by rewrite E|]. split; [exact E1|]. split; [exact E2|exact E3].
Defined.
