(* ===== verification/SystemRun.v ===== *)
(** * A run from the output of a build to the pod

    The connection of [System] meets what the peer's run expects of a side car
    (the predicate [runs] of RunFacts.v), so that chaincode can be followed from
    the package through a build to the pod that runs it. *)
From S2P Require Import Prelude GoStrings GoPath OsModel FileTransfer FileTransferFacts Sidecar KubeTypes Containers KubeApi.
From S2P Require Import LogStream ExecutePod ExecutePodFacts Uuid CryptoSecret Url PodSpec TarFormat Json Metadata Server ServerFacts.
From S2P Require Import Fs CopyFacts Tar TarFacts TarRoundTrip Command CommandFacts ReleaseFacts BuildFacts RunFacts Tls Main MainFacts System SystemFacts.

(** ** The pods of a run *)

(** A bind, with what is known of the first result. *)
Lemma keeps_bind_post {S A B} (R : relation S) `{!PreOrder R} (m : M S A) (f : A → M S B) :
  keeps R m → (∀ s a s', m s = (Ok a, s') → keeps R (f a)) → keeps R (m ≫= f).
Proof.
  intros Hm Hf s. specialize (Hm s). unfold mbind, M_bind. destruct (m s) as [[a| | |] s'] eqn:E; [|exact Hm..].
  etrans; [exact Hm|]. by apply (Hf s a s').
Qed.

Section run.
Context {W : Type} `{KubeClient W} `{TarFormat}.

(** Along a call, the shared files stay as they are... *)
Definition reads (w w' : sworld W) : Prop := same_tree (sw_os w) (sw_os w').

(** ... and no pod is asked for. *)
Definition podless (w w' : sworld W) : Prop := same_created (sw_k w) (sw_k w').

#[export] Instance reads_pre : PreOrder reads.
Proof. split; [by intros w|]. intros w1 w2 w3. unfold reads. apply transitivity. Qed.

#[export] Instance podless_pre : PreOrder podless.
Proof. split; [by intros w|]. intros w1 w2 w3. unfold podless. apply transitivity. Qed.

Lemma reads_os {A} (m : M OS A) : keeps same_tree m → keeps reads (zoom sw_os_lens m).
Proof. by apply keeps_zoom. Qed.

Lemma reads_rand {A} (m : M entropy A) : keeps reads (zoom sw_rand_lens m).
Proof. intros w. unfold zoom. by destruct (m _). Qed.

Lemma reads_k {A} (m : M (kworld W) A) : keeps reads (zoom sw_k_lens m).
Proof. intros w. unfold zoom. by destruct (m _). Qed.

Lemma reads_x {A} (m : M (xworld W) A) : keeps reads (zoom sw_x_lens m).
Proof. intros w. unfold zoom. by destruct (m _). Qed.

Lemma podless_os {A} (m : M OS A) : keeps podless (zoom sw_os_lens m).
Proof. intros w. unfold zoom. by destruct (m _). Qed.

Lemma podless_rand {A} (m : M entropy A) : keeps podless (zoom sw_rand_lens m).
Proof. intros w. unfold zoom. by destruct (m _). Qed.

Lemma podless_k {A} (m : M (kworld W) A) : keeps same_created m → keeps podless (zoom sw_k_lens m).
Proof. by apply keeps_zoom. Qed.

Lemma Getenv_same n : keeps same_tree (Getenv n).
Proof. apply keeps_gets, _. Qed.

#[local] Hint Resolve reads_os reads_rand reads_k reads_x podless_os podless_rand podless_k Getenv_same : keeps.
#[local] Hint Resolve keeps_call_created : keeps.
#[local] Hint Extern 4 (created _ = []) => reflexivity : keeps.

Lemma Run_reads b req : keeps reads (Run b req).
Proof. unfold Run, run_with_secret, peer_env. keeps_tac. Qed.

Lemma peer_env_podless n what : keeps podless (peer_env n what).
Proof. unfold peer_env. keeps_tac. Qed.

Lemma createCryptoSecret_podless rmd uuid : keeps podless (zoom sw_k_lens (createCryptoSecret rmd uuid)).
Proof. unfold createCryptoSecret. keeps_tac. Qed.

Lemma deleteCryptoSecret_podless uuid : keeps podless (zoom sw_k_lens (deleteCryptoSecret uuid)).
Proof.
  apply podless_k. assert (∀ m, keeps same_created (Log (W:=W) m)) by (intros m k; done).
  unfold deleteCryptoSecret. keeps_tac.
Qed.

Lemma runPodDefinition_podless b c rmd path uuid pn pu :
  keeps podless (zoom sw_k_lens (runPodDefinition b c rmd path uuid pn pu)).
Proof.
  apply podless_k. unfold runPodDefinition, url_join, hasZoneLabels.
  assert (∀ s, keeps same_created (panic (A:=string) (S:=kworld W) s)) by (intros s k; done). keeps_tac.
Qed.

#[local] Hint Resolve peer_env_podless createCryptoSecret_podless deleteCryptoSecret_podless runPodDefinition_podless : keeps.

(** The pods of a run: they download from the URL of the request. *)
Definition is_run_pod (b : Server) (req : RunRequest) (p : Pod) : Prop :=
  ∃ url c rmd uuid pn pu z,
    urlJoin (sv_FSBaseURL b) (rr_ChaincodePath req) = inr url ∧ p = run_pod b c rmd url uuid pn pu z.

Lemma runPodDefinition_inv b c rmd path uuid pn pu (k k' : kworld W) p :
  runPodDefinition b c rmd path uuid pn pu k = (Ok p, k') →
  ∃ url z, urlJoin (sv_FSBaseURL b) path = inr url ∧ p = run_pod b c rmd url uuid pn pu z.
Proof.
  unfold runPodDefinition, url_join. intros (url & k1 & Eu & E)%bind_inv_ok.
  apply bind_inv_ok in E as (z & k2 & _ & E). injection E as <- _. exists url, z.
  destruct (urlJoin _ _); [done|]. by injection Eu as -> _.
Qed.

(** Whatever happens, a run asks for no other pods. *)
Definition adds_run_pods b req (w w' : sworld W) : Prop :=
  ∃ l, created (calls (sw_k w')) = created (calls (sw_k w)) ++ l ∧ Forall (is_run_pod b req) l.

#[export] Instance adds_run_pods_pre b req : PreOrder (adds_run_pods b req).
Proof.
  split; [intros w; exists []; by rewrite app_nil_r|].
  intros w1 w2 w3 (l1 & E1 & F1) (l2 & E2 & F2). exists (l1 ++ l2). rewrite E2, E1, app_assoc. split; [done|].
  by apply Forall_app.
Qed.

Lemma podless_adds {A} b req (m : M (sworld W) A) : keeps podless m → keeps (adds_run_pods b req) m.
Proof. intros Hm w. exists []. rewrite app_nil_r. split; [apply Hm|done]. Qed.

Lemma Run_pods b req : keeps (adds_run_pods b req) (Run b req).
Proof.
  assert (∀ md rmd uuid, keeps (adds_run_pods b req) (run_with_secret b req md rmd uuid)) as Hrun.
  { intros md rmd uuid. unfold run_with_secret.
    do 4 (apply keeps_bind; [apply _|apply podless_adds; keeps_tac|intros ?]).
    apply keeps_bind_post; [apply _|apply podless_adds; keeps_tac|].
    intros w p w1 (k & E & _)%zoom_inv. apply runPodDefinition_inv in E as (url & z & Hu & Hp).
    apply keeps_wrap_err. intros w2. unfold zoom. change (view sw_x_lens w2) with (sw_x w2).
    destruct (executePod _ p RUN _ (sw_x w2)) as [r x'] eqn:Ex.
    apply executePod_created in Ex as [[Ex _]|Ex].
    - exists []. rewrite app_nil_r. split; [exact Ex|done].
    - exists [p]. split; [exact Ex|]. constructor; [|done]. by eexists url, _, _, _, _, _, z. }
  unfold Run. apply keeps_bind; [apply _|apply podless_adds; keeps_tac|intros md].
  case_bool_decide; [apply podless_adds; keeps_tac|].
  do 3 (apply keeps_bind; [apply _|apply podless_adds; keeps_tac|intros ?]).
  apply keeps_deferring_err; [apply _|apply podless_adds; keeps_tac|done].
Qed.

Lemma bind_podless {A B} (m : M (sworld W) A) (f : A → M (sworld W) B) w r w' :
  keeps podless m → (m ≫= f) w = (Ok r, w') → ∃ a w1, podless w w1 ∧ m w = (Ok a, w1) ∧ f a w1 = (Ok r, w').
Proof.
  intros Hm (a & w1 & E1 & E)%bind_inv_ok. exists a, w1. split; [|done]. specialize (Hm w). by rewrite E1 in Hm.
Qed.

(** A run that succeeds has asked for one pod. *)
Definition one_run_pod b req (w w' : sworld W) : Prop :=
  ∃ p, created (calls (sw_k w')) = created (calls (sw_k w)) ++ [p] ∧ is_run_pod b req p.

Lemma one_run_pod_later b req w w1 w' : podless w w1 → one_run_pod b req w1 w' → one_run_pod b req w w'.
Proof. intros Hp (p & E & Hr). exists p. by rewrite E, Hp. Qed.

Lemma run_with_secret_pod b req md rmd uuid w w' :
  run_with_secret b req md rmd uuid w = (Ok tt, w') → one_run_pod b req w w'.
Proof.
  unfold run_with_secret. intros E.
  do 4 (apply bind_podless in E as (? & ? & Hp & _ & E); [|keeps_tac]; eapply one_run_pod_later; [exact Hp|]; clear Hp).
  apply bind_podless in E as (p & w1 & Hp & Ep & E); [|keeps_tac]. eapply one_run_pod_later; [exact Hp|].
  apply zoom_inv in Ep as (k & Ep & _). apply runPodDefinition_inv in Ep as (url & z & Hu & ->).
  apply wrap_err_ok, zoom_inv in E as (x' & E & ->).
  apply executePod_created in E as [[_ []]|E]; [done|]. eexists. split; [exact E|]. by eexists url, _, _, _, _, _, z.
Qed.

Lemma Run_pod b req w w' md :
  Run b req w = (Ok tt, w') → (extractChaincodeMetadata b (rr_MetadataPath req) (sw_os w)).1 = Ok md →
  md_Type md ≠ "external" → one_run_pod b req w w'.
Proof.
  intros E Hmd Hext. unfold Run in E. pose proof E as E0.
  apply bind_podless in E as (md' & w1 & Hp1 & E1 & E); [|keeps_tac].
  apply wrap_err_ok, zoom_inv in E1 as (o & E1 & _). change (view sw_os_lens w) with (sw_os w) in E1.
  rewrite E1 in Hmd. injection Hmd as ->. rewrite bool_decide_eq_false_2 in E by done.
  apply bind_podless in E as (rmd & w2 & Hp2 & _ & E); [|keeps_tac].
  apply bind_podless in E as (uuid & w3 & Hp3 & _ & E); [|keeps_tac].
  apply bind_podless in E as ([] & w4 & Hp4 & _ & E); [|keeps_tac].
  do 4 (eapply one_run_pod_later; [eassumption|]). unfold deferring_err in E.
  destruct (run_with_secret b req md rmd uuid w4) as [r w5] eqn:E5.
  pose proof (deleteCryptoSecret_podless uuid w5) as Hp5.
  assert (r = Ok tt ∧ (zoom sw_k_lens (deleteCryptoSecret uuid) w5).2 = w') as [-> <-]
    by (destruct r, (zoom _ _ w5) as [[] ?]; try discriminate E; injection E as <-; try done; by match goal with u : () |- _ => destruct u end).
  apply run_with_secret_pod in E5 as (p & Ep & Hp). exists p. by rewrite Hp5.
Qed.
End run.

(** ** A run returns *)

(** A bind, of which only the first part keeps I. *)
Lemma bind_returns {S A B} (I : S → Prop) (m : M S A) (f : A → M S B) s :
  ends I m → (∀ a s', I s' → (f a s').1 ≠ Blocked) → I s → ((m ≫= f) s).1 ≠ Blocked.
Proof.
  intros Hm Hf Hs. specialize (Hm s Hs) as [Hr Hi]. unfold mbind, M_bind.
  destruct (m s) as [[a| | |] s']; cbn [fst snd] in *; [by apply Hf|done..].
Qed.

Lemma deferring_err_returns {S A} (d : M S unit) (m : M S A) s :
  (∀ s', (d s').1 ≠ Blocked) → (m s).1 ≠ Blocked → (deferring_err d m s).1 ≠ Blocked.
Proof.
  intros Hd Hm. unfold deferring_err. destruct (m s) as [r s']. cbn [fst] in Hm. specialize (Hd s').
  destruct r; [| | |done]; (destruct (d s') as [[] s'']; done).
Qed.

Section returns.
Context {W : Type} `{KubeClient W} `{TarFormat} (sched : list choice).

Definition scheduled (w : sworld W) : Prop := xw_sched (sw_x w) = sched.

Lemma scheduled_os {A} (m : M OS A) : ends (λ _, True) m → ends scheduled (zoom sw_os_lens m).
Proof. by apply ends_zoom. Qed.

Lemma scheduled_rand {A} (m : M entropy A) : ends (λ _, True) m → ends scheduled (zoom sw_rand_lens m).
Proof. by apply ends_zoom. Qed.

Lemma scheduled_k {A} (m : M (kworld W) A) : ends (λ _, True) m → ends scheduled (zoom sw_k_lens m).
Proof. by apply ends_zoom. Qed.

Lemma call_returns {A} c (f : W → (go_error + A) * W) : ends (λ _, True) (call c f).
Proof. intros k _. unfold call. by destruct (f (kube k)) as [[e|a] w]. Qed.

Lemma Log_returns m : ends (λ _, True) (Log (W:=W) m).
Proof. by intros k. Qed.

#[local] Hint Resolve scheduled_os scheduled_rand scheduled_k call_returns Log_returns : ends.

Lemma extract_returns b p : ends (λ _, True) (extractChaincodeMetadata b p).
Proof. unfold extractChaincodeMetadata. ends_tac. Qed.

Lemma readRunMetadata_returns b p : ends (λ _, True) (readRunMetadata b p).
Proof. unfold readRunMetadata. ends_tac. Qed.

Lemma UUID_returns : ends (λ _, True) UUID.
Proof.
  intros e _. unfold UUID, rand_Read, mbind, M_bind, attempt. by repeat case_match; simplify_eq.
Qed.

Lemma runPodDefinition_returns b c rmd path uuid pn pu : ends (λ _, True) (runPodDefinition (W:=W) b c rmd path uuid pn pu).
Proof.
  unfold runPodDefinition, url_join, hasZoneLabels.
  assert (∀ s, ends (λ _, True) (panic (A:=string) (S:=kworld W) s)) by by intros s k.
  ends_tac.
Qed.

Lemma Getenv_returns n : ends (λ _, True) (Getenv n).
Proof. apply ends_gets. Qed.

#[local] Hint Resolve extract_returns readRunMetadata_returns UUID_returns runPodDefinition_returns Getenv_returns : ends.

Lemma peer_env_returns n what : ends scheduled (peer_env n what).
Proof. unfold peer_env. ends_tac. Qed.

Lemma deleteCryptoSecret_returns uuid (w : sworld W) : (zoom sw_k_lens (deleteCryptoSecret uuid) w).1 ≠ Blocked.
Proof.
  assert (ends (λ _, True) (deleteCryptoSecret (W:=W) uuid)) as Hd by (unfold deleteCryptoSecret; ends_tac).
  destruct (Hd (sw_k w) I) as [Hr _]. unfold zoom. change (view sw_k_lens w) with (sw_k w).
  by destruct (deleteCryptoSecret uuid (sw_k w)).
Qed.

#[local] Hint Resolve peer_env_returns : ends.

(** Run returns when executePod does. *)
Lemma Run_returns b req (w : sworld W) :
  (∀ p uuid k, (executePod addControllerReferenceToCryptoSecret p RUN (Some (mkExecuteOptions uuid)) (mkXworld k sched)).1 ≠ Blocked) →
  scheduled w → (Run b req w).1 ≠ Blocked.
Proof.
  intros Hexec. unfold Run. apply bind_returns; [ends_tac|]. intros md w1. case_bool_decide; [done|].
  do 3 (apply bind_returns; [try unfold createCryptoSecret; ends_tac|]; intros ? ?).
  intros Hw. apply deferring_err_returns; [apply deleteCryptoSecret_returns|]. revert Hw.
  unfold run_with_secret. do 5 (apply bind_returns; [ends_tac|]; intros ? ?).
  intros Hw. unfold wrap_err, zoom. match goal with |- context [executePod _ ?p] => pose proof (Hexec p) as He end.
  match goal with Hw : scheduled ?w0 |- _ => destruct (sw_x w0) as [k l] eqn:Ex; unfold scheduled in Hw; rewrite Ex in Hw end.
  cbn [xw_sched] in Hw. subst l. change (view sw_x_lens ?w0) with (sw_x w0). rewrite Ex.
  match goal with |- context [Some (mkExecuteOptions ?u)] => specialize (He u k) end.
  by destruct (executePod _ _ _ _ _) as [[] x'].
Qed.
End returns.

(** ** The side car runs *)

Section sidecar.
Context {W : Type} `{KubeClient W} `{TarFormat} (sc : side_car W) (hp : string).
Context (Hcf : configured (sc_server sc) (sc_handler sc) hp) (Hf : no_fault (sc_proc sc)).

#[local] Abbreviation b := (sc_server sc).
#[local] Abbreviation state_of req o := (Run b req (sc_world sc o)).2.

(** A cluster whose schedule brings executePod to its end, and whose run pods ask
    for their URL and for nothing else, and do so when the run succeeds. *)
Record runs_chaincode : Prop := {
  rc_returns p uuid k :
    (executePod addControllerReferenceToCryptoSecret p RUN (Some (mkExecuteOptions uuid)) (mkXworld k (sc_sched sc))).1 ≠ Blocked;
  rc_asks w c rmd url uuid pn pu z : has_byte quote url = false →
    let p := run_pod b c rmd url uuid pn pu z in
    sc_pods sc w p = Finished ∨ sc_pods sc w p = run_client b url;
  rc_runs req o c rmd url uuid pn pu z : has_byte quote url = false →
    let p := run_pod b c rmd url uuid pn pu z in
    (Run b req (sc_world sc o)).1 = Ok tt → p ∈ created (calls (sw_k (state_of req o))) →
    sc_pods sc (kube (sw_k (state_of req o))) p = run_client b url }.

Context (Hruns : runs_chaincode).

(** Downloads change nothing. *)
Lemma serve_run_client url o : same_tree o (serve (sc_handler sc) (run_client b url) o).2.
Proof using.
  cbn. apply (ServeHTTP_quiet (sc_handler sc) (curl "GET" b url "")). do 4 right. by intros [=].
Qed.

Lemma serve_all_downloads w ps o :
  Forall (λ p, sc_pods sc w p = Finished ∨ ∃ url, sc_pods sc w p = run_client b url) ps →
  same_tree o (serve_all (sc_handler sc) (sc_pods sc w <$> ps) o).2.
Proof using.
  intros Hps. revert o. induction Hps as [|p ps Hp _ IH]; intros o; [done|].
  cbn [fmap list_fmap serve_all]. destruct (serve _ (sc_pods sc w p) o) as [l1 o1] eqn:E1.
  assert (same_tree o o1) as Ho1.
  { destruct Hp as [Hp|[url Hp]]; rewrite Hp in E1; [by injection E1 as _ <-|].
    pose proof (serve_run_client url o) as Hs. by rewrite E1 in Hs. }
  specialize (IH o1). destruct (serve_all _ _ o1) as [l2 o2]. by etrans.
Qed.

(** What the pod of a run got: it asked once, for this content. *)
Definition pod_gets (req : RunRequest) (o : OS) (content : string) : Prop :=
  ∃ p rq resp, created (calls (sw_k (state_of req o))) = [p] ∧
    (traffic sc (state_of req o)).1 = [(rq, resp)] ∧ downloaded resp = Some content.

Section request.
Context (x : string) (Hx : name_ok x) (Ha : all_bytes is_alnum x = true).

Lemma run_request_url :
  ∃ url, urlJoin (sv_FSBaseURL b) (rr_ChaincodePath (run_request x)) = inr url ∧
    path_of url = served_path x "chaincode-output.tar" ∧ has_byte quote url = false.
Proof using Hcf Hx Ha. by apply (request_url _ _ hp Hcf x _ Hx Ha output_transferable). Qed.

(** A call of Run over the connection, however it ends. *)
Lemma answer_Run o :
  ∃ rs e o', call_Run (connect sc) (run_request x) o = (Ok (rs, e), o') ∧ (NoMessage ∉ rs) ∧
    same_process o o' ∧ os_files o' = os_files o ∧
    (e = None → (Run b (run_request x) (sc_world sc o)).1 = Ok tt).
Proof using Hcf Hruns Hx Ha.
  destruct run_request_url as (url & Hu & _ & Hq).
  pose proof (Run_returns (sc_sched sc) b (run_request x) (sc_world sc o) (rc_returns Hruns) eq_refl) as Hret.
  pose proof (Run_pods b (run_request x) (sc_world sc o)) as (l & Hl & Hpods).
  pose proof (Run_reads b (run_request x) (sc_world sc o)) as [_ Hfs].
  assert (os_files (traffic sc (state_of (run_request x) o)).2 = os_files o) as Ht.
  { unfold traffic. fold (sw_k (state_of (run_request x) o)). rewrite Hl. cbn [app sc_world sw_k sw_x xw_k calls sc_x].
    rewrite (proj2 (serve_all_downloads _ l _ ltac:(eapply Forall_impl; [exact Hpods|];
      intros p (url' & c & rmd & uuid & pn & pu & z & Hu' & ->); rewrite Hu in Hu'; injection Hu' as <-;
      destruct (rc_asks Hruns (kube (sw_k (state_of (run_request x) o))) c rmd url uuid pn pu z Hq) as [E|E]; [by left|by right; exists url]))).
    exact Hfs. }
  cbn [connect call_Run]. unfold answer. destruct (Run b (run_request x) (sc_world sc o)) as [r w].
  cbn [fst snd] in *.
  assert (∀ (k : list (origin * string)), NoMessage ∉ messages k) as Hm by (intros k ([o0 t] & [=] & _)%list_elem_of_fmap).
  destruct r as [[]|e|m|]; [eexists _, None, _|eexists _, (Some e), _|eexists _, (Some (sc_lost sc)), _|done];
    (split; [done|]); (split; [apply Hm|]); (split; [done|]); (split; [exact Ht|done]).
Qed.

(** A run that succeeds has brought the output to its pod. *)
Lemma run_downloads o output metadata artifacts md rs o' :
  fs_wf (os_files o) → run_files_ready (volume sc ++ [x]) output metadata artifacts o →
  metadata_of_archive metadata = inr md → md_Type md ≠ "external" →
  call_Run (connect sc) (run_request x) o = (Ok (rs, None), o') → pod_gets (run_request x) o output.
Proof using Hcf Hf Hruns Hx Ha.
  intros Hwf ([m1 H1] & [m2 H2] & _) Hmd Hext E.
  destruct (answer_Run o) as (rs' & e & o1 & E' & _ & _ & _ & Hok). rewrite E in E'. injection E' as <- <- <-.
  specialize (Hok eq_refl). destruct run_request_url as (url & Hu & Hpath & Hq).
  destruct (request_metadata sc hp x o m2 metadata md Hcf Hf Hx Hwf H2 Hmd) as (o2 & Emd & _).
  destruct (Run_pod b (run_request x) (sc_world sc o) (state_of (run_request x) o) md) as (p & Hp & Hrp);
    [by rewrite <- Hok, <- surjective_pairing|by change (sw_os (sc_world sc o)) with (on_volume sc o); cbn [run_request rr_MetadataPath]; rewrite Emd|done|].
  cbn in Hp. destruct Hrp as (url' & c & rmd & uuid & pn & pu & z & Hu' & Hpod). rewrite Hu in Hu'. injection Hu' as <-.
  pose proof (rc_runs Hruns (run_request x) o c rmd url uuid pn pu z Hq Hok) as Hcl. cbv zeta in Hcl.
  rewrite <- Hpod, Hp in Hcl. specialize (Hcl ltac:(by apply list_elem_of_here)).
  pose proof (Run_reads b (run_request x) (sc_world sc o)) as [(Hcwd & _ & _ & Hfault & _) Hfs].
  set (w := state_of (run_request x) o) in *.
  destruct (download_file b (sc_handler sc) hp Hcf x Hx Ha (sw_os w) (volume sc ++ [x])) with
    (f := "chaincode-output.tar") (url := url) (m := m1) (c := output) as [_ Hd]; rewrite ?Hfs; try done.
  { intros t. rewrite Hfault. apply Hf. } { by rewrite Hcwd. } { apply output_transferable. }
  eexists p, (curl "GET" b url ""), _. split; [exact Hp|]. split; [|exact Hd].
  unfold traffic. fold w. fold (sw_k w). rewrite Hp. cbn [fmap list_fmap serve_all]. by rewrite Hcl.
Qed.
End request.

Lemma connect_runs SharedDir : runs (connect sc) SharedDir.
Proof using Hcf Hruns.
  intros x o T Hx Ha _ _ _. destruct (answer_Run x Hx Ha o) as (rs & e & o' & E & Hrs & Hp & Hfs & _).
  exists rs, e, o'. split; [exact E|]. split; [exact Hrs|]. split; [exact Hp|]. intros p _. by rewrite Hfs.
Qed.
End sidecar.

(** ** What the side car is called on *)

(** The messages [l] before those of a call. *)
Definition told {S} (l : list string) (r : outcome (list response * option go_error) * S) :
    outcome (list response * option go_error) * S :=
  match r with
  | (Ok (rs, e), s) => (Ok ((StandardOut <$> l) ++ rs, e), s)
  | r => r
  end.

(** The connection [conn'] is [conn] with somebody who watches the runs: before
    the messages of a run it sends what [report] says of the request and of the
    files at the time of the call. Without a report it is [conn]. *)
Definition watched (report : RunRequest → OS → list string) (conn conn' : connection) : Prop :=
  ∀ req o, call_Run conn' req o = told (report req o) (call_Run conn req o).

Lemma watched_refl conn : watched (λ _ _, []) conn conn.
Proof. intros req o. by destruct (call_Run conn req o) as [[[]| | |] ?]. Qed.

Lemma texts_app l rs : texts ((StandardOut <$> l) ++ rs) = l ++ texts rs.
Proof. unfold texts. rewrite omap_app. f_equal. induction l as [|t l IH]; [done|]. cbn. by f_equal. Qed.

Lemma watched_runs report conn conn' SharedDir : watched report conn conn' → runs conn SharedDir → runs conn' SharedDir.
Proof.
  intros Hw Hr x o T Hx Ha Hf Hwf HT. destruct (Hr x o Hx Ha Hf Hwf HT) as (rs & e & o' & E & Hrs & Hp & Hout).
  exists ((StandardOut <$> report (run_request x) o) ++ rs), e, o'. rewrite Hw, E. split; [done|]. split; [|done].
  rewrite elem_of_app, list_elem_of_fmap. by intros [(t & [=] & _)|?].
Qed.

(** What was told besides. *)
Lemma told_ok {S} l r rs e (s : S) :
  told l r = (Ok (rs, e), s) → ∃ rs', rs = (StandardOut <$> l) ++ rs' ∧ r = (Ok (rs', e), s).
Proof. destruct r as [[[rs' e']| | |] s']; intros [=]; subst. by exists rs'. Qed.

(** The end of a command, as the peer sees it. *)
Definition exit_message (e : option go_error) : list string :=
  match e with Some e => ["External builder failed: " +:+ Error e +:+ NL] | None => [] end.

Lemma client_ends r w e :
  r = (stream_result 0 e, w) →
  ∃ rc w', client_exit r = (Ok rc, w') ∧ (e = None ∧ rc = 0 ∨ is_Some e ∧ rc = 3) ∧
    cw_stderr w' = cw_stderr w ++ exit_message e.
Proof.
  intros ->. destruct e as [e|]; eexists _, _; (split; [reflexivity|]); [by eauto|].
  split; [by eauto|]. by rewrite app_nil_r.
Qed.

Lemma supported_not_external b md ctr : buildContainerDefinition b md = inr ctr → md_Type md ≠ "external".
Proof. unfold buildContainerDefinition. intros E Hext. rewrite Hext in E. discriminate E. Qed.

(** ** Properties *)

(** C9: from a package to the pod that runs it. The servers of the side car are
    those main starts; the peer starts the build command on the package and then
    the run command on its output, and no system call fails; between the two the
    cluster and the schedule may be any others. The run is over a connection to
    the side car that may also report, on standard error, the request and the
    files as they are when the side car is called: s2 below is the state so
    reported, whatever the report. The build ends with 0; the run ends with 0, or
    with 3 and a message where the side car reports an error. When it ends with
    0, its one pod has asked the file server once, and what it got is what the
    build container for the type and path in metadata.json makes of the archive
    of the source directory. *)
Theorem chaincode_reaches_pod {W config} `{KubeClient W} `{TarFormat} `{Crypto} fuel rest_config new_client listen now f
    (mw mw' : mworld W) started hp (sc1 sc2 : side_car W) compile depth order dial1 dial2 conn2 report path1 path2
    SharedDir sourceDir metadataDir outputDir peerMetadataDir w mj c md ctr ma artifacts :
  main (config := config) fuel rest_config new_client listen now f mw = (Ok (inr started), mw') →
  sharedVolumePath f ≠ "" → fsBaseURL f = "https://" +:+ hp +:+ SLASH → plain_authority hp = true →
  (∀ sc, sc ∈ [sc1; sc2] → sc_server sc = rn_server started ∧ sc_handler sc = rn_handler started ∧
     volume sc = locate SharedDir (cw_os w)) →
  up sc1 → runs_builds sc1 compile → no_fault (sc_proc sc2) → runs_chaincode sc2 →
  let s := cw_os w in
  invoked dial1 (connect sc1) SharedDir s → Base path1 = "build" →
  watched report (connect sc2) conn2 → invoked dial2 conn2 SharedDir s → Base path2 = "run" →
  build_input SharedDir sourceDir metadataDir outputDir s → 2 * tree_height (os_files s) + 4 < depth →
  has_temp SharedDir "run" s → peerMetadataDir ≠ "" →
  os_files s !! (locate peerMetadataDir s ++ ["chaincode.json"]) = Some (File ma artifacts) →
  os_files s !! (locate metadataDir s ++ ["metadata.json"]) = Some (File mj c) →
  unmarshal_chaincodeMetadata c = inr md → buildContainerDefinition (rn_server started) md = inr ctr →
  ∃ w1 w2 l x rs e s2 s3 rc,
    Command.main depth order dial1 [path1; sourceDir; metadataDir; outputDir] w = (Ok 0, w1) ∧
    Command.main depth order dial2 [path2; outputDir; peerMetadataDir] w1 = (Ok rc, w2) ∧
    call_Run (connect sc2) (run_request x) s2 = (Ok (rs, e), s3) ∧
    (e = None ∧ rc = 0 ∨ is_Some e ∧ rc = 3) ∧
    cw_stderr w2 = cw_stderr w1 ++ report (run_request x) s2 ++ texts rs ++ exit_message e ∧
    tree_list (os_files s) (locate sourceDir s) l ∧
    (rc = 0 → pod_gets sc2 (run_request x) s2 (compile ctr (tar_write (a_entries (archive_of l))))).
Proof.
  intros E Hd Hu Hhp Hsc Hup Hb Hf2 Hr s Hi1 Hp1 Hw2 Hi2 Hp2 Hin Hdepth Htemp Hpd Ha Hc Hmd Hctr.
  pose proof (main_configured _ _ _ _ _ _ _ _ _ hp E Hd Hu Hhp) as Hcf.
  destruct (Hsc sc1) as (Hs1 & Hh1 & HV1); [apply list_elem_of_here|].
  destruct (Hsc sc2) as (Hs2 & Hh2 & HV2); [apply list_elem_of_further, list_elem_of_here|].
  rewrite <- Hs1 in Hctr. pose proof Hcf as Hcf2. rewrite <- Hs1, <- Hh1 in Hcf. rewrite <- Hs2, <- Hh2 in Hcf2.
  destruct (build_whole sc1 hp compile depth SharedDir sourceDir metadataDir outputDir w mj c md ctr)
    as (T & s3 & w1 & ls & lm & m1 & m2 & m3 & Eb & Hls & Hlm & _ & Hf1 & Hfo & Hno & Hh & P1 & W1); [done..|].
  set (source := tar_write (a_entries (archive_of ls))) in *.
  pose proof (run_input_built SharedDir sourceDir metadataDir outputDir peerMetadataDir T s s3 (cw_os w1)
    _ _ artifacts _ _ ma Hin Hh P1 W1 Hfo Hf1 Hno Htemp Hpd Ha) as Hrun.
  destruct (Run_Run_ok conn2 SharedDir outputDir peerMetadataDir _ _ artifacts (cw_os w1) Hrun w1)
    as (x & rs2 & e & o2 & o3 & w2 & Hx & Hxa & _ & Wf2 & Ec & Hready & Er & Hst & _);
    [by eapply watched_runs, (connect_runs sc2 hp)|done|].
  rewrite Hw2 in Ec. apply told_ok in Ec as (rs & -> & Ec). rewrite texts_app in Hst.
  assert (Command.main depth order dial1 [path1; sourceDir; metadataDir; outputDir] w = (Ok 0, w1)) as Eb'
    by by rewrite (client_build _ _ _ _ _ _ _ _ Hi1 Hp1), Eb.
  destruct (client_ends (Run_Run conn2 SharedDir [outputDir; peerMetadataDir] w1) w2 e Er) as (rc & w3 & Er' & Hrc & Hst3).
  rewrite <- (client_run depth order _ _ _ _ _ _ (invoked_same _ _ _ _ _ P1 Hi2) Hp2) in Er'.
  exists w1, w3, ls, x, rs, e, o2, o3, rc. do 4 (split; [eassumption|]). split; [by rewrite Hst3, Hst, <- !app_assoc|].
  split; [exact Hls|].
  intros ->. destruct Hrc as [[-> _]|[_ [=]]]. eapply (run_downloads sc2 hp Hcf2 Hf2 Hr x Hx Hxa o2 _ _ artifacts md); [exact Wf2| | | |exact Ec].
  - rewrite HV2. by rewrite (locate_same _ _ _ P1) in Hready.
  - rewrite <- Hmd. apply (metadata_of_tree (os_files s) (locate metadataDir s) c mj lm); [apply Hin|done|done|apply Hin].
  - by eapply supported_not_external.
Qed.

(** ** Witnesses *)
Module Demo.
Import SystemFacts.Demo.

Lemma demo_runs_chaincode run : @runs_chaincode _ calm Plain.format (sc run).
Proof.
  assert (∀ c rmd url uuid pn pu z w, has_byte quote url = false →
    sc_pods (sc run) w (run_pod (rn_server run) c rmd url uuid pn pu z) = run_client (rn_server run) url) as Hp.
  { intros c rmd url uuid pn pu z w Hq. unfold sc, pods, run_pod.
    cbn [sc_pods pod_Spec ps_InitContainers ps_Containers]. unfold download_output.
    by rewrite (quoted_word_spec _ _ _ _ _ url). }
  split.
  - intros p uuid [w cs ms]. by vm_compute.
  - intros w c rmd url uuid pn pu z Hq. right. by apply Hp.
  - intros req o c rmd url uuid pn pu z Hq p _ _. by apply Hp.
Qed.

(** The run the peer starts after the demo build succeeds. *)
Definition peer_run (run : running) : outcome nat :=
  (client "/opt/bin/run" (sc run) ["/out"; "/peer"]
    (client "/opt/bin/build" (sc run) ["/src"; "/md"; "/out"] BuildFacts.Demo.w0).2).1.

Lemma ran_ok run : (start mw0).1 = Ok (inr run) → peer_run run = Ok 0.
Proof.
  assert (match (start mw0).1 with Ok (inr run) => peer_run run | _ => Blocked end = Ok 0) as H by (vm_compute; reflexivity).
  intros E. by rewrite E in H.
Qed.
End Demo.

Lemma chaincode_reaches_pod_witness :
  ∃ run x s2 l, (SystemFacts.Demo.start SystemFacts.Demo.mw0).1 = Ok (inr run) ∧ Demo.peer_run run = Ok 0 ∧
    @pod_gets _ SystemFacts.Demo.calm Plain.format (SystemFacts.Demo.sc run) (run_request x) s2
      ("build-golang-chaincode of " +:+ @tar_write Plain.format (a_entries (archive_of l))).
Proof.
  destruct SystemFacts.Demo.started as (run & mw' & E & Hb).
  pose proof (Demo.ran_ok run) as Hran. rewrite E in Hran. specialize (Hran eq_refl).
  pose (dial := λ _ : string, @inr go_error connection (@connect _ SystemFacts.Demo.calm Plain.format (SystemFacts.Demo.sc run))).
  destruct (@chaincode_reaches_pod (list Pod) unit SystemFacts.Demo.calm Plain.format MainFacts.Demo.crypto 5
    (λ _, inr tt) (λ _ _, inr tt) (λ _, inr tt) 1000
    SystemFacts.Demo.settings SystemFacts.Demo.mw0 mw' run "builder:22222" (SystemFacts.Demo.sc run) (SystemFacts.Demo.sc run)
    SystemFacts.Demo.compile 9 map_to_list dial dial (@connect _ SystemFacts.Demo.calm Plain.format (SystemFacts.Demo.sc run))
    (λ _ _, []) "/opt/bin/build" "/opt/bin/run" "/shared" "/src" "/md" "/out" "/peer" BuildFacts.Demo.w0
    CommandFacts.Demo.meta0 Metadata.Demo.metadata_json SystemFacts.Demo.md
    (golangBuildContainer "example.com/cc" "builder") CommandFacts.Demo.meta0 "{}")
    as (w1 & w2 & l & x & rs & e & s2 & s3 & rc & E1 & E2 & _ & _ & _ & _ & Hgets).
  - exact E.
  - done.
  - done.
  - reflexivity.
  - intros sc0 Hsc.
    assert (sc0 = SystemFacts.Demo.sc run) as -> by (rewrite !elem_of_cons, elem_of_nil in Hsc; by destruct Hsc as [|[|[]]]).
    split; [done|]. split; [done|].
    unfold volume, SystemFacts.Demo.sc. cbn [sc_server sc_proc]. by rewrite (SystemFacts.Demo.started_shared _ _ E).
  - split; [by intros t|done|done|by eexists _, _].
  - apply SystemFacts.Demo.demo_runs_builds.
  - by intros t.
  - apply Demo.demo_runs_chaincode.
  - split; reflexivity.
  - reflexivity.
  - apply watched_refl.
  - split; reflexivity.
  - reflexivity.
  - exact BuildFacts.Demo.demo_input.
  - apply (bool_decide_unpack _). by vm_compute.
  - exact RunFacts.Demo.demo_temp.
  - done.
  - reflexivity.
  - reflexivity.
  - exact SystemFacts.Demo.metadata_read.
  - unfold buildContainerDefinition. by rewrite Hb.
  - exists run, x, s2, l. split; [by rewrite E|]. split; [exact Hran|]. apply Hgets.
    unfold dial in E1, E2. unfold Demo.peer_run, SystemFacts.Demo.client in Hran. rewrite E1 in Hran. cbn [snd] in Hran.
    rewrite E2 in Hran. by injection Hran.
Defined.
