(* ===== verification/SystemConcurrent.v ===== *)
(** * Several peers at one time

    The pool of calls of [System]: builds of several packages, and runs of
    others, whose methods and whose pods' requests take turns in any order.
    Every build ends as if it had the side car to itself. *)
From S2P Require Import Prelude GoStrings GoPath OsModel FileTransfer FileTransferFacts Sidecar KubeTypes Containers KubeApi.
From S2P Require Import LogStream ExecutePod ExecutePodFacts Uuid CryptoSecret Url PodSpec TarFormat Json Metadata Server ServerFacts.
From S2P Require Import Fs CopyFacts Tar TarFacts TarRoundTrip Command CommandFacts BuildFacts RunFacts Tls Main MainFacts System SystemFacts SystemRun.

(** A build: the cluster as its call sees it, the name of its request, its
    container and what that makes of a source, and the source. *)
Record job (W : Type) := mkJob {
  jb_sc : side_car W;
  jb_x : string;
  jb_ctr : Container;
  jb_compile : Container → string → string;
  jb_source : string }.
Arguments mkJob {W} _ _ _ _ _.
Arguments jb_sc {W} _.
Arguments jb_x {W} _.
Arguments jb_ctr {W} _.
Arguments jb_compile {W} _.
Arguments jb_source {W} _.

(** What is to become of it. *)
Definition product {W} (j : job W) : string := jb_compile j (jb_ctr j) (jb_source j).

Section pool.
Context {W : Type} `{KubeClient W} `{TarFormat}.
Context (b : Server) (h : Handler) (hp : string) (proc : OS).
Context (Hcf : configured b h hp) (Hf : no_fault proc).
Implicit Types (t : thread W) (j : job W).

#[local] Abbreviation V := (resolve (os_cwd proc) (sv_SharedPath b)).
#[local] Abbreviation dir j := (V ++ [jb_x j]).
#[local] Abbreviation output j := (dir j ++ ["chaincode-output.tar"]).

(** The calls are of one process. *)
Record of_process (sc : side_car W) : Prop := {
  op_server : sc_server sc = b;
  op_handler : sc_handler sc = h;
  op_proc : sc_proc sc = proc }.

Definition build_call j : thread W := Called (jb_sc j) (Build b (build_request (jb_x j))).

(** A build whose directory of the volume has what Build needs. *)
Record ready (o : OS) j : Prop := {
  rd_process : of_process (jb_sc j);
  rd_up : up (jb_sc j);
  rd_runs : runs_builds (jb_sc j) (jb_compile j);
  rd_name : name_ok (jb_x j) ∧ all_bytes is_alnum (jb_x j) = true;
  rd_dir : ∃ m, os_files o !! dir j = Some (Directory m);
  rd_source : ∃ m, os_files o !! (dir j ++ ["chaincode-source.tar"]) = Some (File m (jb_source j));
  rd_given : to_build (jb_sc j) (jb_ctr j) (dir j) o }.

(** A build with n turns to go. *)
Inductive phase j : nat → thread W → Prop :=
  | ph_called : phase j 3 (build_call j)
  | ph_download su ou :
      path_of su = served_path (jb_x j) "chaincode-source.tar" →
      path_of ou = served_path (jb_x j) "chaincode-output.tar" →
      phase j 2 (Running (Ok tt) [build_client b (jb_compile j (jb_ctr j)) su ou])
  | ph_upload ou :
      path_of ou = served_path (jb_x j) "chaincode-output.tar" →
      phase j 1 (Running (Ok tt) [Ask (curl "PUT" b ou (product j)) (λ _, Finished)])
  | ph_done : phase j 0 (Running (Ok tt) [Finished]).

(** What a turn of a build does to the volume. *)
Definition turn_effect j (n : nat) (o o' : OS) : Prop :=
  if bool_decide (n = 1) then ∃ m, os_files o' = <[output j := File m (product j)]> (os_files o)
  else os_files o' = os_files o.

Lemma phase_turn j n t o :
  ready o j → same_process proc o → fs_wf (os_files o) → phase j (S n) t →
  ∃ t' o', take_turn h t o = Some (t', o') ∧ phase j n t' ∧ same_process proc o' ∧ turn_effect j (S n) o o'.
Proof using Hcf Hf.
  intros [[Hb Hh Hp] Hup Hruns [Hx Ha] [mT HmT] [ms Hs] Hgiven] P Wf Ht.
  assert (resolve (os_cwd o) (sv_SharedPath b) ++ [jb_x j] = dir j) as HT by by destruct P as (-> & _).
  assert (no_fault o) as Hfo by by eapply no_fault_same.
  inversion Ht as [E1 E2|su ou Psu Pou E1 E2|ou Pou E1 E2|]; subst t; subst n.
  - destruct (Build_creates (jb_sc j) hp (jb_compile j) (jb_ctr j) (jb_x j) o)
      as (w & su & ou & E & [Hp1 Hs1] & Psu & Pou & Hcl); rewrite ?Hb, ?Hh; try done.
    { unfold volume. by rewrite Hb, Hp. }
    rewrite Hb in E, Hcl. eexists (Running (Ok tt) _), (sw_os w). cbn [take_turn build_call]. rewrite E. cbv zeta in Hcl |- *. rewrite Hcl.
    split; [done|]. split; [by constructor|]. split; [|exact Hs1]. by rewrite <- Hp.
  - destruct (download_file b h hp Hcf (jb_x j) Hx Ha o (dir j) Hfo Wf HT _ su ms _ source_transferable Psu Hs) as [[Hp1 Hs1] Hd].
    eexists _, _. unfold take_turn, serve_next, build_client. cbv beta iota zeta. rewrite Hd.
    split; [reflexivity|]. split; [by constructor|]. split; [by etrans|exact Hs1].
  - set (rq := curl "PUT" b ou (product j)). set (st := mkHttp o no_response []).
    assert (place h rq st = output j) as Hpl.
    { unfold rq. rewrite (request_place b h hp Hcf (jb_x j) _ Hx output_transferable _ _ _ _ Pou). cbn [hs_os st].
      by rewrite (app_assoc _ [jb_x j] ["chaincode-output.tar"]), HT. }
    destruct (upload_free h rq st (dir j) "chaincode-output.tar" mT) as (Hp1 & _ & Hm'); try done.
    + rewrite (cf_root _ _ _ Hcf). apply Hcf.
    + by apply (request_put b h hp Hcf (jb_x j) _ Hx Ha output_transferable).
    + by destruct Hgiven as (_ & _ & _ & ?).
    + eexists _, _. split; [reflexivity|]. split; [constructor|]. split; [by etrans|exact Hm'].
Qed.

(** ** The other calls *)

(** A run, which only downloads. *)
Inductive idle : thread W → Prop :=
  | idle_called sc y :
      of_process sc → runs_chaincode sc → name_ok y ∧ all_bytes is_alnum y = true →
      idle (Called sc (Run b (run_request y)))
  | idle_running r cs : Forall (λ c, c = Finished ∨ ∃ url, c = run_client b url) cs → idle (Running r cs).

Lemma idle_serve cs o cs' o' :
  Forall (λ c, c = Finished ∨ ∃ url, c = run_client b url) cs → serve_next h cs o = Some (cs', o') →
  Forall (λ c, c = Finished ∨ ∃ url, c = run_client b url) cs' ∧ same_tree o o'.
Proof using.
  induction 1 as [|c cs [->|[url ->]] Hcs IH]; [done|exact IH|]. intros [= <- <-].
  split; [constructor; [by left|done]|]. apply (ServeHTTP_quiet h (curl "GET" b url "")). do 4 right. by intros [=].
Qed.

Lemma idle_turn t o t' o' :
  same_process proc o → idle t → take_turn h t o = Some (t', o') →
  idle t' ∧ same_process proc o' ∧ os_files o' = os_files o.
Proof using Hcf Hf.
  intros P Ht E. inversion Ht as [sc y [Hb Hh Hp] Hruns [Hy Ha] E'|r cs Hcs E']; subst t; cbn [take_turn] in E.
  - destruct (run_request_url sc hp) with (x := y) as (url & Hu & _ & Hq); rewrite ?Hb, ?Hh, ?Hp; try done. rewrite Hb in Hu.
    pose proof (Run_reads b (run_request y) (sc_world sc o)) as [Hp1 Hs1].
    pose proof (Run_pods b (run_request y) (sc_world sc o)) as (l & Hl & Hpods).
    pose proof (rc_asks _ Hruns) as Hasks. rewrite Hb in Hasks.
    destruct (Run b (run_request y) (sc_world sc o)) as [r w]. cbn [snd] in *. injection E as <- <-.
    change (sw_os (sc_world sc o)) with (on_volume sc o) in *. split; [|split; [by rewrite <- Hp|exact Hs1]].
    constructor. unfold sw_k in Hl. rewrite Hl. apply Forall_fmap. eapply Forall_impl; [exact Hpods|].
    intros p (url' & c & rmd & uuid & pn & pu & z & Hu' & ->). rewrite Hu in Hu'. injection Hu' as <-.
    destruct (Hasks (kube (xw_k (sw_x w))) c rmd url uuid pn pu z Hq) as [Ec|Ec]; [by left|right; by exists url].
  - destruct (serve_next h cs o) as [[cs' o1]|] eqn:Es; [|done]. injection E as <- <-.
    apply idle_serve in Es as [Hcs' [Hp1 Hs1]]; [|done]. split; [by constructor|]. split; [by etrans|exact Hs1].
Qed.

(** ** The pool *)

(** What is left to do, for a build. *)
Definition to_go (turns : list nat) (i n : nat) : nat := n - count_occ Nat.eq_dec turns i.

Section jobs.
Context (jobs : list (job W)) (o0 : OS).
Context (Hjobs : NoDup (jb_x <$> jobs)) (Hready : ∀ j, j ∈ jobs → ready o0 j).

(** The pool, when the i-th build has [left i] turns to go. *)
Record pool (left : nat → nat) (ts : list (thread W)) (o : OS) : Prop := {
  po_process : same_process proc o;
  po_wf : fs_wf (os_files o);
  po_length : length jobs ≤ length ts;
  po_build i j : jobs !! i = Some j → ∃ t, ts !! i = Some t ∧ phase j (left i) t;
  po_other i t : ts !! i = Some t → length jobs ≤ i → idle t;
  po_output i j : jobs !! i = Some j →
    if bool_decide (left i = 0) then ∃ m, os_files o !! output j = Some (File m (product j))
    else os_files o !! output j = None;
  po_rest p : (∀ j, j ∈ jobs → p ≠ output j) → os_files o !! p = os_files o0 !! p }.

(** The files of different builds are different. *)
Lemma output_inj i k j j' : jobs !! i = Some j → jobs !! k = Some j' → output j = output j' → i = k.
Proof using Hjobs.
  intros Hi Hk E. rewrite <- !app_assoc in E. apply (inj _) in E. injection E as E.
  apply (NoDup_lookup (jb_x <$> jobs) i k (jb_x j)); [done|..]; rewrite list_lookup_fmap; [by rewrite Hi|by rewrite Hk, E].
Qed.

(** An entry that is not the output of a build is as it was. *)
Lemma not_output j y : y ≠ "chaincode-output.tar" → ∀ j', j' ∈ jobs → dir j ++ [y] ≠ output j'.
Proof using. intros Hy j' _ E. by apply app_inj_tail in E as [_ ->]. Qed.

Lemma dir_not_output j : ∀ j', j' ∈ jobs → dir j ≠ output j'.
Proof using. intros j' _ E. apply (f_equal length) in E. rewrite !length_app in E. simpl in E. lia. Qed.

(** As long as it has not uploaded, a build finds what it needs. *)
Lemma still_ready left ts o i j : pool left ts o → jobs !! i = Some j → left i ≠ 0 → ready o j.
Proof using Hready.
  intros Hpool Hj Hn. pose proof (po_rest _ _ _ Hpool) as Hrest. pose proof (po_output _ _ _ Hpool i j Hj) as Hout.
  rewrite bool_decide_eq_false_2 in Hout by done.
  destruct (Hready j) as [Hp Hup Hruns Hx [mT HmT] [ms Hs] (HT & _ & (m & c & md & Hm & Hc) & _)]; [by eapply list_elem_of_lookup_2|].
  assert (∀ y, y ≠ "chaincode-output.tar" → os_files o !! (dir j ++ [y]) = os_files o0 !! (dir j ++ [y])) as Hsame
    by (intros y Hy; apply Hrest; by apply not_output).
  split; [done|done|done|done|..].
  - exists mT. rewrite Hrest; [done|]. apply dir_not_output.
  - exists ms. by rewrite Hsame.
  - split; [exact HT|]. split; [|split; [|exact Hout]].
    + exists ms, (jb_source j). by rewrite Hsame.
    + exists m, c, md. by rewrite Hsame.
Qed.

(** One turn. *)
Definition one_less (i : nat) (left : nat → nat) : nat → nat := λ k, if decide (k = i) then pred (left k) else left k.

Lemma pool_ext left left' ts o :
  (∀ i j, jobs !! i = Some j → left' i = left i) → pool left ts o → pool left' ts o.
Proof using.
  intros He [? ? ? Hb ? Ho ?]. split; try done; intros i j Hj; rewrite (He i j Hj); [by apply Hb|by apply Ho].
Qed.

(** A turn of a build. *)
Lemma pool_build left ts o i j n :
  pool left ts o → jobs !! i = Some j → left i = S n →
  ∃ t t' o', ts !! i = Some t ∧ take_turn h t o = Some (t', o') ∧ pool (one_less i left) (<[i := t']> ts) o'.
Proof using Hcf Hf Hjobs Hready.
  intros Hpool Hj Hn. pose proof (still_ready _ _ _ _ _ Hpool Hj ltac:(lia)) as Hr.
  destruct Hpool as [P Wf Hlen Hb Hother Hout Hrest]. destruct (Hb i j Hj) as (t & Ht & Hph). rewrite Hn in Hph.
  destruct (phase_turn j n t o Hr P Wf Hph) as (t' & o' & E & Hph' & P' & He).
  pose proof (Hout i j Hj) as Houti. rewrite Hn, bool_decide_eq_false_2 in Houti by lia.
  assert (∀ p, p ≠ output j → os_files o' !! p = os_files o !! p) as Hsame.
  { intros p Hp. unfold turn_effect in He. case_bool_decide; [destruct He as [m ->]; by apply lookup_insert_ne|by rewrite He]. }
  exists t, t', o'. split; [exact Ht|]. split; [exact E|]. split.
  - done.
  - unfold turn_effect in He. case_bool_decide; [destruct He as [m ->]|by rewrite He].
    destruct (rd_dir _ _ Hr) as [mT HmT]. apply fs_wf_insert; [done|by eexists|done].
  - by rewrite length_insert.
  - intros k j' Hk. unfold one_less. destruct (decide (k = i)) as [->|Hne].
    + rewrite Hj in Hk. injection Hk as <-. exists t'. rewrite Hn. split; [|done].
      apply list_lookup_insert_eq. by eapply lookup_lt_Some.
    + rewrite list_lookup_insert_ne by done. by apply Hb.
  - intros k u Hk Hl. assert (k ≠ i) as Hne by (intros ->; apply lookup_lt_Some in Hj; lia).
    rewrite list_lookup_insert_ne in Hk by done. by eapply Hother.
  - intros k j' Hk. unfold one_less. destruct (decide (k = i)) as [->|Hne].
    + rewrite Hj in Hk. injection Hk as <-. rewrite Hn. cbn [pred]. unfold turn_effect in He.
      case_bool_decide as H1; case_bool_decide as H2; try lia.
      * destruct He as [m He]. exists m. by rewrite He, lookup_insert_eq.
      * by rewrite He.
    + rewrite Hsame; [by apply Hout|]. intros Ho. apply Hne. by eapply output_inj.
  - intros p Hp. rewrite Hsame; [by apply Hrest|]. apply Hp. by eapply list_elem_of_lookup_2.
Qed.

(** A turn of another call. *)
Lemma pool_idle left ts o i t t' o' :
  pool left ts o → ts !! i = Some t → length jobs ≤ i → take_turn h t o = Some (t', o') →
  pool left (<[i := t']> ts) o'.
Proof using Hcf Hf.
  intros [P Wf Hlen Hb Hother Hout Hrest] Ht Hi E.
  destruct (idle_turn t o t' o' P (Hother i t Ht Hi) E) as (Ht' & P' & Hs). split; rewrite ?Hs; try done.
  - by rewrite length_insert.
  - intros k j Hk. rewrite list_lookup_insert_ne; [by apply Hb|]. intros <-. apply lookup_lt_Some in Hk. lia.
  - intros k u Hk Hl. apply list_lookup_insert_Some in Hk as [(_ & <- & _)|[_ Hk]]; [done|by eapply Hother].
Qed.

(** A build that has nothing to do is through. *)
Lemma pool_passed left ts o i j t :
  pool left ts o → jobs !! i = Some j → ts !! i = Some t → take_turn h t o = None → left i = 0.
Proof using Hcf Hf Hjobs Hready.
  intros Hpool Hj Ht E. destruct (left i) as [|n] eqn:Hn; [done|].
  destruct (pool_build left ts o i j n Hpool Hj Hn) as (t1 & t' & o' & Ht1 & E' & _). congruence.
Qed.

(** Any turns. *)
Lemma pool_turns turns left ts o ts' o' :
  pool left ts o → take_turns h turns ts o = (ts', o') →
  pool (λ i, to_go turns i (left i)) ts' o'.
Proof using Hcf Hf Hjobs Hready.
  revert left ts o. induction turns as [|i turns IH]; intros left ts o Hpool E.
  { injection E as <- <-. eapply pool_ext; [|exact Hpool]. intros k j _. unfold to_go. simpl. lia. }
  cbn [take_turns] in E.
  assert (∀ left' ts1 o1, pool left' ts1 o1 → take_turns h turns ts1 o1 = (ts', o') →
    (∀ k j, jobs !! k = Some j → left' k = if decide (k = i) then pred (left k) else left k) →
    pool (λ k, to_go (i :: turns) k (left k)) ts' o') as Hnext.
  { intros left' ts1 o1 Hp1 E1 Hl. eapply pool_ext; [|by eapply IH]. intros k j Hk. cbv beta. rewrite (Hl k j Hk).
    unfold to_go. cbn [count_occ]. destruct (Nat.eq_dec i k), (decide (k = i)); subst; try done; lia. }
  destruct (ts !! i) as [t|] eqn:Ht; cbn [mbind option_bind] in E.
  - destruct (jobs !! i) as [j|] eqn:Hj.
    + destruct (take_turn h t o) as [[t' o1]|] eqn:Et.
      * destruct (left i) as [|n] eqn:Hn.
        -- destruct (po_build _ _ _ Hpool i j Hj) as (u & Hu & Hph). rewrite Ht in Hu. injection Hu as <-. rewrite Hn in Hph.
           inversion Hph; subst. discriminate Et.
        -- destruct (pool_build left ts o i j n Hpool Hj Hn) as (u & t1 & o2 & Hu & Et' & Hp'). 
           assert (u = t) as -> by congruence. rewrite Et in Et'. injection Et' as <- <-.
           eapply Hnext; [exact Hp'|exact E|]. done.
      * eapply Hnext; [exact Hpool|exact E|]. intros k j' Hk. destruct (decide (k = i)) as [->|]; [|done].
        by rewrite (pool_passed left ts o i j t Hpool Hj Ht Et).
    + assert (∀ k j, jobs !! k = Some j → left k = if decide (k = i) then pred (left k) else left k) as Hl
        by (intros k j Hk; destruct (decide (k = i)) as [->|]; [congruence|done]).
      apply lookup_ge_None in Hj. destruct (take_turn h t o) as [[t' o1]|] eqn:Et; [|by eapply Hnext].
      eapply Hnext; [by eapply pool_idle|exact E|exact Hl].
  - eapply Hnext; [exact Hpool|exact E|]. intros k j Hk. destruct (decide (k = i)) as [->|]; [|done].
    destruct (po_build _ _ _ Hpool i j Hk) as (u & Hu & _). congruence.
Qed.
End jobs.
End pool.

(** ** Properties *)

(** C12: several builds at one time, and runs of other chaincode beside them, on the
    servers main starts: whatever the order in which the methods and the single
    requests of the pods get their turns, once every build has had three turns
    (its method, its download, its upload) every build has succeeded, its output
    is what its own container makes of its own source, and nothing else on the
    volume has changed. *)
Theorem concurrent_builds {W config} `{KubeClient W} `{TarFormat} `{Crypto} fuel rest_config new_client listen now f
    (mw mw' : mworld W) run hp (proc s : OS) (jobs : list (job W)) (others : list (thread W)) turns :
  main (config := config) fuel rest_config new_client listen now f mw = (Ok (inr run), mw') →
  sharedVolumePath f ≠ "" → fsBaseURL f = "https://" +:+ hp +:+ SLASH → plain_authority hp = true →
  no_fault proc → same_process proc s → fs_wf (os_files s) →
  let b := rn_server run in
  let h := rn_handler run in
  let output j := (resolve (os_cwd proc) (sv_SharedPath b) ++ [jb_x j]) ++ ["chaincode-output.tar"] in
  NoDup (jb_x <$> jobs) → (∀ j, j ∈ jobs → ready b h proc s j) → Forall (idle b h proc) others →
  (∀ i, i < length jobs → 3 ≤ count_occ Nat.eq_dec turns i) →
  let '(ts, s') := take_turns h turns ((build_call b <$> jobs) ++ others) s in
  (∀ i, i < length jobs → ts !! i = Some (Running (Ok tt) [Finished])) ∧
  (∀ j, j ∈ jobs → ∃ m, os_files s' !! output j = Some (File m (product j))) ∧
  (∀ p, (∀ j, j ∈ jobs → p ≠ output j) → os_files s' !! p = os_files s !! p).
Proof.
  intros E Hd Hu Hhp Hf P Wf b h output Hnd Hready Hothers Hturns.
  pose proof (main_configured _ _ _ _ _ _ _ _ _ hp E Hd Hu Hhp) as Hcf.
  assert (pool b h proc jobs s (λ _, 3) ((build_call b <$> jobs) ++ others) s) as Hpool.
  { split; try done.
    - rewrite length_app, length_fmap. lia.
    - intros i j Hj. exists (build_call b j). split; [|constructor].
      rewrite lookup_app_l by (rewrite length_fmap; by eapply lookup_lt_Some). by rewrite list_lookup_fmap, Hj.
    - intros i t Ht Hi. rewrite lookup_app_r, length_fmap in Ht by (by rewrite length_fmap).
      apply list_elem_of_lookup_2 in Ht. by eapply Forall_forall in Hothers.
    - intros i j Hj. rewrite bool_decide_eq_false_2 by done.
      by destruct (rd_given _ _ _ _ _ (Hready j (list_elem_of_lookup_2 _ _ _ Hj))) as (_ & _ & _ & ?). }
  destruct (take_turns h turns _ s) as [ts s'] eqn:Et.
  apply (pool_turns b h hp proc Hcf Hf jobs s Hnd Hready turns _ _ _ ts s' Hpool) in Et.
  assert (∀ i, i < length jobs → to_go turns i 3 = 0) as Hleft by (intros i Hi; unfold to_go; specialize (Hturns i Hi); lia).
  split; [|split; [|apply Et]].
  - intros i Hi. destruct (lookup_lt_is_Some_2 _ _ Hi) as [j Hj].
    destruct (po_build _ _ _ _ _ _ _ _ Et i j Hj) as (t & Ht & Hph). cbv beta in Hph. rewrite Hleft in Hph by done.
    rewrite Ht. by inversion Hph.
  - intros j [i Hj]%list_elem_of_lookup_1. pose proof (po_output _ _ _ _ _ _ _ _ Et i j Hj) as Ho. cbv beta in Ho.
    rewrite Hleft in Ho by by eapply lookup_lt_Some. by rewrite bool_decide_eq_true_2 in Ho.
Qed.

(** ** Witnesses *)
Module Demo.
Import SystemFacts.Demo.
#[local] Existing Instances calm MainFacts.Demo.crypto Plain.format.

(** A volume with the directories of two builds. *)
Definition volume_tree : gmap fpath inode :=
  <[["shared"; "build9"; "package-metadata.tar"] := File CommandFacts.Demo.meta0 Metadata.Demo.package]>
  (<[["shared"; "build9"; "chaincode-source.tar"] := File CommandFacts.Demo.meta0 "nine"]>
  (<[["shared"; "build9"] := Directory CommandFacts.Demo.dir0]>
  (<[["shared"; "build7"; "package-metadata.tar"] := File CommandFacts.Demo.meta0 Metadata.Demo.package]>
  (<[["shared"; "build7"; "chaincode-source.tar"] := File CommandFacts.Demo.meta0 "seven"]>
  (<[["shared"; "build7"] := Directory CommandFacts.Demo.dir0]>
  (<[["shared"] := Directory CommandFacts.Demo.dir0]> {[ [] := Directory CommandFacts.Demo.dir0 ]})))))).

Lemma volume_tree_wf : fs_wf volume_tree.
Proof.
  apply (fs_wf_insert _ ["shared"; "build9"] "package-metadata.tar"); [|by eexists|done].
  apply (fs_wf_insert _ ["shared"; "build9"] "chaincode-source.tar"); [|by eexists|done].
  apply (fs_wf_insert _ ["shared"] "build9"); [|by eexists|done].
  apply (fs_wf_insert _ ["shared"; "build7"] "package-metadata.tar"); [|by eexists|done].
  apply (fs_wf_insert _ ["shared"; "build7"] "chaincode-source.tar"); [|by eexists|done].
  apply (fs_wf_insert _ ["shared"] "build7"); [|by eexists|done].
  apply (fs_wf_insert _ [] "shared"); [|by eexists|done].
  split; [by eexists|]. intros p x i Hi. apply lookup_singleton_Some in Hi as [Hp _]. by destruct p.
Defined.

Definition proc : OS := mkOS ∅ [] 18 ServerDemo.env 0 (λ _, None) (λ _, "7").
Definition volume0 : OS := set_files (λ _, volume_tree) proc.

Definition job_of (run : running) (x source : string) : job (list Pod) :=
  mkJob (sc run) x (golangBuildContainer "example.com/cc" "builder") compile source.

Lemma package_read : metadata_of_archive Metadata.Demo.package = inr md.
Proof.
  destruct (metadata_of_archive Metadata.Demo.package) as [e|md'] eqn:E; vm_compute in E; [discriminate E|]. by injection E as <-.
Qed.

Lemma job_ready run mw' x source :
  start mw0 = (Ok (inr run), mw') → sv_BuilderImage (rn_server run) = "builder" →
  bool_decide (name_ok x) = true → all_bytes is_alnum x = true →
  volume_tree !! ["shared"; x] = Some (Directory CommandFacts.Demo.dir0) →
  volume_tree !! ["shared"; x; "chaincode-source.tar"] = Some (File CommandFacts.Demo.meta0 source) →
  volume_tree !! ["shared"; x; "package-metadata.tar"] = Some (File CommandFacts.Demo.meta0 Metadata.Demo.package) →
  volume_tree !! ["shared"; x; "chaincode-output.tar"] = None →
  ready (rn_server run) (rn_handler run) proc volume0 (job_of run x source).
Proof.
  intros E Hb Hx%bool_decide_eq_true Ha Hd Hs Hm Ho.
  assert (resolve (os_cwd proc) (sv_SharedPath (rn_server run)) = ["shared"]) as HV by by rewrite (started_shared _ _ E).
  split; rewrite ?HV.
  - split; reflexivity.
  - split; [by intros t|done|done|by eexists _, _].
  - apply demo_runs_builds.
  - split; [exact Hx|exact Ha].
  - eexists. exact Hd.
  - eexists. exact Hs.
  - split; [exists x|split; [|split; [|exact Ho]]].
    + unfold volume. cbn [job_of jb_sc sc sc_server sc_proc]. by rewrite (started_shared _ _ E).
    + eexists _, _. exact Hs.
    + eexists _, _, md. split; [exact Hm|]. split; [apply package_read|].
      cbn [job_of jb_sc sc sc_server jb_ctr]. unfold buildContainerDefinition. by rewrite Hb.
Qed.
End Demo.

Lemma concurrent_builds_witness :
  ∃ run s', (SystemFacts.Demo.start SystemFacts.Demo.mw0).1 = Ok (inr run) ∧
    (@take_turns (list Pod) (rn_handler run) [1; 0; 2; 0; 1; 2; 1; 0]
       [@build_call (list Pod) SystemFacts.Demo.calm Plain.format (rn_server run) (Demo.job_of run "build7" "seven");
        @build_call (list Pod) SystemFacts.Demo.calm Plain.format (rn_server run) (Demo.job_of run "build9" "nine");
        Called (SystemFacts.Demo.sc run) (@Run _ SystemFacts.Demo.calm Plain.format (rn_server run) (run_request "run8"))]
       Demo.volume0).2 = s' ∧
    (∃ m, os_files s' !! ["shared"; "build7"; "chaincode-output.tar"] = Some (File m "build-golang-chaincode of seven")) ∧
    (∃ m, os_files s' !! ["shared"; "build9"; "chaincode-output.tar"] = Some (File m "build-golang-chaincode of nine")).
Proof.
  destruct SystemFacts.Demo.started as (run & mw' & E & Hb).
  pose (jobs := [Demo.job_of run "build7" "seven"; Demo.job_of run "build9" "nine"]).
  pose proof (@concurrent_builds (list Pod) unit SystemFacts.Demo.calm Plain.format MainFacts.Demo.crypto 5
    (λ _, inr tt) (λ _ _, inr tt) (λ _, inr tt) 1000
    SystemFacts.Demo.settings SystemFacts.Demo.mw0 mw' run "builder:22222" Demo.proc Demo.volume0 jobs
    [Called (SystemFacts.Demo.sc run) (@Run _ SystemFacts.Demo.calm Plain.format (rn_server run) (run_request "run8"))]
    [1; 0; 2; 0; 1; 2; 1; 0] E) as Hall. cbv zeta in Hall.
  destruct (take_turns _ _ _ Demo.volume0) as [ts s'] eqn:Et in Hall.
  exists run, s'. split; [by rewrite E|].
  destruct Hall as (_ & Hout & _).
  - discriminate.
  - reflexivity.
  - reflexivity.
  - intros t. reflexivity.
  - repeat split.
  - apply Demo.volume_tree_wf.
  - apply (bool_decide_unpack _). vm_compute. exact I.
  - intros j Hj. unfold jobs in Hj. rewrite !elem_of_cons, elem_of_nil in Hj.
    destruct Hj as [->|[->|[]]]; (eapply Demo.job_ready; [exact E|exact Hb|reflexivity..]).
  - apply Forall_singleton. constructor; [split; reflexivity|apply SystemRun.Demo.demo_runs_chaincode|].
    split; [apply (bool_decide_unpack _); vm_compute; exact I|reflexivity].
  - intros [|[|i]] Hi; cbn in *; lia.
  - split; [exact (f_equal snd Et)|]. split.
    + destruct (Hout (Demo.job_of run "build7" "seven")) as [m Hm]; [apply list_elem_of_here|]. exists m.
      rewrite (SystemFacts.Demo.started_shared _ _ E) in Hm. exact Hm.
    + destruct (Hout (Demo.job_of run "build9" "nine")) as [m Hm]; [apply list_elem_of_further, list_elem_of_here|]. exists m.
      rewrite (SystemFacts.Demo.started_shared _ _ E) in Hm. exact Hm.
Defined.
